(* ===== verification/_CoqProject ===== *)
-Q . S2P
Prelude.v
ComposablePaxos.v
ReplicatedValue.v
PaxosFacts.v
PaxosSystem.v
PaxosInvariant.v
PaxosPreservation.v
PaxosSafety.v
PaxosValidity.v
PaxosTheorems.v
PaxosLiveness.v
PaxosClassTheorems.v
PaxosServerTheorems.v
MasterStrategy.v
MasterTheorems.v
PyList.v
Serializer.v
SerializerTheorems.v
Connection.v
ConnectionTheorems.v
SyncObj.v
SyncObjLog.v
SyncObjMoves.v
SyncObjTheorems.v
SyncObjSends.v
SyncObjWorks.v
SyncObjLeader.v
SyncObjCluster.v
SyncObjMatching.v
SyncObjBounds.v
SyncObjAgreement.v
SyncObjDemo.v
Replicated.v
PyStr.v
PyExcept.v
Poller.v
Resolver.v
Node.v
NodeTheorems.v
NodeHandshake.v
PyText.v
Regex.v
SyncObjCallbacks.v
SyncObjResults.v
SyncObjPromises.v
SyncObjPromisesDemo.v
SyncServer.v
SyncTransport.v
SyncSystem.v
SyncSystemDemo.v
SyncThread.v
SyncThreadDemo.v
PyFuel.v
TestParser.v
TestParserTheorems.v
NetworkManager.v
NetworkManagerTheorems.v
TestExecutor.v
TestExecutorTheorems.v
TestIds.v
TestCluster.v
TestGenerator.v
TestGeneratorTheorems.v
Messenger.v
Client.v
ConfigureDaemon.v
Provisioner.v
ProvisionerTheorems.v
ProvisionerLiveness.v
ConfigureTester.v
ProvisionedCluster.v
TestRun.v
CustomServers.v
TearDown.v
TestDaemon.v
AppendPso.v
AppendPaxos.v
PaxosMain.v
PsoMain.v
Plots.v
