(* ===== verification/Prelude.v ===== *)
(** * Krafters: a verification of the replication stacks and their test platform

    Krafters measures two implementations of a replicated value under network
    faults: [paxos], a Multi-Paxos written in Python 2.7 on Twisted
    (src/paxos/), and [pysyncobj], a vendored and adapted Raft (src/pysyncobj/).
    A platform (Python 3.4, the files directly under src/) provisions nodes,
    disturbs their network, runs scripted tests and draws the results.

    ** Conventions

    - A method of a mutable Python object is a [PyM S E A] (below): it takes the
      object's state to a new state, a list of effects and an [outcome], a
      result or a Python exception; what happened before an exception stays.
      [PyF S E A] (PyFuel.v) is one with unbounded loops, [None] if the fuel ends.
    - What the operating system or a library answers (clock, random numbers,
      sockets, files, fork) is an argument of the definition that asks, and so
      is the order in which Python walks a set or a dictionary.  Libraries and
      outside systems with a state or with laws are type classes: [Pickle],
      [Codec] (zlib), [JsonText], [Platform] (what the test executor calls),
      [Machines] (processes and ports), [Gce] (the cloud).
    - Python 2's comparison of tuples, strings and [None] is [PyOrder]; integer
      division is [Z.div]; negative indices and slices are in PyList.v.

    ** Fuel

    A loop whose end is not structural takes fuel, and is proved to end:
    [send_fuel], [read_fuel], [loop_fuel] and the count given to [commit_loop]
    always suffice (send_stream, read_loop_terminates, receive_loop_ends,
    leader_commit_rule); [Parser.parse] has a bound for every script
    (parse_terminates), and [main_loop] needs three turns for a command
    (schedule).  The others end when the environment lets them: drawing ids
    under a fair generator (resolve_ids_ends), the provisioner when the ports of
    started processes answer at last (local_cluster_comes_up), a run of the test daemon when
    appends succeed at last (run_ends).  [send_rounds] takes the number of rounds
    that fit into appendEntriesPeriod: there the code itself stops at a time.

    ** Files

    Shared: this file (exceptions, order, majorities, [PyM]); PyList.v, PyStr.v
    (sequences, bytes, struct, split, int); PyExcept.v (try, for, triples),
    PyFuel.v (unbounded loops); PyText.v (str methods); Regex.v (re.match by
    derivatives, correct against the languages).

    Paxos, src/paxos/:
    - ComposablePaxos.v: composable_paxos.py, one Module per class (Proposer,
      Acceptor, Learner, PaxosInstance), one definition per method.
    - ReplicatedValue.v: replicated_value.py (Base), resolution_strategy.py
      (Backoff), sync_strategy.py (Sync), their composition in custom_server.py
      (CustomServer; the class [Methods] is the dynamic dispatch of self) and
      the dispatch of messenger.py.  Messenger.v: its datagrams.
    - PaxosSystem.v: servers on a network that loses, repeats, delays and
      reorders packets; PaxosFacts.v, PaxosInvariant.v, PaxosPreservation.v,
      PaxosSafety.v, PaxosValidity.v: the invariant of its runs.
    - PaxosTheorems.v: agreement, validity, absence of exceptions over all runs.
      PaxosLiveness.v: the cluster is never stuck.
      PaxosClassTheorems.v: the promises of each class over all its histories.
      PaxosServerTheorems.v: the state file and restarts (where agreement can be
      lost), timing of retries, catching up.
    - Client.v: client.py, custom_client.py (two threads), config.py and server.py.
    - MasterStrategy.v, MasterTheorems.v: master_strategy.py, mixed in by
      --master; what a lease gains and which promises it breaks.

    PySyncObj, src/pysyncobj/:
    - Serializer.v, SerializerTheorems.v: serializer.py; dumps survive transfer
      in chunks, failing dumps change nothing.
    - Connection.v, ConnectionTheorems.v: connection.py; the byte stream carries
      exactly the messages sent, in both directions.
    - Poller.v: poller.py, both pollers as instances of one interface with its
      laws ([Poller], [PollerLaws]); Resolver.v: dns_resolver.py.
    - Node.v: node.py and the accepting sockets of syncobj.py, over any poller
      with the laws; NodeTheorems.v: the invariant of the sockets in every run;
      NodeHandshake.v: how connections find their nodes.
    - SyncObj.v: the Raft core of syncobj.py with the options of config.py (tick,
      messages, log, commands, compaction and snapshots).  Its environment [env]
      answers for the nodes: [Send] is node.send, [connected] is isConnected.
      Replicated.v: the decorator and its inverse.
    - SyncObjLog.v, SyncObjMoves.v: numbered logs, and how methods move the
      state.  SyncObjTheorems.v: the follower, the log invariant, terms.
      SyncObjLeader.v: commit, apply, replication.  SyncObjCluster.v: nodes on a
      network, the vote rule, error paths.  SyncObjSends.v, SyncObjWorks.v: what
      methods send, and how they extend and cut the log.  SyncObjMatching.v: logs
      match under one leader per term.  SyncObjAgreement.v: replicas agree under
      one leader in one term.  SyncObjBounds.v: limits and numbering in every run.
      SyncObjDemo.v: concrete nodes (the witnesses), a run with two leaders of
      one term, a run that loses a committed command.
    - SyncObjCallbacks.v: where a caller's callback is, and that each is called
      once.  SyncObjResults.v, SyncObjPromises.v: what it is called with, over
      the runs of SyncObjMatching.v.  SyncObjPromisesDemo.v: concrete callers.
    - SyncServer.v: a whole server, the core in the hub of Node.v.
      SyncThread.v, SyncThreadDemo.v: its thread, from the constructor and the
      listening socket, through the socket's failures, to its end.
      SyncTransport.v, SyncSystem.v, SyncSystemDemo.v: servers over byte streams,
      refining SyncObjCluster.v.

    The platform, src/*.py:
    - TestParser.v, TestParserTheorems.v: class Parser of test_executor.py.
      TestExecutor.v, TestExecutorTheorems.v, TestIds.v: its other classes and
      its main loop, over any [Platform].
    - TestGenerator.v, TestGeneratorTheorems.v: test_generator.py, and that the
      parser reads what it writes.
    - NetworkManager.v, NetworkManagerTheorems.v: network_manager.py over any
      shell.  TestCluster.v: the managers of a cluster as a [Platform].
    - ConfigureDaemon.v, Provisioner.v: configure_daemon.py and provisioner.py;
      ProvisionerTheorems.v, ProvisionerLiveness.v: what a deployment has done,
      and that it ends.  TearDown.v: tear_down.py.  ConfigureTester.v: the
      functions that the daemon registers and configure_daemon_tester.py.
    - The composition: ProvisionedCluster.v (provisioner, network managers,
      executor), TestRun.v (main of test_executor.py on a provisioned cluster),
      CustomServers.v (the servers of both stacks on the configurations that
      the provisioner wrote), PaxosMain.v, PsoMain.v (their mains: the clusters
      that the configurations start are those of PaxosSystem.v, SyncObjCluster.v).
    - TestDaemon.v: test_daemon.py, the runs and the threads that acknowledge
      appends.  AppendPso.v, AppendPaxos.v: an append through the servers and
      back.  Plots.v: generate_plots.py, main and the curves.

    ** What is proved

    Safety of Multi-Paxos without restarts, for any number of servers and any
    behaviour of the network, and that it is never stuck; its failure with
    restarts, and that of the dedicated master, as runs. For PySyncObj the
    correctness of each mechanism (log slices, append entries on every branch,
    commit rule, application and callbacks, replication of the leader's log,
    snapshots, framing, sockets), their composition (servers over standing
    connections implement the network of the cluster model: in order, each message
    once, nothing lost), and of a whole cluster: logs and messages stay numbered
    and within the limits of the configuration, logs match when no term has two
    leaders, and while one node leads, in one term, all objects follow one
    sequence of commands. A callback is called at most once, and lost only in an
    exception; when no term has two leaders, one that is told SUCCESS gets its own
    command's result, after the entries of its node's log before it. A server
    comes up in the model's first state when its listening socket is granted, and
    its thread ends with the first exception of a handler; when the socket fails
    later the server makes new nodes, hears its old connections without answering
    them, and goes back to its last snapshot. Two runs show why Raft's agreement
    does not hold of this code, and is not claimed: votes are not remembered, and
    entries of earlier terms are committed by counting.

    For the platform: the parser ends on every text and unrolls blocks (what is
    to be repeated 0 times runs once); a script runs only if all its commands are
    valid, and generated scripts are; whatever the nodes' shells answer, a link
    command becomes the tc commands of its links on the provisioned nodes, up to
    the first that is not silent, and a test runs after every node has set up its
    classes or ends with exit code 1; a deployment starts everything once and in
    order, each process before its ports are waited for, and its servers are the
    clusters of the models (PySyncObj on one machine only); one run of the test
    daemon measures its own appends, two at a time do not; through PySyncObj each
    append that succeeds is measured to its own callback, and one that the node
    fails ends its thread; through Paxos to the next update, whoever proposed it.

    ** Limits

    - In SyncObj.v the clock does not advance within a method and a node's
      connection state is that of the method's start; the Paxos timers read the
      clock once per call of the reactor.
    - A user's callback does not call back into the object, and does not raise
      but in AppendPso.v, where the one of the test daemon's appends can, and
      then ends the node's thread.  A callback is named by its append (the code
      hands in one function for all).
    - The shell of each network manager has a state of its own, which is
      arbitrary; on one machine the managers share the interface, and then it
      also stands for what the other managers have done.
    - An append through Paxos runs between two calls of the reactor (the code
      does not see to that).
    - Texts are ASCII; plots use rationals for floats; a datagram is the text
      that [JsonText] gives; configurations are records, not JSON text; writing
      a file fails only in Provisioner.v.
    - A test of test_generator.py that repeats itself (and never ends) is left out.

    ** Not modelled

    The XML-RPC server's loop, argument parsing, logging (debug_utils.py) and the
    drawing of plots.
    The end of a deployment on virtual machines, the dedicated master as a system
    of servers, and connections that break and come back in SyncSystem.v (where
    messages are lost, as SyncObjCluster.v allows) have no theorem. *)
From stdpp Require Import base gmap sets list strings.
From Stdlib Require Import ZArith Lia.

(** ** Python exceptions and outcomes

    A handler that mutates its object and may raise is a function to the new
    state and an [outcome]: the mutations made before the exception stay, as
    in Python. *)
Inductive py_error : Type :=
| TypeError
| AttributeError
| KeyError
| IndexError
| ValueError
| AssertionError
| InvalidMessageError
| IOError
| StructError
| UnpicklingError
| ZeroDivisionError
(** Raised by the program itself: an [Exception], a [TestException]. *)
| PlainException (message : string)
| TestError (type message : string) (line : Z).

#[export] Instance py_error_eq_dec : EqDecision py_error.
Proof. solve_decision. Defined.

Inductive outcome (A : Type) : Type :=
| Ret (a : A)
| Raise (e : py_error).
Arguments Ret {A} _.
Arguments Raise {A} _.

#[export] Instance outcome_eq_dec {A} `{EqDecision A} : EqDecision (outcome A).
Proof. solve_decision. Defined.

(** ** Python's order on values

    [py_ltb] is the operator [<] of a totally ordered Python type; the other
    operators are derived from it the way Python 2 relates them. *)
Class PyOrder (A : Type) : Type := {
  py_ltb : A -> A -> bool;
  py_ltb_irrefl x : py_ltb x x = false;
  py_ltb_trans x y z : py_ltb x y = true -> py_ltb y z = true -> py_ltb x z = true;
  py_ltb_total x y : py_ltb x y = false -> py_ltb y x = false -> x = y;
}.

Definition py_gt {A} `{PyOrder A} (x y : A) : bool := py_ltb y x.
Definition py_le {A} `{PyOrder A} (x y : A) : bool := negb (py_ltb y x).
Definition py_ge {A} `{PyOrder A} (x y : A) : bool := negb (py_ltb x y).

Declare Scope py_scope.
Delimit Scope py_scope with py.
Notation "x ≺ y" := (py_ltb x y = true) (at level 70) : py_scope.
Notation "x ⪯ y" := (py_ltb y x = false) (at level 70) : py_scope.
Open Scope py_scope.

Section order_facts.
Context {A : Type} `{PyOrder A}.
Implicit Types x y z : A.

Lemma plt_le_trans x y z : x ≺ y -> y ⪯ z -> x ≺ z.
Proof.
  intros Hxy Hyz. destruct (py_ltb x z) eqn:E; [done|].
  destruct (py_ltb y z) eqn:E2.
  - by rewrite (py_ltb_trans _ _ _ Hxy E2) in E.
  - by rewrite <-(py_ltb_total _ _ E2 Hyz), Hxy in E.
Qed.

Lemma ple_lt_trans x y z : x ⪯ y -> y ≺ z -> x ≺ z.
Proof.
  intros Hxy Hyz. destruct (py_ltb x z) eqn:E; [done|].
  destruct (py_ltb x y) eqn:E2.
  - by rewrite (py_ltb_trans _ _ _ E2 Hyz) in E.
  - by rewrite (py_ltb_total _ _ E2 Hxy), Hyz in E.
Qed.

Lemma ple_trans x y z : x ⪯ y -> y ⪯ z -> x ⪯ z.
Proof.
  intros Hxy Hyz. destruct (py_ltb z x) eqn:E; [|done].
  by rewrite (plt_le_trans _ _ _ E Hxy) in Hyz.
Qed.

Lemma plt_le x y : x ≺ y -> x ⪯ y.
Proof.
  intros Hxy. destruct (py_ltb y x) eqn:E; [|done].
  by rewrite <-(py_ltb_irrefl x), (py_ltb_trans _ _ _ Hxy E).
Qed.

Lemma plt_irrefl x : x ≺ x -> False.
Proof. by rewrite py_ltb_irrefl. Qed.

Lemma ple_refl x : x ⪯ x.
Proof. apply py_ltb_irrefl. Qed.

Lemma plt_asym x y : x ≺ y -> y ⪯ x -> False.
Proof. intros H1 H2. by rewrite H1 in H2. Qed.

Lemma py_ge_spec x y : py_ge x y = true <-> y ⪯ x.
Proof. unfold py_ge. by rewrite negb_true_iff. Qed.

Lemma py_le_spec x y : py_le x y = true <-> x ⪯ y.
Proof. unfold py_le. by rewrite negb_true_iff. Qed.

Lemma py_ge_false x y : py_ge x y = false <-> x ≺ y.
Proof. unfold py_ge. by rewrite negb_false_iff. Qed.

Lemma py_le_false x y : py_le x y = false <-> y ≺ x.
Proof. unfold py_le. by rewrite negb_false_iff. Qed.

End order_facts.

(** The automation of order goals: normalise the operators, saturate with
    transitivity, then close. *)
Ltac py_normalise :=
  repeat match goal with
  | H : py_ge _ _ = true |- _ => apply py_ge_spec in H
  | H : py_ge _ _ = false |- _ => apply py_ge_false in H
  | H : py_le _ _ = true |- _ => apply py_le_spec in H
  | H : py_le _ _ = false |- _ => apply py_le_false in H
  | H : py_gt _ _ = _ |- _ => unfold py_gt in H
  | H : ?x ⪯ ?x |- _ => clear H
  end.

Ltac py_saturate :=
  py_normalise;
  repeat match goal with
  | H1 : ?x ≺ ?y, H2 : ?y ≺ ?z |- _ =>
      lazymatch goal with
      | _ : x ≺ z |- _ => fail
      | _ => pose proof (py_ltb_trans _ _ _ H1 H2)
      end
  | H1 : ?x ≺ ?y, H2 : ?y ⪯ ?z |- _ =>
      lazymatch goal with
      | _ : x ≺ z |- _ => fail
      | _ => pose proof (plt_le_trans _ _ _ H1 H2)
      end
  | H1 : ?x ⪯ ?y, H2 : ?y ≺ ?z |- _ =>
      lazymatch goal with
      | _ : x ≺ z |- _ => fail
      | _ => pose proof (ple_lt_trans _ _ _ H1 H2)
      end
  | H1 : ?x ⪯ ?y, H2 : ?y ⪯ ?z |- _ =>
      lazymatch goal with
      | _ : x ⪯ z |- _ => fail
      | _ : x ≺ z |- _ => fail
      | _ => tryif constr_eq x z then fail else pose proof (ple_trans _ _ _ H1 H2)
      end
  end.

Ltac py_close :=
  match goal with
  | H : ?x ≺ ?x |- _ => exfalso; exact (plt_irrefl _ H)
  | H1 : ?x ≺ ?y, H2 : ?y ⪯ ?x |- _ => exfalso; exact (plt_asym _ _ H1 H2)
  end.

Ltac py_order :=
  intros;
  lazymatch goal with
  | |- py_ge _ _ = true => apply py_ge_spec
  | |- py_ge _ _ = false => apply py_ge_false
  | |- py_le _ _ = true => apply py_le_spec
  | |- py_le _ _ = false => apply py_le_false
  | |- py_gt _ _ = _ => unfold py_gt
  | _ => idtac
  end;
  lazymatch goal with
  | |- ?x ≺ ?y => destruct (py_ltb x y) eqn:?; [reflexivity|]; py_saturate; py_close
  | |- ?x ⪯ ?x => apply ple_refl
  | |- ?x ⪯ ?y => destruct (py_ltb y x) eqn:?; [|reflexivity]; py_saturate; py_close
  | |- _ => py_saturate; py_close
  end.

(** ** Instances of the order *)
#[export] Program Instance Z_py_order : PyOrder Z := {| py_ltb := Z.ltb |}.
Next Obligation. intros; lia. Qed.
Next Obligation. intros x y z; rewrite !Z.ltb_lt; lia. Qed.
Next Obligation. intros x y; rewrite !Z.ltb_ge; lia. Qed.

(** In Python 2 [None] is smaller than every other value. *)
Definition option_ltb {A} `{PyOrder A} (x y : option A) : bool :=
  match x, y with
  | None, Some _ => true
  | Some a, Some b => py_ltb a b
  | _, None => false
  end.

#[export] Program Instance option_py_order {A} `{PyOrder A} : PyOrder (option A) :=
  {| py_ltb := option_ltb |}.
Next Obligation. intros A ? [x|]; simpl; auto using py_ltb_irrefl. Qed.
Next Obligation. intros A ? [x|] [y|] [z|]; simpl; try done; apply py_ltb_trans. Qed.
Next Obligation.
  intros A ? [x|] [y|]; simpl; try done. intros; f_equal; by apply py_ltb_total.
Qed.

(** Tuples compare lexicographically. *)
Definition pair_ltb {A B} `{PyOrder A, PyOrder B} (x y : A * B) : bool :=
  py_ltb x.1 y.1 || (negb (py_ltb y.1 x.1) && py_ltb x.2 y.2).

#[export] Program Instance pair_py_order {A B} `{PyOrder A, PyOrder B} :
  PyOrder (A * B) := {| py_ltb := pair_ltb |}.
Next Obligation.
  intros A B ? ? [a b]; unfold pair_ltb; simpl. by rewrite !py_ltb_irrefl.
Qed.
Next Obligation.
  intros A B ? ? [a b] [a' b'] [a'' b'']; unfold pair_ltb; simpl.
  rewrite !orb_true_iff, !andb_true_iff, !negb_true_iff.
  intros [?|[? ?]] [?|[? ?]]; [left; py_order..|right; split; py_order].
Qed.
Next Obligation.
  intros A B ? ? [a b] [a' b']; unfold pair_ltb; simpl.
  rewrite !orb_false_iff, !andb_false_iff, !negb_false_iff.
  intros [H1 H1'] [H2 H2'].
  pose proof (py_ltb_total _ _ H1 H2) as ->.
  destruct H1' as [H1'|H1']; [by rewrite py_ltb_irrefl in H1'|].
  destruct H2' as [H2'|H2']; [by rewrite py_ltb_irrefl in H2'|].
  f_equal. by apply py_ltb_total.
Qed.

(** Strings compare lexicographically on their bytes. *)
Definition string_ltb (s t : string) : bool :=
  match String.compare s t with Lt => true | _ => false end.

Lemma string_compare_cons c d s t :
  String.compare (String c s) (String d t) =
  match N.compare (Ascii.N_of_ascii c) (Ascii.N_of_ascii d) with
  | Eq => String.compare s t
  | r => r
  end.
Proof. reflexivity. Qed.

Lemma string_compare_trans s : forall t u,
  String.compare s t = Lt -> String.compare t u = Lt -> String.compare s u = Lt.
Proof.
  induction s as [|c s IH]; intros [|d t] [|e u]; try done.
  rewrite !string_compare_cons.
  destruct (N.compare_spec (Ascii.N_of_ascii c) (Ascii.N_of_ascii d)) as [E1|E1|E1];
    destruct (N.compare_spec (Ascii.N_of_ascii d) (Ascii.N_of_ascii e)) as [E2|E2|E2];
    destruct (N.compare_spec (Ascii.N_of_ascii c) (Ascii.N_of_ascii e)) as [E3|E3|E3];
    try done; try lia; eauto.
Qed.

#[export] Program Instance string_py_order : PyOrder string :=
  {| py_ltb := string_ltb |}.
Next Obligation.
  intros s; unfold string_ltb.
  pose proof (String.compare_antisym s s) as E. by destruct (String.compare s s).
Qed.
Next Obligation.
  intros s t u; unfold string_ltb.
  destruct (String.compare s t) eqn:E1; [done| |done].
  destruct (String.compare t u) eqn:E2; [done| |done].
  by rewrite (string_compare_trans _ _ _ E1 E2).
Qed.
Next Obligation.
  intros s t; unfold string_ltb. rewrite (String.compare_antisym s t).
  destruct (String.compare t s) eqn:E; try done. intros _ _.
  symmetry; by apply String.compare_eq_iff.
Qed.

(** Comparisons are reasoned about through the laws of [PyOrder]. *)
#[global] Arguments py_ltb {A PyOrder} x y : simpl never.
#[global] Arguments py_gt {A _} x y : simpl never.
#[global] Arguments py_le {A _} x y : simpl never.
#[global] Arguments py_ge {A _} x y : simpl never.

(** ** Majorities

    Two subsets of a finite set whose sizes add up to more than its size have
    a common element. *)
Lemma quorum_intersect `{Countable U} (C X Y : gset U) :
  X ⊆ C -> Y ⊆ C -> (size C < size X + size Y)%nat -> exists a, a ∈ X /\ a ∈ Y.
Proof.
  intros HX HY Hsz.
  destruct (decide (X ∩ Y = ∅)) as [E|E].
  - assert (size (X ∪ Y) = (size X + size Y)%nat) by (apply size_union; set_solver).
    assert (size (X ∪ Y) <= size C)%nat by (apply subseteq_size; set_solver). lia.
  - apply set_choose_L in E as [a Ha]. exists a. set_solver.
Qed.

(** Python 2's [len(peers)/2 + 1]: floor division. *)
Lemma majority_pair (n : nat) (a b : Z) :
  (Z.of_nat n / 2 + 1 <= a -> Z.of_nat n / 2 + 1 <= b -> Z.of_nat n < a + b)%Z.
Proof.
  intros. pose proof (Z.div_mod (Z.of_nat n) 2 ltac:(lia)).
  pose proof (Z.mod_pos_bound (Z.of_nat n) 2 ltac:(lia)). lia.
Qed.

(** ** Methods of a Python object

    [PyM S E A]: a method on an object of state [S] that performs effects [E]
    (messages sent, callbacks called) and returns an [A] or raises.  State
    changes and effects before an exception remain. *)
Definition PyM (S E A : Type) : Type := S -> S * list E * outcome A.

Definition py_return {S E A} (a : A) : PyM S E A := fun s => (s, [], Ret a).
Definition py_raise {S E A} (e : py_error) : PyM S E A := fun s => (s, [], Raise e).
(** An attribute of the object. *)
Definition py_get {S E A} (f : S -> A) : PyM S E A := fun s => (s, [], Ret (f s)).
Definition py_set {S E} (f : S -> S) : PyM S E unit := fun s => (f s, [], Ret tt).
Definition py_emit {S E} (es : list E) : PyM S E unit := fun s => (s, es, Ret tt).
Definition py_bind {S E A B} (c : PyM S E A) (k : A -> PyM S E B) : PyM S E B :=
  fun s =>
    match c s with
    | (s', es, Raise e) => (s', es, Raise e)
    | (s', es, Ret a) =>
        let '(s'', es', r) := k a s' in (s'', es ++ es', r)
    end.
(** A call that returns its result and the new object, lifted. *)
Definition py_call {S E A} (f : S -> S * outcome A) : PyM S E A :=
  fun s => let '(s', r) := f s in (s', [], r).

Notation "'let!' x := c 'in' k" := (py_bind c (fun x => k))
  (at level 10, x name, c at level 100, k at level 200) : py_scope.
Notation "c ;;! k" := (py_bind c (fun _ => k))
  (at level 100, k at level 200, right associativity) : py_scope.

(** The three parts of a method call. *)
Definition post {S E A} (x : S * list E * outcome A) : S := x.1.1.
Definition effects {S E A} (x : S * list E * outcome A) : list E := x.1.2.
Definition result {S E A} (x : S * list E * outcome A) : outcome A := x.2.

(** A call without effects continues with its result. *)
Lemma bind_pure {S E A B} (c : PyM S E A) (k : A -> PyM S E B) s s' a :
  c s = (s', [], Ret a) -> py_bind c k s = k a s'.
Proof. intros Hc. unfold py_bind. rewrite Hc. by destruct (k a s') as [[s'' es] r]. Qed.

Lemma bind_get {S E A B} (f : S -> A) (k : A -> PyM S E B) s :
  py_bind (py_get f) k s = k (f s) s.
Proof. by apply bind_pure. Qed.

Lemma bind_set {S E B} (f : S -> S) (k : unit -> PyM S E B) s :
  py_bind (py_set f) k s = k tt (f s).
Proof. by apply bind_pure. Qed.

Create HintDb pym.
#[export] Hint Unfold py_bind py_get py_set py_emit py_return py_call py_raise
  post effects result : pym.
