(* ===== verification/ComposablePaxos.v ===== *)
(** * composable_paxos.py: the single-decree Paxos classes

    One Module per class of src/paxos/composable_paxos.py: the message classes,
    [Proposer], [Acceptor], [Learner] and their aggregate [PaxosInstance].  The
    uids [U] are any totally ordered countable type (integers in
    custom_server.py, strings in config.py) and the values [V] any type with
    decidable equality; Python's [None] is an [option]. *)
From stdpp Require Import base gmap sets list.
From Stdlib Require Import ZArith Lia.
From S2P Require Import Prelude.

(** ** ProposalID: a named tuple, ordered as a tuple *)
Record ProposalID (U : Type) : Type := MkPID { number : Z; uid : U }.
Arguments MkPID {U} _ _.
Arguments number {U} _.
Arguments uid {U} _.

#[export] Instance ProposalID_eq_dec `{EqDecision U} : EqDecision (ProposalID U).
Proof. solve_decision. Defined.

#[export] Instance ProposalID_countable `{Countable U} : Countable (ProposalID U).
Proof.
  refine (inj_countable' (fun p => (number p, uid p)) (fun t => MkPID t.1 t.2) _).
  by intros [].
Defined.

Definition pid_ltb {U} `{PyOrder U} (p q : ProposalID U) : bool :=
  py_ltb (number p, uid p) (number q, uid q).

#[export] Program Instance ProposalID_py_order {U} `{PyOrder U} :
  PyOrder (ProposalID U) := {| py_ltb := pid_ltb |}.
Next Obligation. intros U ? p. apply (py_ltb_irrefl (number p, uid p)). Qed.
Next Obligation.
  intros U ? p q r. apply (py_ltb_trans (number p, uid p) (number q, uid q)).
Qed.
Next Obligation.
  intros U ? [n u] [m v] H1 H2.
  by pose proof (py_ltb_total (n, u) (m, v) H1 H2) as [= -> ->].
Qed.

Lemma pid_lt_number {U} `{PyOrder U} (p q : ProposalID U) :
  (number p < number q)%Z -> p ≺ q.
Proof.
  intros Hlt. unfold py_ltb; simpl. unfold pid_ltb, py_ltb; simpl. unfold pair_ltb; simpl.
  by apply orb_true_intro; left; apply Z.ltb_lt.
Qed.

Lemma pid_le_number {U} `{PyOrder U} (p q : ProposalID U) :
  p ⪯ q -> (number p <= number q)%Z.
Proof.
  intros Hle. destruct (decide (number q < number p)%Z) as [Hlt|]; [|lia].
  apply pid_lt_number in Hlt. py_order.
Qed.

(** ** The message classes

    Every field that a peer fills from JSON may be [None]. *)
Inductive PaxosMessage (U V : Type) : Type :=
| Prepare (from_uid : U) (proposal_id : option (ProposalID U))
| Nack (from_uid proposer_uid : U) (proposal_id promised_proposal_id : option (ProposalID U))
| Promise (from_uid proposer_uid : U) (proposal_id last_accepted_id : option (ProposalID U))
    (last_accepted_value : option V)
| Accept (from_uid : U) (proposal_id : option (ProposalID U)) (proposal_value : option V)
| Accepted (from_uid : U) (proposal_id : option (ProposalID U)) (proposal_value : option V)
| Resolution (from_uid : U) (value : option V).
Arguments Prepare {U V} _ _.
Arguments Nack {U V} _ _ _ _.
Arguments Promise {U V} _ _ _ _ _.
Arguments Accept {U V} _ _ _.
Arguments Accepted {U V} _ _ _.
Arguments Resolution {U V} _ _.

#[export] Instance PaxosMessage_eq_dec `{EqDecision U, EqDecision V} :
  EqDecision (PaxosMessage U V).
Proof. solve_decision. Defined.

(** What a handler returns: Python's [None] or a message. *)
Abbreviation reply U V := (outcome (option (PaxosMessage U V))).

(** ** Proposer *)
Module Proposer.
Section proposer.
Context {U V : Type} `{Countable U} `{PyOrder U} `{EqDecision V}.

Record t : Type := MkProposer {
  network_uid : U;
  quorum_size : Z;
  leader : bool;
  proposed_value : option V;
  proposal_id : ProposalID U;
  highest_accepted_id : option (ProposalID U);
  promises_received : option (gset U);
  nacks_received : option (gset U);
  current_prepare_msg : option (PaxosMessage U V);
  current_accept_msg : option (PaxosMessage U V);
  highest_proposal_id : ProposalID U;
}.

Definition init (network_uid : U) (quorum_size : Z) : t :=
  {| network_uid := network_uid; quorum_size := quorum_size;
     leader := false; proposed_value := None;
     proposal_id := MkPID 0 network_uid;
     highest_accepted_id := None;
     promises_received := None; nacks_received := None;
     current_prepare_msg := None; current_accept_msg := None;
     highest_proposal_id := MkPID 0 network_uid |}.

(** Attribute assignments. *)
Definition set_leader (b : bool) (s : t) : t :=
  MkProposer (network_uid s) (quorum_size s) b (proposed_value s) (proposal_id s)
    (highest_accepted_id s) (promises_received s) (nacks_received s)
    (current_prepare_msg s) (current_accept_msg s) (highest_proposal_id s).
Definition set_proposed_value (v : option V) (s : t) : t :=
  MkProposer (network_uid s) (quorum_size s) (leader s) v (proposal_id s)
    (highest_accepted_id s) (promises_received s) (nacks_received s)
    (current_prepare_msg s) (current_accept_msg s) (highest_proposal_id s).
Definition set_highest_accepted_id (p : option (ProposalID U)) (s : t) : t :=
  MkProposer (network_uid s) (quorum_size s) (leader s) (proposed_value s) (proposal_id s)
    p (promises_received s) (nacks_received s)
    (current_prepare_msg s) (current_accept_msg s) (highest_proposal_id s).
Definition set_promises_received (X : option (gset U)) (s : t) : t :=
  MkProposer (network_uid s) (quorum_size s) (leader s) (proposed_value s) (proposal_id s)
    (highest_accepted_id s) X (nacks_received s)
    (current_prepare_msg s) (current_accept_msg s) (highest_proposal_id s).
Definition set_nacks_received (X : option (gset U)) (s : t) : t :=
  MkProposer (network_uid s) (quorum_size s) (leader s) (proposed_value s) (proposal_id s)
    (highest_accepted_id s) (promises_received s) X
    (current_prepare_msg s) (current_accept_msg s) (highest_proposal_id s).
Definition set_current_accept_msg (m : option (PaxosMessage U V)) (s : t) : t :=
  MkProposer (network_uid s) (quorum_size s) (leader s) (proposed_value s) (proposal_id s)
    (highest_accepted_id s) (promises_received s) (nacks_received s)
    (current_prepare_msg s) m (highest_proposal_id s).
Definition set_highest_proposal_id (p : ProposalID U) (s : t) : t :=
  MkProposer (network_uid s) (quorum_size s) (leader s) (proposed_value s) (proposal_id s)
    (highest_accepted_id s) (promises_received s) (nacks_received s)
    (current_prepare_msg s) (current_accept_msg s) p.

Definition propose_value (value : option V) (s : t) : t * option (PaxosMessage U V) :=
  match proposed_value s with
  | Some _ => (s, None)
  | None =>
      let s := set_proposed_value value s in
      if leader s then
        let m := Accept (network_uid s) (Some (proposal_id s)) value in
        (set_current_accept_msg (Some m) s, Some m)
      else (s, None)
  end.

Definition prepare (s : t) : t * PaxosMessage U V :=
  let pid := MkPID (number (highest_proposal_id s) + 1) (network_uid s) in
  let m := Prepare (network_uid s) (Some pid) in
  ({| network_uid := network_uid s; quorum_size := quorum_size s;
      leader := false; proposed_value := proposed_value s;
      proposal_id := pid;
      highest_accepted_id := highest_accepted_id s;
      promises_received := Some ∅; nacks_received := Some ∅;
      current_prepare_msg := Some m; current_accept_msg := current_accept_msg s;
      highest_proposal_id := pid |}, m).

(** [None > x] is false, so only a proposal id can be observed. *)
Definition observe_proposal (pid : option (ProposalID U)) (s : t) : t :=
  match pid with
  | Some p => if py_gt p (highest_proposal_id s) then set_highest_proposal_id p s else s
  | None => s
  end.

Definition receive_nack (from_uid : U) (pid promised_pid : option (ProposalID U)) (s : t)
  : t * reply U V :=
  let s := observe_proposal promised_pid s in
  match nacks_received s with
  | Some X =>
      if bool_decide (pid = Some (proposal_id s)) then
        let X := {[from_uid]} ∪ X in
        let s := set_nacks_received (Some X) s in
        if (Z.of_nat (size X) =? quorum_size s)%Z then
          let '(s, m) := prepare s in (s, Ret (Some m))
        else (s, Ret None)
      else (s, Ret None)
  | None => (s, Ret None)
  end.

(** The adoption of the highest accepted value a promise reports. *)
Definition adopt (last_id : option (ProposalID U)) (last_value : option V) (s : t) : t :=
  if py_gt last_id (highest_accepted_id s) then
    let s := set_highest_accepted_id last_id s in
    match last_value with
    | Some v => set_proposed_value (Some v) s
    | None => s
    end
  else s.

(** [msg.from_uid not in self.promises_received] raises [TypeError] while
    [promises_received] is still [None]. *)
Definition receive_promise (from_uid : U) (pid last_id : option (ProposalID U))
    (last_value : option V) (s : t) : t * reply U V :=
  let s := observe_proposal pid s in
  if negb (leader s) && bool_decide (pid = Some (proposal_id s)) then
    match promises_received s with
    | None => (s, Raise TypeError)
    | Some X =>
        if bool_decide (from_uid ∈ X) then (s, Ret None) else
        let X := {[from_uid]} ∪ X in
        let s := set_promises_received (Some X) s in
        let s := adopt last_id last_value s in
        if (Z.of_nat (size X) =? quorum_size s)%Z then
          let s := set_leader true s in
          match proposed_value s with
          | Some v =>
              let m := Accept (network_uid s) (Some (proposal_id s)) (Some v) in
              (set_current_accept_msg (Some m) s, Ret (Some m))
          | None => (s, Ret None)
          end
        else (s, Ret None)
    end
  else (s, Ret None).

(** [MessageHandler.receive] on a bare [Proposer]. *)
Definition receive (m : PaxosMessage U V) (s : t) : t * reply U V :=
  match m with
  | Nack from _ pid promised => receive_nack from pid promised s
  | Promise from _ pid last_id last_v => receive_promise from pid last_id last_v s
  | Prepare _ _ | Accept _ _ _ | Accepted _ _ _ | Resolution _ _ =>
      (s, Raise InvalidMessageError)
  end.

End proposer.
Arguments t U V {_ _}.
End Proposer.

(** ** Acceptor *)
Module Acceptor.
Section acceptor.
Context {U V : Type} `{Countable U} `{PyOrder U} `{EqDecision V}.

Record t : Type := MkAcceptor {
  network_uid : U;
  promised_id : option (ProposalID U);
  accepted_id : option (ProposalID U);
  accepted_value : option V;
}.

Definition init (network_uid : U) (promised_id accepted_id : option (ProposalID U))
    (accepted_value : option V) : t :=
  MkAcceptor network_uid promised_id accepted_id accepted_value.

Definition receive_prepare (from_uid : U) (pid : option (ProposalID U)) (s : t)
  : t * PaxosMessage U V :=
  if py_ge pid (promised_id s) then
    let s := MkAcceptor (network_uid s) pid (accepted_id s) (accepted_value s) in
    (s, Promise (network_uid s) from_uid (promised_id s) (accepted_id s) (accepted_value s))
  else (s, Nack (network_uid s) from_uid pid (promised_id s)).

Definition receive_accept (from_uid : U) (pid : option (ProposalID U)) (v : option V) (s : t)
  : t * PaxosMessage U V :=
  if py_ge pid (promised_id s) then
    (MkAcceptor (network_uid s) pid pid v, Accepted (network_uid s) pid v)
  else (s, Nack (network_uid s) from_uid pid (promised_id s)).

(** [MessageHandler.receive] on a bare [Acceptor]. *)
Definition receive (m : PaxosMessage U V) (s : t) : t * reply U V :=
  match m with
  | Prepare from pid => let '(s, r) := receive_prepare from pid s in (s, Ret (Some r))
  | Accept from pid v => let '(s, r) := receive_accept from pid v s in (s, Ret (Some r))
  | Nack _ _ _ _ | Promise _ _ _ _ _ | Accepted _ _ _ | Resolution _ _ =>
      (s, Raise InvalidMessageError)
  end.

End acceptor.
Arguments t U V : clear implicits.
End Acceptor.

(** ** Learner *)
Module Learner.
Section learner.
Context {U V : Type} `{Countable U} `{PyOrder U} `{EqDecision V}.

(** The inner class [ProposalStatus]. *)
Record status : Type := MkStatus {
  accept_count : Z;
  retain_count : Z;
  backers : gset U;           (* the slot [acceptors] *)
  value : option V;
}.

Record t : Type := MkLearner {
  network_uid : U;
  quorum_size : Z;
  proposals : option (gmap (ProposalID U) status);
  acceptors : option (gmap U (ProposalID U));
  final_value : option V;
  final_acceptors : option (gset U);
  final_proposal_id : option (ProposalID U);
}.

Definition init (network_uid : U) (quorum_size : Z) : t :=
  MkLearner network_uid quorum_size (Some ∅) (Some ∅) None None None.

Definition set_tally (props : gmap (ProposalID U) status) (accs : gmap U (ProposalID U))
    (s : t) : t :=
  MkLearner (network_uid s) (quorum_size s) (Some props) (Some accs)
    (final_value s) (final_acceptors s) (final_proposal_id s).

Definition set_final_acceptors (X : gset U) (s : t) : t :=
  MkLearner (network_uid s) (quorum_size s) (proposals s) (acceptors s)
    (final_value s) (Some X) (final_proposal_id s).

(** Lines 325-330: an acceptor that moves to a newer proposal leaves the one
    it backed before. [ps.retain_count -= 1] precedes [ps.acceptors.remove],
    which raises [KeyError] when the uid is absent. *)
Definition retire (from_uid : U) (last_pn : option (ProposalID U))
    (props : gmap (ProposalID U) status)
  : gmap (ProposalID U) status * outcome unit :=
  match last_pn with
  | None => (props, Ret tt)
  | Some q =>
      match props !! q with
      | None => (props, Raise KeyError)
      | Some ps =>
          let rc := (retain_count ps - 1)%Z in
          if bool_decide (from_uid ∈ backers ps) then
            let ps := MkStatus (accept_count ps) rc (backers ps ∖ {[from_uid]}) (value ps) in
            if (rc =? 0)%Z then (delete q props, Ret tt) else (<[q := ps]> props, Ret tt)
          else
            (<[q := MkStatus (accept_count ps) rc (backers ps) (value ps)]> props,
             Raise KeyError)
      end
  end.

(** Lines 332-341: the proposal's status, created on its first vote. *)
Definition status_of (pid : ProposalID U) (v : option V)
    (props : gmap (ProposalID U) status) : status :=
  match props !! pid with
  | Some ps => ps
  | None => MkStatus 0 0 ∅ v
  end.

Definition count_vote (from_uid : U) (ps : status) : status :=
  MkStatus (accept_count ps + 1) (retain_count ps + 1) ({[from_uid]} ∪ backers ps) (value ps).

Definition receive_accepted (from_uid : U) (pid : option (ProposalID U)) (v : option V)
    (s : t) : t * reply U V :=
  match final_value s with
  | Some fv =>
      if py_ge pid (final_proposal_id s) && bool_decide (v = Some fv) then
        match final_acceptors s with
        | Some X => (set_final_acceptors ({[from_uid]} ∪ X) s,
                     Ret (Some (Resolution (network_uid s) (Some fv))))
        | None => (s, Raise AttributeError)
        end
      else (s, Ret (Some (Resolution (network_uid s) (Some fv))))
  | None =>
      match acceptors s, proposals s with
      | Some accs, Some props =>
          let last_pn := accs !! from_uid in
          match pid with
          | None => (s, Ret None)           (* None <= anything *)
          | Some p =>
              if py_le (Some p) last_pn then (s, Ret None)  (* old message *)
              else
                let accs := <[from_uid := p]> accs in
                match retire from_uid last_pn props with
                | (props, Raise e) => (set_tally props accs s, Raise e)
                | (props, Ret _) =>
                    let ps := status_of p v props in
                    if bool_decide (v = value ps) then
                      let ps := count_vote from_uid ps in
                      let props := <[p := ps]> props in
                      if (accept_count ps =? quorum_size s)%Z then
                        (MkLearner (network_uid s) (quorum_size s) None None
                           v (Some (backers ps)) (Some p),
                         Ret (Some (Resolution (network_uid s) v)))
                      else (set_tally props accs s, Ret None)
                    else (set_tally (<[p := ps]> props) accs s, Raise AssertionError)
                end
          end
      | _, _ => (s, Raise AttributeError)   (* None.get *)
      end
  end.

(** [MessageHandler.receive] on a bare [Learner]. *)
Definition receive (m : PaxosMessage U V) (s : t) : t * reply U V :=
  match m with
  | Accepted from pid v => receive_accepted from pid v s
  | Prepare _ _ | Nack _ _ _ _ | Promise _ _ _ _ _ | Accept _ _ _ | Resolution _ _ =>
      (s, Raise InvalidMessageError)
  end.

End learner.
Arguments status U V {_ _}.
Arguments t U V {_ _}.
End Learner.

(** ** PaxosInstance: one object that is a Proposer, an Acceptor and a Learner

    The three base classes share only [network_uid] and [quorum_size], which
    no method assigns after construction. *)
Module PaxosInstance.
Section instance.
Context {U V : Type} `{Countable U} `{PyOrder U} `{EqDecision V}.

Record t : Type := MkInstance {
  proposer : Proposer.t U V;
  acceptor : Acceptor.t U V;
  learner : Learner.t U V;
}.

Definition init (network_uid : U) (quorum_size : Z)
    (promised_id accepted_id : option (ProposalID U)) (accepted_value : option V) : t :=
  {| proposer := Proposer.init network_uid quorum_size;
     acceptor := Acceptor.init network_uid promised_id accepted_id accepted_value;
     learner := Learner.init network_uid quorum_size |}.

Definition set_proposer (p : Proposer.t U V) (s : t) : t :=
  MkInstance p (acceptor s) (learner s).

Definition propose_value (v : option V) (s : t) : t * option (PaxosMessage U V) :=
  let '(p, m) := Proposer.propose_value v (proposer s) in (set_proposer p s, m).

Definition prepare (s : t) : t * PaxosMessage U V :=
  let '(p, m) := Proposer.prepare (proposer s) in (set_proposer p s, m).

Definition observe_proposal (pid : option (ProposalID U)) (s : t) : t :=
  set_proposer (Proposer.observe_proposal pid (proposer s)) s.

Definition receive_nack (from_uid : U) (pid promised : option (ProposalID U)) (s : t)
  : t * reply U V :=
  let '(p, r) := Proposer.receive_nack from_uid pid promised (proposer s) in
  (set_proposer p s, r).

Definition receive_promise (from_uid : U) (pid last_id : option (ProposalID U))
    (last_value : option V) (s : t) : t * reply U V :=
  let '(p, r) := Proposer.receive_promise from_uid pid last_id last_value (proposer s) in
  (set_proposer p s, r).

Definition receive_prepare (from_uid : U) (pid : option (ProposalID U)) (s : t)
  : t * PaxosMessage U V :=
  let s := observe_proposal pid s in
  let '(a, m) := Acceptor.receive_prepare from_uid pid (acceptor s) in
  (MkInstance (proposer s) a (learner s), m).

Definition receive_accept (from_uid : U) (pid : option (ProposalID U)) (v : option V) (s : t)
  : t * PaxosMessage U V :=
  let s := observe_proposal pid s in
  let '(a, m) := Acceptor.receive_accept from_uid pid v (acceptor s) in
  (MkInstance (proposer s) a (learner s), m).

Definition receive_accepted (from_uid : U) (pid : option (ProposalID U)) (v : option V)
    (s : t) : t * reply U V :=
  let '(l, r) := Learner.receive_accepted from_uid pid v (learner s) in
  (MkInstance (proposer s) (acceptor s) l, r).

(** [MessageHandler.receive]: dispatch on the class name of the message. Only
    [Resolution] has no handler. *)
Definition receive (m : PaxosMessage U V) (s : t) : t * reply U V :=
  match m with
  | Prepare from pid => let '(s, r) := receive_prepare from pid s in (s, Ret (Some r))
  | Nack from _ pid promised => receive_nack from pid promised s
  | Promise from _ pid last_id last_v => receive_promise from pid last_id last_v s
  | Accept from pid v => let '(s, r) := receive_accept from pid v s in (s, Ret (Some r))
  | Accepted from pid v => receive_accepted from pid v s
  | Resolution _ _ => (s, Raise InvalidMessageError)
  end.

End instance.
Arguments t U V {_ _}.
End PaxosInstance.
