(* ===== verification/ReplicatedValue.v ===== *)
(** * replicated_value.py and its mixins

    [Base] is BaseReplicatedValue (src/paxos/replicated_value.py), [Backoff]
    ExponentialBackoffResolutionStrategyMixin
    (src/paxos/resolution_strategy.py), [Sync]
    SimpleSynchronizationStrategyMixin (src/paxos/sync_strategy.py).  All
    their attributes live on one object, the record [t].  A call through
    [self] that a mixin may override goes through the class [Methods]; a call
    through [super()] is an argument, which the composed class fills in its
    method resolution order. *)
From stdpp Require Import base gmap sets list.
From Stdlib Require Import ZArith QArith Lia.
From S2P Require Import Prelude ComposablePaxos.

(** The packets of messenger.py's [send_*] methods. *)
Inductive wire (U V : Type) : Type :=
| WSyncRequest (instance_number : Z)
| WCatchup (instance_number : Z) (current_value : option V)
| WNack (instance_number : Z) (proposal_id promised_proposal_id : option (ProposalID U))
| WPrepare (instance_number : Z) (proposal_id : option (ProposalID U))
| WPromise (instance_number : Z) (proposal_id last_accepted_id : option (ProposalID U))
    (last_accepted_value : option V)
| WAccept (instance_number : Z) (proposal_id : option (ProposalID U))
    (proposal_value : option V)
| WAccepted (instance_number : Z) (proposal_id : option (ProposalID U))
    (proposal_value : option V).
Arguments WSyncRequest {U V} _.
Arguments WCatchup {U V} _ _.
Arguments WNack {U V} _ _ _.
Arguments WPrepare {U V} _ _.
Arguments WPromise {U V} _ _ _ _.
Arguments WAccept {U V} _ _ _.
Arguments WAccepted {U V} _ _ _.

#[export] Instance wire_eq_dec `{EqDecision U, EqDecision V} : EqDecision (wire U V).
Proof. solve_decision. Defined.

(** What a method does besides changing the object. *)
Inductive effect (U V : Type) : Type :=
| Send (to_uid : U) (m : wire U V)
| OnUpdate (new_current_value : option V).
Arguments Send {U V} _ _.
Arguments OnUpdate {U V} _.

(** The JSON object of the state file. *)
Record saved (U V : Type) : Type := MkSaved {
  sv_instance_number : Z;
  sv_promised_id : option (ProposalID U);
  sv_accepted_id : option (ProposalID U);
  sv_accepted_value : option V;
  sv_current_value : option V;
}.
Arguments MkSaved {U V} _ _ _ _ _.
Arguments sv_instance_number {U V} _.
Arguments sv_promised_id {U V} _.
Arguments sv_accepted_id {U V} _.
Arguments sv_accepted_value {U V} _.
Arguments sv_current_value {U V} _.

(** A running LoopingCall: the lambda it repeats and its interval in seconds.
    That of the dedicated master reads the proposal id when it is called. *)
Inductive retransmission (U V : Type) : Type :=
| SendPrepare (proposal_id : option (ProposalID U)) (interval : Q)
| SendAccept (proposal_id : option (ProposalID U)) (proposal_value : option V) (interval : Q)
| SendCurrentPrepare (interval : Q).
Arguments SendPrepare {U V} _ _.
Arguments SendAccept {U V} _ _ _.
Arguments SendCurrentPrepare {U V} _.

(** The IDelayedCall of [reactor.callLater]. *)
Record delayed_call : Type := MkDelayed { delay : Q; active : bool }.

Section replicated_value.
Context {U V : Type} `{Countable U} `{PyOrder U} `{EqDecision V}.

Record t : Type := MkRV {
  network_uid : U;
  peers : list U;
  quorum_size : Z;
  state_file : option (saved U V);
  instance_number : Z;
  current_value : option V;
  promised_id : option (ProposalID U);
  accepted_id : option (ProposalID U);
  accepted_value : option V;
  paxos : PaxosInstance.t U V;
  backoff_window : Z;
  retransmit_task : option (retransmission U V);
  delayed_drive : option delayed_call;
}.

Definition set_paxos (p : PaxosInstance.t U V) (s : t) : t :=
  MkRV (network_uid s) (peers s) (quorum_size s) (state_file s) (instance_number s)
    (current_value s) (promised_id s) (accepted_id s) (accepted_value s) p
    (backoff_window s) (retransmit_task s) (delayed_drive s).
Definition set_backoff_window (w : Z) (s : t) : t :=
  MkRV (network_uid s) (peers s) (quorum_size s) (state_file s) (instance_number s)
    (current_value s) (promised_id s) (accepted_id s) (accepted_value s) (paxos s)
    w (retransmit_task s) (delayed_drive s).
Definition set_retransmit_task (r : option (retransmission U V)) (s : t) : t :=
  MkRV (network_uid s) (peers s) (quorum_size s) (state_file s) (instance_number s)
    (current_value s) (promised_id s) (accepted_id s) (accepted_value s) (paxos s)
    (backoff_window s) r (delayed_drive s).
Definition set_delayed_drive (d : option delayed_call) (s : t) : t :=
  MkRV (network_uid s) (peers s) (quorum_size s) (state_file s) (instance_number s)
    (current_value s) (promised_id s) (accepted_id s) (accepted_value s) (paxos s)
    (backoff_window s) (retransmit_task s) d.
(** The assignments of [save_state] and the renamed file. *)
Definition set_saved (m : saved U V) (s : t) : t :=
  MkRV (network_uid s) (peers s) (quorum_size s) (Some m) (sv_instance_number m)
    (sv_current_value m) (sv_promised_id m) (sv_accepted_id m) (sv_accepted_value m)
    (paxos s) (backoff_window s) (retransmit_task s) (delayed_drive s).

Definition M (A : Type) : Type := PyM t (effect U V) A.

End replicated_value.
Arguments t U V {_ _}.
Arguments M U V {_ _} A.

(** The methods called through [self] that a mixin overrides. *)
Class Methods (U V : Type) `{Countable U} : Type := {
  self_send_accept : option (ProposalID U) -> option V -> M U V unit;
  self_advance_instance : Z -> option V -> bool -> M U V unit;
  self_drive_to_resolution : M U V unit;
}.

(** ** BaseReplicatedValue *)
Module Base.
Section base.
Context {U V : Type} `{Countable U} `{PyOrder U} `{EqDecision V}.
Implicit Types pid last_id promised : option (ProposalID U).
Implicit Types v : option V.

(** [load_state]: the file is created with defaults when missing. *)
Definition load_state (file : option (saved U V)) : saved U V :=
  match file with
  | None => MkSaved 0 None None None None
  | Some m => m
  end.

Definition init (network_uid : U) (peers : list U) (file : option (saved U V)) : t U V :=
  let quorum_size := (Z.of_nat (length peers) / 2 + 1)%Z in
  let m := load_state file in
  {| network_uid := network_uid; peers := peers; quorum_size := quorum_size;
     state_file := Some m;
     instance_number := sv_instance_number m; current_value := sv_current_value m;
     promised_id := sv_promised_id m; accepted_id := sv_accepted_id m;
     accepted_value := sv_accepted_value m;
     paxos := PaxosInstance.init network_uid quorum_size
                (sv_promised_id m) (sv_accepted_id m) (sv_accepted_value m);
     (* class attributes of the resolution mixin *)
     backoff_window := 5; retransmit_task := None; delayed_drive := None |}.

Definition save_state (instance_number : Z) (current_value : option V)
    (promised_id accepted_id : option (ProposalID U)) (accepted_value : option V)
  : M U V unit :=
  py_set (set_saved (MkSaved instance_number promised_id accepted_id accepted_value
                       current_value)).

Definition propose_update (new_value : V) : M U V unit :=
  let! p := py_get paxos in
  match Proposer.proposed_value (PaxosInstance.proposer p) with
  | None => py_set (fun s =>
      set_paxos (PaxosInstance.propose_value (Some new_value) (paxos s)).1 s)
  | Some _ => py_return tt
  end.

Definition advance_instance (new_instance_number : Z) (new_current_value : option V)
    (catchup : bool) : M U V unit :=
  save_state new_instance_number new_current_value None None None ;;!
  py_set (fun s => set_paxos (PaxosInstance.init (network_uid s) (quorum_size s)
                                None None None) s) ;;!
  py_emit [OnUpdate new_current_value].

(** [for uid in self.peers: self.messenger.send_*(uid, self.instance_number, ...)] *)
Definition broadcast (m : Z -> wire U V) : M U V unit :=
  fun s => (s, (fun u => Send u (m (instance_number s))) <$> peers s, Ret tt).

Definition send_prepare pid : M U V unit := broadcast (fun k => WPrepare k pid).
Definition send_accept pid v : M U V unit := broadcast (fun k => WAccept k pid v).
Definition send_accepted pid v : M U V unit := broadcast (fun k => WAccepted k pid v).

Definition receive_prepare (from_uid : U) (k : Z) pid : M U V unit :=
  let! s := py_get id in
  if (k =? instance_number s)%Z then
    let '(p, m) := PaxosInstance.receive_prepare from_uid pid (paxos s) in
    py_set (set_paxos p) ;;!
    match m with
    | Promise _ _ pid' last_id last_v =>
        save_state (instance_number s) (current_value s) pid' last_id last_v ;;!
        py_emit [Send from_uid (WPromise (instance_number s) pid' last_id last_v)]
    | _ =>
        py_emit [Send from_uid (WNack (instance_number s) pid (promised_id s))]
    end
  else py_return tt.

Definition receive_nack (from_uid : U) (k : Z) pid promised : M U V unit :=
  let! s := py_get id in
  if (k =? instance_number s)%Z then
    py_call (fun s =>
      let '(p, r) := PaxosInstance.receive_nack from_uid pid promised (paxos s) in
      (set_paxos p s, r)) ;;!
    py_return tt
  else py_return tt.

Definition receive_promise `{!Methods U V} (from_uid : U) (k : Z) pid last_id v
  : M U V unit :=
  let! s := py_get id in
  if (k =? instance_number s)%Z then
    let! m := py_call (fun s =>
      let '(p, r) := PaxosInstance.receive_promise from_uid pid last_id v (paxos s) in
      (set_paxos p s, r)) in
    match m with
    | Some (Accept _ pid' v') => self_send_accept pid' v'
    | _ => py_return tt
    end
  else py_return tt.

(** The saved [promised_id] is the attribute of this object, which
    [PaxosInstance.receive_accept] does not touch. *)
Definition receive_accept (from_uid : U) (k : Z) pid v : M U V unit :=
  let! s := py_get id in
  if (k =? instance_number s)%Z then
    let '(p, m) := PaxosInstance.receive_accept from_uid pid v (paxos s) in
    py_set (set_paxos p) ;;!
    match m with
    | Accepted _ pid' v' =>
        save_state (instance_number s) (current_value s) (promised_id s) pid v ;;!
        send_accepted pid' v'
    | _ =>
        py_emit [Send from_uid (WNack (instance_number s) pid (promised_id s))]
    end
  else py_return tt.

Definition receive_accepted `{!Methods U V} (from_uid : U) (k : Z) pid v : M U V unit :=
  let! s := py_get id in
  if (k =? instance_number s)%Z then
    let! m := py_call (fun s =>
      let '(p, r) := PaxosInstance.receive_accepted from_uid pid v (paxos s) in
      (set_paxos p s, r)) in
    match m with
    | Some (Resolution _ _) => self_advance_instance (instance_number s + 1) v false
    | _ => py_return tt
    end
  else py_return tt.

End base.
End Base.

(** ** ExponentialBackoffResolutionStrategyMixin (times in milliseconds) *)
Module Backoff.

Definition backoff_initial : Z := 5.
Definition backoff_cap : Z := 2000.
Definition drive_silence_timeout : Z := 3000.
Definition retransmit_interval : Z := 1000.

(** [x / 1000.0] *)
Definition milliseconds (x : Q) : Q := x / 1000.

Section backoff.
Context {U V : Type} `{Countable U} `{PyOrder U} `{EqDecision V}.
Implicit Types pid : option (ProposalID U).
Implicit Types v : option V.

Definition cancel (d : delayed_call) : delayed_call := MkDelayed (delay d) false.

(** [if self.delayed_drive is not None and self.delayed_drive.active(): cancel()] *)
Definition cancel_delayed_drive : M U V unit :=
  py_set (fun s =>
    match delayed_drive s with
    | Some d => if active d then set_delayed_drive (Some (cancel d)) s else s
    | None => s
    end).

Definition reschedule_next_drive_attempt (dt : Q) : M U V unit :=
  cancel_delayed_drive ;;!
  py_set (set_delayed_drive (Some (MkDelayed dt true))).

Definition stop_driving : M U V unit :=
  py_set (set_retransmit_task None) ;;!
  cancel_delayed_drive.

(** [m.proposal_id] of the Prepare message [m]. *)
Definition prepare_pid (m : PaxosMessage U V) : option (ProposalID U) :=
  match m with Prepare _ pid => pid | _ => None end.

Definition drive_to_resolution : M U V unit :=
  stop_driving ;;!
  let! m := py_call (fun s =>
    let '(p, m) := PaxosInstance.prepare (paxos s) in (set_paxos p s, Ret m)) in
  py_set (set_retransmit_task (Some
    (SendPrepare (prepare_pid m) (milliseconds (inject_Z retransmit_interval))))) ;;!
  Base.send_prepare (prepare_pid m).                          (* now=True *)

Definition advance_instance (super : Z -> option V -> bool -> M U V unit)
    (new_instance_number : Z) (new_current_value : option V) (catchup : bool) : M U V unit :=
  super new_instance_number new_current_value catchup ;;!
  stop_driving ;;!
  py_set (set_backoff_window backoff_initial).

Definition propose_update `{!Methods U V} (super : V -> M U V unit) (new_value : V)
  : M U V unit :=
  super new_value ;;!
  self_drive_to_resolution.

(** The interval is [self.retransmit_interval], without the division. *)
Definition send_accept (super : option (ProposalID U) -> option V -> M U V unit) pid v
  : M U V unit :=
  py_set (set_retransmit_task (Some (SendAccept pid v (inject_Z retransmit_interval)))) ;;!
  super pid v.                                                (* now=True *)

Definition receive_accept
    (super : U -> Z -> option (ProposalID U) -> option V -> M U V unit)
    (from_uid : U) (k : Z) pid v : M U V unit :=
  let! s := py_get id in
  if (k =? instance_number s)%Z then
    super from_uid k pid v ;;!
    reschedule_next_drive_attempt (milliseconds (inject_Z drive_silence_timeout))
  else py_return tt.

(** [rnd] is the value of [random.random()]. *)
Definition receive_nack
    (super : U -> Z -> option (ProposalID U) -> option (ProposalID U) -> M U V unit)
    (rnd : Q) (from_uid : U) (k : Z) pid (promised : option (ProposalID U)) : M U V unit :=
  let! s := py_get id in
  if (k =? instance_number s)%Z then
    super from_uid k pid promised ;;!
    stop_driving ;;!
    py_set (fun s => set_backoff_window (backoff_window s * 2) s) ;;!
    py_set (fun s => if (backoff_cap <? backoff_window s)%Z
                     then set_backoff_window backoff_cap s else s) ;;!
    let! w := py_get backoff_window in
    reschedule_next_drive_attempt (milliseconds (inject_Z w * rnd))
  else py_return tt.

End backoff.
End Backoff.

(** ** SimpleSynchronizationStrategyMixin *)
Module Sync.
Section sync.
Context {U V : Type} `{Countable U} `{PyOrder U} `{EqDecision V}.

(** The closure [sync], run every [sync_delay] seconds; [peer] is
    [random.choice(self.peers)]. *)
Definition sync (peer : U) : M U V unit :=
  let! s := py_get id in
  py_emit [Send peer (WSyncRequest (instance_number s))].

Definition receive_sync_request (from_uid : U) (k : Z) : M U V unit :=
  let! s := py_get id in
  if (k <? instance_number s)%Z then
    py_emit [Send from_uid (WCatchup (instance_number s) (current_value s))]
  else py_return tt.

Definition receive_catchup `{!Methods U V} (from_uid : U) (k : Z) (value : option V)
  : M U V unit :=
  let! s := py_get id in
  if (instance_number s <? k)%Z then self_advance_instance k value true
  else py_return tt.

End sync.
End Sync.

(** ** The class ReplicatedValue of custom_server.py

    [class ReplicatedValue(ExponentialBackoff..., SimpleSynchronization...,
    BaseReplicatedValue)]: every [super()] call of the backoff mixin reaches
    the base class. *)
Module CustomServer.
Section custom_server.
Context {U V : Type} `{Countable U} `{PyOrder U} `{EqDecision V}.

#[export] Instance methods : Methods U V := {|
  self_send_accept := Backoff.send_accept Base.send_accept;
  self_advance_instance := Backoff.advance_instance Base.advance_instance;
  self_drive_to_resolution := Backoff.drive_to_resolution;
|}.

(** [Messenger.datagramReceived] on a decoded packet: the handler
    [receive_<type>] of the object. *)
Definition receive (rnd : Q) (from_uid : U) (m : wire U V) : M U V unit :=
  match m with
  | WSyncRequest k => Sync.receive_sync_request from_uid k
  | WCatchup k v => Sync.receive_catchup from_uid k v
  | WNack k pid promised => Backoff.receive_nack Base.receive_nack rnd from_uid k pid promised
  | WPrepare k pid => Base.receive_prepare from_uid k pid
  | WPromise k pid last_id last_v => Base.receive_promise from_uid k pid last_id last_v
  | WAccept k pid v => Backoff.receive_accept Base.receive_accept from_uid k pid v
  | WAccepted k pid v => Base.receive_accepted from_uid k pid v
  end.

Definition propose_update (v : V) : M U V unit :=
  Backoff.propose_update Base.propose_update v.

(** One firing of a LoopingCall, and that of [retransmit_task]. *)
Definition fire (r : retransmission U V) : M U V unit :=
  match r with
  | SendPrepare pid _ => Base.send_prepare pid
  | SendAccept pid v _ => Base.send_accept pid v
  | SendCurrentPrepare _ =>
      let! pid := py_get (fun s => Proposer.proposal_id (PaxosInstance.proposer (paxos s))) in
      Base.send_prepare (Some pid)
  end.
Definition retransmit : M U V unit :=
  let! s := py_get id in
  match retransmit_task s with
  | Some r => fire r
  | None => py_return tt
  end.

(** The delayed call [delayed_drive] fires: it is no longer active. *)
Definition delayed_drive_fires : M U V unit :=
  let! s := py_get id in
  match delayed_drive s with
  | Some d =>
      if active d then
        py_set (set_delayed_drive (Some (Backoff.cancel d))) ;;!
        Backoff.drive_to_resolution
      else py_return tt
  | None => py_return tt
  end.

(** A new process of the same server on its state file: [__init__]. *)
Definition restart (s : t U V) : t U V := Base.init (network_uid s) (peers s) (state_file s).

End custom_server.
End CustomServer.
