(* ===== verification/PaxosSystem.v ===== *)
(** * A Multi-Paxos cluster

    The servers of custom_server.py on an asynchronous network: packets are
    never removed from [net], so they can be delivered late, several times, in
    any order or not at all.  Every server is a [CustomServer] object; a
    handler that raises keeps its state changes and the packets sent so far,
    as under the [except Exception] of [Messenger.datagramReceived]. *)
From stdpp Require Import base gmap sets list relations.
From Stdlib Require Import ZArith QArith Lia.
From S2P Require Import Prelude ComposablePaxos ReplicatedValue.

Section system.
Context {U V : Type} `{Countable U} `{PyOrder U} `{EqDecision V}.

(** A datagram: sender, destination, content. *)
Definition packet : Type := U * U * wire U V.

Record world : Type := MkWorld {
  nodes : gmap U (t U V);
  net : list packet;
}.

(** The datagrams among the effects of a method of server [u]. *)
Definition packets (u : U) (es : list (effect U V)) : list packet :=
  omap (fun e => match e with Send to m => Some (u, to, m) | OnUpdate _ => None end) es.

(** What can happen next. *)
Inductive action : Type :=
| Deliver (src dst : U) (m : wire U V) (rnd : Q)
| ClientPropose (u : U) (v : V)
| RetransmitTick (u : U)
| DriveTick (u : U)
| SyncTick (u peer : U).

Definition on_node (u : U) (c : M U V unit) (w : world) : option world :=
  s ← nodes w !! u;
  Some (MkWorld (<[u := post (c s)]> (nodes w)) (net w ++ packets u (effects (c s)))).

(** [None] when the action is not possible in [w]. *)
Definition do_action (a : action) (w : world) : option world :=
  match a with
  | Deliver src dst m rnd =>
      if decide ((src, dst, m) ∈ net w)
      then on_node dst (CustomServer.receive rnd src m) w
      else None
  | ClientPropose u v => on_node u (CustomServer.propose_update v) w
  | RetransmitTick u => on_node u CustomServer.retransmit w
  | DriveTick u => on_node u CustomServer.delayed_drive_fires w
  | SyncTick u peer =>
      s ← nodes w !! u;
      if decide (peer ∈ peers s) then on_node u (Sync.sync peer) w else None
  end.

(** All servers start from missing state files and know the same peers. *)
Definition initial (members : list U) : world :=
  MkWorld (list_to_map ((fun u => (u, Base.init u members None)) <$> members)) [].

Definition step (w w' : world) : Prop := exists a, do_action a w = Some w'.

Definition reachable (members : list U) (w : world) : Prop := rtc step (initial members) w.

(** The process of server [u] dies and a new one starts on its state file. *)
Definition crash (u : U) (w : world) : option world :=
  s ← nodes w !! u;
  Some (MkWorld (<[u := CustomServer.restart s]> (nodes w)) (net w)).

Definition crash_step (w w' : world) : Prop := step w w' \/ exists u, crash u w = Some w'.

(** Running a schedule. *)
Definition run (acts : list action) (w : world) : option world :=
  foldl (fun ow a => w ← ow; do_action a w) (Some w) acts.

End system.
Arguments packet U V : clear implicits.
Arguments world U V {_ _}.
Arguments action U V : clear implicits.

Lemma run_none {U V} `{Countable U} `{PyOrder U} `{EqDecision V} (acts : list (action U V)) :
  foldl (fun ow a => w ← ow; do_action a w) None acts = None.
Proof. by induction acts. Qed.

Lemma run_reachable {U V} `{Countable U} `{PyOrder U} `{EqDecision V}
    (members : list U) (acts : list (action U V)) w :
  run acts (initial members) = Some w -> reachable members w.
Proof.
  unfold run, reachable. generalize (initial (V := V) members). revert w.
  induction acts as [|a acts IH]; intros w w0; simpl.
  { intros [= ->]. apply rtc_refl. }
  destruct (do_action a w0) as [w1|] eqn:E; simpl; [|by rewrite run_none].
  intros Hrun. apply rtc_l with w1; [by exists a|]. by apply IH.
Qed.
