(* ===== verification/PaxosInvariant.v ===== *)
(** * The invariant of a Multi-Paxos cluster

    Votes, promises and proposals are read off the packets sent so far, per
    instance of the chain.  [net_ok] speaks about the packets only, [node_ok]
    about one server against the packets; both survive any packet that meets
    [ok_send], and every handler only sends such packets. *)
From stdpp Require Import base gmap sets list relations.
From Stdlib Require Import ZArith QArith Lia.
From S2P Require Import Prelude ComposablePaxos ReplicatedValue PaxosFacts PaxosSystem.
Local Open Scope Z_scope.

Section invariant.
Context {U V : Type} `{Countable U} `{PyOrder U} `{EqDecision V}.
Context (members : list U).
Implicit Types N : list (packet U V).
Implicit Types u a : U.
Implicit Types k : Z.
Implicit Types p q l c : ProposalID U.
Implicit Types v w : option V.

Definition sent N u (m : wire U V) : Prop := exists dst, (u, dst, m) ∈ N.
Definition promised N k a q (last : option (ProposalID U)) (lv : option V) : Prop :=
  sent N a (WPromise k (Some q) last lv).
Definition voted N k a p v : Prop := sent N a (WAccepted k (Some p) v).
Definition proposed N k p v : Prop := exists u, sent N u (WAccept k (Some p) v).

(** ** Quorums and decisions *)
Definition quorum_of : Z := Z.of_nat (length members) / 2 + 1.
Definition quorum (X : gset U) : Prop :=
  X ⊆ list_to_set members /\ quorum_of <= Z.of_nat (size X).
Definition chosen N k p v : Prop :=
  exists X, quorum X /\ forall a, a ∈ X -> voted N k a p v.

(** The value of the chain after [k] instances. *)
Definition decided N k v : Prop :=
  (k = 0 /\ v = None) \/ (0 < k /\ exists p, chosen N (k - 1) p v).

(** No value but [v] can be chosen in instance [k] below [p]. *)
Definition safe_at N k p v : Prop :=
  forall c, c ≺ p -> exists X, quorum X /\ forall a, a ∈ X ->
    (exists q last lv, promised N k a q last lv /\ c ≺ q) /\
    (forall w, voted N k a c w -> w = v).

(** ** The packets *)
Record net_ok N : Prop := NetOk {
  net_members u m : sent N u m -> u ∈ members;
  net_accept u k pid v : sent N u (WAccept k pid v) ->
    exists p x, pid = Some p /\ v = Some x /\ uid p = u;
  net_unique k p v w : proposed N k p v -> proposed N k p w -> v = w;
  net_safe k p v : proposed N k p v -> safe_at N k p v;
  net_vote a k pid v : sent N a (WAccepted k pid v) ->
    exists p, pid = Some p /\ proposed N k p v;
  net_prepare u k pid : sent N u (WPrepare k pid) ->
    exists p, pid = Some p /\ 1 <= number p;
  net_promise_pid a k pid last lv : sent N a (WPromise k pid last lv) ->
    exists q, pid = Some q /\ 1 <= number q;
  net_promise k a q last lv : promised N k a q last lv ->
    (forall p v, voted N k a p v -> p ≺ q -> Some p ⪯ last) /\
    (forall l, last = Some l -> voted N k a l lv /\ l ⪯ q);
  net_catchup u k v : sent N u (WCatchup k v) -> decided N k v;
}.

(** What a server must know to send a packet. *)
Definition ok_send N u (m : wire U V) : Prop :=
  match m with
  | WPrepare k pid => exists p, pid = Some p /\ 1 <= number p
  | WPromise k pid last lv =>
      exists q, pid = Some q /\ 1 <= number q /\
      (forall p v, voted N k u p v -> p ≺ q -> Some p ⪯ last) /\
      (forall l, last = Some l -> voted N k u l lv /\ l ⪯ q)
  | WAccepted k pid v =>
      exists p, pid = Some p /\ proposed N k p v /\
        forall q last lv, promised N k u q last lv -> q ⪯ p
  | WAccept k pid v =>
      exists p x, pid = Some p /\ v = Some x /\ uid p = u /\
        (forall w, proposed N k p w -> w = v) /\ safe_at N k p v
  | WCatchup k v => decided N k v
  | WNack _ _ _ | WSyncRequest _ => True
  end.

(** [N'] is [N] after [u] sent [om] (nothing, or one packet to some peers). *)
Definition extends N N' u (om : option (wire U V)) : Prop :=
  forall a m, sent N' a m <-> sent N a m \/ (a = u /\ om = Some m).

(** ** One server *)
Record acceptor_ok N u k (ac : Acceptor.t U V) : Prop := AcceptorOk {
  acc_promised q last lv : promised N k u q last lv -> Some q ⪯ Acceptor.promised_id ac;
  acc_voted p v : voted N k u p v -> Some p ⪯ Acceptor.accepted_id ac;
  acc_order : Acceptor.accepted_id ac ⪯ Acceptor.promised_id ac;
  acc_accepted l : Acceptor.accepted_id ac = Some l ->
    voted N k u l (Acceptor.accepted_value ac);
}.

Record proposer_ok N u k (pr : Proposer.t U V) : Prop := ProposerOk {
  prop_uid : Proposer.network_uid pr = u;
  prop_quorum : Proposer.quorum_size pr = quorum_of;
  prop_pid : uid (Proposer.proposal_id pr) = u;
  prop_number : number (Proposer.proposal_id pr) <= number (Proposer.highest_proposal_id pr);
  prop_nonneg : 0 <= number (Proposer.proposal_id pr);
  prop_started : Proposer.promises_received pr = None ->
    number (Proposer.proposal_id pr) = 0;
  prop_sent p v : sent N u (WAccept k (Some p) v) ->
    number p <= number (Proposer.proposal_id pr);
  prop_fresh v : Proposer.leader pr = false ->
    ~ sent N u (WAccept k (Some (Proposer.proposal_id pr)) v);
  prop_promises X : Proposer.leader pr = false -> Proposer.promises_received pr = Some X ->
    forall a, a ∈ X -> a ∈ members /\ exists last lv,
      promised N k a (Proposer.proposal_id pr) last lv /\
      last ⪯ Proposer.highest_accepted_id pr;
  prop_highest h : Proposer.highest_accepted_id pr = Some h ->
    h ≺ Proposer.proposal_id pr /\ exists a x,
      Proposer.proposed_value pr = Some x /\ voted N k a h (Some x);
}.

Record learner_ok N k (le : Learner.t U V) : Prop := LearnerOk {
  learner_quorum : Learner.quorum_size le = quorum_of;
  learner_counting : counting (voted N k) le;
}.

Definition task_ok N u k (r : option (retransmission U V)) : Prop :=
  (forall pid i, r = Some (SendPrepare pid i) ->
     exists p, pid = Some p /\ 1 <= number p) /\
  (forall pid v i, r = Some (SendAccept pid v i) -> sent N u (WAccept k pid v)) /\
  (forall i, r <> Some (SendCurrentPrepare i)).

(** Nothing was said yet in a later instance. *)
Definition future_ok N u k : Prop :=
  forall k',
    (forall pid last lv, sent N u (WPromise k' pid last lv) -> k' <= k) /\
    (forall pid v, sent N u (WAccepted k' pid v) -> k' <= k) /\
    (forall pid v, sent N u (WAccept k' pid v) -> k' <= k).

Record node_ok N u (s : t U V) : Prop := NodeOk {
  node_uid : network_uid s = u;
  node_peers : peers s = members;
  node_quorum : quorum_size s = quorum_of;
  node_instance : 0 <= instance_number s;
  node_future : future_ok N u (instance_number s);
  node_acceptor : acceptor_ok N u (instance_number s) (PaxosInstance.acceptor (paxos s));
  node_proposer : proposer_ok N u (instance_number s) (PaxosInstance.proposer (paxos s));
  node_learner : learner_ok N (instance_number s) (PaxosInstance.learner (paxos s));
  node_task : task_ok N u (instance_number s) (retransmit_task s);
  node_current : decided N (instance_number s) (current_value s);
}.

(** ** The world *)
Record world_ok (w : world U V) : Prop := WorldOk {
  world_net : net_ok (net w);
  world_nodes u s : nodes w !! u = Some s -> u ∈ members /\ node_ok (net w) u s;
}.

(** A method of [u] preserves the invariant: it raises nothing, its effects send
    one packet at most, an allowed one, and the new state fits the new packets. *)
Definition sends (es : list (effect U V)) (om : option (wire U V)) : Prop :=
  forall m, (exists to, Send to m ∈ es) <-> om = Some m.
Definition preserves N u {A} (x : t U V * list (effect U V) * outcome A) : Prop :=
  exists om, (exists r, result x = Ret r) /\ sends (effects x) om /\
    (forall m, om = Some m -> ok_send N u m) /\
    (forall N', extends N N' u om -> node_ok N' u (post x)).

(** ** Monotonicity *)
Lemma extends_mono N N' u om a m : extends N N' u om -> sent N a m -> sent N' a m.
Proof. intros HE Hs. apply HE. by left. Qed.

Lemma quorum_meet X Y : NoDup members -> quorum X -> quorum Y -> exists a, a ∈ X /\ a ∈ Y.
Proof.
  intros Hnd [HX HXs] [HY HYs]. apply (quorum_intersect (list_to_set members)); [done..|].
  rewrite size_list_to_set by done.
  pose proof (majority_pair (length members) _ _ HXs HYs). lia.
Qed.

Lemma quorum_pos : 0 < quorum_of.
Proof. unfold quorum_of. pose proof (Z.div_pos (Z.of_nat (length members)) 2). lia. Qed.

Lemma chosen_mono N N' u om k p v : extends N N' u om -> chosen N k p v -> chosen N' k p v.
Proof.
  intros HE (X & HX & Hv). exists X. split; [done|]. intros a Ha.
  eapply extends_mono; [done|]. by apply Hv.
Qed.

Lemma decided_mono N N' u om k v : extends N N' u om -> decided N k v -> decided N' k v.
Proof.
  intros HE [Hk|[Hk [p Hc]]]; [by left|right]. split; [done|]. exists p.
  eapply chosen_mono; eauto.
Qed.

Lemma proposed_mono N N' u om k p v :
  extends N N' u om -> proposed N k p v -> proposed N' k p v.
Proof. intros HE [a Ha]. exists a. eapply extends_mono; eauto. Qed.

(** A new vote respects the promises that make an older proposal safe. *)
Lemma safe_at_mono N N' u om k p v :
  extends N N' u om -> (forall m, om = Some m -> ok_send N u m) ->
  safe_at N k p v -> safe_at N' k p v.
Proof.
  intros HE Hok Hsafe c Hc. destruct (Hsafe c Hc) as (X & HX & HXa).
  exists X. split; [done|]. intros a Ha. destruct (HXa a Ha) as [(q & last & lv & Hq & Hcq) Hv].
  split. { exists q, last, lv. split; [|done]. eapply extends_mono; eauto. }
  intros w Hw. apply HE in Hw as [Hw|[-> Hw]]; [by apply Hv|].
  apply Hok in Hw as (p' & [= <-] & _ & Hprom). apply Hprom in Hq. py_order.
Qed.

End invariant.
