(* ===== verification/PaxosPreservation.v ===== *)
(** * The parts of the Multi-Paxos invariant are preserved

    The packets' invariant survives every allowed packet, each part of a
    server's invariant survives the packets that do not concern it, and the
    operations of the acceptor and of the proposer keep their own part. *)
From stdpp Require Import base gmap sets list relations.
From Stdlib Require Import ZArith QArith Lia.
From S2P Require Import Prelude ComposablePaxos ReplicatedValue PaxosFacts PaxosSystem PaxosInvariant.
Local Open Scope Z_scope.

Section preservation.
Context {U V : Type} `{Countable U} `{PyOrder U} `{EqDecision V}.
Context (members : list U).
Implicit Types N : list (packet U V).
Implicit Types u a : U.
Implicit Types k : Z.
Implicit Types p q l c : ProposalID U.
Implicit Types v w : option V.

(** Packets that were there, or the one just sent. *)
Ltac new_packet HE Hs :=
  first [apply HE in Hs as [Hs|[-> Hs]] | apply HE in Hs as [Hs|[_ Hs]]].

Lemma net_ok_extends N N' u om :
  net_ok members N -> u ∈ members -> extends N N' u om ->
  (forall m, om = Some m -> ok_send members N u m) -> net_ok members N'.
Proof.
  intros HN Hu HE Hok.
  assert (Hmono : forall a m, sent N a m -> sent N' a m) by (intros *; by eapply extends_mono).
  constructor.
  - intros a m Hs. new_packet HE Hs; [by eapply net_members|done].
  - intros a k pid v Hs. new_packet HE Hs; [by eapply net_accept|].
    apply Hok in Hs as (p & x & ? & ? & ? & _). eauto 10.
  - intros k p v w [a Ha] [b Hb]. new_packet HE Ha; new_packet HE Hb.
    + eapply net_unique; [done|by exists a|by exists b].
    + apply Hok in Hb as (p' & x & [= <-] & _ & _ & Hun & _). apply Hun. by exists a.
    + apply Hok in Ha as (p' & x & [= <-] & _ & _ & Hun & _). symmetry. apply Hun. by exists b.
    + congruence.
  - intros k p v [a Ha]. eapply safe_at_mono; [done..|]. new_packet HE Ha.
    + eapply net_safe; [done|by exists a].
    + by apply Hok in Ha as (p' & x & [= <-] & _ & _ & _ & Hsafe).
  - intros a k pid v Hs. new_packet HE Hs.
    + destruct (net_vote _ _ HN _ _ _ _ Hs) as (p & -> & [b Hb]). exists p. split; [done|].
      exists b. eauto.
    + apply Hok in Hs as (p & -> & [b Hb] & _). exists p. split; [done|]. exists b. eauto.
  - intros a k pid Hs. new_packet HE Hs; [by eapply net_prepare|by apply Hok in Hs].
  - intros a k pid last lv Hs. new_packet HE Hs; [by eapply net_promise_pid|].
    apply Hok in Hs as (q & ? & ? & _). eauto.
  - intros k a q last lv Hs. new_packet HE Hs.
    + destruct (net_promise _ _ HN _ _ _ _ _ Hs) as [Hlow Hlast]. split.
      * intros p v Hv Hp. new_packet HE Hv; [by eapply Hlow|].
        apply Hok in Hv as (p' & [= <-] & _ & Hprom). apply Hprom in Hs. py_order.
      * intros l Hl. destruct (Hlast l Hl) as [Hv ?]. split; [by apply Hmono|done].
    + pose proof (Hok _ Hs) as (q' & [= <-] & _ & Hlow & Hlast). split.
      * intros p v Hv Hp. new_packet HE Hv; [by eapply Hlow|]. congruence.
      * intros l Hl. destruct (Hlast l Hl) as [Hv ?]. split; [by apply Hmono|done].
  - intros a k v Hs. eapply decided_mono; [done|]. new_packet HE Hs.
    + by eapply net_catchup.
    + by apply Hok in Hs.
Qed.

(** ** Components under packets that do not concern them *)
Lemma acceptor_ok_extends N N' a u om k ac :
  acceptor_ok N a k ac -> extends N N' u om ->
  (a = u -> forall m, om = Some m ->
     (forall pid last lv, m <> WPromise k pid last lv) /\
     (forall pid v, m <> WAccepted k pid v)) ->
  acceptor_ok N' a k ac.
Proof.
  intros [Hp Hv Ho Ha] HE Hother. constructor; [| |done|].
  - intros q last lv Hs. new_packet HE Hs; [by eapply Hp|].
    destruct (Hother eq_refl _ Hs) as [Hno _]. by destruct (Hno (Some q) last lv).
  - intros p v Hs. new_packet HE Hs; [by eapply Hv|].
    destruct (Hother eq_refl _ Hs) as [_ Hno]. by destruct (Hno (Some p) v).
  - intros l Hl. eapply extends_mono; eauto. by apply Ha.
Qed.

Lemma proposer_ok_extends N N' a u om k pr :
  proposer_ok members N a k pr -> extends N N' u om ->
  (a = u -> forall m, om = Some m -> forall pid v, m = WAccept k pid v -> sent N u m) ->
  proposer_ok members N' a k pr.
Proof.
  intros [H1 H2 H3 H4 Hn Hst H5 H6 H7 H8] HE Hother.
  assert (Hback : forall pid v, sent N' a (WAccept k pid v) -> sent N a (WAccept k pid v)).
  { intros pid v Hs. new_packet HE Hs; [done|]. eapply Hother; eauto. }
  constructor; try done.
  - intros p v Hs%Hback. eauto.
  - intros v Hl Hs%Hback. by eapply H6.
  - intros X Hl HX a' Ha'. destruct (H7 X Hl HX a' Ha') as (? & last & lv & Hpr & Hle).
    split; [done|]. exists last, lv. split; [|done]. eapply extends_mono; eauto.
  - intros h Hh. destruct (H8 h Hh) as (? & b & x & ? & Hv). split; [done|]. exists b, x.
    split; [done|]. eapply extends_mono; eauto.
Qed.

Lemma learner_ok_extends N N' u om k le :
  learner_ok members N k le -> extends N N' u om -> learner_ok members N' k le.
Proof.
  intros [Hq [Hund (accs & props & Ha & Hp & Hdom & Htal)]] HE. constructor; [done|].
  constructor; [done|]. exists accs, props. split_and!; [done..|]. split; [done|].
  intros p ps Hps. destruct (Htal p ps Hps) as [Hb Hr (X & HX & Hpos & Hvotes)].
  constructor; [done..|]. exists X. split_and!; [done|lia|lia|]. intros b Hb'.
  destruct (Hvotes b Hb') as [Hs ?]. split; [|done]. by eapply extends_mono.
Qed.

Lemma task_ok_extends N N' a u om k r :
  task_ok N a k r -> extends N N' u om -> task_ok N' a k r.
Proof. intros (Hp & Hr & Hc) HE. split_and!; [done| |done]. intros pid v i Hi. eapply extends_mono; eauto. Qed.

Lemma future_ok_extends N N' a u om k :
  future_ok N a k -> extends N N' u om ->
  (a = u -> forall m, om = Some m ->
     match m with
     | WPromise k' _ _ _ | WAccepted k' _ _ | WAccept k' _ _ => k' <= k
     | _ => True
     end) ->
  future_ok N' a k.
Proof.
  intros Hf HE Hom k'. destruct (Hf k') as (H1 & H2 & H3).
  split_and!; intros *; intros Hs; new_packet HE Hs; eauto; by apply (Hom eq_refl _ Hs).
Qed.

(** Servers other than the sender. *)
Lemma node_ok_extends_other N N' a u om s :
  a <> u -> extends N N' u om -> node_ok members N a s -> node_ok members N' a s.
Proof.
  intros Hne HE [? ? ? ? Hf Hac Hpr Hle Hta Hcu]. constructor; try done.
  - eapply future_ok_extends; [done..|]. by intros ->.
  - eapply acceptor_ok_extends; [done..|]. by intros ->.
  - eapply proposer_ok_extends; [done..|]. by intros ->.
  - by eapply learner_ok_extends.
  - by eapply task_ok_extends.
  - by eapply decided_mono.
Qed.

(** ** The acceptor *)
Lemma acceptor_prepare_ok N u k ac from q :
  acceptor_ok N u k ac -> 1 <= number q ->
  match Acceptor.receive_prepare from (Some q) ac with
  | (ac', Promise _ _ pid' last lv) =>
      ok_send members N u (WPromise k pid' last lv) /\
      forall N', extends N N' u (Some (WPromise k pid' last lv)) -> acceptor_ok N' u k ac'
  | (ac', _) => ac' = ac
  end.
Proof.
  intros [Hp Hv Ho Ha] Hnum. unfold Acceptor.receive_prepare.
  destruct (py_ge (Some q) (Acceptor.promised_id ac)) eqn:E; [|done]. py_normalise. simpl. split.
  - exists q. split_and!; [done..|by eauto|]. intros l Hl.
    split; [by apply Ha|]. rewrite Hl in Ho. assert (Some l ⪯ Some q) by py_order. done.
  - intros N' HE. constructor; simpl.
    + intros q' last lv Hs. new_packet HE Hs; [apply Hp in Hs; py_order|].
      injection Hs as -> _ _. apply ple_refl.
    + intros p v Hs. new_packet HE Hs; [by eapply Hv|done].
    + py_order.
    + intros l Hl. eapply extends_mono; [done|]. by apply Ha.
Qed.

Lemma acceptor_accept_ok N u k ac from p v :
  acceptor_ok N u k ac -> proposed N k p v ->
  match Acceptor.receive_accept from (Some p) v ac with
  | (ac', Accepted _ pid' v') =>
      pid' = Some p /\ v' = v /\ ok_send members N u (WAccepted k (Some p) v) /\
      forall N', extends N N' u (Some (WAccepted k (Some p) v)) -> acceptor_ok N' u k ac'
  | (ac', _) => ac' = ac
  end.
Proof.
  intros [Hp Hv Ho Ha] Hprop. unfold Acceptor.receive_accept.
  destruct (py_ge (Some p) (Acceptor.promised_id ac)) eqn:E; [|done]. py_normalise. simpl.
  split_and!; [done..| |].
  - exists p. split_and!; [done..|]. intros q last lv Hs. apply Hp in Hs.
    assert (Some q ⪯ Some p) by py_order. done.
  - intros N' HE. constructor; simpl.
    + intros q last lv Hs. new_packet HE Hs; [apply Hp in Hs; py_order|done].
    + intros q w Hs. new_packet HE Hs; [apply Hv in Hs; py_order|].
      injection Hs as -> ->. apply ple_refl.
    + apply ple_refl.
    + intros l [= <-]. apply HE. by right.
Qed.

(** ** The proposer *)
Lemma observe_proposal_ok N u k pr pid :
  proposer_ok members N u k pr -> proposer_ok members N u k (Proposer.observe_proposal pid pr).
Proof.
  intros Hok. unfold Proposer.observe_proposal. destruct pid as [p|]; [|done].
  destruct (py_gt p (Proposer.highest_proposal_id pr)) eqn:E; [|done].
  destruct Hok as [H1 H2 H3 H4 Hn Hst H5 H6 H7 H8]. constructor; try done. simpl.
  apply plt_le, pid_le_number in E. lia.
Qed.

Lemma prepare_ok N u k pr :
  proposer_ok members N u k pr ->
  proposer_ok members N u k (Proposer.prepare pr).1 /\
  1 <= number (Proposer.proposal_id (Proposer.prepare pr).1) /\
  (Proposer.prepare pr).2 = Prepare u (Some (Proposer.proposal_id (Proposer.prepare pr).1)).
Proof.
  intros [H1 H2 H3 H4 Hn Hst H5 H6 H7 H8]. split; [|simpl; rewrite H1; split; [lia|done]].
  constructor; simpl; try done; try lia.
  - intros p v Hs%H5. lia.
  - intros v _ Hs%H5. simpl in Hs. lia.
  - intros X _ [= <-]. set_solver.
  - intros h Hh. destruct (H8 h Hh) as (Hlt & Hv). split; [|done].
    assert (Proposer.proposal_id pr ≺
      MkPID (number (Proposer.highest_proposal_id pr) + 1) (Proposer.network_uid pr)).
    { apply pid_lt_number. simpl. lia. }
    py_order.
Qed.

Lemma propose_value_ok N u k pr v :
  proposer_ok members N u k pr ->
  proposer_ok members N u k (Proposer.propose_value v pr).1.
Proof.
  intros Hok. unfold Proposer.propose_value.
  destruct (Proposer.proposed_value pr) as [?|] eqn:E; [done|].
  destruct Hok as [H1 H2 H3 H4 Hn Hst H5 H6 H7 H8].
  assert (forall h, Proposer.highest_accepted_id pr <> Some h) as Hnone.
  { intros h Hh. destruct (H8 h Hh) as (_ & a & x & Hx & _). congruence. }
  destruct pr as [? ? leader]; simpl in *. destruct leader; constructor; simpl in *; try done;
    intros h Hh; by destruct (Hnone h).
Qed.

Lemma receive_nack_ok N u k pr from pid promised :
  proposer_ok members N u k pr ->
  exists pr' m, Proposer.receive_nack from pid promised pr = (pr', Ret m) /\
    proposer_ok members N u k pr'.
Proof.
  intros Hok%(fun h => observe_proposal_ok _ _ _ _ promised h).
  unfold Proposer.receive_nack. generalize dependent (Proposer.observe_proposal promised pr).
  clear pr. intros pr Hok. destruct (Proposer.nacks_received pr) as [X|]; [|by eauto].
  case_bool_decide; [|by eauto].
  assert (proposer_ok members N u k
    (Proposer.set_nacks_received (Some ({[from]} ∪ X)) pr)) as Hok'.
  { destruct Hok. by constructor. }
  destruct (_ =? _); [|by eauto].
  eexists _, _. split; [reflexivity|]. exact (proj1 (prepare_ok _ _ _ _ Hok')).
Qed.

(** Nobody proposed at the current number of a proposer that is not leader. *)
Lemma not_proposed N u k pr v :
  net_ok members N -> proposer_ok members N u k pr -> Proposer.leader pr = false ->
  ~ proposed N k (Proposer.proposal_id pr) v.
Proof.
  intros HN Hok Hl [b Hb].
  destruct (net_accept _ _ HN _ _ _ _ Hb) as (p & x & [= <-] & _ & Huid).
  rewrite (prop_pid _ _ _ _ _ Hok) in Huid. subst b.
  by eapply prop_fresh.
Qed.

(** Adopting the value of a promise keeps the proposer's value the one of the
    highest vote it knows of. *)
Lemma adopt_ok N u k pr from last lv :
  net_ok members N -> proposer_ok members N u k pr -> Proposer.leader pr = false ->
  promised N k from (Proposer.proposal_id pr) last lv ->
  proposer_ok members N u k (Proposer.adopt last lv pr) /\
  last ⪯ Proposer.highest_accepted_id (Proposer.adopt last lv pr) /\
  Proposer.proposal_id (Proposer.adopt last lv pr) = Proposer.proposal_id pr /\
  Proposer.promises_received (Proposer.adopt last lv pr) = Proposer.promises_received pr /\
  Proposer.leader (Proposer.adopt last lv pr) = false.
Proof.
  intros HN Hok Hl Hprom. unfold Proposer.adopt.
  destruct (py_gt last (Proposer.highest_accepted_id pr)) eqn:E; cycle 1.
  { by split_and!. }
  unfold py_gt in E. destruct last as [l|]; [|by destruct (Proposer.highest_accepted_id pr)].
  destruct (net_promise _ _ HN _ _ _ _ _ Hprom) as [_ Hlast].
  destruct (Hlast l eq_refl) as [Hv Hle].
  destruct (net_vote _ _ HN _ _ _ _ Hv) as (l' & [= <-] & Hpl).
  assert (exists x, lv = Some x) as [x ->].
  { destruct Hpl as [b Hb]. destruct (net_accept _ _ HN _ _ _ _ Hb) as (? & x & _ & -> & _).
    by exists x. }
  assert (l ≺ Proposer.proposal_id pr) as Hlt.
  { destruct (py_ltb l (Proposer.proposal_id pr)) eqn:E'; [done|]. exfalso.
    rewrite (py_ltb_total _ _ E' Hle) in Hpl. by eapply not_proposed. }
  destruct Hok as [H1 H2 H3 H4 Hn Hst H5 H6 H7 H8]. split_and!; try done.
  - constructor; try done.
    + intros X _ HX a Ha. destruct (H7 X Hl HX a Ha) as (? & la & lva & Hpa & Hlea).
      split; [done|]. exists la, lva. split; [done|].
      change (la ⪯ Some l). py_order.
    + intros h [= <-]. split; [done|]. by exists from, x.
  - apply ple_refl.
Qed.

(** A quorum of promises makes the value of the highest vote among them safe. *)
Lemma quorum_safe N u k pr X v :
  net_ok members N -> proposer_ok members N u k pr -> Proposer.leader pr = false ->
  Proposer.promises_received pr = Some X -> quorum_of members <= Z.of_nat (size X) ->
  Proposer.proposed_value pr = v ->
  safe_at members N k (Proposer.proposal_id pr) v.
Proof.
  intros HN [H1 H2 H3 H4 Hn Hst H5 H6 H7 H8] Hl HX Hq <- c Hc.
  assert (quorum members X) as HXq.
  { split; [|done]. intros a Ha. apply elem_of_list_to_set.
    by destruct (H7 X Hl HX a Ha). }
  assert (Hpre : forall a, a ∈ X -> exists q last lv, promised N k a q last lv /\ c ≺ q).
  { intros a Ha. destruct (H7 X Hl HX a Ha) as (_ & last & lv & Hp & _). eauto. }
  destruct (decide (Some c ⪯ Proposer.highest_accepted_id pr)) as [Hle|Hgt]; cycle 1.
  - (* no member of X voted at c *)
    exists X. split; [done|]. intros a Ha. split; [by apply Hpre|]. intros w Hw.
    destruct (H7 X Hl HX a Ha) as (_ & last & lv & Hp & Hlast).
    destruct (net_promise _ _ HN _ _ _ _ _ Hp) as [Hlow _].
    pose proof (Hlow _ _ Hw Hc). destruct Hgt. py_order.
  - destruct (Proposer.highest_accepted_id pr) as [h|] eqn:Eh; [|done].
    destruct (H8 h eq_refl) as (_ & b & x & -> & Hvb).
    destruct (net_vote _ _ HN _ _ _ _ Hvb) as (h' & [= <-] & Hph).
    destruct (py_ltb c h) eqn:Ech; [by apply (net_safe _ _ HN _ _ _ Hph)|].
    pose proof (py_ltb_total c h Ech Hle) as ->.
    exists X. split; [done|]. intros a Ha. split; [by apply Hpre|]. intros w Hw.
    destruct (net_vote _ _ HN _ _ _ _ Hw) as (h' & [= <-] & Hpw).
    by apply (net_unique _ _ HN k h).
Qed.

(** Becoming the leader, with the Accept message sent. *)
Lemma leader_ok N N' u k pr m :
  proposer_ok members N u k pr -> extends N N' u m ->
  (forall pid v, m = Some (WAccept k pid v) -> pid = Some (Proposer.proposal_id pr)) ->
  proposer_ok members N' u k (Proposer.set_leader true pr).
Proof.
  intros [H1 H2 H3 H4 Hn Hst H5 H6 H7 H8] HE Hm. constructor; simpl; try done.
  - intros p v Hs. new_packet HE Hs; [by eapply H5|]. apply Hm in Hs as [= ->]. lia.
  - intros h Hh. destruct (H8 h Hh) as (? & a & x & ? & Hv). split; [done|]. exists a, x.
    split; [done|]. apply HE. by left.
Qed.

Lemma set_promises_ok N u k pr from X last lv :
  proposer_ok members N u k pr -> Proposer.leader pr = false ->
  Proposer.promises_received pr = Some X -> from ∈ members ->
  promised N k from (Proposer.proposal_id pr) last lv ->
  last ⪯ Proposer.highest_accepted_id pr ->
  proposer_ok members N u k (Proposer.set_promises_received (Some ({[from]} ∪ X)) pr).
Proof.
  intros [H1 H2 H3 H4 Hn Hst H5 H6 H7 H8] Hl HX Hfrom Hp Hle. constructor; simpl; try done.
  intros X' _ [= <-] a [->%elem_of_singleton|Ha]%elem_of_union; [by eauto|].
  by apply H7 with X.
Qed.

(** The setters of [receive_promise] act on different attributes. *)
Lemma adopt_promises last lv X (pr : Proposer.t U V) :
  Proposer.adopt last lv (Proposer.set_promises_received X pr)
  = Proposer.set_promises_received X (Proposer.adopt last lv pr).
Proof.
  unfold Proposer.adopt; simpl.
  by destruct (py_gt last (Proposer.highest_accepted_id pr)), lv.
Qed.

Lemma receive_promise_ok N u k pr from pid last lv :
  net_ok members N -> proposer_ok members N u k pr -> from ∈ members ->
  sent N from (WPromise k pid last lv) ->
  exists pr' r, Proposer.receive_promise from pid last lv pr = (pr', Ret r) /\
    match r with
    | Some (Accept _ pid' v') =>
        ok_send members N u (WAccept k pid' v') /\
        forall N', extends N N' u (Some (WAccept k pid' v')) -> proposer_ok members N' u k pr'
    | _ => proposer_ok members N u k pr'
    end.
Proof.
  intros HN Hok%(fun h => observe_proposal_ok _ _ _ _ pid h) Hfrom Hs.
  unfold Proposer.receive_promise. generalize dependent (Proposer.observe_proposal pid pr).
  clear pr. intros pr Hok.
  destruct (Proposer.leader pr) eqn:El; [by eauto|simpl].
  case_bool_decide as Hpid; [|by eauto]. subst pid.
  destruct (Proposer.promises_received pr) as [X|] eqn:EX; cycle 1.
  { apply (prop_started _ _ _ _ _ Hok) in EX.
    destruct (net_promise_pid _ _ HN _ _ _ _ _ Hs) as (? & [= <-] & ?). lia. }
  case_bool_decide; [by eauto|]. rewrite adopt_promises.
  destruct (adopt_ok _ _ _ _ _ _ _ HN Hok El Hs) as (Hok1 & Hle & Hid & Hpro & Hl1).
  rewrite <-Hid in Hs. rewrite EX in Hpro.
  pose proof (set_promises_ok _ _ _ _ _ _ _ _ Hok1 Hl1 Hpro Hfrom Hs Hle) as Hok2.
  set (pr2 := Proposer.set_promises_received _ _) in *.
  assert (Proposer.leader pr2 = false) as Hl2 by done.
  assert (Proposer.promises_received pr2 = Some ({[from]} ∪ X)) as Hpro2 by done.
  clearbody pr2. clear dependent pr. rewrite (prop_quorum _ _ _ _ _ Hok2).
  destruct (Z.eqb_spec (Z.of_nat (size ({[from]} ∪ X))) (quorum_of members)) as [Eq|]; [|by eauto].
  assert (Hlead : proposer_ok members N u k (Proposer.set_leader true pr2)).
  { eapply (leader_ok N N u k pr2 None); [done| |done]. intros a m. naive_solver. }
  simpl. destruct (Proposer.proposed_value pr2) as [x|] eqn:Ex; [|by eauto].
  eexists _, _. split; [reflexivity|]. split.
  - exists (Proposer.proposal_id pr2), x. split_and!; try done.
    + by eapply prop_pid.
    + intros w Hw. by destruct (not_proposed _ _ _ _ _ HN Hok2 Hl2 Hw).
    + apply (quorum_safe _ _ _ _ _ _ HN Hok2 Hl2 Hpro2); [lia|done].
  - intros N' HE.
    assert (proposer_ok members N' u k (Proposer.set_leader true pr2)) as [].
    { eapply leader_ok; [done..|]. by intros pid v [= -> _]. }
    by constructor.
Qed.

End preservation.
