(* ===== verification/PaxosSafety.v ===== *)
(** * Safety of the Multi-Paxos cluster

    Every handler of the composed server class preserves the invariant of
    PaxosInvariant; hence no two servers ever disagree on the value of the
    chain at the same instance number. *)
From stdpp Require Import base gmap sets list relations.
From Stdlib Require Import ZArith QArith Lia.
From S2P Require Import Prelude ComposablePaxos ReplicatedValue PaxosFacts PaxosSystem PaxosInvariant PaxosPreservation.
Local Open Scope Z_scope.

#[local] Existing Instance CustomServer.methods.

Section safety.
Context {U V : Type} `{Countable U} `{PyOrder U} `{EqDecision V}.
Context (members : list U).
Implicit Types N : list (packet U V).
Implicit Types s : t U V.
Implicit Types u a : U.
Implicit Types k : Z.
Implicit Types p q l c : ProposalID U.
Implicit Types v : option V.

(** ** The packets among the effects *)
Lemma sends_nil : @sends U V [] None.
Proof. intros m. split; [intros [to Hto]; by apply elem_of_nil in Hto|done]. Qed.

Lemma sends_update v : @sends U V [OnUpdate v] None.
Proof.
  intros m. split; [|done]. intros [to Hto]. by apply list_elem_of_singleton in Hto.
Qed.

Lemma sends_one to (m : wire U V) : sends [Send to m] (Some m).
Proof.
  intros m'. split.
  - intros [to' Hto]. by apply list_elem_of_singleton in Hto as [= _ ->].
  - intros [= <-]. exists to. by apply list_elem_of_singleton.
Qed.

Lemma sends_broadcast u (m : wire U V) :
  u ∈ members -> sends ((fun x => Send x m) <$> members) (Some m).
Proof.
  intros Hu m'. split.
  - intros [to Hto]. by apply list_elem_of_fmap in Hto as (x & [= -> ->] & _).
  - intros [= <-]. exists u. apply list_elem_of_fmap. by exists u.
Qed.

Lemma sends_app (es es' : list (effect U V)) om :
  sends es om -> sends es' None -> sends (es ++ es') om.
Proof.
  intros H1 H2 m. rewrite <-(H1 m). setoid_rewrite elem_of_app. split.
  - intros [to [Hto|Hto]]; [by exists to|]. discriminate (proj1 (H2 m) (ex_intro _ to Hto)).
  - intros [to Hto]. exists to. by left.
Qed.

Lemma packets_extends N u es om :
  sends es om -> extends N (N ++ packets u es) u om.
Proof.
  intros Hs a m. unfold sent, packets. rewrite <-(Hs m). setoid_rewrite elem_of_app.
  setoid_rewrite list_elem_of_omap. split.
  - intros [dst [Hin|(e & He & Heq)]]; [left; by exists dst|].
    destruct e; simplify_eq/=. right. split; [done|]. by exists dst.
  - intros [[dst Hin]|[-> [to Hto]]]; [exists dst; by left|].
    exists to. right. by exists (Send to m).
Qed.

(** ** Rebuilding the server invariant *)
Lemma node_ok_extends_self N N' u om s :
  node_ok members N u s -> extends N N' u om ->
  (forall m, om = Some m ->
     match m with
     | WPromise _ _ _ _ | WAccepted _ _ _ => False
     | WAccept _ _ _ => sent N u m
     | _ => True
     end) ->
  node_ok members N' u s.
Proof.
  intros [? ? ? ? Hf Hac Hpr Hle Hta Hcu] HE Hom. constructor; try done.
  - eapply future_ok_extends; [done..|]. intros _ m Hm. specialize (Hom m Hm).
    destruct m; try done. by apply Hf in Hom.
  - eapply acceptor_ok_extends; [done..|]. intros _ m Hm. specialize (Hom m Hm).
    by split; intros * ->.
  - eapply proposer_ok_extends; [done..|]. intros _ m Hm pid v ->. by apply (Hom _ Hm).
  - by eapply learner_ok_extends.
  - by eapply task_ok_extends.
  - by eapply decided_mono.
Qed.

Lemma extends_nothing N u : extends (U := U) (V := V) N N u None.
Proof. intros a m. naive_solver. Qed.

(** A server that enters instance [k]. *)
Lemma node_ok_fresh N u s s' k v :
  node_ok members N u s -> instance_number s < k -> decided members N k v ->
  network_uid s' = u -> peers s' = members -> quorum_size s' = quorum_of members ->
  instance_number s' = k -> current_value s' = v ->
  paxos s' = PaxosInstance.init u (quorum_of members) None None None ->
  retransmit_task s' = None ->
  node_ok members N u s'.
Proof.
  intros [? ? ? ? Hf _ _ _ _ _] Hlt Hdec Huid Hpeers Hquo Hk Hv Hpax Htask.
  assert (Hlater : forall k', instance_number s < k' ->
    (forall pid last lv, ~ sent N u (WPromise k' pid last lv)) /\
    (forall pid w, ~ sent N u (WAccepted k' pid w)) /\
    (forall pid w, ~ sent N u (WAccept k' pid w))).
  { intros k' Hk'. destruct (Hf k') as (H1' & H2' & H3').
    split_and!; intros * Hs; [apply H1' in Hs|apply H2' in Hs|apply H3' in Hs]; lia. }
  destruct (Hlater k Hlt) as (Hno1 & Hno2 & Hno3).
  constructor; rewrite ?Hk, ?Hv, ?Hpax, ?Htask; try done; [lia|..].
  - intros k'. destruct (Hf k') as (H1' & H2' & H3').
    split_and!; intros * Hs; [apply H1' in Hs|apply H2' in Hs|apply H3' in Hs]; lia.
  - constructor; simpl.
    + intros q last lv Hs. by destruct (Hno1 (Some q) last lv).
    + intros p w Hs. by destruct (Hno2 (Some p) w).
    + apply ple_refl.
    + done.
  - constructor; simpl; try done. intros p w Hs. by destruct (Hno3 (Some p) w).
  - constructor; [done|]. apply counting_init.
Qed.

(** ** The handlers *)
Lemma cancel_delayed_drive_eq s :
  exists d, Backoff.cancel_delayed_drive s = (set_delayed_drive d s, [], Ret tt).
Proof.
  unfold Backoff.cancel_delayed_drive, py_set. destruct s as [? ? ? ? ? ? ? ? ? ? ? ? [[dt []]|]]; simpl.
  - eexists. reflexivity.
  - exists (Some (MkDelayed dt false)). reflexivity.
  - exists None. reflexivity.
Qed.

Lemma stop_driving_eq s :
  exists d, Backoff.stop_driving s
    = (set_delayed_drive d (set_retransmit_task None s), [], Ret tt).
Proof.
  destruct (cancel_delayed_drive_eq (set_retransmit_task None s)) as [d Hd]. exists d.
  unfold Backoff.stop_driving. autounfold with pym. by rewrite Hd.
Qed.

Lemma reschedule_eq dt s :
  Backoff.reschedule_next_drive_attempt dt s
    = (set_delayed_drive (Some (MkDelayed dt true)) s, [], Ret tt).
Proof.
  unfold Backoff.reschedule_next_drive_attempt. autounfold with pym.
  destruct (cancel_delayed_drive_eq s) as [d ->]. reflexivity.
Qed.

#[local] Opaque Backoff.stop_driving Backoff.reschedule_next_drive_attempt.

(** Timers and the saved copies are not part of the invariant. *)
Lemma node_ok_proposer N u s s' pr :
  node_ok members N u s ->
  proposer_ok members N u (instance_number s) pr ->
  network_uid s' = network_uid s -> peers s' = peers s -> quorum_size s' = quorum_size s ->
  instance_number s' = instance_number s -> current_value s' = current_value s ->
  paxos s' = PaxosInstance.set_proposer pr (paxos s) ->
  task_ok N u (instance_number s) (retransmit_task s') ->
  node_ok members N u s'.
Proof.
  intros [? ? ? ? Hf Hac Hpr Hle Hta Hcu] Hpr' Hu Hp Hq Hk Hc Hpax Htask.
  constructor; rewrite ?Hu, ?Hp, ?Hq, ?Hk, ?Hc, ?Hpax; done.
Qed.

Lemma advance_instance_eq k v b s :
  exists s',
    Backoff.advance_instance Base.advance_instance k v b s = (s', [OnUpdate v], Ret tt) /\
    network_uid s' = network_uid s /\ peers s' = peers s /\ quorum_size s' = quorum_size s /\
    instance_number s' = k /\ current_value s' = v /\
    paxos s' = PaxosInstance.init (network_uid s) (quorum_size s) None None None /\
    retransmit_task s' = None.
Proof.
  unfold Backoff.advance_instance, Base.advance_instance, Base.save_state.
  autounfold with pym; simpl.
  match goal with |- context [Backoff.stop_driving ?x] =>
    destruct (stop_driving_eq x) as [d ->] end.
  simpl. eexists. split; [reflexivity|]. by split_and!.
Qed.

(** Entering a later instance whose value is decided. *)
Lemma preserves_advance N u s s0 k v b :
  u ∈ members -> node_ok members N u s -> instance_number s < k -> decided members N k v ->
  network_uid s0 = u -> peers s0 = members -> quorum_size s0 = quorum_of members ->
  preserves members N u (Backoff.advance_instance Base.advance_instance k v b s0).
Proof.
  intros Hu Hok Hlt Hdec H1 H2 H3.
  destruct (advance_instance_eq k v b s0) as (s' & -> & E1 & E2 & E3 & E4 & E5 & E6 & E7).
  exists None. split_and!; [by eexists|apply sends_update|done|]. intros N' HE.
  apply (node_ok_fresh N' u s s' k v); try congruence.
  - by eapply node_ok_extends_self.
  - by eapply decided_mono.
Qed.

Lemma preserves_stay N u s (es : list (effect U V)) m :
  node_ok members N u s -> sends es m -> (forall x, m = Some x -> ok_send members N u x) ->
  (forall x, m = Some x ->
     match x with
     | WPromise _ _ _ _ | WAccepted _ _ _ => False
     | WAccept _ _ _ => sent N u x
     | _ => True
     end) ->
  preserves members N u (s, es, Ret tt).
Proof.
  intros Hok Hs Hsend Hharm. exists m. split_and!; [by eexists|done..|].
  intros N' HE. by eapply node_ok_extends_self.
Qed.

(** [x <- self.attribute; method()] *)
Lemma preserves_bind N u (x : t U V * list (effect U V) * outcome unit) :
  preserves members N u x ->
  preserves members N u (let '(s'', es', r) := x in (s'', [] ++ es', r)).
Proof. by destruct x as [[? ?] ?]. Qed.

Lemma sync_request_ok N u s from k :
  node_ok members N u s -> preserves members N u (Sync.receive_sync_request from k s).
Proof.
  intros Hok. unfold Sync.receive_sync_request. autounfold with pym; simpl.
  destruct (k <? instance_number s).
  - eapply preserves_stay; [done|apply sends_one|..].
    + intros w [= <-]. simpl. by eapply node_current.
    + by intros w [= <-].
  - by eapply preserves_stay; [done|apply sends_nil|..].
Qed.

Lemma catchup_ok N u s from k v :
  net_ok members N -> u ∈ members -> node_ok members N u s -> sent N from (WCatchup k v) ->
  preserves members N u (Sync.receive_catchup from k v s).
Proof.
  intros HN Hu Hok Hs. unfold Sync.receive_catchup, py_bind, py_get, id.
  destruct (Z.ltb_spec (instance_number s) k) as [Hlt|].
  - apply preserves_bind, preserves_advance with s; try done; [|by apply Hok..].
    by eapply net_catchup.
  - by eapply preserves_stay; [done|apply sends_nil|..].
Qed.

Lemma nack_ok N u s rnd from k pid promised :
  node_ok members N u s ->
  preserves members N u (Backoff.receive_nack Base.receive_nack rnd from k pid promised s).
Proof.
  intros Hok. unfold Backoff.receive_nack, Base.receive_nack, PaxosInstance.receive_nack.
  autounfold with pym; simpl.
  destruct (Z.eqb_spec k (instance_number s)) as [->|];
    [|by eapply preserves_stay; [done|apply sends_nil|..]].
  rewrite Z.eqb_refl.
  destruct (receive_nack_ok members N u (instance_number s) _ from pid promised
              (node_proposer _ _ _ _ Hok)) as (pr' & m & -> & Hpr').
  simpl. match goal with |- context [Backoff.stop_driving ?x] =>
    destruct (stop_driving_eq x) as [d ->] end.
  simpl. match goal with |- context [if ?b then _ else _] => destruct b end; simpl;
    rewrite reschedule_eq; simpl; exists None; (split_and!; [by eexists|apply sends_nil|done|]);
    intros N' HE; (eapply node_ok_extends_self; [|exact HE|done]);
    by apply (node_ok_proposer N u s _ pr').
Qed.

(** [self.save_state] touches the saved copies only. *)
Lemma prepare_packet_ok N u s from k pid :
  net_ok members N -> node_ok members N u s -> sent N from (WPrepare k pid) ->
  preserves members N u (Base.receive_prepare from k pid s).
Proof.
  intros HN Hok Hs. destruct (net_prepare _ _ HN _ _ _ Hs) as (p & -> & Hnum).
  unfold Base.receive_prepare, Base.save_state, PaxosInstance.receive_prepare.
  autounfold with pym; simpl.
  destruct (Z.eqb_spec k (instance_number s)) as [->|];
    [|by eapply preserves_stay; [done|apply sends_nil|..]].
  pose proof (acceptor_prepare_ok members N u _ _ from p (node_acceptor _ _ _ _ Hok) Hnum) as Hac.
  pose proof (observe_proposal_ok members N u _ _ (Some p) (node_proposer _ _ _ _ Hok)) as Hpr.
  destruct Hok as [? ? ? ? Hf Hac0 Hpr0 Hle Hta Hcu].
  destruct (Acceptor.receive_prepare _ _ _) as [ac' m]. 
  destruct m; simpl; 
    try (eexists; split_and!; [by eexists|apply sends_one|by intros ? [= <-]|];
      intros N' HE; eapply node_ok_extends_self; [|exact HE|by intros ? [= <-]];
      constructor; try done; by rewrite Hac).
  destruct Hac as [Hsend Hac]. eexists. split_and!; [by eexists|apply sends_one|by intros ? [= <-]|].
  intros N' HE. constructor; try done.
  - eapply future_ok_extends; [done..|]. by intros _ ? [= <-].
  - by apply Hac.
  - eapply proposer_ok_extends; [done..|]. by intros _ ? [= <-].
  - by eapply learner_ok_extends.
  - by eapply task_ok_extends.
  - by eapply decided_mono.
Qed.

Lemma accept_packet_ok N u s from k pid v :
  net_ok members N -> u ∈ members -> node_ok members N u s ->
  sent N from (WAccept k pid v) ->
  preserves members N u (Backoff.receive_accept Base.receive_accept from k pid v s).
Proof.
  intros HN Hu Hok Hs. destruct (net_accept _ _ HN _ _ _ _ Hs) as (p & x & -> & -> & _).
  unfold Backoff.receive_accept, Base.receive_accept, Base.save_state, Base.send_accepted,
    Base.broadcast, PaxosInstance.receive_accept.
  autounfold with pym; simpl.
  destruct (Z.eqb_spec k (instance_number s)) as [->|];
    [|by eapply preserves_stay; [done|apply sends_nil|..]].
  rewrite Z.eqb_refl.
  pose proof (acceptor_accept_ok members N u _ _ from p (Some x) (node_acceptor _ _ _ _ Hok)
                (ex_intro _ from Hs)) as Hac.
  pose proof (observe_proposal_ok members N u _ _ (Some p) (node_proposer _ _ _ _ Hok)) as Hpr.
  destruct Hok as [? Hpeers ? ? Hf Hac0 Hpr0 Hle Hta Hcu].
  destruct (Acceptor.receive_accept _ _ _ _) as [ac' m].
  destruct m; simpl; rewrite reschedule_eq; simpl;
    try (eexists; split_and!; [by eexists|apply sends_one|by intros ? [= <-]|];
      intros N' HE; eapply node_ok_extends_self; [|exact HE|by intros ? [= <-]];
      constructor; try done; by rewrite Hac).
  destruct Hac as (-> & -> & Hsend & Hac). rewrite app_nil_r, Hpeers.
  eexists. split_and!; [by eexists|by eapply sends_broadcast|by intros ? [= <-]|].
  intros N' HE. constructor; try done.
  - eapply future_ok_extends; [done..|]. by intros _ ? [= <-].
  - by apply Hac.
  - eapply proposer_ok_extends; [done..|]. by intros _ ? [= <-].
  - by eapply learner_ok_extends.
  - by eapply task_ok_extends.
  - by eapply decided_mono.
Qed.

Lemma promise_packet_ok N u s from k pid last lv :
  net_ok members N -> u ∈ members -> node_ok members N u s ->
  sent N from (WPromise k pid last lv) ->
  preserves members N u (Base.receive_promise from k pid last lv s).
Proof.
  intros HN Hu Hok Hs.
  unfold Base.receive_promise, PaxosInstance.receive_promise.
  autounfold with pym; simpl.
  destruct (Z.eqb_spec k (instance_number s)) as [->|];
    [|by eapply preserves_stay; [done|apply sends_nil|..]].
  destruct (receive_promise_ok members N u _ _ from pid last lv HN (node_proposer _ _ _ _ Hok)
              (net_members _ _ HN _ _ Hs) Hs) as (pr' & r & -> & Hpr').
  assert (Hsame :
    proposer_ok members N u (instance_number s) pr' ->
    preserves members N u (set_paxos (PaxosInstance.set_proposer pr' (paxos s)) s, [], Ret tt)).
  { intros Hpr. eapply preserves_stay; [|apply sends_nil|done..].
    by apply (node_ok_proposer N u s _ pr'); try apply Hok. }
  destruct r as [[]|]; simpl; try by apply Hsame.
  destruct Hpr' as [Hsend Hpr'].
  unfold Backoff.send_accept, Base.send_accept, Base.broadcast. autounfold with pym; simpl.
  destruct Hok as [? Hpeers ? ? Hf Hac0 Hpr0 Hle Hta Hcu]. rewrite Hpeers.
  eexists. split_and!; [by eexists|by eapply sends_broadcast|by intros ? [= <-]|].
  intros N' HE. constructor; try done.
  - eapply future_ok_extends; [done..|]. by intros _ ? [= <-].
  - eapply acceptor_ok_extends; [done..|]. by intros _ ? [= <-].
  - by apply Hpr'.
  - by eapply learner_ok_extends.
  - split_and!; [done| |done]. intros pid' v' i [= <- <- <-]. apply HE. by right.
  - by eapply decided_mono.
Qed.

Lemma accepted_packet_ok N u s from k pid v :
  net_ok members N -> u ∈ members -> node_ok members N u s ->
  sent N from (WAccepted k pid v) ->
  preserves members N u (Base.receive_accepted from k pid v s).
Proof.
  intros HN Hu Hok Hs. destruct (net_vote _ _ HN _ _ _ _ Hs) as (p & -> & Hprop).
  unfold Base.receive_accepted, PaxosInstance.receive_accepted.
  autounfold with pym; simpl.
  destruct (Z.eqb_spec k (instance_number s)) as [->|];
    [|by eapply preserves_stay; [done|apply sends_nil|..]].
  destruct (node_learner _ _ _ _ Hok) as [Hq Hcnt].
  destruct (learner_vote _ _ from p v Hcnt) as (le' & _ & Hq' & Hres).
  { rewrite Hq. apply quorum_pos. }
  { intros q a b x y Ha Hb. 
    destruct (net_vote _ _ HN _ _ _ _ Ha) as (q' & [= <-] & Hqa).
    destruct (net_vote _ _ HN _ _ _ _ Hb) as (q' & [= <-] & Hqb).
    by apply (net_unique _ _ HN (instance_number s) q). }
  { done. }
  destruct Hres as [[-> Hcnt']|(-> & _ & Hback)]; simpl.
  - eapply preserves_stay; [|apply sends_nil|done..].
    destruct Hok. constructor; try done. constructor; [|done]. simpl. congruence.
  - destruct Hback as (q & X & HX & HXv). rewrite Hq in HX.
    apply preserves_bind, preserves_bind, preserves_advance with s; try apply Hok; try done; [lia|].
    right. split; [pose proof (node_instance _ _ _ _ Hok); lia|]. exists q, X. split.
    + split; [|done]. intros a Ha. apply elem_of_list_to_set. by eapply net_members, HXv.
    + intros a Ha. replace (instance_number s + 1 - 1) with (instance_number s) by lia.
      by apply HXv.
Qed.

(** Driving sends a Prepare with the proposer's new number. *)
Lemma drive_ok N u s :
  u ∈ members -> node_ok members N u s ->
  preserves members N u (Backoff.drive_to_resolution s).
Proof.
  intros Hu Hok. unfold Backoff.drive_to_resolution, Base.send_prepare, Base.broadcast,
    PaxosInstance.prepare.
  autounfold with pym. destruct (stop_driving_eq s) as [d ->]. simpl.
  rewrite (node_peers _ _ _ _ Hok).
  destruct (prepare_ok members N u _ _ (node_proposer _ _ _ _ Hok)) as (Hpr & Hnum & _).
  eexists. split_and!; [by eexists|by eapply sends_broadcast|intros ? [= <-]; by eexists|].
  intros N' HE. eapply node_ok_extends_self; [|exact HE|by intros ? [= <-]].
  apply (node_ok_proposer N u s _ (Proposer.prepare (PaxosInstance.proposer (paxos s))).1);
    try done.
  split_and!; [|done..]. intros pid i [= <- <-]. by eexists.
Qed.

#[local] Opaque Backoff.drive_to_resolution.

Lemma propose_ok N u s x :
  u ∈ members -> node_ok members N u s ->
  preserves members N u (CustomServer.propose_update x s).
Proof.
  intros Hu Hok. unfold CustomServer.propose_update, Backoff.propose_update,
    Base.propose_update, PaxosInstance.propose_value.
  autounfold with pym; simpl.
  destruct (Proposer.proposed_value _) eqn:E; simpl;
    (apply preserves_bind || idtac).
  - by apply drive_ok.
  - apply drive_ok; [done|]. 
    apply (node_ok_proposer N u s _
      (Proposer.propose_value (Some x) (PaxosInstance.proposer (paxos s))).1); try apply Hok; try done.
    + by apply propose_value_ok, Hok.
    + simpl. by destruct (Proposer.propose_value _ _).
Qed.

Lemma drive_fires_ok N u s :
  u ∈ members -> node_ok members N u s ->
  preserves members N u (CustomServer.delayed_drive_fires s).
Proof.
  intros Hu Hok. unfold CustomServer.delayed_drive_fires. autounfold with pym; simpl.
  destruct (delayed_drive s) as [d|] eqn:E;
    [|by eapply preserves_stay; [done|apply sends_nil|..]].
  destruct (active d); simpl; [|by eapply preserves_stay; [done|apply sends_nil|..]].
  apply preserves_bind, preserves_bind, drive_ok; [done|].
  destruct Hok. by constructor.
Qed.

Lemma retransmit_ok N u s :
  net_ok members N -> u ∈ members -> node_ok members N u s ->
  preserves members N u (CustomServer.retransmit s).
Proof.
  intros HN Hu Hok. unfold CustomServer.retransmit, CustomServer.fire, Base.send_prepare, Base.send_accept,
    Base.broadcast. autounfold with pym; simpl.
  destruct (retransmit_task s) as [[pid i|pid v i|i]|] eqn:E;
    rewrite ?(node_peers _ _ _ _ Hok);
    [..|by eapply preserves_stay; [done|apply sends_nil|..]].
  - pose proof (proj1 (node_task _ _ _ _ Hok) _ _ E) as Hp.
    by eapply preserves_stay; [done|eapply sends_broadcast|intros ? [= <-]..].
  - pose proof (proj1 (proj2 (node_task _ _ _ _ Hok)) _ _ _ E) as Hs.
    eapply preserves_stay; [done|by eapply sends_broadcast| |by intros ? [= <-]].
    intros ? [= <-]. destruct (net_accept _ _ HN _ _ _ _ Hs) as (p & x & -> & -> & Huid).
    exists p, x. split_and!; try done.
    + intros w Hw. apply (net_unique _ _ HN (instance_number s) p); [done|by exists u].
    + apply (net_safe _ _ HN). by exists u.
  - by destruct (proj2 (proj2 (node_task _ _ _ _ Hok)) i).
Qed.

Lemma sync_ok N u s peer :
  node_ok members N u s -> preserves members N u (Sync.sync peer s).
Proof.
  intros Hok. unfold Sync.sync. autounfold with pym; simpl.
  eapply preserves_stay; [done|apply sends_one|by intros ? [= <-]..].
Qed.

Lemma receive_ok N u s rnd from m :
  net_ok members N -> u ∈ members -> node_ok members N u s -> sent N from m ->
  preserves members N u (CustomServer.receive rnd from m s).
Proof.
  intros HN Hu Hok Hs. destruct m; simpl.
  - by apply sync_request_ok.
  - by apply catchup_ok.
  - by apply nack_ok.
  - by apply prepare_packet_ok.
  - by apply promise_packet_ok.
  - by apply accept_packet_ok.
  - by apply accepted_packet_ok.
Qed.

(** ** The world *)
Lemma on_node_ok u (c : M U V unit) (w w' : world U V) :
  world_ok members w ->
  (forall s, nodes w !! u = Some s -> u ∈ members -> node_ok members (net w) u s ->
     preserves members (net w) u (c s)) ->
  on_node u c w = Some w' -> world_ok members w'.
Proof.
  intros [HN Hnodes] Hc. unfold on_node.
  destruct (nodes w !! u) as [s|] eqn:Es; simpl; [|done]. intros [= <-].
  destruct (Hnodes u s Es) as [Hu Hok].
  destruct (Hc s eq_refl Hu Hok) as (om & _ & Hsends & Hsend & Hpost).
  pose proof (packets_extends (net w) u _ om Hsends) as HE.
  constructor; simpl.
  - by eapply net_ok_extends.
  - intros a sa. rewrite lookup_insert_Some. intros [[<- <-]|[Hne Ha]].
    + split; [done|]. by apply Hpost.
    + destruct (Hnodes a sa Ha). split; [done|]. by eapply node_ok_extends_other.
Qed.

Lemma step_ok (w w' : world U V) : world_ok members w -> step w w' -> world_ok members w'.
Proof.
  intros Hw [[src dst m rnd|u v|u|u|u peer] Ha]; simpl in Ha.
  - destruct (decide _) as [Hin|]; [|done]. eapply on_node_ok; [done| |done].
    intros s _ Hu Hok. apply receive_ok; [apply Hw|done..|]. by exists dst.
  - eapply on_node_ok; [done| |done]. intros. by apply propose_ok.
  - eapply on_node_ok; [done| |done]. intros. apply retransmit_ok; [apply Hw|done..].
  - eapply on_node_ok; [done| |done]. intros. by apply drive_fires_ok.
  - destruct (nodes w !! u) as [s|] eqn:Es; simpl in Ha; [|done].
    destruct (decide _); [|done]. eapply on_node_ok; [done| |done].
    intros. by apply sync_ok.
Qed.

Lemma sent_nil u (m : wire U V) : ~ sent [] u m.
Proof. intros [dst Hin]. by apply elem_of_nil in Hin. Qed.

Lemma initial_ok : world_ok members (initial (V := V) members).
Proof.
  constructor; simpl.
  - constructor; try (by intros * Hs%sent_nil).
    + intros * [a Hs%sent_nil]. done.
    + intros k p v [a Hs%sent_nil]. done.
  - intros u s Hs. apply elem_of_list_to_map_2, list_elem_of_fmap in Hs as (u' & [= <- ->] & Hu).
    split; [done|]. constructor; try done; simpl.
    + intros k. split_and!; intros * Hs%sent_nil; done.
    + constructor; try done; intros * Hs%sent_nil; done.
    + constructor; try done; [by intros * Hs%sent_nil|by intros * _ Hs%sent_nil].
    + constructor; [done|]. apply counting_init.
    + by left.
Qed.

Lemma chosen_agree N k p q v x :
  NoDup members -> net_ok members N -> chosen members N k p v -> chosen members N k q x ->
  v = x.
Proof.
  intros Hnd HN (X & HX & HXv) (Y & HY & HYv).
  assert (Hprop : forall Z r y, quorum members Z -> (forall a, a ∈ Z -> voted N k a r y) ->
    proposed N k r y).
  { intros Z r y HZ HZv. destruct (quorum_meet members Z Z Hnd HZ HZ) as (a & Ha & _).
    by destruct (net_vote _ _ HN _ _ _ _ (HZv a Ha)) as (? & [= <-] & ?). }
  assert (Hbelow : forall Z W r r' y y', quorum members Z -> (forall a, a ∈ Z -> voted N k a r y) ->
    quorum members W -> (forall a, a ∈ W -> voted N k a r' y') -> r ≺ r' -> y = y').
  { intros Z W r r' y y' HZ HZv HW HWv Hlt.
    destruct (net_safe _ _ HN _ _ _ (Hprop _ _ _ HW HWv) r Hlt) as (Q & HQ & HQv).
    destruct (quorum_meet members Z Q Hnd HZ HQ) as (a & Ha1 & Ha2).
    by apply (HQv a Ha2), HZv. }
  destruct (py_ltb p q) eqn:E1; [exact (Hbelow X Y p q v x HX HXv HY HYv E1)|].
  destruct (py_ltb q p) eqn:E2; [exact (eq_sym (Hbelow Y X q p x v HY HYv HX HXv E2))|].
  pose proof (py_ltb_total p q E1 E2) as ->.
  exact (net_unique _ _ HN k q _ _ (Hprop X q v HX HXv) (Hprop Y q x HY HYv)).
Qed.

Lemma decided_agree N k v x :
  NoDup members -> net_ok members N -> decided members N k v -> decided members N k x -> v = x.
Proof.
  intros Hnd HN [[-> ->]|[Hk [p Hp]]] [[Hk' ->]|[Hk' [q Hq]]]; try done; try lia.
  by eapply chosen_agree.
Qed.

Lemma reachable_ok (w : world U V) : reachable members w -> world_ok members w.
Proof.
  apply (rtc_ind_r (world_ok members) (initial members)); [apply initial_ok|].
  intros w1 w2 _ Hstep IH. by eapply step_ok.
Qed.

Lemma on_node_net u (c : M U V unit) (w w' : world U V) :
  on_node u c w = Some w' -> exists es, net w' = net w ++ packets u es.
Proof.
  unfold on_node. destruct (nodes w !! u); simpl; [|done]. intros [= <-]. eauto.
Qed.

(** Decisions are never forgotten. *)
Lemma step_decided (w w' : world U V) k v :
  world_ok members w -> step w w' -> decided members (net w) k v -> decided members (net w') k v.
Proof.
  intros Hw Hstep Hdec.
  assert (exists es u, net w' = net w ++ packets u es) as (es & u & ->).
  { destruct Hstep as [[src dst m rnd|u x|u|u|u peer] Ha]; simpl in Ha.
    - case_decide; [|done]. apply on_node_net in Ha as [es ?]. eauto.
    - apply on_node_net in Ha as [es ?]. eauto.
    - apply on_node_net in Ha as [es ?]. eauto.
    - apply on_node_net in Ha as [es ?]. eauto.
    - destruct (nodes w !! u) as [s|]; simpl in Ha; [|done].
      case_decide; [|done]. apply on_node_net in Ha as [es ?]. eauto. }
  assert (Hsub : forall a m, sent (net w) a m -> sent (net w ++ packets u es) a m).
  { intros a m [dst Hin]. exists dst. apply elem_of_app. by left. }
  destruct Hdec as [Hk|[Hk (p & X & HX & HXv)]]; [by left|right]. split; [done|].
  exists p, X. split; [done|]. intros a Ha. by apply Hsub, HXv.
Qed.

End safety.
