(* ===== verification/PaxosValidity.v ===== *)
(** * Where the values of the cluster come from

    The values of Accept packets and the proposers' values come from clients:
    an invariant over a predicate [P] on values, which holds of every value
    given to [propose_update].  With the invariant of PaxosInvariant (votes are
    for proposals, the chain's values are chosen) it makes every value of the
    chain a client's. *)
From stdpp Require Import base gmap sets list relations.
From Stdlib Require Import ZArith QArith Lia.
From S2P Require Import Prelude ComposablePaxos ReplicatedValue PaxosFacts PaxosSystem PaxosInvariant PaxosPreservation PaxosSafety.
Local Open Scope Z_scope.

#[local] Existing Instance CustomServer.methods.
#[local] Opaque Backoff.stop_driving Backoff.reschedule_next_drive_attempt.

Section validity.
Context {U V : Type} `{Countable U} `{PyOrder U} `{EqDecision V}.
Context (P : V -> Prop).

Definition from_client (v : option V) : Prop := forall x, v = Some x -> P x.

(** What a server may offer in an Accept packet. *)
Record offers_ok (s : t U V) : Prop := OffersOk {
  offers_proposed :
    from_client (Proposer.proposed_value (PaxosInstance.proposer (paxos s)));
  offers_task pid v i : retransmit_task s = Some (SendAccept pid v i) -> from_client v;
}.

Definition effects_ok (es : list (effect U V)) : Prop :=
  forall to k pid v, Send to (WAccept k pid v) ∈ es -> from_client v.

Definition offers {A} (x : t U V * list (effect U V) * outcome A) : Prop :=
  offers_ok (post x) /\ effects_ok (effects x).

Record values_ok (w : world U V) : Prop := ValuesOk {
  values_net u k pid v : sent (net w) u (WAccept k pid v) -> from_client v;
  values_nodes u s : nodes w !! u = Some s -> offers_ok s;
}.

Lemma effects_nil : effects_ok [].
Proof. intros to k pid v Hin. by apply elem_of_nil in Hin. Qed.

Lemma effects_update v : effects_ok [OnUpdate v].
Proof. intros to k pid x Hin. by apply list_elem_of_singleton in Hin. Qed.

Lemma effects_one to (m : wire U V) :
  (forall k pid v, m = WAccept k pid v -> from_client v) -> effects_ok [Send to m].
Proof. intros Hm to' k pid v Hin. apply list_elem_of_singleton in Hin as [= _ <-]. eauto. Qed.

Lemma effects_broadcast us (m : wire U V) :
  (forall k pid v, m = WAccept k pid v -> from_client v) ->
  effects_ok ((fun x => Send x m) <$> us).
Proof.
  intros Hm to k pid v Hin. apply list_elem_of_fmap in Hin as (x & [= -> <-] & _). eauto.
Qed.

Lemma offers_same (s s' : t U V) :
  offers_ok s ->
  Proposer.proposed_value (PaxosInstance.proposer (paxos s')) =
    Proposer.proposed_value (PaxosInstance.proposer (paxos s)) ->
  (retransmit_task s' = retransmit_task s \/ retransmit_task s' = None \/
   exists pid i, retransmit_task s' = Some (SendPrepare pid i)) ->
  offers_ok s'.
Proof.
  intros [Hp Ht] Heq Htask. constructor; [by rewrite Heq|]. intros pid v i Hi.
  destruct Htask as [Hn|[Hn|(q & j & Hn)]]; rewrite Hn in Hi; [by eapply Ht|done|done].
Qed.

Lemma offers_stay (s : t U V) es : offers_ok s -> effects_ok es -> offers (s, es, Ret tt).
Proof. done. Qed.

Lemma from_client_none : from_client None.
Proof. by intros x [=]. Qed.

(** The proposer keeps its value, or adopts the one of a promise. *)
Lemma observe_proposed pid (pr : Proposer.t U V) :
  Proposer.proposed_value (Proposer.observe_proposal pid pr) = Proposer.proposed_value pr.
Proof. destruct pid as [p|]; simpl; [|done]. by destruct (py_gt _ _). Qed.

Lemma nack_proposed from pid promised (pr : Proposer.t U V) :
  Proposer.proposed_value (Proposer.receive_nack from pid promised pr).1
    = Proposer.proposed_value pr.
Proof.
  unfold Proposer.receive_nack. rewrite <-(observe_proposed promised pr).
  generalize (Proposer.observe_proposal promised pr) as s. intros s. simpl.
  destruct (Proposer.nacks_received s); [|done]. destruct (bool_decide _); [|done].
  by destruct (_ =? _).
Qed.

Lemma adopt_values last lv (pr : Proposer.t U V) :
  from_client (Proposer.proposed_value pr) ->
  (forall l, last = Some l -> from_client lv) ->
  from_client (Proposer.proposed_value (Proposer.adopt last lv pr)).
Proof.
  intros Hp Hlast. unfold Proposer.adopt.
  destruct (py_gt last _) eqn:E; [|done]. destruct lv as [x|]; [|done].
  destruct last as [l|]; [by eapply Hlast|].
  exfalso. revert E. by destruct (Proposer.highest_accepted_id pr).
Qed.

Lemma promise_values from pid last lv (pr : Proposer.t U V) :
  from_client (Proposer.proposed_value pr) ->
  (forall l, last = Some l -> from_client lv) ->
  let x := Proposer.receive_promise from pid last lv pr in
  from_client (Proposer.proposed_value x.1) /\
  forall f q v, x.2 = Ret (Some (Accept f q v)) -> from_client v.
Proof.
  intros Hp Hlast. unfold Proposer.receive_promise.
  rewrite <-(observe_proposed pid pr) in Hp.
  destruct (negb _ && _); [|by (split; [done|by intros])].
  destruct (Proposer.promises_received _) as [X|]; [|by (split; [done|by intros])].
  destruct (bool_decide _); [by (split; [done|by intros])|].
  pose proof (adopt_values last lv
    (Proposer.set_promises_received (Some ({[from]} ∪ X)) (Proposer.observe_proposal pid pr))
    Hp Hlast) as Ha.
  destruct (_ =? _); [|by (split; [done|by intros])]. simpl. revert Ha.
  destruct (Proposer.proposed_value (Proposer.adopt _ _ _)) as [y|] eqn:E; simpl; intros Ha;
    (split; [by rewrite ?E in *|]); [|by intros]. by intros f q v [= _ _ <-].
Qed.

(** ** The handlers *)
Lemma offers_bind {A} (x : t U V * list (effect U V) * outcome A) :
  offers x -> offers (let '(s'', es', r) := x in (s'', [] ++ es', r)).
Proof. by destruct x as [[? ?] ?]. Qed.

Lemma advance_offers k v b (s : t U V) :
  offers (Backoff.advance_instance Base.advance_instance k v b s).
Proof.
  destruct (advance_instance_eq k v b s) as (s' & -> & _ & _ & _ & _ & _ & Hp & Ht).
  split; [|apply effects_update]. constructor; unfold post; simpl.
  - rewrite Hp. apply from_client_none.
  - intros pid w i. by rewrite Ht.
Qed.

(** The handlers that can change or send a proposal. *)
Lemma nack_offers rnd from k pid q (s : t U V) :
  offers_ok s -> offers (CustomServer.receive rnd from (WNack k pid q) s).
Proof.
  intros Hok. simpl. unfold Backoff.receive_nack, Base.receive_nack, PaxosInstance.receive_nack.
  autounfold with pym; simpl. destruct (k =? instance_number s) eqn:Ek; [|by apply offers_stay, effects_nil]. rewrite Ek.
  pose proof (nack_proposed from pid q (PaxosInstance.proposer (paxos s))) as Hv.
  destruct (Proposer.receive_nack _ _ _ _) as [pr [r|e]]; simpl in *;
    [|split; [|apply effects_nil]; eapply offers_same; [exact Hok|exact Hv|auto]].
  match goal with |- context [Backoff.stop_driving ?x] =>
    destruct (stop_driving_eq x) as [d ->] end.
  simpl. match goal with |- context [if ?b then _ else _] => destruct b end;
    rewrite reschedule_eq; simpl; (split; [|apply effects_nil]);
    (eapply offers_same; [exact Hok|exact Hv|auto]).
Qed.

Lemma promise_offers rnd from k pid l v (s : t U V) :
  offers_ok s -> (forall x, l = Some x -> from_client v) ->
  offers (CustomServer.receive rnd from (WPromise k pid l v) s).
Proof.
  intros Hok Hv0. simpl. unfold Base.receive_promise, PaxosInstance.receive_promise.
  autounfold with pym; simpl. destruct (k =? _); [|by apply offers_stay, effects_nil].
  destruct (promise_values from pid l v (PaxosInstance.proposer (paxos s))
              (offers_proposed _ Hok) Hv0) as [Hv Hr].
  destruct (Proposer.receive_promise _ _ _ _ _) as [pr r]; simpl in *.
  assert (offers_ok (set_paxos (PaxosInstance.set_proposer pr (paxos s)) s)) as Hok'
    by (constructor; [done|apply Hok]).
  destruct r as [[[]|]|]; simpl; try (by split; [|apply effects_nil]).
  rewrite ?app_nil_r. split; [|by apply effects_broadcast; intros * [= _ _ <-]; eauto].
  constructor; [done|]. intros pid' v' i [= _ <- _]. eauto.
Qed.

Lemma accept_offers rnd from k pid v (s : t U V) :
  offers_ok s -> offers (CustomServer.receive rnd from (WAccept k pid v) s).
Proof.
  intros Hok. simpl. unfold Backoff.receive_accept, Base.receive_accept, Base.save_state, Base.send_accepted,
    Base.broadcast, PaxosInstance.receive_accept.
  autounfold with pym; simpl. destruct (k =? instance_number s) eqn:Ek; [|by apply offers_stay, effects_nil]. rewrite Ek.
  destruct (Acceptor.receive_accept _ _ _ _) as [ac []]; simpl; rewrite reschedule_eq; simpl;
    rewrite ?app_nil_r; (split; [|by (apply effects_one || apply effects_broadcast)]);
    (eapply offers_same; [exact Hok|apply observe_proposed|auto]).
Qed.

Lemma receive_offers rnd from (m : wire U V) (s : t U V) :
  offers_ok s ->
  (forall k pid last lv, m = WPromise k pid last lv ->
     forall l, last = Some l -> from_client lv) ->
  offers (CustomServer.receive rnd from m s).
Proof.
  intros Hok Hm.
  assert (offers (s, [], Ret tt)) as Hstay by (by apply offers_stay, effects_nil).
  destruct m as [k|k v|k pid q|k pid|k pid l v|k pid v|k pid v];
    [| |by apply nack_offers| |by eapply promise_offers, Hm|by apply accept_offers|]; simpl.
  - unfold Sync.receive_sync_request. autounfold with pym; simpl.
    destruct (_ <? _); [|done]. by apply offers_stay, effects_one.
  - unfold Sync.receive_catchup. autounfold with pym; simpl.
    destruct (_ <? _); [|done]. apply offers_bind, advance_offers.
  - unfold Base.receive_prepare, Base.save_state, PaxosInstance.receive_prepare.
    autounfold with pym; simpl. destruct (k =? _); [|done].
    destruct (Acceptor.receive_prepare _ _ _) as [ac []]; simpl;
      (split; [|by apply effects_one]);
      (eapply offers_same; [exact Hok|apply observe_proposed|auto]).
  - unfold Base.receive_accepted, PaxosInstance.receive_accepted.
    autounfold with pym; simpl. destruct (k =? _); [|done].
    destruct (Learner.receive_accepted _ _ _ _) as [le r]; simpl in *.
    assert (offers_ok (set_paxos (PaxosInstance.MkInstance
      (PaxosInstance.proposer (paxos s)) (PaxosInstance.acceptor (paxos s)) le) s)) as Hok'
      by (constructor; apply Hok).
    destruct r as [[[]|]|]; simpl; try (by split; [|apply effects_nil]).
    do 2 apply offers_bind. apply advance_offers.
Qed.

Lemma drive_offers (s : t U V) : offers_ok s -> offers (Backoff.drive_to_resolution s).
Proof.
  intros Hok. unfold Backoff.drive_to_resolution, Base.send_prepare, Base.broadcast.
  autounfold with pym; simpl. destruct (stop_driving_eq s) as [d ->]. simpl.
  rewrite ?app_nil_r. split; [|by apply effects_broadcast].
  eapply offers_same; [exact Hok|done|eauto].
Qed.

Lemma propose_offers v (s : t U V) :
  offers_ok s -> P v -> offers (CustomServer.propose_update v s).
Proof.
  intros Hok Hv. unfold CustomServer.propose_update, Backoff.propose_update, Base.propose_update.
  autounfold with pym; simpl.
  destruct (Proposer.proposed_value _) eqn:E; simpl; apply offers_bind, drive_offers; [done|].
  constructor; [|apply Hok]. simpl. unfold PaxosInstance.propose_value, Proposer.propose_value.
  rewrite E. by destruct (Proposer.leader _); simpl; intros x [= <-].
Qed.

Lemma retransmit_offers (s : t U V) : offers_ok s -> offers (CustomServer.retransmit s).
Proof.
  intros Hok. unfold CustomServer.retransmit, CustomServer.fire, Base.send_prepare, Base.send_accept, Base.broadcast.
  autounfold with pym; simpl. destruct (retransmit_task s) as [[pid i|pid v i|i]|] eqn:E; simpl;
    (split; [done|]).
  - by apply effects_broadcast.
  - apply effects_broadcast. intros * [= _ _ <-]. by eapply offers_task.
  - by apply effects_broadcast.
  - apply effects_nil.
Qed.

Lemma drive_fires_offers (s : t U V) :
  offers_ok s -> offers (CustomServer.delayed_drive_fires s).
Proof.
  intros Hok. unfold CustomServer.delayed_drive_fires. autounfold with pym; simpl.
  assert (offers (s, [], Ret tt)) as Hstay by (by apply offers_stay, effects_nil).
  destruct (delayed_drive s) as [d|]; [|done]. destruct (active d); [|done]. simpl.
  do 2 apply offers_bind. apply drive_offers. eapply offers_same; eauto.
Qed.

(** ** The cluster *)
Lemma packets_sent N a u es (m : wire U V) :
  sent (N ++ packets u es) a m -> sent N a m \/ exists to, Send to m ∈ es.
Proof.
  intros [dst [Hin|Hin]%elem_of_app]; [left; by exists dst|right].
  apply list_elem_of_omap in Hin as (e & He & Heq). destruct e; simplify_eq/=. eauto.
Qed.

Lemma on_node_values u (c : M U V unit) (w w' : world U V) :
  values_ok w -> (forall s, nodes w !! u = Some s -> offers_ok s -> offers (c s)) ->
  on_node u c w = Some w' -> values_ok w'.
Proof.
  intros [Hnet Hnodes] Hc. unfold on_node.
  destruct (nodes w !! u) as [s|] eqn:Es; simpl; [|done]. intros [= <-].
  destruct (Hc s eq_refl (Hnodes _ _ Es)) as [Hpost Heff]. constructor; simpl.
  - intros a k pid v [Hs|[to Hto]]%packets_sent; [by eapply Hnet|by eapply Heff].
  - intros a sa. rewrite lookup_insert_Some. intros [[<- <-]|[_ Ha]]; [done|by eapply Hnodes].
Qed.

Context (members : list U).

(** The value of a vote was offered. *)
Lemma voted_client (w : world U V) a k p v :
  net_ok members (net w) -> values_ok w -> voted (net w) k a p v -> from_client v.
Proof.
  intros HN Hv Hvote. destruct (net_vote _ _ HN _ _ _ _ Hvote) as (? & [= <-] & b & Hb).
  by eapply values_net.
Qed.

Lemma do_action_values a (w w' : world U V) :
  world_ok members w -> values_ok w -> (forall u v, a = ClientPropose u v -> P v) ->
  do_action a w = Some w' -> values_ok w'.
Proof.
  intros [HN _] Hw HP Ha. destruct a as [src dst m rnd|u v|u|u|u peer]; simpl in Ha.
  - destruct (decide _) as [Hin|]; [|done]. eapply on_node_values; [done| |done].
    intros s _ Hok. apply receive_offers; [done|]. intros k pid last lv -> l ->.
    assert (sent (net w) src (WPromise k pid (Some l) lv)) as Hs by (by exists dst).
    destruct (net_promise_pid _ _ HN _ _ _ _ _ Hs) as (q & -> & _).
    destruct (net_promise _ _ HN _ _ _ _ _ Hs) as [_ Hl].
    eapply voted_client; [done..|]. by apply Hl.
  - eapply on_node_values; [done| |done]. intros. apply propose_offers; [done|]. by eapply HP.
  - eapply on_node_values; [done| |done]. intros. by apply retransmit_offers.
  - eapply on_node_values; [done| |done]. intros. by apply drive_fires_offers.
  - destruct (nodes w !! u) as [s|]; simpl in Ha; [|done].
    destruct (decide _); [|done]. eapply on_node_values; [done| |done].
    intros s' _ Hok. split; [done|]. by apply effects_one.
Qed.

Lemma initial_values : values_ok (initial members).
Proof.
  constructor; simpl; [by intros * Hs%sent_nil|].
  intros u s Hs. apply elem_of_list_to_map_2, list_elem_of_fmap in Hs as (u' & [= <- ->] & Hu).
  by constructor.
Qed.

Lemma run_values acts (w w' : world U V) :
  world_ok members w -> values_ok w -> (forall u v, ClientPropose u v ∈ acts -> P v) ->
  run acts w = Some w' -> world_ok members w' /\ values_ok w'.
Proof.
  unfold run. revert w. induction acts as [|a acts IH]; intros w Hw Hv HP; simpl.
  { by intros [= <-]. }
  destruct (do_action a w) as [w1|] eqn:E; simpl; [|by rewrite run_none].
  intros Hrun. apply (IH w1); [|..|exact Hrun].
  - eapply step_ok; [done|]. by exists a.
  - eapply do_action_values; [done..| |done]. intros u v ->. apply (HP u). apply elem_of_cons. by left.
  - intros u v Hin. apply (HP u). apply elem_of_cons. by right.
Qed.

(** A decided value was offered by a client. *)
Lemma decided_client (w : world U V) k v :
  NoDup members -> net_ok members (net w) -> values_ok w -> decided members (net w) k v ->
  from_client v.
Proof.
  intros Hnd HN Hv [[_ ->]|[_ (p & X & HX & Hvotes)]]; [apply from_client_none|].
  destruct (quorum_meet members X X Hnd HX HX) as (a & Ha & _).
  eapply voted_client; [done..|]. by apply Hvotes.
Qed.

End validity.
