(* ===== verification/PaxosTheorems.v ===== *)
(** * The properties of the Multi-Paxos servers

    Each theorem is a property of the manifest, followed by the witness that
    applies it to a concrete run of a three-server cluster. *)
From stdpp Require Import base gmap sets list relations strings.
From Stdlib Require Import ZArith QArith Lia.
From S2P Require Import Prelude ComposablePaxos ReplicatedValue PaxosFacts PaxosSystem PaxosInvariant PaxosPreservation PaxosSafety PaxosValidity.
Local Open Scope Z_scope.

#[local] Opaque Backoff.stop_driving Backoff.reschedule_next_drive_attempt.

(** ** A concrete cluster

    Three servers with integer ids, as custom_server.py configures them; the
    schedule takes one client value through prepare, promise, accept and
    accepted at servers 1 and 3. *)
Module Demo.

Definition members : list Z := [1; 2; 3].

Definition pid1 : ProposalID Z := MkPID 1 1.

Definition schedule : list (action Z string) :=
  [ ClientPropose 1 "a";
    Deliver 1 2 (WPrepare 0 (Some pid1)) 0;
    Deliver 1 3 (WPrepare 0 (Some pid1)) 0;
    Deliver 2 1 (WPromise 0 (Some pid1) None None) 0;
    Deliver 3 1 (WPromise 0 (Some pid1) None None) 0;
    Deliver 1 2 (WAccept 0 (Some pid1) (Some "a")) 0;
    Deliver 1 3 (WAccept 0 (Some pid1) (Some "a")) 0;
    Deliver 2 1 (WAccepted 0 (Some pid1) (Some "a")) 0;
    Deliver 3 1 (WAccepted 0 (Some pid1) (Some "a")) 0;
    Deliver 2 3 (WAccepted 0 (Some pid1) (Some "a")) 0;
    Deliver 3 3 (WAccepted 0 (Some pid1) (Some "a")) 0 ]%string.

Definition blank : world Z string := MkWorld ∅ [].

(** The world after the schedule. *)
Definition final : world Z string := default blank (run schedule (initial members)).

Definition server (u : Z) : t Z string := default (Base.init u members None) (nodes final !! u).

Lemma run_final : run schedule (initial members) = Some final.
Proof. vm_compute. reflexivity. Qed.

Lemma final_reachable : reachable members final.
Proof. exact (run_reachable _ _ _ run_final). Qed.

Lemma members_nodup : NoDup members.
Proof. by apply (bool_decide_unpack _). Qed.

Lemma server_final u : u ∈ members -> nodes final !! u = Some (server u).
Proof.
  intros Hu. repeat (apply elem_of_cons in Hu as [->|Hu]; [vm_compute; reflexivity|]).
  by apply elem_of_nil in Hu.
Qed.

End Demo.

(** ** Shared steps *)
Section instances.
Context {U V : Type} `{Countable U} `{PyOrder U} `{EqDecision V}.

(** Methods that only change [paxos], timers and saved copies. *)
Lemma receive_instance (s : t U V) rnd from (m : wire U V) :
  instance_number s <= instance_number (post (CustomServer.receive rnd from m s)).
Proof.
  destruct m as [k|k v|k pid q|k pid|k pid l v|k pid v|k pid v]; simpl.
  - unfold Sync.receive_sync_request. autounfold with pym; simpl.
    destruct (_ <? _); simpl; lia.
  - unfold Sync.receive_catchup. autounfold with pym; simpl.
    destruct (Z.ltb_spec (instance_number s) k); [|simpl; lia].
    destruct (advance_instance_eq k v true s)
      as (s' & -> & _ & _ & _ & Hk & _). simpl. rewrite Hk. lia.
  - unfold Backoff.receive_nack, Base.receive_nack. autounfold with pym; simpl.
    destruct (k =? instance_number s) eqn:Ek; [|simpl; lia]; rewrite ?Ek.
    destruct (PaxosInstance.receive_nack _ _ _ _) as [p [r|e]]; simpl; [|lia].
    match goal with |- context [Backoff.stop_driving ?x] =>
      destruct (stop_driving_eq x) as [d ->] end.
    simpl. match goal with |- context [if ?b then _ else _] => destruct b end;
      rewrite reschedule_eq; simpl; lia.
  - unfold Base.receive_prepare, Base.save_state. autounfold with pym; simpl.
    destruct (k =? instance_number s) eqn:Ek; [|simpl; lia]; rewrite ?Ek.
    destruct (PaxosInstance.receive_prepare _ _ _) as [p []]; simpl; lia.
  - unfold Base.receive_promise. autounfold with pym; simpl.
    destruct (k =? instance_number s) eqn:Ek; [|simpl; lia]; rewrite ?Ek.
    destruct (PaxosInstance.receive_promise _ _ _ _ _) as [p [[[]|]|]]; simpl; lia.
  - unfold Backoff.receive_accept, Base.receive_accept, Base.save_state. autounfold with pym; simpl.
    destruct (k =? instance_number s) eqn:Ek; [|simpl; lia]; rewrite ?Ek.
    destruct (PaxosInstance.receive_accept _ _ _ _) as [p []]; simpl;
      rewrite ?reschedule_eq; simpl; lia.
  - unfold Base.receive_accepted. autounfold with pym; simpl.
    destruct (k =? instance_number s) eqn:Ek; [|simpl; lia]; rewrite ?Ek.
    destruct (PaxosInstance.receive_accepted _ _ _ _) as [p [[[]|]|]]; simpl; try lia.
    match goal with |- context [Backoff.advance_instance _ ?k ?v ?b ?x] =>
      destruct (advance_instance_eq k v b x) as (s' & -> & _ & _ & _ & Hk & _) end.
    simpl. rewrite Hk. lia.
Qed.

(** A method of server [u] moves [a] to a later instance or leaves it alone. *)
Lemma on_node_instance u (c : M U V unit) (w w' : world U V) a s :
  (forall s, instance_number s <= instance_number (post (c s))) ->
  on_node u c w = Some w' -> nodes w !! a = Some s ->
  exists s', nodes w' !! a = Some s' /\ instance_number s <= instance_number s'.
Proof.
  intros Hc. unfold on_node. destruct (nodes w !! u) as [su|] eqn:Eu; simpl; [|done].
  intros [= <-] Ha. simpl. destruct (decide (u = a)) as [->|Hne].
  - rewrite lookup_insert_eq. simplify_eq. eauto.
  - rewrite lookup_insert_ne by done. eauto with lia.
Qed.

Lemma drive_instance (s : t U V) :
  instance_number (post (Backoff.drive_to_resolution s)) = instance_number s.
Proof.
  unfold Backoff.drive_to_resolution, Base.send_prepare, Base.broadcast.
  autounfold with pym; simpl. by destruct (stop_driving_eq s) as [d ->].
Qed.

Lemma post_bind {A} (x : t U V * list (effect U V) * outcome A) :
  post (let '(s'', es', r) := x in (s'', [] ++ es', r)) = post x.
Proof. by destruct x as [[? ?] ?]. Qed.

Lemma propose_instance v (s : t U V) :
  instance_number (post (CustomServer.propose_update v s)) = instance_number s.
Proof.
  unfold CustomServer.propose_update, Backoff.propose_update, Base.propose_update.
  unfold py_bind, py_get, py_set, py_return.
  destruct (Proposer.proposed_value _); simpl; by rewrite post_bind, drive_instance.
Qed.

Lemma retransmit_instance (s : t U V) :
  instance_number (post (CustomServer.retransmit s)) = instance_number s.
Proof.
  unfold CustomServer.retransmit, CustomServer.fire, Base.send_prepare, Base.send_accept, Base.broadcast.
  autounfold with pym; simpl. by destruct (retransmit_task s) as [[]|].
Qed.

Lemma drive_fires_instance (s : t U V) :
  instance_number (post (CustomServer.delayed_drive_fires s)) = instance_number s.
Proof.
  unfold CustomServer.delayed_drive_fires. unfold py_bind, py_get, py_set, py_return, id.
  destruct (delayed_drive s) as [d|]; [|done]. destruct (active d); [|done].
  by rewrite !post_bind, drive_instance.
Qed.

Lemma step_instance (w w' : world U V) a s :
  step w w' -> nodes w !! a = Some s ->
  exists s', nodes w' !! a = Some s' /\ instance_number s <= instance_number s'.
Proof.
  intros [[src dst m rnd|u v|u|u|u peer] Ha]; simpl in Ha.
  - destruct (decide _); [|done]. eapply on_node_instance; [|done].
    intros. apply receive_instance.
  - eapply on_node_instance; [|done]. intros. rewrite propose_instance. lia.
  - eapply on_node_instance; [|done]. intros. rewrite retransmit_instance. lia.
  - eapply on_node_instance; [|done]. intros. rewrite drive_fires_instance. lia.
  - destruct (nodes w !! u) as [su|]; simpl in Ha; [|done].
    destruct (decide _); [|done]. eapply on_node_instance; [|done]. intros s'.
    unfold Sync.sync. autounfold with pym. simpl. lia.
Qed.

End instances.

(** ** Agreement *)
Section agreement.
Context {U V : Type} `{Countable U} `{PyOrder U} `{EqDecision V}.

(** C1: servers never disagree on the replicated value: if some server has
    value [v] at instance number [k], every server that is at instance [k],
    then or at any later time, has value [v] (by voting or by catch-up). *)
Theorem replicated_value_agreement (members : list U) (w w' : world U V) a b s s' :
  NoDup members -> reachable members w -> rtc step w w' ->
  nodes w !! a = Some s -> nodes w' !! b = Some s' ->
  instance_number s = instance_number s' -> current_value s = current_value s'.
Proof.
  intros Hnd Hw Hww' Ha Hb Heq.
  destruct (world_nodes _ _ (reachable_ok members w Hw) a s Ha) as [_ Hoka].
  assert (reachable members w') as Hw' by (unfold reachable in *; by etrans).
  destruct (world_nodes _ _ (reachable_ok members w' Hw') b s' Hb) as [_ Hokb].
  assert (decided members (net w') (instance_number s) (current_value s)) as Hdec.
  { assert (Hdec := node_current _ _ _ _ Hoka).
    clear Ha Hb Heq Hoka Hokb Hw'. induction Hww' as [w|w w1 w2 Hstep Hrest IH]; [done|].
    apply IH.
    - eapply rtc_r; [exact Hw|done].
    - eapply step_decided; [by apply reachable_ok|done..]. }
  eapply decided_agree; [done|by apply reachable_ok|exact Hdec|].
  rewrite Heq. by eapply node_current.
Qed.

End agreement.

Lemma replicated_value_agreement_witness :
  instance_number (Demo.server 1) = 1 /\
  current_value (Demo.server 1) = Some "a"%string /\
  current_value (Demo.server 1) = current_value (Demo.server 3).
Proof.
  split; [vm_compute; reflexivity|]. split; [vm_compute; reflexivity|].
  apply (replicated_value_agreement Demo.members Demo.final Demo.final 1 3).
  - exact Demo.members_nodup.
  - exact Demo.final_reachable.
  - apply rtc_refl.
  - apply Demo.server_final. set_solver.
  - apply Demo.server_final. set_solver.
  - vm_compute; reflexivity.
Defined.

Section single_decree.
Context {U V : Type} `{Countable U} `{PyOrder U} `{EqDecision V}.

(** C2: in every instance of the chain at most one value is ever chosen: two
    quorums of Accepted messages carry the same value, whatever proposal
    numbers they voted for. *)
Theorem one_value_chosen (members : list U) (w : world U V) k p v q x :
  NoDup members -> reachable members w ->
  chosen members (net w) k p v -> chosen members (net w) k q x -> v = x.
Proof. intros Hnd Hw. apply chosen_agree; [done|]. by apply reachable_ok. Qed.

(** C21: no packet of a reachable cluster makes a server raise: the learner's
    assertion "Value mismatch for single proposal!" holds, its tables never
    miss a key, and no promise arrives before [prepare] made the sets. *)
Theorem delivery_raises_nothing (members : list U) (w : world U V) src dst m rnd s :
  reachable members w -> (src, dst, m) ∈ net w -> nodes w !! dst = Some s ->
  result (CustomServer.receive rnd src m s) = Ret tt.
Proof.
  intros Hw Hin Hs. destruct (reachable_ok _ _ Hw) as [HN Hnodes].
  destruct (Hnodes _ _ Hs) as [Hu Hok].
  destruct (receive_ok members (net w) dst s rnd src m HN Hu Hok) as (om & [[] Hr] & _);
    [by exists dst|done].
Qed.

(** C22: a value that the servers agree on was given to [propose_update] of some
    server by its client. *)
Theorem replicated_value_validity (members : list U) acts (w : world U V) u s v :
  NoDup members -> run acts (initial members) = Some w ->
  nodes w !! u = Some s -> current_value s = Some v ->
  exists c, ClientPropose c v ∈ acts.
Proof.
  intros Hnd Hrun Hs Hv.
  destruct (run_values (fun x => exists c, ClientPropose c x ∈ acts) members acts
              (initial members) w) as [[HN Hnodes] Hval]; [| | |exact Hrun|].
  - apply initial_ok.
  - apply initial_values.
  - eauto.
  - destruct (Hnodes _ _ Hs) as [_ Hok].
    apply (decided_client _ members w (instance_number s) _ Hnd HN Hval (node_current _ _ _ _ Hok) v Hv).
Qed.

(** A server never goes back to an earlier instance of the chain, and no
    server disappears. *)
Theorem instance_never_decreases (w w' : world U V) a s :
  rtc step w w' -> nodes w !! a = Some s ->
  exists s', nodes w' !! a = Some s' /\ instance_number s <= instance_number s'.
Proof.
  intros Hrtc. revert s. induction Hrtc as [w|w w1 w2 Hstep _ IH]; intros s Hs; [eauto with lia|].
  destruct (step_instance _ _ _ _ Hstep Hs) as (s1 & Hs1 & Hle).
  destruct (IH s1 Hs1) as (s2 & Hs2 & Hle2). exists s2. split; [done|lia].
Qed.

End single_decree.

Lemma one_value_chosen_witness :
  chosen Demo.members (net Demo.final) 0 Demo.pid1 (Some "a"%string) /\
  Some "a"%string = Some "a"%string.
Proof.
  assert (chosen Demo.members (net Demo.final) 0 Demo.pid1 (Some "a"%string)) as Hc.
  { exists {[2; 3]}. split; [split; [set_solver|vm_compute; discriminate]|].
    intros a [Ha|Ha]%elem_of_union; apply elem_of_singleton in Ha as ->; exists 1;
      apply (bool_decide_unpack _); vm_compute; exact I. }
  split; [exact Hc|].
  apply (one_value_chosen Demo.members Demo.final 0 Demo.pid1 _ Demo.pid1); [| |exact Hc|exact Hc].
  - exact Demo.members_nodup.
  - exact Demo.final_reachable.
Defined.

Lemma delivery_raises_nothing_witness :
  result (CustomServer.receive 0 2 (WAccepted 0 (Some Demo.pid1) (Some "a"%string))
            (Demo.server 2)) = Ret tt.
Proof.
  apply (delivery_raises_nothing Demo.members Demo.final 2 2).
  - exact Demo.final_reachable.
  - apply (bool_decide_unpack _); vm_compute; exact I.
  - apply Demo.server_final. set_solver.
Defined.

Lemma replicated_value_validity_witness :
  current_value (Demo.server 3) = Some "a"%string /\
  exists c, ClientPropose c "a"%string ∈ Demo.schedule.
Proof.
  split; [vm_compute; reflexivity|].
  apply (replicated_value_validity Demo.members Demo.schedule Demo.final 3 (Demo.server 3)).
  - exact Demo.members_nodup.
  - exact Demo.run_final.
  - apply Demo.server_final. set_solver.
  - vm_compute; reflexivity.
Defined.

Lemma instance_never_decreases_witness :
  exists s', nodes Demo.final !! 1 = Some s' /\
    instance_number (Base.init (V := string) 1 Demo.members None) <= instance_number s'.
Proof.
  apply (instance_never_decreases (initial Demo.members)).
  - exact Demo.final_reachable.
  - vm_compute; reflexivity.
Defined.
