(* ===== verification/PaxosLiveness.v ===== *)
(** * Progress of a Multi-Paxos cluster

    From every reachable world a schedule leads to the resolution of a new
    instance: the servers catch up ([sync]), a proposer numbers its proposal
    above everything promised, a round of promises makes it the leader, and a
    round of votes resolves the instance.  Each round goes through the servers
    one by one. *)
From stdpp Require Import base gmap sets list relations strings.
From Stdlib Require Import ZArith QArith Lia.
From S2P Require Import Prelude ComposablePaxos ReplicatedValue PaxosFacts PaxosSystem PaxosInvariant PaxosPreservation PaxosSafety PaxosTheorems.
Local Open Scope Z_scope.

#[local] Opaque Backoff.stop_driving Backoff.reschedule_next_drive_attempt.

(** ** What the handlers answer *)
Section handlers.
Context {U V : Type} `{Countable U} `{PyOrder U} `{EqDecision V}.
Implicit Types s : t U V.
Implicit Types p q : ProposalID U.
Implicit Types v x : V.

Abbreviation proposer_of s := (PaxosInstance.proposer (paxos s)).
Abbreviation acceptor_of s := (PaxosInstance.acceptor (paxos s)).
Abbreviation learner_of s := (PaxosInstance.learner (paxos s)).

(** A proposal that is not below the acceptor's promise. *)
Definition open_for p s : Prop := Acceptor.promised_id (acceptor_of s) ⪯ Some p.

Lemma receive_prepare_open s rnd from p : open_for p s ->
  exists last lv s', CustomServer.receive rnd from (WPrepare (instance_number s) (Some p)) s
      = (s', [Send from (WPromise (instance_number s) (Some p) last lv)], Ret tt) /\
    instance_number s' = instance_number s /\ open_for p s' /\ learner_of s' = learner_of s /\
    proposer_of s' = Proposer.observe_proposal (Some p) (proposer_of s).
Proof.
  intros Ho. cbn [CustomServer.receive]. unfold Base.receive_prepare. autounfold with pym; simpl. rewrite Z.eqb_refl. simpl.
  unfold PaxosInstance.receive_prepare, Acceptor.receive_prepare. cbn [PaxosInstance.acceptor PaxosInstance.observe_proposal PaxosInstance.set_proposer].
  rewrite (proj2 (py_ge_spec _ _) Ho). unfold Base.save_state, py_set, py_emit, py_return. cbn.
  eexists _, _, _. split; [reflexivity|]. cbn. split_and!; try done. unfold open_for. cbn. apply ple_refl.
Qed.

Lemma receive_accept_open s rnd from p x : open_for p s ->
  exists s', CustomServer.receive rnd from (WAccept (instance_number s) (Some p) (Some x)) s
      = (s', (fun a => Send a (WAccepted (instance_number s) (Some p) (Some x))) <$> peers s, Ret tt) /\
    instance_number s' = instance_number s /\ open_for p s' /\ learner_of s' = learner_of s.
Proof.
  intros Ho. cbn [CustomServer.receive]. unfold Backoff.receive_accept, Base.receive_accept. autounfold with pym; simpl. rewrite Z.eqb_refl. simpl.
  unfold PaxosInstance.receive_accept, Acceptor.receive_accept. cbn [PaxosInstance.acceptor PaxosInstance.observe_proposal PaxosInstance.set_proposer].
  rewrite (proj2 (py_ge_spec _ _) Ho). unfold Base.save_state, Base.send_accepted, Base.broadcast, py_set, py_emit, py_return. cbn.
  rewrite Z.eqb_refl. cbn. rewrite reschedule_eq. cbn.
  eexists. split; [by rewrite app_nil_r|]. cbn. split_and!; try done. unfold open_for. cbn. apply ple_refl.
Qed.

(** A server that drives proposes above every proposal it has seen. *)
Definition next_pid (pr : Proposer.t U V) : ProposalID U :=
  MkPID (number (Proposer.highest_proposal_id pr) + 1) (Proposer.network_uid pr).
Record preparing p (pr : Proposer.t U V) : Prop := Preparing {
  preparing_leader : Proposer.leader pr = false;
  preparing_pid : Proposer.proposal_id pr = p;
  preparing_value : is_Some (Proposer.proposed_value pr);
}.

Lemma drive_eq s : exists s', Backoff.drive_to_resolution s
    = (s', (fun a => Send a (WPrepare (instance_number s) (Some (next_pid (proposer_of s))))) <$> peers s, Ret tt) /\
  instance_number s' = instance_number s /\ acceptor_of s' = acceptor_of s /\ learner_of s' = learner_of s /\
  proposer_of s' = (Proposer.prepare (proposer_of s)).1.
Proof.
  unfold Backoff.drive_to_resolution, Base.send_prepare, Base.broadcast.
  autounfold with pym; simpl. destruct (stop_driving_eq s) as [d ->]. simpl.
  eexists. split; [reflexivity|]. by split_and!.
Qed.

(** A client's value starts a proposal. *)
Lemma propose_update_eq s v :
  let p := next_pid (proposer_of s) in
  exists s', CustomServer.propose_update v s
      = (s', (fun a => Send a (WPrepare (instance_number s) (Some p))) <$> peers s, Ret tt) /\
    instance_number s' = instance_number s /\ acceptor_of s' = acceptor_of s /\ learner_of s' = learner_of s /\
    preparing p (proposer_of s') /\ Proposer.promises_received (proposer_of s') = Some ∅ /\
    Proposer.highest_proposal_id (proposer_of s') = p.
Proof.
  intros p. unfold CustomServer.propose_update, Backoff.propose_update, Base.propose_update.
  autounfold with pym; simpl. unfold PaxosInstance.propose_value, Proposer.propose_value.
  destruct (Proposer.proposed_value (proposer_of s)) as [y|] eqn:Ey; simpl.
  - destruct (drive_eq s) as (s' & -> & ? & ? & ? & Hpr). exists s'. simpl.
    split; [reflexivity|]. split_and!; try done; rewrite Hpr; [split|..]; cbn; by rewrite ?Ey.
  - set (s1 := set_paxos _ s). destruct (drive_eq s1) as (s' & -> & Ei & Ea' & El' & Hpr). exists s'.
    assert (Proposer.highest_proposal_id (proposer_of s1) = Proposer.highest_proposal_id (proposer_of s) /\
      Proposer.network_uid (proposer_of s1) = Proposer.network_uid (proposer_of s) /\
      is_Some (Proposer.proposed_value (proposer_of s1)) /\ acceptor_of s1 = acceptor_of s /\ learner_of s1 = learner_of s)
      as (Eh & Eu & Ev & Ea & El) by (subst s1; cbn; rewrite Ey; destruct (Proposer.leader _); by split_and!).
    assert (next_pid (proposer_of s1) = p) as Ep by (unfold next_pid; by rewrite Eh, Eu).
    split; [by rewrite <-Ep|]. rewrite Ei, Ea', El', Hpr. by split_and!; [..|split|].
Qed.

Lemma preparing_observe p pid (pr : Proposer.t U V) : preparing p pr -> preparing p (Proposer.observe_proposal pid pr).
Proof.
  intros [? ? ?]. unfold Proposer.observe_proposal. destruct pid as [q|]; [|done].
  by destruct (py_gt q (Proposer.highest_proposal_id pr)).
Qed.
Lemma promises_observe pid (pr : Proposer.t U V) :
  Proposer.promises_received (Proposer.observe_proposal pid pr) = Proposer.promises_received pr /\
  Proposer.quorum_size (Proposer.observe_proposal pid pr) = Proposer.quorum_size pr.
Proof.
  unfold Proposer.observe_proposal. destruct pid as [q|]; [|done].
  by destruct (py_gt q (Proposer.highest_proposal_id pr)).
Qed.

Lemma adopt_preparing p last lv (pr : Proposer.t U V) : preparing p pr ->
  preparing p (Proposer.adopt last lv pr) /\
  Proposer.promises_received (Proposer.adopt last lv pr) = Proposer.promises_received pr /\
  Proposer.quorum_size (Proposer.adopt last lv pr) = Proposer.quorum_size pr.
Proof.
  intros [? ? ?]. unfold Proposer.adopt. destruct (py_gt last _); [|done]. destruct lv; [|done].
  split; [|done]. by split.
Qed.

(** One more promise: the proposer is the leader and sends its accept requests,
    or it counts the promise and waits. *)
Lemma receive_promise_preparing s rnd from p last lv X :
  preparing p (proposer_of s) -> Proposer.promises_received (proposer_of s) = Some X -> from ∉ X ->
  exists s', instance_number s' = instance_number s /\ acceptor_of s' = acceptor_of s /\ learner_of s' = learner_of s /\
    if Z.of_nat (S (size X)) =? Proposer.quorum_size (proposer_of s) then
      exists x, CustomServer.receive rnd from (WPromise (instance_number s) (Some p) last lv) s
        = (s', (fun a => Send a (WAccept (instance_number s) (Some p) (Some x))) <$> peers s, Ret tt)
    else
      CustomServer.receive rnd from (WPromise (instance_number s) (Some p) last lv) s = (s', [], Ret tt) /\
      preparing p (proposer_of s') /\ Proposer.promises_received (proposer_of s') = Some ({[from]} ∪ X).
Proof.
  intros Hpr HX Hfrom. remember (Z.of_nat (S (size X)) =? _) as b eqn:Eb.
  cbn [CustomServer.receive]. unfold Base.receive_promise. autounfold with pym; simpl. rewrite Z.eqb_refl. simpl.
  unfold PaxosInstance.receive_promise, Proposer.receive_promise.
  pose proof (preparing_observe p (Some p) _ Hpr) as [Hl Hpid Hv]. destruct (promises_observe (Some p) (proposer_of s)) as [HX' Hq].
  set (pr1 := Proposer.observe_proposal (Some p) (proposer_of s)) in *.
  rewrite Hl, Hpid, HX', HX. rewrite (bool_decide_true (Some p = Some p)) by done. cbn [negb andb].
  rewrite bool_decide_false by done.
  set (pr2 := Proposer.set_promises_received (Some ({[from]} ∪ X)) pr1).
  destruct (adopt_preparing p last lv pr2) as ([Hl3 Hpid3 [y Hy]] & HX3 & Hq3); [by split|].
  set (pr3 := Proposer.adopt last lv pr2) in *.
  assert (size ({[from]} ∪ X) = S (size X)) as -> by (rewrite size_union by set_solver; by rewrite size_singleton).
  replace (Proposer.quorum_size pr3) with (Proposer.quorum_size (proposer_of s)) by (rewrite Hq3; exact (eq_sym Hq)).
  rewrite <-Eb. destruct b.
  - cbn [Proposer.set_leader Proposer.proposed_value]. rewrite Hy. cbn.
    unfold Backoff.send_accept, Base.send_accept, Base.broadcast. autounfold with pym; cbn.
    eexists. split; [|split; [|split; [|exists y; by rewrite Hpid3]]]; done.
  - cbn. eexists. split; [|split; [|split; [|split; [reflexivity|split; [by split; [..|exists y]|exact HX3]]]]]; done.
Qed.

(** ** The learner counts the votes of a new proposal *)
Record counted p (D : list U) (le : Learner.t U V) : Prop := Counted {
  counted_voters accs b : Learner.acceptors le = Some accs -> b ∈ D -> accs !! b = Some p;
  counted_others accs b q : Learner.acceptors le = Some accs -> b ∉ D -> accs !! b = Some q -> number q < number p;
  counted_votes props ps : Learner.proposals le = Some props -> props !! p = Some ps ->
    Learner.accept_count ps = Z.of_nat (length D);
}.

Context (seen : U -> ProposalID U -> option V -> Prop).
Hypothesis Hfun : forall q a b w w', seen a q w -> seen b q w' -> w = w'.

(** Above every proposal it has heard of. *)
Lemma counted_none p le : counting seen le ->
  (forall accs b q, Learner.acceptors le = Some accs -> accs !! b = Some q -> number q < number p) -> counted p [] le.
Proof.
  intros [_ (accs & props & Ha & Hp & Hdom & Htal)] Hlow. split.
  - by intros ? ? _ ?%elem_of_nil.
  - intros accs' b q Hacc _. by apply Hlow.
  - intros props' ps Hp' Hps. exfalso. replace props' with props in * by congruence.
    destruct (Htal _ _ Hps) as [_ _ (X & HX & Hpos & Hvotes)].
    destruct (decide (X = ∅)) as [->|(a & HaX)%set_choose_L]; [rewrite size_empty in HX; lia|].
    destruct (Hvotes a HaX) as (_ & q & Hq & Hle%pid_le_number). specialize (Hlow accs a q Ha Hq). lia.
Qed.

(** One more vote resolves the instance, or is counted. *)
Lemma receive_accepted_counts p D le a (w : option V) : counting seen le -> 0 < Learner.quorum_size le ->
  counted p D le -> a ∉ D -> seen a p w ->
  exists le', if Z.of_nat (S (length D)) =? Learner.quorum_size le then
      Learner.receive_accepted a (Some p) w le = (le', Ret (Some (Resolution (Learner.network_uid le) w)))
    else Learner.receive_accepted a (Some p) w le = (le', Ret None) /\ counted p (D ++ [a]) le'.
Proof.
  intros [Hund (accs & props & Ha & Hp & Hok)] Hq [Hin Hout Hcnt] HaD Hseen.
  assert (accs !! a ≺ Some p) as Hlt.
  { destruct (accs !! a) as [q|] eqn:Eq; [|done]. apply pid_lt_number. by eapply Hout. }
  destruct (retire_spec seen _ _ _ a Hok) as (props' & Hret & Hretd).
  destruct (status_of_spec seen _ _ _ _ _ _ _ Hok Hretd (Hfun p) Hlt Hseen Hq) as (Hval & _).
  assert (Learner.accept_count (Learner.status_of p w props') = Z.of_nat (length D)) as Hcount.
  { unfold Learner.status_of. destruct Hretd as [Hdom' Hprops'].
    destruct (props' !! p) as [ps|] eqn:Ep.
    - destruct (Hprops' _ _ Ep) as (ps0 & Hps0 & _ & Hacc & _). rewrite Hacc. by eapply Hcnt.
    - destruct D as [|b D]; [done|]. destruct (Hdom' b p) as [? Hb]; [|by apply Hin; [|left]|congruence].
      intros ->. apply HaD. by left. }
  unfold Learner.receive_accepted. rewrite Hund, Ha, Hp.
  assert (py_le (Some p) (accs !! a) = false) as -> by (by apply py_le_false). rewrite Hret, Hval.
  rewrite bool_decide_true by done. cbn [Learner.count_vote Learner.accept_count]. rewrite Hcount.
  replace (Z.of_nat (length D) + 1) with (Z.of_nat (S (length D))) by lia.
  destruct (_ =? _); [by eexists|]. eexists. split; [reflexivity|]. split; cbn.
  - intros accs' b [= <-] [Hb|Hb%list_elem_of_singleton]%elem_of_app; [|subst b; apply lookup_insert_eq].
    rewrite lookup_insert_ne by (by intros ->). by eapply Hin.
  - intros accs' b q [= <-] Hb. rewrite elem_of_app, list_elem_of_singleton in Hb.
    rewrite lookup_insert_ne by naive_solver. apply (Hout accs); naive_solver.
  - intros props1 ps [= <-]. rewrite lookup_insert_eq. intros [= <-]. cbn. rewrite Hcount, length_app. cbn. lia.
Qed.
End handlers.

(** ** Schedules *)
Section schedules.
Context {U V : Type} `{Countable U} `{PyOrder U} `{EqDecision V}.
Context (members : list U).
Implicit Types w : world U V.
Implicit Types s : t U V.
Implicit Types p q : ProposalID U.

Abbreviation proposer_of s := (PaxosInstance.proposer (paxos s)).
Abbreviation acceptor_of s := (PaxosInstance.acceptor (paxos s)).
Abbreviation learner_of s := (PaxosInstance.learner (paxos s)).

(** Some schedule leads from [w] to [P]. *)
Definition leads w (P : world U V -> Prop) : Prop := exists w', rtc step w w' /\ P w'.

Lemma leads_refl w (P : world U V -> Prop) : P w -> leads w P.
Proof. intros Hw. exists w. by split. Qed.
Lemma leads_trans w (P Q : world U V -> Prop) : leads w P -> (forall w', P w' -> leads w' Q) -> leads w Q.
Proof.
  intros (w1 & Hw1 & HP) HQ. destruct (HQ w1 HP) as (w2 & Hw2 & HQ2). exists w2. split; [by etrans|done].
Qed.
Lemma leads_step w w1 (P : world U V -> Prop) : step w w1 -> leads w1 P -> leads w P.
Proof. intros Hs (w2 & Hw2 & HP). exists w2. split; [by eapply rtc_l|done]. Qed.
Lemma leads_weaken w (P Q : world U V -> Prop) : leads w P -> (forall w', P w' -> Q w') -> leads w Q.
Proof. intros HP HQ. eapply leads_trans; [done|]. intros w' Hw'. by apply leads_refl, HQ. Qed.

(** A round: server by server. *)
Lemma leads_each (I : list U -> world U V -> Prop) l :
  (forall D a r w, l = D ++ a :: r -> I D w -> leads w (I (D ++ [a]))) -> forall w, I [] w -> leads w (I l).
Proof.
  intros Hstep. assert (forall r D w, l = D ++ r -> I D w -> leads w (I l)) as Hgen; [|intros w; by apply (Hgen l [])].
  induction r as [|a r IH]; intros D w Hl HI; [apply leads_refl; by rewrite Hl, app_nil_r|].
  eapply leads_trans; [by eapply Hstep|]. intros w' Hw'. eapply IH; [|done]. by rewrite <-app_assoc.
Qed.

(** The world after a method of [u]. *)
Definition after u (x : t U V * list (effect U V) * outcome unit) w : world U V :=
  MkWorld (<[u := post x]> (nodes w)) (net w ++ packets u (effects x)).
Lemma after_lookup u x w b s : nodes (after u x w) !! b = Some s ->
  (b = u /\ s = post x) \/ (b <> u /\ nodes w !! b = Some s).
Proof. unfold after. cbn [nodes]. intros [[-> <-]|[? ?]]%lookup_insert_Some; auto. Qed.
Lemma after_same u x w : nodes (after u x w) !! u = Some (post x).
Proof. apply lookup_insert_eq. Qed.
Lemma after_other u x w b : b <> u -> nodes (after u x w) !! b = nodes w !! b.
Proof. intros Hb. by apply lookup_insert_ne. Qed.
Lemma after_net u x w pk : pk ∈ net w -> pk ∈ net (after u x w).
Proof. intros Hpk. apply elem_of_app. by left. Qed.
Lemma node_step (act : action U V) u (c : M U V unit) w s : do_action act w = on_node u c w ->
  nodes w !! u = Some s -> step w (after u (c s) w).
Proof. intros Ha Hs. exists act. rewrite Ha. unfold on_node. by rewrite Hs. Qed.
Lemma deliver src dst m w s : (src, dst, m) ∈ net w -> nodes w !! dst = Some s ->
  step w (after dst (CustomServer.receive 0 src m s) w).
Proof. intros Hin Hs. apply (node_step (Deliver src dst m 0)); [|done]. cbn. by rewrite decide_True. Qed.

Lemma packets_broadcast u l (m : wire U V) a : a ∈ l -> (u, a, m) ∈ packets u ((fun b => Send b m) <$> l).
Proof.
  intros Ha. unfold packets. apply list_elem_of_omap. exists (Send a m). split; [|done].
  apply list_elem_of_fmap. by exists a.
Qed.

Lemma reachable_step w w' : reachable members w -> step w w' -> reachable members w'.
Proof. intros Hw Hs. by eapply rtc_r. Qed.
Lemma reachable_node w a s : reachable members w -> nodes w !! a = Some s ->
  a ∈ members /\ node_ok members (net w) a s.
Proof. intros Hw Hs. by apply (world_nodes _ _ (reachable_ok members w Hw)). Qed.
Lemma reachable_present w a : reachable members w -> a ∈ members -> exists s, nodes w !! a = Some s.
Proof.
  intros Hw Ha. assert (exists s, nodes (initial (V := V) members) !! a = Some s) as Hinit.
  { destruct (nodes (initial (V := V) members) !! a) as [s|] eqn:E; [by exists s|]. exfalso.
    apply not_elem_of_list_to_map_2 in E. apply E. rewrite <-list_fmap_compose. apply list_elem_of_fmap. by exists a. }
  revert Hinit. induction Hw as [w|w0 w1 w2 Hs _ IH]; [done|]. intros [s Hs0]. apply IH.
  destruct (step_instance _ _ _ _ Hs Hs0) as (s' & ? & _). by exists s'.
Qed.

(** ** Catching up *)
Lemma catch_one w a b sa sb : nodes w !! a = Some sa -> nodes w !! b = Some sb -> b ∈ peers sa ->
  instance_number sa < instance_number sb ->
  leads w (fun w' => rtc step w w' /\ exists s', nodes w' = <[a := s']> (nodes w) /\ instance_number s' = instance_number sb).
Proof.
  intros Ha Hb Hpeer Hlt. assert (a <> b) as Hab by (intros ->; assert (sa = sb) by congruence; subst; lia).
  set (w1 := after a (Sync.sync b sa) w). set (req := WSyncRequest (U := U) (V := V) (instance_number sa)).
  assert (step w w1) as S1.
  { apply (node_step (SyncTick a b)); [|done]. cbn. rewrite Ha. cbn. by rewrite decide_True. }
  assert (nodes w1 = nodes w) as N1 by (cbn; by rewrite insert_id).
  assert (nodes w1 !! b = Some sb) as Hb1 by (by rewrite N1).
  assert ((a, b, req) ∈ net w1) as Hin1 by (cbn; apply elem_of_app; right; by left).
  set (w2 := after b (CustomServer.receive 0 a req sb) w1). pose proof (deliver _ _ _ _ _ Hin1 Hb1) as S2. fold w2 in S2.
  assert (CustomServer.receive 0 a req sb
    = (sb, [Send a (WCatchup (instance_number sb) (current_value sb))], Ret tt)) as E2.
  { cbn. unfold Sync.receive_sync_request. autounfold with pym. cbn. by rewrite (proj2 (Z.ltb_lt _ _) Hlt). }
  assert (nodes w2 = nodes w) as N2 by (subst w2; rewrite E2; unfold after; cbn [nodes post fst]; by rewrite N1, insert_id).
  assert (nodes w2 !! a = Some sa) as Ha2 by (by rewrite N2).
  set (cat := WCatchup (U := U) (instance_number sb) (current_value sb)).
  assert ((b, a, cat) ∈ net w2) as Hin2.
  { subst w2. rewrite E2. unfold after. cbn [net effects fst snd]. apply elem_of_app. right. by left. }
  set (w3 := after a (CustomServer.receive 0 b cat sa) w2). pose proof (deliver _ _ _ _ _ Hin2 Ha2) as S3. fold w3 in S3.
  assert (rtc step w w3) as Hrtc by (eapply rtc_l; [done|]; eapply rtc_l; [done|]; by apply rtc_once).
  exists w3. split; [done|]. split; [done|]. exists (post (CustomServer.receive 0 b cat sa)).
  split; [unfold w3, after; cbn [nodes]; by rewrite N2|]. cbn. unfold Sync.receive_catchup. autounfold with pym. cbn.
  rewrite (proj2 (Z.ltb_lt _ _) Hlt).
  destruct (advance_instance_eq (instance_number sb) (current_value sb) true sa) as (s' & E & _ & _ & _ & Hk & _).
  rewrite E. done.
Qed.

Definition all_at k w : Prop := forall a s, nodes w !! a = Some s -> instance_number s = k.

(** The largest number in a map. *)
Lemma gmap_max {A} (f : A -> Z) (m : gmap U A) : m <> ∅ ->
  exists b y, m !! b = Some y /\ forall a x, m !! a = Some x -> f x <= f y.
Proof.
  induction m as [|i x m Hi IH] using map_ind; [done|]. intros _.
  destruct (decide (m = ∅)) as [->|Hne].
  - exists i, x. rewrite lookup_insert_eq. split; [done|].
    intros a z [[_ ->]|[_ Ha]]%lookup_insert_Some; [lia|]. by rewrite lookup_empty in Ha.
  - destruct (IH Hne) as (b & y & Hb & Hmax). destruct (decide (f x <= f y)) as [Hle|Hlt].
    + exists b, y. split; [rewrite lookup_insert_ne; [done|congruence]|].
      intros a z [[_ ->]|[_ Ha]]%lookup_insert_Some; [done|by eapply Hmax].
    + exists i, x. rewrite lookup_insert_eq. split; [done|].
      intros a z [[_ ->]|[_ Ha]]%lookup_insert_Some; [lia|]. apply Hmax in Ha. lia.
Qed.

(** Every server at the instance that is furthest. *)
Lemma catch_up w u : reachable members w -> u ∈ members ->
  exists k, (forall a s, nodes w !! a = Some s -> instance_number s <= k) /\
    leads w (fun w' => reachable members w' /\ all_at k w').
Proof.
  intros Hw Hu. destruct (gmap_max instance_number (nodes w)) as (b & sb & Hb & Hmax).
  { intros E. destruct (reachable_present w u Hw Hu) as [s Hs]. by rewrite E, lookup_empty in Hs. }
  exists (instance_number sb). split; [done|].
  set (I := fun (D : list U) w' => reachable members w' /\ nodes w' !! b = Some sb /\
    (forall a s, nodes w' !! a = Some s -> instance_number s <= instance_number sb) /\
    forall a s, a ∈ D -> nodes w' !! a = Some s -> instance_number s = instance_number sb).
  eapply leads_weaken with (P := I members).
  - apply leads_each; [|split_and!; [done..|by intros ? ? ?%elem_of_nil]].
    intros D a r w' Hmem (Hw' & Hb' & Hle & HD).
    assert (a ∈ members) as Ham by (rewrite Hmem; apply elem_of_app; right; by left).
    destruct (reachable_present w' a Hw' Ham) as [sa Ha]. pose proof (Hle a sa Ha) as Hlea.
    destruct (decide (instance_number sa = instance_number sb)) as [Heq|Hne].
    + apply leads_refl. split_and!; [done..|]. intros c s [Hc|Hc%list_elem_of_singleton]%elem_of_app Hs; [by eapply HD|].
      by simplify_eq.
    + assert (b ∈ peers sa) as Hpeer.
      { destruct (reachable_node w' a sa Hw' Ha) as [_ Hok]. rewrite (node_peers _ _ _ _ Hok).
        by apply (reachable_node w' b sb). }
      eapply leads_weaken; [apply (catch_one w' a b sa sb); [done..|lia]|].
      intros w2 (Hrtc & s' & En & Ek). split_and!; [unfold reachable in *; by etrans| | |].
      * rewrite En, lookup_insert_ne; [done|]. intros ->. congruence.
      * intros c s. rewrite En. intros [[_ <-]|[_ Hs]]%lookup_insert_Some; [lia|by eapply Hle].
      * intros c s Hc. rewrite En. intros [[_ <-]|[Hca Hs]]%lookup_insert_Some; [done|].
        apply elem_of_app in Hc as [Hc|Hc%list_elem_of_singleton]; [by eapply HD|done].
  - intros w' (Hw' & _ & _ & HD). split; [done|]. intros a s Hs. apply (HD a s); [|done]. by apply (reachable_node w' a s).
Qed.

(** ** A proposal above all promises *)
Definition low (bound : Z) s : Prop :=
  forall q, Acceptor.promised_id (acceptor_of s) = Some q -> number q <= bound.

Lemma bound_exists w (le : Learner.t U V) : exists bound, 0 <= bound /\ (forall a s, nodes w !! a = Some s -> low bound s) /\
  forall accs b q, Learner.acceptors le = Some accs -> accs !! b = Some q -> number q <= bound.
Proof.
  set (f := fun s => match Acceptor.promised_id (acceptor_of s) with Some q => number q | None => 0 end).
  assert (exists b1, forall a s, nodes w !! a = Some s -> f s <= b1) as [b1 Hb1].
  { destruct (decide (nodes w = ∅)) as [E|E]; [exists 0; intros a s; by rewrite E, lookup_empty|].
    destruct (gmap_max f (nodes w) E) as (b & y & _ & Hm). by exists (f y). }
  assert (exists b2, forall accs b q, Learner.acceptors le = Some accs -> accs !! b = Some q -> number q <= b2) as [b2 Hb2].
  { destruct (Learner.acceptors le) as [accs|]; [|by exists 0].
    destruct (decide (accs = ∅)) as [->|E]; [exists 0; intros ? b q [= <-]; by rewrite lookup_empty|].
    destruct (gmap_max number accs E) as (b & y & _ & Hm). exists (number y). intros ? c q [= <-]. apply Hm. }
  exists (Z.max 0 (Z.max b1 b2)). split_and!; [lia| |].
  - intros a s Hs q Hq. specialize (Hb1 a s Hs). unfold f in Hb1. rewrite Hq in Hb1. lia.
  - intros accs b q Ha Hq. specialize (Hb2 accs b q Ha Hq). lia.
Qed.

(** What is said of all servers while [u] proposes in instance [k]. *)
Record standing u k (P : t U V -> Prop) (le : Learner.t U V) w : Prop := Standing {
  standing_reachable : reachable members w;
  standing_at : all_at k w;
  standing_all a s : nodes w !! a = Some s -> P s;
  standing_learner s : nodes w !! u = Some s -> learner_of s = le;
}.

Lemma standing_after u k P le w a s (x : t U V * list (effect U V) * outcome unit) :
  standing u k P le w -> nodes w !! a = Some s -> step w (after a x w) ->
  instance_number (post x) = k -> P (post x) -> learner_of (post x) = learner_of s -> standing u k P le (after a x w).
Proof.
  intros [Hw Hk HP Hle] Ha Hs Hik HPx Hlx. split; [by eapply reachable_step|..].
  - intros b sb [[-> ->]|[_ Hb]]%after_lookup; [done|by eapply Hk].
  - intros b sb [[-> ->]|[_ Hb]]%after_lookup; [done|by eapply HP].
  - intros sb [[-> ->]|[_ Hb]]%after_lookup; [|by apply Hle]. rewrite Hlx. by apply Hle.
Qed.

Definition prepares_sent u k p w : Prop := forall a, a ∈ members -> (u, a, WPrepare k (Some p)) ∈ net w.
Definition accepts_sent u k p w : Prop :=
  exists x, forall a, a ∈ members -> (u, a, WAccept k (Some p) (Some x)) ∈ net w.
Definition collecting u p (D : list U) w : Prop := exists s, nodes w !! u = Some s /\ preparing p (proposer_of s) /\
  Proposer.promises_received (proposer_of s) = Some (list_to_set D) /\ Z.of_nat (length D) < quorum_of members.

(** The client proposes until its server's number is large enough. *)
Lemma raise_number u k (v : V) bound le w : u ∈ members -> standing u k (low bound) le w -> 0 <= bound ->
  leads w (fun w' => exists p, bound < number p /\ standing u k (low bound) le w' /\
    prepares_sent u k p w' /\ collecting u p [] w').
Proof.
  intros Hu Hst Hb.
  set (J := fun (n : Z) w' => standing u k (low bound) le w' /\ exists s, nodes w' !! u = Some s /\
    n <= number (Proposer.highest_proposal_id (proposer_of s))).
  assert (forall n w', J n w' -> leads w' (fun w2 => J (n + 1) w2 /\ exists p, n < number p /\
    standing u k (low bound) le w2 /\ prepares_sent u k p w2 /\ collecting u p [] w2)) as Hone.
  { intros n w' (Hst' & s & Hs & Hn). destruct (propose_update_eq s v) as (s' & E & Ek & Ea & El & Hpr & HX & Hh).
    pose proof (node_step (ClientPropose u v) u _ w' s eq_refl Hs) as Hstep. rewrite E in Hstep.
    destruct (reachable_node w' u s (standing_reachable _ _ _ _ _ Hst') Hs) as [_ Hok].
    pose proof (standing_at _ _ _ _ _ Hst' u s Hs) as Hk. set (p := next_pid (proposer_of s)) in *.
    eapply leads_step; [exact Hstep|]. apply leads_refl. set (w2 := after _ _ _).
    assert (nodes w2 !! u = Some s') as Hu2 by apply lookup_insert_eq.
    assert (standing u k (low bound) le w2) as Hst2.
    { apply (standing_after u k (low bound) le w' u s); [done..| | |]; cbn; [congruence| |congruence].
      intros q Hq. rewrite Ea in Hq. by apply (standing_all _ _ _ _ _ Hst' u s Hs). }
    split; [split; [done|exists s'; split; [done|]; rewrite Hh; cbn; lia]|].
    exists p. split; [cbn; lia|]. split; [done|]. split.
    - intros a Ha. apply elem_of_app. right. cbn. rewrite (node_peers _ _ _ _ Hok), Hk. by apply packets_broadcast.
    - exists s'. split_and!; [done..|]. cbn. apply quorum_pos. }
  assert (exists s, nodes w !! u = Some s) as [s Hs] by (by eapply reachable_present, Hu; apply (standing_reachable _ _ _ _ _ Hst)).
  assert (forall n : nat, leads w (J (Z.of_nat n))) as Hmany.
  { induction n as [|n IH].
    - apply leads_refl. split; [done|]. exists s. split; [done|].
      destruct (reachable_node w u s (standing_reachable _ _ _ _ _ Hst) Hs) as [_ Hok].
      pose proof (node_proposer _ _ _ _ Hok) as [_ _ _ Hnum Hpos _ _ _ _ _]. lia.
    - eapply leads_trans; [exact IH|]. intros w' Hw'. eapply leads_weaken; [by apply Hone|].
      intros w2 [HJ _]. by replace (Z.of_nat (S n)) with (Z.of_nat n + 1) by lia. }
  eapply leads_trans; [apply (Hmany (Z.to_nat bound))|]. intros w' Hw'. eapply leads_weaken; [by apply Hone|].
  intros w2 [_ (p & Hp & Hrest)]. exists p. split; [lia|done].
Qed.

Lemma standing_weaken u k (P Q : t U V -> Prop) le w : (forall s, P s -> Q s) -> standing u k P le w -> standing u k Q le w.
Proof. intros HPQ [? ? HP ?]. split; [done..| |done]. intros a s Hs. by apply HPQ, (HP a). Qed.
Lemma low_open bound p s : low bound s -> bound < number p -> open_for p s.
Proof.
  intros Hlow Hp. unfold open_for. destruct (Acceptor.promised_id (acceptor_of s)) as [q|] eqn:Eq; [|done].
  apply plt_le, pid_lt_number. specialize (Hlow q Eq). lia.
Qed.

Hypothesis Hnd : NoDup members.

(** The servers in front of [a]. *)
Lemma round_position D a (r : list U) : members = D ++ a :: r -> a ∈ members /\ (a ∉ D) /\ NoDup D.
Proof.
  intros Hm. rewrite Hm in Hnd. apply NoDup_app in Hnd as (? & Hdis & _). split_and!; [|by intros Ha%Hdis; set_solver|done].
  rewrite Hm. set_solver.
Qed.
Lemma not_quorum (D : list U) : Z.of_nat (length D) < quorum_of members ->
  ((Z.of_nat (S (length D)) =? quorum_of members) = false) -> forall a, Z.of_nat (length (D ++ [a])) < quorum_of members.
Proof. intros Hlt Hne%Z.eqb_neq a. rewrite length_app. cbn. lia. Qed.
Lemma all_are_quorum u : u ∈ members -> ~ Z.of_nat (length members) < quorum_of members.
Proof.
  intros Hu Hlt. unfold quorum_of in Hlt. destruct members as [|b l]; [by apply elem_of_nil in Hu|].
  cbn [length] in Hlt. pose proof (Z.div_lt (Z.of_nat (S (length l))) 2). lia.
Qed.

(** ** The promises *)
Lemma promise_round u k p le D a w s : u ∈ members -> a ∈ members -> a ∉ D -> NoDup D ->
  standing u k (open_for p) le w -> nodes w !! u = Some s -> preparing p (proposer_of s) ->
  Proposer.promises_received (proposer_of s) = Some (list_to_set D) -> Z.of_nat (length D) < quorum_of members ->
  (exists last lv, (a, u, WPromise k (Some p) last lv) ∈ net w) ->
  leads w (fun w' => standing u k (open_for p) le w' /\ (forall pk, pk ∈ net w -> pk ∈ net w') /\
    (accepts_sent u k p w' \/ collecting u p (D ++ [a]) w')).
Proof.
  intros Hu Ha HaD HND Hst Hs Hpr HX Hlt (last & lv & Hin).
  destruct (reachable_node w u s (standing_reachable _ _ _ _ _ Hst) Hs) as [_ Hok].
  pose proof (standing_at _ _ _ _ _ Hst u s Hs) as Hk.
  destruct (receive_promise_preparing s 0 a p last lv (list_to_set D)) as (s' & Ek & Ea & El & Hcase);
    [done..|by rewrite elem_of_list_to_set|].
  rewrite size_list_to_set, (prop_quorum _ _ _ _ _ (node_proposer _ _ _ _ Hok)), Hk in Hcase by done.
  pose proof (deliver _ _ _ _ _ Hin Hs) as Hstep. eapply leads_step; [exact Hstep|]. apply leads_refl.
  assert (standing u k (open_for p) le (after u (CustomServer.receive 0 a (WPromise k (Some p) last lv) s) w)) as Hst'.
  { assert (post (CustomServer.receive 0 a (WPromise k (Some p) last lv) s) = s') as Epost
      by (destruct (_ =? _); [destruct Hcase as (x & ->)|destruct Hcase as (-> & _)]; done).
    apply (standing_after u k (open_for p) le w u s); [done..| | |]; rewrite Epost; [congruence| |done].
    unfold open_for. rewrite Ea. by apply (standing_all _ _ _ _ _ Hst u s). }
  split; [exact Hst'|]. split; [intros pk; apply after_net|].
  destruct (_ =? quorum_of members) eqn:Eq.
  - left. destruct Hcase as (x & E). exists x. intros b Hb. rewrite E. apply elem_of_app. right. cbn.
    rewrite (node_peers _ _ _ _ Hok). by apply packets_broadcast.
  - right. destruct Hcase as (E & Hpr' & HX'). exists s'. rewrite E. split_and!; [apply after_same|done| |by apply not_quorum].
    rewrite HX'. f_equal. apply set_eq. set_solver.
Qed.

Lemma round_promises u k p le w : u ∈ members -> standing u k (open_for p) le w -> prepares_sent u k p w ->
  collecting u p [] w -> leads w (fun w' => standing u k (open_for p) le w' /\ accepts_sent u k p w').
Proof.
  intros Hu Hst Hprep Hcol.
  set (I := fun (D : list U) w' => standing u k (open_for p) le w' /\ prepares_sent u k p w' /\
    (accepts_sent u k p w' \/ collecting u p D w')).
  eapply leads_weaken with (P := I members); cycle 1.
  { intros w' (Hst' & _ & [Hacc|(s & _ & _ & _ & Hlt)]); [done|]. exfalso. by eapply all_are_quorum. }
  apply leads_each; [|split_and!; [done..|by right]]. clear w Hst Hprep Hcol.
  intros D a r w Hm (Hst & Hprep & [Hacc|(s & Hs & Hpr & HX & Hlt)]); [apply leads_refl; split_and!; [done..|by left]|].
  destruct (round_position D a r Hm) as (Ha & HaD & HND).
  destruct (reachable_present w a (standing_reachable _ _ _ _ _ Hst) Ha) as [sa Hsa].
  pose proof (standing_at _ _ _ _ _ Hst a sa Hsa) as Hka.
  destruct (receive_prepare_open sa 0 u p) as (last & lv & sa' & E & Ek & Ho & El & Epr); [by apply (standing_all _ _ _ _ _ Hst a)|].
  rewrite Hka in E, Ek. pose proof (deliver _ _ _ _ _ (Hprep a Ha) Hsa) as Hstep. rewrite E in Hstep.
  eapply leads_step; [exact Hstep|]. set (w1 := after a _ w) in *.
  assert (standing u k (open_for p) le w1) as Hst1 by (by apply (standing_after u k (open_for p) le w a sa)).
  assert (exists s1, nodes w1 !! u = Some s1 /\ preparing p (proposer_of s1) /\
    Proposer.promises_received (proposer_of s1) = Some (list_to_set D)) as (s1 & Hs1 & Hpr1 & HX1).
  { destruct (decide (u = a)) as [->|Hua]; [|exists s; unfold w1; by rewrite after_other].
    exists sa'. split; [apply after_same|]. rewrite Epr. replace sa with s by congruence. split; [by apply preparing_observe|].
    by rewrite (proj1 (promises_observe (Some p) (proposer_of s))). }
  eapply leads_weaken; [apply (promise_round u k p le D a w1 s1); try done|].
  - exists last, lv. apply elem_of_app. right. by left.
  - intros w2 (Hst2 & Hnet & Hor). split_and!; [done| |done]. intros b Hb. by apply Hnet, after_net, Hprep.
Qed.

(** ** The votes *)
Definition votes_sent u k p (x : V) (D : list U) w : Prop :=
  forall a, a ∈ D -> (a, u, WAccepted k (Some p) (Some x)) ∈ net w.

Lemma round_votes u k p le w x : u ∈ members -> standing u k (open_for p) le w ->
  (forall a, a ∈ members -> (u, a, WAccept k (Some p) (Some x)) ∈ net w) ->
  leads w (fun w' => standing u k (open_for p) le w' /\ votes_sent u k p x members w').
Proof.
  intros Hu Hst Hacc.
  set (I := fun (D : list U) w' => standing u k (open_for p) le w' /\
    (forall a, a ∈ members -> (u, a, WAccept k (Some p) (Some x)) ∈ net w') /\ votes_sent u k p x D w').
  eapply leads_weaken with (P := I members); [|by intros w' (? & _ & ?)].
  apply leads_each; [|split_and!; [done..|by intros ? ?%elem_of_nil]]. clear w Hst Hacc.
  intros D a r w Hm (Hst & Hacc & HD). destruct (round_position D a r Hm) as (Ha & _ & _).
  destruct (reachable_present w a (standing_reachable _ _ _ _ _ Hst) Ha) as [s Hs].
  destruct (reachable_node w a s (standing_reachable _ _ _ _ _ Hst) Hs) as [_ Hok].
  pose proof (standing_at _ _ _ _ _ Hst a s Hs) as Hk.
  destruct (receive_accept_open s 0 u p x) as (s' & E & Ek & Ho & El); [by apply (standing_all _ _ _ _ _ Hst a)|].
  rewrite Hk in E, Ek. pose proof (deliver _ _ _ _ _ (Hacc a Ha) Hs) as Hstep. rewrite E in Hstep.
  eapply leads_step; [exact Hstep|]. apply leads_refl. split_and!.
  - by apply (standing_after u k (open_for p) le w a s).
  - intros b Hb. by apply after_net, Hacc.
  - intros b [Hb|Hb%list_elem_of_singleton]%elem_of_app; [by apply after_net, HD|]. subst b.
    apply elem_of_app. right. cbn. rewrite (node_peers _ _ _ _ Hok). by apply packets_broadcast.
Qed.

(** ** The resolution *)
Lemma votes_agree w k : reachable members w ->
  forall q a b v v', voted (net w) k a q v -> voted (net w) k b q v' -> v = v'.
Proof.
  intros Hw q a b v v' Hv Hv'. pose proof (world_net _ _ (reachable_ok members w Hw)) as HN.
  destruct (net_vote _ _ HN _ _ _ _ Hv) as (? & [= <-] & Hp). destruct (net_vote _ _ HN _ _ _ _ Hv') as (? & [= <-] & Hp').
  by eapply net_unique.
Qed.

Definition resolved u k w : Prop := exists s, nodes w !! u = Some s /\ k < instance_number s /\ is_Some (current_value s).
Definition counting_votes u k p (x : V) (D : list U) w : Prop := reachable members w /\ votes_sent u k p x members w /\
  exists s, nodes w !! u = Some s /\ instance_number s = k /\ counted p D (learner_of s) /\
    Z.of_nat (length D) < quorum_of members.

Lemma receive_vote s rnd a k p x le' r : instance_number s = k ->
  Learner.receive_accepted a (Some p) (Some x) (learner_of s) = (le', Ret r) ->
  let s' := post (CustomServer.receive rnd a (WAccepted k (Some p) (Some x)) s) in
  match r with
  | Some (Resolution _ _) => instance_number s' = k + 1 /\ current_value s' = Some x
  | _ => instance_number s' = k /\ learner_of s' = le'
  end.
Proof.
  intros Hk E. cbn [CustomServer.receive]. unfold Base.receive_accepted, PaxosInstance.receive_accepted.
  autounfold with pym; cbn. rewrite Hk, Z.eqb_refl, E. cbn. destruct r as [[]|]; try done.
  match goal with |- context [Backoff.advance_instance _ ?k' ?v ?b ?z] =>
    by destruct (advance_instance_eq k' v b z) as (s2 & -> & _ & _ & _ & Hk' & Hv' & _) end.
Qed.

Lemma vote_step u k p x D a w : u ∈ members -> a ∈ members -> a ∉ D -> counting_votes u k p x D w ->
  leads w (fun w' => resolved u k w' \/ counting_votes u k p x (D ++ [a]) w').
Proof.
  intros Hu Ha HaD (Hw & Hvotes & s & Hs & Hk & Hcnt & Hlt).
  destruct (reachable_node w u s Hw Hs) as [_ Hok].
  destruct (node_learner _ _ _ _ Hok) as [Hq Hcounting]. rewrite Hk in Hcounting.
  destruct (receive_accepted_counts (voted (net w) k) (votes_agree w k Hw) p D (learner_of s) a (Some x) Hcounting)
    as (le' & Hcase); [rewrite Hq; apply quorum_pos|done|done|exists u; by apply Hvotes|].
  rewrite Hq in Hcase. pose proof (deliver _ _ _ _ _ (Hvotes a Ha) Hs) as Hstep.
  eapply leads_step; [exact Hstep|]. apply leads_refl. destruct (_ =? quorum_of members) eqn:Eq.
  - left. eexists. split; [apply after_same|]. destruct (receive_vote s 0 a k p x _ _ Hk Hcase) as [-> ->]. split; [lia|done].
  - right. destruct Hcase as [E Hcnt']. pose proof (receive_vote s 0 a k p x _ _ Hk E) as [Hk' Hl'].
    split; [by eapply reachable_step|]. split; [intros b Hb; by apply after_net, Hvotes|].
    eexists. split; [apply after_same|]. rewrite Hl'. split_and!; [done|done|by apply not_quorum].
Qed.

Lemma round_counts u k p x w : u ∈ members -> counting_votes u k p x [] w -> leads w (resolved u k).
Proof.
  intros Hu Hw. set (I := fun (D : list U) w' => resolved u k w' \/ counting_votes u k p x D w').
  eapply leads_weaken with (P := I members); cycle 1.
  { intros w' [|(_ & _ & s & _ & _ & _ & Hlt)]; [done|]. exfalso. by eapply all_are_quorum. }
  apply leads_each; [|by right]. intros D a r w' Hm [Hr|Hc]; [by apply leads_refl; left|].
  destruct (round_position D a r Hm) as (Ha & HaD & _). by eapply vote_step.
Qed.

(** C3: from every reachable state of the cluster, whatever was sent, lost, promised
    or accepted before, some schedule of deliveries and timers lets any server
    resolve an instance later than every server's at present: a cluster without
    restarts is never stuck. *)
Theorem resolution_reachable w u (v : V) : reachable members w -> u ∈ members ->
  exists w' s', rtc step w w' /\ nodes w' !! u = Some s' /\ is_Some (current_value s') /\
    forall a s, nodes w !! a = Some s -> instance_number s < instance_number s'.
Proof.
  intros Hw Hu. destruct (catch_up w u Hw Hu) as (k & Hmax & Hcatch).
  cut (leads w (resolved u k)).
  { intros (w' & Hrtc & s' & Hs' & Hlt & Hv). exists w', s'. split_and!; [done..|]. intros a s Hs. specialize (Hmax a s Hs). lia. }
  eapply leads_trans; [exact Hcatch|]. clear Hcatch Hmax Hw w. intros w (Hw & Hk).
  destruct (reachable_present w u Hw Hu) as [su Hsu]. set (le := learner_of su).
  destruct (bound_exists w le) as (bound & Hb & Hlow & Hle).
  assert (standing u k (low bound) le w) as Hst by (split; [done..|]; intros s Hs; by replace s with su by congruence).
  eapply leads_trans; [by apply (raise_number u k v bound le w)|]. clear Hw Hk Hsu Hlow Hst. intros w1 (p & Hp & Hst & Hprep & Hcol).
  eapply leads_trans; [apply (round_promises u k p le w1); [done| |done..]|].
  { eapply standing_weaken; [|done]. intros s Hs. by apply (low_open bound). }
  clear Hst Hprep Hcol. intros w2 (Hst & x & Hacc). eapply leads_trans; [by apply (round_votes u k p le w2 x)|].
  clear Hst Hacc. intros w3 (Hst & Hvotes). apply (round_counts u k p x); [done|].
  pose proof (standing_reachable _ _ _ _ _ Hst) as Hw3. destruct (reachable_present w3 u Hw3 Hu) as [s Hs].
  destruct (reachable_node w3 u s Hw3 Hs) as [_ Hok]. pose proof (standing_at _ _ _ _ _ Hst u s Hs) as Hks.
  split_and!; [done..|]. exists s. split_and!; [done..| |cbn; apply quorum_pos].
  destruct (node_learner _ _ _ _ Hok) as [_ Hcounting]. apply (counted_none _ p _ Hcounting).
  rewrite (standing_learner _ _ _ _ _ Hst s Hs). intros accs b q Ha Hq. specialize (Hle accs b q Ha Hq). lia.
Qed.
End schedules.

Lemma resolution_reachable_witness :
  exists w' s', rtc step Demo.final w' /\ nodes w' !! 2 = Some s' /\ is_Some (current_value s') /\
    forall a s, nodes Demo.final !! a = Some s -> instance_number s < instance_number s'.
Proof.
  refine (resolution_reachable Demo.members Demo.members_nodup Demo.final 2 "b"%string Demo.final_reachable _).
  apply (bool_decide_unpack _). vm_compute. exact I.
Defined.
