(* ===== verification/PaxosClassTheorems.v ===== *)
(** * The properties of the single-decree classes

    What one Acceptor, Proposer or Learner object does over any sequence of
    calls, without a network. *)
From stdpp Require Import base gmap sets list strings.
From Stdlib Require Import ZArith Lia Sorting.Sorted.
From S2P Require Import Prelude ComposablePaxos PaxosFacts.
Local Open Scope Z_scope.

(** Decide the first comparison of the goal by arithmetic. *)
Ltac ltb_case :=
  match goal with
  | |- context [(?a <? ?b)%Z] => destruct (Z.ltb_spec a b); [try (exfalso; lia)|try (exfalso; lia)]
  end.

(** ** Acceptor *)
Module AcceptorRun.
Section acceptor_run.
Context {U V : Type} `{Countable U} `{PyOrder U} `{EqDecision V}.
Implicit Types pid : option (ProposalID U).

(** The acceptor after the messages [ms]. *)
Definition serve (ms : list (PaxosMessage U V)) (s : Acceptor.t U V) : Acceptor.t U V :=
  foldl (fun s m => (Acceptor.receive m s).1) s ms.

Lemma promised_prepare from pid (s : Acceptor.t U V) :
  Acceptor.promised_id s ⪯ Acceptor.promised_id (Acceptor.receive_prepare from pid s).1.
Proof.
  unfold Acceptor.receive_prepare. destruct (py_ge pid _) eqn:E; simpl; [|apply ple_refl].
  by py_normalise.
Qed.

Lemma promised_accept from pid v (s : Acceptor.t U V) :
  Acceptor.promised_id s ⪯ Acceptor.promised_id (Acceptor.receive_accept from pid v s).1.
Proof.
  unfold Acceptor.receive_accept. destruct (py_ge pid _) eqn:E; simpl; [|apply ple_refl].
  by py_normalise.
Qed.

Lemma promised_serve ms (s : Acceptor.t U V) :
  Acceptor.promised_id s ⪯ Acceptor.promised_id (serve ms s).
Proof.
  revert s. induction ms as [|m ms IH]; intros s; [apply ple_refl|].
  change (serve (m :: ms) s) with (serve ms (Acceptor.receive m s).1).
  eapply ple_trans; [|apply IH].
  destruct m as [f pid| | |f pid v| |]; simpl; try apply ple_refl.
  - pose proof (promised_prepare f pid s). by destruct (Acceptor.receive_prepare f pid s).
  - pose proof (promised_accept f pid v s). by destruct (Acceptor.receive_accept f pid v s).
Qed.

(** C24: an acceptor that answered a Prepare for [p] with a Promise never again
    accepts a value at a smaller proposal id, whatever it receives in
    between. *)
Theorem acceptor_keeps_promises (s : Acceptor.t U V) from to pid u last lv ms from' q v u' q' v' :
  (Acceptor.receive_prepare from pid s).2 = Promise u to pid last lv ->
  (Acceptor.receive_accept from' q v (serve ms (Acceptor.receive_prepare from pid s).1)).2
    = Accepted u' q' v' ->
  pid ⪯ q' /\ q' = q /\ v' = v.
Proof.
  intros Hp Ha.
  pose proof (promised_serve ms (Acceptor.receive_prepare from pid s).1) as Hle.
  revert Hp Hle Ha. unfold Acceptor.receive_prepare.
  destruct (py_ge pid (Acceptor.promised_id s)) eqn:E1; simpl; intros Hp Hle; [|done].
  unfold Acceptor.receive_accept.
  destruct (py_ge q (Acceptor.promised_id (serve _ _))) eqn:E2; simpl; [|done].
  intros [= _ <- <-]. py_normalise. split_and!; [|done..]. by eapply ple_trans.
Qed.

(** A Promise reports the last value the acceptor accepted, whatever it
    received since: the proposal of its last Accepted answer. *)
Theorem promise_reports_last_accepted (s : Acceptor.t U V) from pid v u from' q to l lv u' :
  (Acceptor.receive_accept from pid v s).2 = Accepted u pid v ->
  (Acceptor.receive_prepare from' q (Acceptor.receive_accept from pid v s).1).2
    = Promise u' to q l lv ->
  l = pid /\ lv = v /\ pid ⪯ q /\ to = from'.
Proof.
  unfold Acceptor.receive_accept. destruct (py_ge pid _) eqn:E; simpl; [|done]. intros _.
  unfold Acceptor.receive_prepare; simpl.
  destruct (py_ge q pid) eqn:E2; [|done]. intros [= _ <- <- <-]. by py_normalise.
Qed.

End acceptor_run.

Lemma acceptor_keeps_promises_witness :
  let a : Acceptor.t Z string := Acceptor.init 2 None None None in
  let p := Some (MkPID 4 1) in let q := Some (MkPID 5 3) in
  p ⪯ q /\ q = q /\ Some "x"%string = Some "x"%string.
Proof.
  refine (acceptor_keeps_promises (Acceptor.init 2 None None None) 1 1 (Some (MkPID 4 1)) 2
    None None [Prepare 3 (Some (MkPID 3 3)); Accept 1 (Some (MkPID 4 1)) (Some "y"%string)]
    3 (Some (MkPID 5 3)) (Some "x"%string) 2 _ _ _ _); vm_compute; reflexivity.
Defined.

Lemma promise_reports_last_accepted_witness :
  let p := Some (MkPID 4 1) in
  p = p /\ Some "y"%string = Some "y"%string /\ p ⪯ Some (MkPID 5 3) /\ 3 = 3.
Proof.
  refine (promise_reports_last_accepted (Acceptor.init 2 None None None) 1 (Some (MkPID 4 1))
    (Some "y"%string) 2 3 (Some (MkPID 5 3)) 3 _ _ 2 _ _); vm_compute; reflexivity.
Defined.

End AcceptorRun.

(** ** Proposer *)
Module ProposerRun.
Section proposer_run.
Context {U V : Type} `{Countable U} `{PyOrder U} `{EqDecision V}.
Implicit Types s : Proposer.t U V.

(** A call of the owner of a proposer, or a message from the network. *)
Inductive call : Type :=
| CallPrepare
| CallPropose (v : option V)
| CallObserve (pid : option (ProposalID U))
| CallReceive (m : PaxosMessage U V).

(** The proposer after a call and the Prepare message the call returned. *)
Definition serve_call (c : call) (s : Proposer.t U V) : Proposer.t U V * list (ProposalID U) :=
  let prepared (r : option (PaxosMessage U V)) :=
    match r with Some (Prepare _ (Some p)) => [p] | _ => [] end in
  match c with
  | CallPrepare => let '(s, m) := Proposer.prepare s in (s, prepared (Some m))
  | CallPropose v => let '(s, m) := Proposer.propose_value v s in (s, prepared m)
  | CallObserve pid => (Proposer.observe_proposal pid s, [])
  | CallReceive m =>
      let '(s, r) := Proposer.receive m s in
      (s, prepared (match r with Ret m => m | Raise _ => None end))
  end.

(** The proposal ids of all the Prepare messages, in order. *)
Fixpoint prepared (cs : list call) (s : Proposer.t U V) : list (ProposalID U) :=
  match cs with
  | [] => []
  | c :: cs => let '(s, ps) := serve_call c s in ps ++ prepared cs s
  end.

(** What a call does to the number a next Prepare is above. *)
Definition advances s (x : Proposer.t U V * list (ProposalID U)) : Prop :=
  Proposer.network_uid x.1 = Proposer.network_uid s /\
  number (Proposer.highest_proposal_id s) <= number (Proposer.highest_proposal_id x.1) /\
  (x.2 = [] \/ exists p, x.2 = [p] /\ uid p = Proposer.network_uid s /\
     number (Proposer.highest_proposal_id s) < number p /\
     number p <= number (Proposer.highest_proposal_id x.1)).

Lemma observe_advances pid s : advances s (Proposer.observe_proposal pid s, []).
Proof.
  split_and!; simpl; [| |by left].
  - destruct pid as [p|]; simpl; [|done]. by destruct (py_gt _ _).
  - destruct pid as [p|]; simpl; [|done].
    destruct (py_gt p _) eqn:E; simpl; [|lia]. apply pid_le_number. py_order.
Qed.

(** Methods that only adopt values and collect promises. *)
Lemma advances_same s s' :
  Proposer.network_uid s' = Proposer.network_uid s ->
  Proposer.highest_proposal_id s' = Proposer.highest_proposal_id s -> advances s (s', []).
Proof. intros Hu Hh. split_and!; simpl; [done|by rewrite Hh|by left]. Qed.

Lemma advances_trans s s' x :
  advances s (s', []) -> advances s' x -> advances s x.
Proof.
  intros (Hu & Hn & _) (Hu' & Hn' & Hx). simpl in *. split_and!; [congruence|lia|].
  destruct Hx as [?|(p & ? & Hp & ? & ?)]; [by left|]. right. exists p.
  split_and!; [done|congruence|lia|lia].
Qed.

Lemma prepare_advances s :
  advances s ((Proposer.prepare s).1, [Proposer.proposal_id (Proposer.prepare s).1]).
Proof.
  split_and!; simpl; [done|lia|]. right. eexists. split_and!; [done|done|simpl; lia|simpl; lia].
Qed.

Lemma adopt_frame last lv s :
  Proposer.network_uid (Proposer.adopt last lv s) = Proposer.network_uid s /\
  Proposer.highest_proposal_id (Proposer.adopt last lv s) = Proposer.highest_proposal_id s.
Proof. unfold Proposer.adopt. destruct (py_gt _ _); [|done]. by destruct lv. Qed.

Lemma serve_call_advances c s : advances s (serve_call c s).
Proof.
  destruct c as [|v|pid|m]; simpl.
  - apply prepare_advances.
  - unfold Proposer.propose_value. destruct (Proposer.proposed_value s); simpl;
      [by apply advances_same|]. destruct (Proposer.leader s); by apply advances_same.
  - apply observe_advances.
  - destruct m as [f pid|f g pid q|f g pid l v|f pid v|f pid v|f v];
      simpl; try by apply advances_same.
    + eapply advances_trans; [apply (observe_advances q)|]. unfold Proposer.receive_nack.
      generalize (Proposer.observe_proposal q s) as s1. intros s1.
      destruct (Proposer.nacks_received s1) as [X|]; [|by apply advances_same].
      destruct (bool_decide _); [|by apply advances_same].
      eapply advances_trans;
        [by apply (advances_same s1 (Proposer.set_nacks_received (Some ({[f]} ∪ X)) s1))|].
      destruct (_ =? _); [|by apply advances_same].
      apply (prepare_advances (Proposer.set_nacks_received _ s1)).
    + eapply advances_trans; [apply (observe_advances pid)|]. unfold Proposer.receive_promise.
      generalize (Proposer.observe_proposal pid s) as s1. intros s1.
      destruct (negb _ && _); [|by apply advances_same].
      destruct (Proposer.promises_received s1) as [X|]; [|by apply advances_same].
      destruct (bool_decide (f ∈ X)); [by apply advances_same|].
      destruct (adopt_frame l v (Proposer.set_promises_received (Some ({[f]} ∪ X)) s1)) as [Hu Hh].
      destruct (_ =? _); [|by apply advances_same].
      destruct (Proposer.proposed_value _); by apply advances_same.
Qed.

(** Whatever messages arrive in between, the Prepare messages of one
    proposer carry its own uid and strictly increasing numbers, above every
    proposal it observed before: it never uses a proposal id twice. *)
Theorem prepares_increase cs s :
  StronglySorted (fun p q => number p < number q) (prepared cs s) /\
  Forall (fun p => uid p = Proposer.network_uid s /\
            number (Proposer.highest_proposal_id s) < number p) (prepared cs s).
Proof.
  revert s. induction cs as [|c cs IH]; intros s; simpl; [by split; constructor|].
  destruct (serve_call_advances c s) as (Hu & Hn & Hp).
  destruct (serve_call c s) as [s' ps]; simpl in *. destruct (IH s') as [Hsort Hall].
  rewrite Hu in Hall.
  destruct Hp as [->|(p & -> & Hpu & Hlo & Hhi)]; simpl.
  - split; [done|]. eapply Forall_impl; [exact Hall|]. simpl. intros q [? ?]. split; [done|lia].
  - split; constructor; [done| |by split|].
    + eapply Forall_impl; [exact Hall|]. simpl. intros q [? ?]. lia.
    + eapply Forall_impl; [exact Hall|]. simpl. intros q [? ?]. split; [done|lia].
Qed.

End proposer_run.
End ProposerRun.

(** ** Learner *)
Module LearnerRun.
Section learner_run.
Context {U V : Type} `{Countable U} `{PyOrder U} `{EqDecision V}.

(** An Accepted message: sender, proposal, value. *)
Abbreviation vote := (U * ProposalID U * V)%type.

(** The learner after a sequence of votes, and what the calls returned. *)
Definition count (x : vote) (s : Learner.t U V) : Learner.t U V * reply U V :=
  Learner.receive_accepted x.1.1 (Some x.1.2) (Some x.2) s.

Fixpoint count_all (xs : list vote) (s : Learner.t U V) : Learner.t U V * list (reply U V) :=
  match xs with
  | [] => (s, [])
  | x :: xs =>
      let '(s, r) := count x s in
      let '(s, rs) := count_all xs s in
      (s, r :: rs)
  end.

Definition returns (r : reply U V) : Prop := exists m, r = Ret m.

(** A learner that resolved to [v]. *)
Definition resolved_to (v : V) (s : Learner.t U V) : Prop :=
  Learner.final_value s = Some v /\ is_Some (Learner.final_acceptors s).

(** The call that resolves keeps the backers of the proposal. *)
Lemma resolution_acceptors from pid v (s s' : Learner.t U V) m :
  Learner.final_value s = None ->
  Learner.receive_accepted from pid v s = (s', Ret (Some m)) ->
  is_Some (Learner.final_acceptors s').
Proof.
  intros Hn. unfold Learner.receive_accepted. rewrite Hn.
  destruct (Learner.acceptors s) as [accs|]; [|done].
  destruct (Learner.proposals s) as [props|]; [|done].
  destruct pid as [p|]; [|done]. destruct (py_le _ _); [done|].
  destruct (Learner.retire _ _ _) as [props' [[]|]]; [|done].
  destruct (bool_decide _); [|done]. destruct (_ =? _)%Z; [|done].
  intros [= <- _]. by eexists.
Qed.

Lemma count_resolved x v s :
  resolved_to v s -> returns (count x s).2 /\ resolved_to v (count x s).1.
Proof.
  intros [Hv [X HX]]. unfold count, Learner.receive_accepted. rewrite Hv, HX.
  destruct (_ && _); (split; [by eexists|]); split; simpl; eauto.
Qed.

Lemma count_all_resolved xs v s :
  resolved_to v s -> Forall returns (count_all xs s).2 /\ resolved_to v (count_all xs s).1.
Proof.
  revert s. induction xs as [|x xs IH]; intros s Hs; [by split|]. simpl.
  destruct (count_resolved x v s Hs) as [Hr Hs'].
  destruct (count x s) as [s' r]. simpl in *. destruct (IH s' Hs') as [Hrs Hs''].
  destruct (count_all xs s') as [s'' rs]. split; [by constructor|done].
Qed.

Definition seen_in (xs : list vote) (a : U) (p : ProposalID U) (v : option V) : Prop :=
  exists x, v = Some x /\ (a, p, x) ∈ xs.

Definition resolved_by (xs : list vote) (quorum : Z) (s : Learner.t U V) : Prop :=
  forall v, Learner.final_value s = Some v ->
    exists p (X : gset U), quorum <= Z.of_nat (size X) /\ forall a, a ∈ X -> (a, p, v) ∈ xs.

Lemma count_all_sound (all xs : list vote) s :
  counting (seen_in all) s -> 0 < Learner.quorum_size s -> (forall x, x ∈ xs -> x ∈ all) ->
  (forall q a b v w, (a, q, v) ∈ all -> (b, q, w) ∈ all -> v = w) ->
  Forall returns (count_all xs s).2 /\
  resolved_by all (Learner.quorum_size s) (count_all xs s).1.
Proof.
  intros Hcount Hq Hsub Hfun. revert s Hcount Hq.
  induction xs as [|[[a p] v] xs IH]; intros s Hcount Hq.
  { split; [done|]. intros v Hv. simpl in Hv. by rewrite (counting_undecided _ _ Hcount) in Hv. }
  simpl. unfold count; simpl.
  destruct (learner_vote (seen_in all) s a p (Some v)) as (s' & Hu & Hq' & Hcase); [done..| | |].
  { intros q b c w w' (x & -> & Hx) (y & -> & Hy). f_equal. by eapply Hfun. }
  { exists v. split; [done|]. apply Hsub. apply elem_of_cons. by left. }
  destruct Hcase as [[-> Hcount']|(E & Hfin & q & X & HX & Hvotes)].
  - destruct (IH ltac:(intros x Hx; apply Hsub, elem_of_cons; by right) s' Hcount')
      as [Hrs Hres]; [lia|].
    destruct (count_all xs s') as [s'' rs]. rewrite Hq' in Hres. split; [constructor; [by eexists|done]|done].
  - assert (resolved_to v s') as Hs'.
    { split; [done|]. eapply resolution_acceptors; [|exact E]. apply Hcount. }
    rewrite E. destruct (count_all_resolved xs v s' Hs') as [Hrs Hres].
    destruct (count_all xs s') as [s'' rs]. split; [constructor; [by eexists|done]|].
    intros w Hw. simpl in *. destruct Hres as [Hres _]. simplify_eq.
    exists q, X. split; [done|]. intros b Hb. by destruct (Hvotes b Hb) as (x & [= <-] & ?).
Qed.

(** C23: when the Accepted messages for one proposal carry one value, the
    learner handles any sequence of them, in any order and with repetitions,
    without an exception, and it resolves only to a value that a quorum of
    distinct acceptors accepted at one and the same proposal. *)
Theorem learner_sound xs (u : U) quorum :
  0 < quorum ->
  (forall q a b v w, (a, q, v) ∈ xs -> (b, q, w) ∈ xs -> v = w) ->
  Forall returns (count_all xs (Learner.init u quorum)).2 /\
  resolved_by xs quorum (count_all xs (Learner.init u quorum)).1.
Proof. intros Hq Hfun. apply count_all_sound; [apply counting_init|done..]. Qed.

(** ** One proposal *)

(** The learner that has seen votes of the acceptors [X] for ([p], [v]). *)
Definition single (u : U) (quorum : Z) (p : ProposalID U) (v : V) (X : gset U) : Learner.t U V :=
  let n := Z.of_nat (size X) in
  if n <? quorum then
    Learner.MkLearner u quorum
      (Some (if decide (X = ∅) then ∅ else {[p := Learner.MkStatus n n X (Some v)]}))
      (Some (gset_to_gmap p X)) None None None
  else Learner.MkLearner u quorum None None (Some v) (Some X) (Some p).

Lemma single_vote u quorum p v X a :
  0 < quorum ->
  (count (a, p, v) (single u quorum p v X)).1 = single u quorum p v ({[a]} ∪ X).
Proof.
  intros Hq. unfold count, single; simpl.
  destruct (Z.ltb_spec (Z.of_nat (size X)) quorum) as [Hlt|Hge].
  - unfold Learner.receive_accepted; simpl. rewrite lookup_gset_to_gmap.
    destruct (decide (a ∈ X)) as [Ha|Ha].
    + rewrite option_guard_True by done. unfold py_le. rewrite py_ltb_irrefl; simpl.
      assert ({[a]} ∪ X = X) as -> by set_solver.
      by apply Z.ltb_lt in Hlt as ->.
    + rewrite option_guard_False by done. change (py_le (Some p) None) with false. simpl.
      assert (size ({[a]} ∪ X) = S (size X)) as Hsz.
      { rewrite size_union by set_solver. by rewrite size_singleton. }
      set (props := if decide (X = ∅) then ∅ else _).
      assert (Learner.status_of p (Some v) props =
        Learner.MkStatus (Z.of_nat (size X)) (Z.of_nat (size X)) X (Some v)) as ->.
      { unfold Learner.status_of, props. destruct (decide (X = ∅)) as [->|Hne].
        - by rewrite lookup_empty, size_empty.
        - by rewrite lookup_singleton_eq. }
      rewrite bool_decide_true by done.
      rewrite Hsz, (decide_False (P := {[a]} ∪ X = ∅)) by set_solver.
      rewrite gset_to_gmap_union_singleton, Nat2Z.inj_succ, <-Z.add_1_r. simpl.
      destruct (Z.eqb_spec (Z.of_nat (size X) + 1) quorum) as [E|Hn]; ltb_case; [done|].
      unfold Learner.set_tally, Learner.count_vote, props; simpl. do 2 f_equal.
      by destruct (decide (X = ∅)); [|rewrite insert_singleton_eq].
  - unfold Learner.receive_accepted; simpl.
    unfold py_ge. rewrite py_ltb_irrefl, bool_decide_true by done. simpl.
    assert (size X <= size ({[a]} ∪ X))%nat by (apply subseteq_size; set_solver).
    by ltb_case.
Qed.

(** With the votes for one proposal the learner resolves exactly when the
    distinct acceptors among them are a quorum: duplicates are not counted
    twice, no vote is lost, and the acceptors it then reports are those that
    voted. *)
Theorem learner_single_proposal (u : U) quorum p v (acs : list U) :
  0 < quorum ->
  let s := (count_all ((fun a => (a, p, v)) <$> acs) (Learner.init u quorum)).1 in
  let X : gset U := list_to_set acs in
  (Learner.final_value s = Some v <-> quorum <= Z.of_nat (size X)) /\
  (quorum <= Z.of_nat (size X) -> Learner.final_acceptors s = Some X) /\
  (Z.of_nat (size X) < quorum -> Learner.final_value s = None).
Proof.
  intros Hq s X.
  assert (forall Y, (count_all ((fun a => (a, p, v)) <$> acs) (single u quorum p v Y)).1
            = single u quorum p v (X ∪ Y)) as Hrun.
  { unfold X. clear s X. induction acs as [|a acs IH]; intros Y; simpl.
    - by rewrite (left_id_L ∅ (∪)).
    - pose proof (single_vote u quorum p v Y a Hq) as Hstep. unfold count in *. simpl in *.
      destruct (Learner.receive_accepted a (Some p) (Some v) _) as [s r]. simpl in *. subst s.
      specialize (IH ({[a]} ∪ Y)). destruct (count_all _ _) as [s' rs]. simpl in *. rewrite IH.
      f_equal. set_solver. }
  assert (s = single u quorum p v X) as ->.
  { unfold s. rewrite <-(right_id_L ∅ (∪) X), <-Hrun. unfold single.
    rewrite size_empty. by ltb_case. }
  clear Hrun. clearbody X. unfold single.
  destruct (Z.ltb_spec (Z.of_nat (size X)) quorum); simpl;
    (split; [split|split]); intros; first [done|lia|exfalso; lia].
Qed.

End learner_run.

Lemma learner_sound_witness :
  let xs := [(1, MkPID 1 1, "x"); (2, MkPID 1 1, "x"); (2, MkPID 2 3, "y"); (1, MkPID 1 1, "x");
             (3, MkPID 2 3, "y")]%string in
  Forall returns (count_all xs (Learner.init 2 2)).2 /\
  resolved_by xs 2 (count_all xs (Learner.init 2 2)).1.
Proof.
  intros xs. apply (learner_sound xs 2 2); [lia|].
  intros q a b v w Ha Hb. unfold xs in *.
  repeat (apply elem_of_cons in Ha as [Ha|Ha]; [|try by apply elem_of_nil in Ha]);
  repeat (apply elem_of_cons in Hb as [Hb|Hb]; [|try by apply elem_of_nil in Hb]);
    simplify_eq; reflexivity.
Defined.

Lemma learner_single_proposal_witness :
  let s := (count_all ((fun a => (a, MkPID 1 1, "x"%string)) <$> [1; 2; 1; 3])
              (Learner.init 2 2)).1 in
  (Learner.final_value s = Some "x"%string <-> 2 <= 3) /\
  (2 <= 3 -> Learner.final_acceptors s = Some {[1; 2; 3]}) /\
  (3 < 2 -> Learner.final_value s = None).
Proof.
  exact (learner_single_proposal 2 2 (MkPID 1 1) "x"%string [1; 2; 1; 3] eq_refl).
Defined.

End LearnerRun.
