(* ===== verification/PaxosServerTheorems.v ===== *)
(** * The properties of one server: persistence and backoff

    What a server writes to its state file and finds there after a restart,
    and how its backoff window moves.  A cluster of servers that may restart
    is [crash_step]. *)
From stdpp Require Import base gmap sets list relations strings.
From Stdlib Require Import ZArith QArith Lia.
From S2P Require Import Prelude ComposablePaxos ReplicatedValue PaxosFacts PaxosSystem PaxosInvariant PaxosPreservation PaxosSafety.
Local Open Scope Z_scope.

(** ** Restarts *)
Module Crash.

Definition members : list Z := [1; 2; 3].
Definition p1 : ProposalID Z := MkPID 1 1.
Definition p2 : ProposalID Z := MkPID 2 3.
Definition p3 : ProposalID Z := MkPID 3 1.

(** Server 3's value "b" is chosen at [p2] by servers 2 and 3 while an Accept
    of server 1 for the older [p1] is on its way to server 2. *)
Definition before : list (action Z string) :=
  [ ClientPropose 1 "a";
    Deliver 1 1 (WPrepare 0 (Some p1)) 0;
    Deliver 1 3 (WPrepare 0 (Some p1)) 0;
    Deliver 1 1 (WPromise 0 (Some p1) None None) 0;
    Deliver 3 1 (WPromise 0 (Some p1) None None) 0;
    ClientPropose 3 "b";
    Deliver 3 1 (WPrepare 0 (Some p2)) 0;
    Deliver 3 3 (WPrepare 0 (Some p2)) 0;
    Deliver 1 3 (WPromise 0 (Some p2) None None) 0;
    Deliver 3 3 (WPromise 0 (Some p2) None None) 0;
    Deliver 3 2 (WAccept 0 (Some p2) (Some "b")) 0;
    Deliver 3 3 (WAccept 0 (Some p2) (Some "b")) 0;
    Deliver 2 3 (WAccepted 0 (Some p2) (Some "b")) 0;
    Deliver 3 3 (WAccepted 0 (Some p2) (Some "b")) 0 ]%string.

(** Server 2 restarts, takes the old Accept, and server 1 gets its value
    through at a new proposal. *)
Definition after : list (action Z string) :=
  [ Deliver 1 2 (WAccept 0 (Some p1) (Some "a")) 0;
    ClientPropose 1 "a";
    Deliver 1 1 (WPrepare 0 (Some p3)) 0;
    Deliver 1 2 (WPrepare 0 (Some p3)) 0;
    Deliver 1 1 (WPromise 0 (Some p3) None None) 0;
    Deliver 2 1 (WPromise 0 (Some p3) (Some p1) (Some "a")) 0;
    Deliver 1 1 (WAccept 0 (Some p3) (Some "a")) 0;
    Deliver 1 2 (WAccept 0 (Some p3) (Some "a")) 0;
    Deliver 1 1 (WAccepted 0 (Some p3) (Some "a")) 0;
    Deliver 2 1 (WAccepted 0 (Some p3) (Some "a")) 0 ]%string.

Definition outcome_run : option (world Z string) :=
  w ← run before (initial members); w ← crash 2 w; run after w.

Lemma values_after :
  option_map (fun w => (fun s => (instance_number s, current_value s)) <$> nodes w) outcome_run
  = Some {[1 := (1, Some "a"); 2 := (0, None); 3 := (1, Some "b")]}%string.
Proof. vm_compute. reflexivity. Qed.

End Crash.

#[local] Existing Instance CustomServer.methods.

Section crashing.
Context {U V : Type} `{Countable U} `{PyOrder U} `{EqDecision V}.

Lemma run_crash_steps acts (w w' : world U V) : run acts w = Some w' -> rtc crash_step w w'.
Proof.
  unfold run. revert w. induction acts as [|a acts IH]; intros w; simpl.
  { intros [= ->]. apply rtc_refl. }
  destruct (do_action a w) as [w1|] eqn:E; simpl; [|by rewrite run_none].
  intros Hrun. apply rtc_l with w1; [left; by exists a|]. by apply IH.
Qed.

End crashing.

(** C16: agreement is lost when servers restart.  An Accept makes the acceptor
    promise its proposal, but [BaseReplicatedValue.receive_accept] saves the
    promise it had before; after a restart the server accepts an older
    proposal again, which overwrites the vote a chosen value rests on, and two
    servers end up with different values of the same instance. *)
Theorem restart_breaks_agreement :
  exists (w : world Z string) s1 s3,
    rtc crash_step (initial Crash.members) w /\
    nodes w !! 1 = Some s1 /\ nodes w !! 3 = Some s3 /\
    instance_number s1 = instance_number s3 /\ current_value s1 <> current_value s3.
Proof.
  destruct (run Crash.before (initial Crash.members)) as [w1|] eqn:E1; [|by vm_compute in E1].
  destruct (crash 2 w1) as [w2|] eqn:E2; [|by vm_compute in E1; simplify_eq; vm_compute in E2].
  destruct (run Crash.after w2) as [w3|] eqn:E3; cycle 1.
  { pose proof Crash.values_after as Hv. unfold Crash.outcome_run in Hv.
    rewrite E1 in Hv. simpl in Hv. rewrite E2 in Hv. simpl in Hv. by rewrite E3 in Hv. }
  pose proof Crash.values_after as Hv. unfold Crash.outcome_run in Hv.
  rewrite E1 in Hv. simpl in Hv. rewrite E2 in Hv. simpl in Hv. rewrite E3 in Hv.
  apply (inj Some) in Hv.
  assert (Hat : forall u x, ({[1 := (1, Some "a"); 2 := (0, None); 3 := (1, Some "b")]}%string
    : gmap Z (Z * option string)) !! u = Some x ->
    exists s, nodes w3 !! u = Some s /\ instance_number s = x.1 /\ current_value s = x.2).
  { intros u x. rewrite <-Hv, lookup_fmap. intros (s & Hs & ->)%fmap_Some. eauto. }
  destruct (Hat 1 (1, Some "a"%string) eq_refl) as (s1 & Hs1 & Hk1 & Hc1).
  destruct (Hat 3 (1, Some "b"%string) eq_refl) as (s3 & Hs3 & Hk3 & Hc3).
  exists w3, s1, s3. split_and!; [|done|done|by rewrite Hk1, Hk3|by rewrite Hc1, Hc3].
  etrans; [exact (run_crash_steps _ _ _ E1)|].
  apply rtc_l with w2; [right; by exists 2|]. exact (run_crash_steps _ _ _ E3).
Qed.

(** ** The state file *)
Section state_file.
Context {U V : Type} `{Countable U} `{PyOrder U} `{EqDecision V}.
Implicit Types s : t U V.

(** A promise survives a crash: the server that answered a Prepare with a
    Promise restarts with an acceptor in exactly the state it had, in the same
    instance and with the same value of the chain. *)
Theorem promise_survives_restart s from k pid to q last lv :
  let x := Base.receive_prepare from k pid s in
  network_uid s = Acceptor.network_uid (PaxosInstance.acceptor (paxos s)) ->
  effects x = [Send to (WPromise k q last lv)] ->
  PaxosInstance.acceptor (paxos (CustomServer.restart (post x)))
    = PaxosInstance.acceptor (paxos (post x)) /\
  instance_number (CustomServer.restart (post x)) = instance_number s /\
  current_value (CustomServer.restart (post x)) = current_value s.
Proof.
  intros x Hu. subst x. unfold Base.receive_prepare, Base.save_state, PaxosInstance.receive_prepare.
  autounfold with pym; simpl. destruct (Z.eqb_spec k (instance_number s)) as [->|]; [|done].
  unfold Acceptor.receive_prepare. destruct (py_ge _ _); simpl; [|done].
  intros _. unfold CustomServer.restart, Base.init; simpl. split_and!; [|done..].
  unfold Acceptor.init. by rewrite Hu.
Qed.

(** An accepted value survives a crash, the promise that went with it does
    not: the restarted server is bound by the last promise it saved, although
    the running one was bound by the accepted proposal. *)
Theorem accept_restart s from k pid v :
  let x := Base.receive_accept from k pid v s in
  k = instance_number s ->
  Acceptor.promised_id (PaxosInstance.acceptor (paxos s)) ⪯ pid ->
  let running := PaxosInstance.acceptor (paxos (post x)) in
  let restarted := PaxosInstance.acceptor (paxos (CustomServer.restart (post x))) in
  Acceptor.promised_id running = pid /\ Acceptor.promised_id restarted = promised_id s /\
  Acceptor.accepted_id running = pid /\ Acceptor.accepted_id restarted = pid /\
  Acceptor.accepted_value running = v /\ Acceptor.accepted_value restarted = v /\
  effects x = (fun u => Send u (WAccepted k pid v)) <$> peers s.
Proof.
  intros x -> Hle. subst x.
  unfold Base.receive_accept, Base.save_state, Base.send_accepted, Base.broadcast,
    PaxosInstance.receive_accept.
  autounfold with pym; simpl. rewrite Z.eqb_refl.
  unfold Acceptor.receive_accept. rewrite (proj2 (py_ge_spec _ _) Hle). simpl.
  split_and!; done.
Qed.

End state_file.

Lemma promise_survives_restart_witness :
  let s := Base.init (V := string) 2 Crash.members None in
  let x := Base.receive_prepare 1 0 (Some Crash.p1) s in
  PaxosInstance.acceptor (paxos (CustomServer.restart (post x)))
    = PaxosInstance.acceptor (paxos (post x)) /\
  instance_number (CustomServer.restart (post x)) = 0 /\
  current_value (CustomServer.restart (post x)) = None.
Proof.
  refine (promise_survives_restart (Base.init (V := string) 2 Crash.members None) 1 0
    (Some Crash.p1) 1 (Some Crash.p1) None None _ _); vm_compute; reflexivity.
Defined.

Lemma accept_restart_witness :
  let s := Base.init (V := string) 2 Crash.members None in
  let x := Base.receive_accept 1 0 (Some Crash.p1) (Some "a"%string) s in
  let running := PaxosInstance.acceptor (paxos (post x)) in
  let restarted := PaxosInstance.acceptor (paxos (CustomServer.restart (post x))) in
  Acceptor.promised_id running = Some Crash.p1 /\ Acceptor.promised_id restarted = None /\
  Acceptor.accepted_id running = Some Crash.p1 /\
  Acceptor.accepted_id restarted = Some Crash.p1 /\
  Acceptor.accepted_value running = Some "a"%string /\
  Acceptor.accepted_value restarted = Some "a"%string /\
  effects x = (fun u => Send u (WAccepted 0 (Some Crash.p1) (Some "a"%string))) <$> [1; 2; 3].
Proof.
  refine (accept_restart (Base.init (V := string) 2 Crash.members None) 1 0 (Some Crash.p1)
    (Some "a"%string) _ _); vm_compute; reflexivity.
Defined.

(** ** Backoff, retransmission and catch-up *)
#[local] Opaque Backoff.stop_driving Backoff.reschedule_next_drive_attempt.

Section timing.
Context {U V : Type} `{Countable U} `{PyOrder U} `{EqDecision V}.
Implicit Types s : t U V.

(** A Nack of the current instance: [random.random()], sender, proposal ids. *)
Record nack : Type := MkNack {
  n_random : Q;
  n_from : U;
  n_pid : option (ProposalID U);
  n_promised : option (ProposalID U);
}.

Definition nacked (n : nack) s : t U V * list (effect U V) * outcome unit :=
  CustomServer.receive (n_random n) (n_from n)
    (WNack (instance_number s) (n_pid n) (n_promised n)) s.

Lemma nacked_eq n s :
  exists pr, let w := Z.min (backoff_window s * 2) Backoff.backoff_cap in
    nacked n s =
      (set_delayed_drive (Some (MkDelayed (Backoff.milliseconds (inject_Z w * n_random n)) true))
         (set_backoff_window w (set_retransmit_task None
            (set_paxos (PaxosInstance.set_proposer pr (paxos s)) s))), [], Ret tt).
Proof.
  unfold nacked, CustomServer.receive, Backoff.receive_nack, Base.receive_nack,
    PaxosInstance.receive_nack.
  autounfold with pym; simpl. do 2 (rewrite Z.eqb_refl; simpl).
  destruct (Proposer.receive_nack _ _ _ _) as [pr r] eqn:E.
  assert (exists m, r = Ret m) as [m ->].
  { revert E. unfold Proposer.receive_nack.
    destruct (Proposer.nacks_received _); [|intros [= _ <-]; eauto].
    destruct (bool_decide _); [|intros [= _ <-]; eauto]. simpl.
    destruct (_ =? _); intros [= _ <-]; eauto. }
  exists pr. simpl. match goal with |- context [Backoff.stop_driving ?x] =>
    destruct (stop_driving_eq x) as [d ->] end. simpl.
  destruct (Z.ltb_spec Backoff.backoff_cap (backoff_window s * 2)); simpl;
    rewrite reschedule_eq; simpl; [rewrite Z.min_r by lia|rewrite Z.min_l by lia]; reflexivity.
Qed.

(** After [n] Nacks of the current instance in a row the backoff window has
    doubled [n] times, capped at 2000 ms; the server stopped driving and its
    next attempt is due after a [random()] fraction of the last window. *)
Theorem backoff_after_nacks s (ns : list nack) n :
  0 < backoff_window s <= Backoff.backoff_cap ->
  let s' := post (nacked n (foldl (fun s n => post (nacked n s)) s ns)) in
  let w := Z.min (backoff_window s * 2 ^ (1 + Z.of_nat (length ns))) Backoff.backoff_cap in
  backoff_window s' = w /\ instance_number s' = instance_number s /\
  retransmit_task s' = None /\
  delayed_drive s' = Some (MkDelayed (Backoff.milliseconds (inject_Z w * n_random n)) true).
Proof.
  intros Hw. revert s Hw. induction ns as [|m ns IH]; intros s Hw; simpl.
  - destruct (nacked_eq n s) as [pr ->]. simpl. by rewrite Z.pow_1_r.
  - destruct (nacked_eq m s) as [pr Hm]. rewrite Hm. simpl.
    match goal with |- context [foldl _ ?x ns] => destruct (IH x) as (H1' & H2' & H3' & H4') end.
    { simpl. unfold Backoff.backoff_cap in *. lia. }
    simpl in *. rewrite H1', H2', H3', H4'.
    replace (Z.min (Z.min (backoff_window s * 2) Backoff.backoff_cap
                      * 2 ^ (1 + Z.of_nat (length ns))) Backoff.backoff_cap)
      with (Z.min (backoff_window s * 2 ^ (1 + Z.of_nat (S (length ns)))) Backoff.backoff_cap);
      [done|].
    rewrite Nat2Z.inj_succ, <-Z.add_1_r, Z.add_assoc, (Z.pow_add_r 2 _ 1), Z.pow_1_r by lia.
    assert (1 <= 2 ^ (1 + Z.of_nat (length ns))) by (pose proof (Z.pow_pos_nonneg 2 (1 + Z.of_nat (length ns))); lia).
    unfold Backoff.backoff_cap in *. nia.
Qed.

(** The prepare of a driving server is repeated every second, but its
    accept every thousand seconds: [send_accept] passes the interval of 1000
    milliseconds to [LoopingCall.start], which takes seconds. *)
Theorem retransmission_intervals s pid v :
  (exists i, retransmit_task (post (Backoff.send_accept Base.send_accept pid v s))
     = Some (SendAccept pid v i) /\ (i == 1000)%Q) /\
  (exists p i, retransmit_task (post (Backoff.drive_to_resolution s))
     = Some (SendPrepare (Some p) i) /\ (i == 1)%Q).
Proof.
  split.
  - eexists. split; reflexivity.
  - unfold Backoff.drive_to_resolution. autounfold with pym.
    destruct (stop_driving_eq s) as [d ->]. simpl. eexists _, _. split; reflexivity.
Qed.

(** A server that is behind asks a peer, and the peer's answer brings it
    to the peer's instance and value with fresh Paxos state, an idle resolution
    strategy and one update callback; a server that is not behind gets no
    answer. *)
Theorem sync_catches_up s (peer : t U V) rnd rnd' from :
  let request := CustomServer.receive rnd (network_uid s)
                   (WSyncRequest (instance_number s)) peer in
  post request = peer /\
  (instance_number peer <= instance_number s -> effects request = []) /\
  (instance_number s < instance_number peer -> exists m,
     effects request = [Send (network_uid s) m] /\
     let x := CustomServer.receive rnd' from m s in
     result x = Ret tt /\ effects x = [OnUpdate (current_value peer)] /\
     instance_number (post x) = instance_number peer /\
     current_value (post x) = current_value peer /\
     paxos (post x) = PaxosInstance.init (network_uid s) (quorum_size s) None None None /\
     retransmit_task (post x) = None).
Proof.
  intros request. subst request. simpl. unfold Sync.receive_sync_request.
  autounfold with pym; simpl.
  destruct (Z.ltb_spec (instance_number s) (instance_number peer)) as [Hlt|Hge]; simpl.
  - split_and!; [done|lia|]. intros _. eexists. split; [reflexivity|]. simpl.
    unfold Sync.receive_catchup. autounfold with pym; simpl.
    rewrite (proj2 (Z.ltb_lt _ _) Hlt).
    destruct (advance_instance_eq (instance_number peer) (current_value peer) true s)
      as (s' & -> & _ & _ & _ & ? & ? & ? & ?). simpl. by split_and!.
  - split_and!; [done..|lia].
Qed.

End timing.

Lemma backoff_after_nacks_witness :
  let s := Base.init (V := string) 2 Crash.members None in
  let n := MkNack (1#2) 3 None (Some Crash.p2) in
  let s' := post (nacked n (foldl (fun s n => post (nacked n s)) s [n; n])) in
  backoff_window s' = Z.min (5 * 2 ^ 3) 2000 /\ instance_number s' = 0 /\
  retransmit_task s' = None /\
  delayed_drive s' = Some (MkDelayed (Backoff.milliseconds (inject_Z 40 * (1#2))) true).
Proof.
  refine (backoff_after_nacks (Base.init (V := string) 2 Crash.members None)
    [MkNack (1#2) 3 None (Some Crash.p2); MkNack (1#2) 3 None (Some Crash.p2)]
    (MkNack (1#2) 3 None (Some Crash.p2)) _).
  split; vm_compute; [reflexivity|discriminate].
Defined.
