(* ===== verification/MasterStrategy.v ===== *)
(** * master_strategy.py: dedicated masters

    [DedicatedMasterStrategyMixin] is mixed in before the backoff strategy by
    paxos/server.py --master.  A resolved value is either a lease for a master or
    an application value; while a lease is held only the master proposes, in one
    round trip.  The object of ReplicatedValue.v is the field [rv]; its methods
    are lifted, and those that call a method overridden here are put together
    again with the override ([receive_accepted_spec]). *)
From stdpp Require Import base gmap sets list.
From Stdlib Require Import ZArith QArith Lia.
From S2P Require Import Prelude ComposablePaxos ReplicatedValue.

(** The JSON text of a pair (master uid, application value), one of them null. *)
Class MasterJson (U V : Type) : Type := {
  dump_pair : option U -> option V -> V;
  load_pair : V -> outcome (option U * option V);
  load_dump u v : load_pair (dump_pair u v) = Ret (u, v);
}.

Module Master.

(** Seconds. *)
Definition lease_window : Q := 10.

Section master.
Context {U V : Type} `{Countable U} `{PyOrder U} `{EqDecision V} `{MasterJson U V}.
(** [if self.master_uid:] *)
Context (truthy : U -> bool).
Implicit Types pid : option (ProposalID U).
Implicit Types v : option V.

Record t : Type := MkMaster {
  rv : ReplicatedValue.t U V;
  lease_start : Q;
  lease_expiry : option delayed_call;
  master_uid : option U;
  master_attempt : bool;
  (** The delayed proposals of [update_lease], which nothing refers to. *)
  renewals : list Q;
  (** Running LoopingCalls that [retransmit_task] no longer refers to. *)
  leaked : list (retransmission U V);
}.

Definition set_rv (x : ReplicatedValue.t U V) (s : t) : t :=
  MkMaster x (lease_start s) (lease_expiry s) (master_uid s) (master_attempt s) (renewals s) (leaked s).
Definition set_lease_start (x : Q) (s : t) : t :=
  MkMaster (rv s) x (lease_expiry s) (master_uid s) (master_attempt s) (renewals s) (leaked s).
Definition set_lease_expiry (x : option delayed_call) (s : t) : t :=
  MkMaster (rv s) (lease_start s) x (master_uid s) (master_attempt s) (renewals s) (leaked s).
Definition set_master_uid (x : option U) (s : t) : t :=
  MkMaster (rv s) (lease_start s) (lease_expiry s) x (master_attempt s) (renewals s) (leaked s).
Definition set_master_attempt (x : bool) (s : t) : t :=
  MkMaster (rv s) (lease_start s) (lease_expiry s) (master_uid s) x (renewals s) (leaked s).
Definition set_renewals (x : list Q) (s : t) : t :=
  MkMaster (rv s) (lease_start s) (lease_expiry s) (master_uid s) (master_attempt s) x (leaked s).
Definition set_leaked (x : list (retransmission U V)) (s : t) : t :=
  MkMaster (rv s) (lease_start s) (lease_expiry s) (master_uid s) (master_attempt s) (renewals s) x.

Abbreviation M A := (PyM t (effect U V) A).

Definition lift {A} (m : ReplicatedValue.M U V A) : M A :=
  fun s => let '(x, es, r) := m (rv s) in (set_rv x s, es, r).
Definition on_paxos (f : PaxosInstance.t U V -> PaxosInstance.t U V) : M unit :=
  lift (py_set (fun s => set_paxos (f (paxos s)) s)).

(** [self.paxos.proposal_id], [self.paxos.proposed_value] *)
Definition proposal_id (s : t) : ProposalID U := Proposer.proposal_id (PaxosInstance.proposer (paxos (rv s))).
Definition proposed_value (s : t) : option V := Proposer.proposed_value (PaxosInstance.proposer (paxos (rv s))).
Definition is_master (s : t) : bool := bool_decide (master_uid s = Some (network_uid (rv s))).

(** ** The lease; [now] is the clock during one call from the reactor *)
Section at_time.
Context (now : Q).

Definition cancel_lease_expiry : M unit :=
  py_set (fun s => match lease_expiry s with
                   | Some d => if active d then set_lease_expiry (Some (Backoff.cancel d)) s else s
                   | None => s
                   end).
Definition start_master_lease_timer : M unit :=
  py_set (set_lease_start now) ;;!
  cancel_lease_expiry ;;!
  py_set (set_lease_expiry (Some (MkDelayed lease_window true))).

(** The accept loop is not stopped when [retransmit_task] is assigned again. *)
Definition leak_retransmission : M unit :=
  py_set (fun s => match retransmit_task (rv s) with
                   | Some r => set_leaked (leaked s ++ [r]) s
                   | None => s
                   end).
Definition drive_to_resolution : M unit :=
  let! s := py_get id in
  if is_master s then
    lift Backoff.stop_driving ;;!
    let! s := py_get id in
    (if (number (proposal_id s) =? 1)%Z then
       lift (Backoff.send_accept Base.send_accept (Some (proposal_id s)) (proposed_value s))
     else on_paxos (fun p => (PaxosInstance.prepare p).1)) ;;!
    leak_retransmission ;;!
    lift (py_set (set_retransmit_task
      (Some (SendCurrentPrepare (Backoff.milliseconds (inject_Z Backoff.retransmit_interval))))))
  else lift Backoff.drive_to_resolution.

(** [super().propose_update]: the backoff strategy's, which drives this object. *)
Definition super_propose_update (x : V) : M unit :=
  lift (Base.propose_update x) ;;! drive_to_resolution.
(** [propose_update(new_value)] and [propose_update(uid, False)] *)
Definition propose_application (x : V) : M unit :=
  let! s := py_get id in
  if is_master s then super_propose_update (dump_pair None (Some x)) else py_return tt.
Definition propose_master (uid : U) : M unit :=
  let! s := py_get id in
  if (bool_decide (master_uid s = None) || is_master s) && negb (master_attempt s) then
    py_set (set_master_attempt true) ;;!
    start_master_lease_timer ;;!
    super_propose_update (dump_pair (Some uid) None)
  else py_return tt.

Definition update_lease (uid : option U) : M unit :=
  py_set (set_master_uid uid) ;;!
  let! me := py_get (fun s => network_uid (rv s)) in
  if bool_decide (uid = Some me) then
    let! s := py_get id in
    let renew_delay := (lease_start s + lease_window - 1 - now)%Q in
    if negb (Qle_bool renew_delay 0) then py_set (fun s => set_renewals (renewals s ++ [renew_delay]) s)
    else propose_master me
  else start_master_lease_timer.

Definition lease_expired : M unit :=
  py_set (set_master_uid None) ;;!
  let! me := py_get (fun s => network_uid (rv s)) in
  propose_master me.

(** ** advance_instance *)
(** [for uid in self.peers: self.paxos.receive_promise(...)] *)
Fixpoint promise_all (me : U) (us : list U) : M unit :=
  match us with
  | [] => py_return tt
  | uid :: us =>
      lift (py_call (fun s =>
        let '(p, r) := PaxosInstance.receive_promise uid (Some (MkPID 1 me)) None None (paxos s) in
        (set_paxos p s, match r with Ret _ => Ret tt | Raise e => Raise e end))) ;;!
      promise_all me us
  end.

Definition after_advance : M unit :=
  let! s := py_get id in
  match master_uid s with
  | Some m =>
      if truthy m then
        if is_master s then
          on_paxos (fun p => (PaxosInstance.prepare p).1) ;;!
          promise_all m (peers (rv s))
        else
          on_paxos (fun p => (PaxosInstance.receive_prepare m (Some (MkPID 1 m)) p).1) ;;!
          on_paxos (PaxosInstance.observe_proposal (Some (MkPID 1 m)))
      else py_return tt
  | None => py_return tt
  end.

Definition super_advance_instance (k : Z) v : M unit :=
  lift (Backoff.advance_instance Base.advance_instance k v false).
Definition advance_instance (k : Z) v (catchup : bool) : M unit :=
  py_set (set_master_attempt false) ;;!
  if catchup then
    super_advance_instance k v ;;!
    on_paxos (fun p => (PaxosInstance.prepare p).1)
  else
    let! t := py_call (fun s => (s, match v with Some x => load_pair x | None => Raise TypeError end)) in
    let! v' := (match t.1 with
                | Some m => update_lease (Some m) ;;! py_get (fun s => current_value (rv s))
                | None => py_return t.2
                end) in
    super_advance_instance k v' ;;!
    after_advance.

(** ** Messages *)
(** [Base.receive_accepted] up to its call of [self.advance_instance]. *)
Definition resolved (from_uid : U) (k : Z) pid v : ReplicatedValue.M U V (option Z) :=
  let! s := py_get id in
  if (k =? instance_number s)%Z then
    let! m := py_call (fun s =>
      let '(p, r) := PaxosInstance.receive_accepted from_uid pid v (paxos s) in
      (set_paxos p s, r)) in
    py_return (match m with Some (Resolution _ _) => Some (instance_number s + 1)%Z | _ => None end)
  else py_return None.
Definition receive_accepted (from_uid : U) (k : Z) pid v : M unit :=
  let! n := lift (resolved from_uid k pid v) in
  match n with Some n => advance_instance n v false | None => py_return tt end.

Definition receive_catchup (from_uid : U) (k : Z) v : M unit :=
  let! s := py_get id in
  if (instance_number (rv s) <? k)%Z then advance_instance k v true else py_return tt.

(** [if self.master_uid and from_uid != self.master_uid: return] *)
Definition from_outsider (from_uid : U) (s : t) : bool :=
  match master_uid s with
  | Some m => truthy m && negb (bool_decide (from_uid = m))
  | None => false
  end.
Definition receive_prepare (from_uid : U) (k : Z) pid : M unit :=
  let! s := py_get id in
  if from_outsider from_uid s then py_return tt else lift (Base.receive_prepare from_uid k pid).
Definition receive_accept (from_uid : U) (k : Z) pid v : M unit :=
  let! s := py_get id in
  if from_outsider from_uid s then py_return tt
  else lift (Backoff.receive_accept Base.receive_accept from_uid k pid v).

Definition receive (rnd : Q) (from_uid : U) (m : wire U V) : M unit :=
  match m with
  | WSyncRequest k => lift (Sync.receive_sync_request from_uid k)
  | WCatchup k v => receive_catchup from_uid k v
  | WNack k pid promised => lift (Backoff.receive_nack Base.receive_nack rnd from_uid k pid promised)
  | WPrepare k pid => receive_prepare from_uid k pid
  | WPromise k pid last_id last_v =>
      lift (Base.receive_promise (Methods0 := CustomServer.methods) from_uid k pid last_id last_v)
  | WAccept k pid v => receive_accept from_uid k pid v
  | WAccepted k pid v => receive_accepted from_uid k pid v
  end.

(** ** What the reactor calls *)
Definition lease_expiry_fires : M unit :=
  let! s := py_get id in
  match lease_expiry s with
  | Some d =>
      if active d then py_set (set_lease_expiry (Some (Backoff.cancel d))) ;;! lease_expired
      else py_return tt
  | None => py_return tt
  end.
Definition renewal_fires (i : nat) : M unit :=
  let! s := py_get id in
  match renewals s !! i with
  | Some _ => py_set (set_renewals (delete i (renewals s))) ;;! propose_master (network_uid (rv s))
  | None => py_return tt
  end.
Definition delayed_drive_fires : M unit :=
  let! s := py_get id in
  match delayed_drive (rv s) with
  | Some d =>
      if active d then
        lift (py_set (set_delayed_drive (Some (Backoff.cancel d)))) ;;!
        drive_to_resolution
      else py_return tt
  | None => py_return tt
  end.
Definition retransmit : M unit := lift CustomServer.retransmit.
Definition leaked_fires (i : nat) : M unit :=
  let! s := py_get id in
  match leaked s !! i with Some r => lift (CustomServer.fire r) | None => py_return tt end.

(** [__init__]: [load_state] is called once, and starts the lease timer. *)
Definition init (network_uid : U) (peers : list U) (file : option (saved U V)) : t :=
  (update_lease None
     (MkMaster (Base.init network_uid peers file) 0 None None false [] [])).1.1.
End at_time.
End master.
Arguments t U V {_ _}.
End Master.
