(* ===== verification/MasterTheorems.v ===== *)
(** * What a dedicated master gains, and what it breaks

    A master that resolves an instance is the leader of the next one without a
    message ([master_one_round_trip]), and nobody else gets through to the other
    servers ([lease_keeps_out]).  The accept loop that is not stopped makes the
    master offer two values under one proposal id ([leaked_accept_conflicts]), and
    the promise to the master is not on disk ([master_promise_lost]). *)
From stdpp Require Import base gmap sets list.
From Stdlib Require Import ZArith QArith Lia.
From S2P Require Import Prelude ComposablePaxos ReplicatedValue PaxosSafety MasterStrategy.

Section theorems.
Context {U V : Type} `{Countable U} `{PyOrder U} `{EqDecision V} `{MasterJson U V}.
Context (truthy : U -> bool) (now : Q).
Implicit Types s : Master.t U V.
Import Master.

(** The methods put together here are the base classes' with the override. *)
Lemma receive_accepted_spec `{!Methods U V} from_uid k pid v (x : ReplicatedValue.t U V) :
  Base.receive_accepted from_uid k pid v x =
  (let! n := resolved from_uid k pid v in
   match n with Some n => self_advance_instance n v false | None => py_return tt end) x.
Proof.
  unfold Base.receive_accepted, resolved. autounfold with pym; cbn.
  destruct (k =? instance_number x)%Z; [|done]. cbn.
  destruct (PaxosInstance.receive_accepted from_uid pid v (paxos x)) as [p [m|e]]; [|done]. cbn.
  destruct m as [m|]; [destruct m|]; cbn; try done. by destruct (self_advance_instance _ _ _ _) as [[? ?] ?].
Qed.

(** ** The promises that the master gives itself in the name of all *)
Definition proposer_of (x : ReplicatedValue.t U V) : Proposer.t U V := PaxosInstance.proposer (paxos x).
Definition me s : U := network_uid (rv s).

(** After [n] promises for the first proposal of a fresh instance. *)
Record promised (m : U) (q : Z) (X : gset U) (p : Proposer.t U V) : Prop := {
  pr_leader : Proposer.leader p = bool_decide (q <= Z.of_nat (size X))%Z;
  pr_value : Proposer.proposed_value p = None;
  pr_id : Proposer.proposal_id p = MkPID 1 m;
  pr_highest : Proposer.highest_proposal_id p = MkPID 1 m;
  pr_accepted : Proposer.highest_accepted_id p = None;
  pr_received : Proposer.leader p = false -> Proposer.promises_received p = Some X;
  pr_quorum : Proposer.quorum_size p = q;
}.

Lemma not_above {A} `{PyOrder A} (x : A) : py_gt x x = false.
Proof. unfold py_gt. apply py_ltb_irrefl. Qed.

Lemma promise_step m q X p u : promised m q X p -> u ∉ X ->
  exists p' r, Proposer.receive_promise u (Some (MkPID 1 m)) None None p = (p', Ret r) /\
    promised m q ({[u]} ∪ X) p'.
Proof.
  intros [Hl Hv Hid Hh Ha Hr Hq] Hu. unfold Proposer.receive_promise, Proposer.observe_proposal.
  rewrite Hh, not_above. rewrite Hid, (bool_decide_eq_true_2 (Some _ = _)) by done.
  assert (Hsize : size ({[u]} ∪ X) = S (size X)) by (rewrite size_union, size_singleton; set_solver).
  destruct (Proposer.leader p) eqn:El; cbn.
  - exists p, None. split; [done|]. split; try done; [|by rewrite El].
    rewrite El. symmetry. apply bool_decide_eq_true_2. symmetry in Hl. apply bool_decide_eq_true_1 in Hl. lia.
  - rewrite (Hr eq_refl), (bool_decide_eq_false_2 (u ∈ X)) by done.
    unfold Proposer.adopt. cbn. rewrite Ha. change (py_gt None None) with false. cbn.
    rewrite Hq, Hsize. symmetry in Hl. apply bool_decide_eq_false_1 in Hl.
    destruct (Z.eqb_spec (Z.of_nat (S (size X))) q) as [E|E]; rewrite ?Hv; cbn; eexists _, None.
    + split; [reflexivity|]. split; try done. cbn. rewrite Hsize. symmetry. apply bool_decide_eq_true_2. lia.
    + split; [reflexivity|]. split; try done. cbn. rewrite El, Hsize. symmetry. apply bool_decide_eq_false_2. lia.
Qed.

Lemma promised_fresh m q : (1 <= q)%Z -> promised m q ∅ (Proposer.prepare (Proposer.init m q)).1.
Proof.
  intros Hq. split; try done. cbn. rewrite size_empty. symmetry. apply bool_decide_eq_false_2. lia.
Qed.

Definition with_proposer (p : Proposer.t U V) s : Master.t U V :=
  set_rv (set_paxos (PaxosInstance.set_proposer p (paxos (rv s))) (rv s)) s.

Lemma promise_all_run m q us X s : NoDup us -> (forall u, u ∈ us -> u ∉ X) ->
  promised m q X (proposer_of (rv s)) -> exists p',
    promise_all m us s = (with_proposer p' s, [], Ret tt) /\ promised m q (list_to_set us ∪ X) p'.
Proof.
  intros Hn. revert X s. induction Hn as [|u us Hu Hn IH]; intros X s HX Hp; cbn [promise_all].
  - exists (proposer_of (rv s)). split; [|by replace (list_to_set [] ∪ X) with X by set_solver]. unfold py_return, with_proposer, proposer_of.
    by destruct s as [[? ? ? ? ? ? ? ? ? [] ? ? ?] ? ? ? ? ? ?].
  - destruct (promise_step m q X _ u Hp) as (p1 & r & E1 & Hp1); [apply HX; by left|].
    destruct (IH ({[u]} ∪ X) (with_proposer p1 s)) as (p2 & E2 & Hp2).
    { intros w Hw. rewrite not_elem_of_union, not_elem_of_singleton. split; [by intros ->|apply HX; by right]. }
    { exact Hp1. }
    exists p2. split; [|by replace (list_to_set (u :: us) ∪ X) with (list_to_set us ∪ ({[u]} ∪ X)) by set_solver].
    erewrite bind_pure; [exact E2|]. unfold lift, py_call, PaxosInstance.receive_promise, with_proposer.
    unfold proposer_of in E1. by rewrite E1.
Qed.

(** ** The next instance of a master *)
(** The master is the leader of instance [k], nothing is proposed in it yet, and
    no retransmission runs. *)
Record ready s (k : Z) : Prop := {
  rd_master : master_uid s = Some (me s);
  rd_instance : instance_number (rv s) = k;
  rd_leader : Proposer.leader (proposer_of (rv s)) = true;
  rd_id : Proposer.proposal_id (proposer_of (rv s)) = MkPID 1 (me s);
  rd_value : Proposer.proposed_value (proposer_of (rv s)) = None;
  rd_task : retransmit_task (rv s) = None;
}.
(** The peers are the members, as the server's constructor sets them up. *)
Record well_formed s : Prop := {
  wf_peers : NoDup (peers (rv s));
  wf_some : peers (rv s) <> [];
  wf_quorum : quorum_size (rv s) = (Z.of_nat (length (peers (rv s))) / 2 + 1)%Z;
}.

(** What an instance's end leaves as it is. *)
Definition same_lease s s' : Prop :=
  me s' = me s /\ peers (rv s') = peers (rv s) /\ quorum_size (rv s') = quorum_size (rv s) /\ leaked s' = leaked s.

Lemma quorum_reached s : well_formed s -> (1 <= quorum_size (rv s) <= Z.of_nat (length (peers (rv s))))%Z.
Proof.
  intros [_ Hne Hq]. rewrite Hq. destruct (peers (rv s)) as [|u us]; [done|]. cbn [length].
  pose proof (Z.div_mod (Z.of_nat (S (length us))) 2 ltac:(lia)).
  pose proof (Z.mod_pos_bound (Z.of_nat (S (length us))) 2 ltac:(lia)). lia.
Qed.

Lemma advance_application k x v s : master_uid s = Some (me s) -> truthy (me s) = true -> well_formed s ->
  load_pair x = Ret (None, Some v) ->
  exists s', advance_instance truthy now k (Some x) false s = (s', [OnUpdate (Some v)], Ret tt) /\
    ready s' k /\ same_lease s s' /\ current_value (rv s') = Some v.
Proof.
  intros Hm Ht Hwf Hx. pose proof (quorum_reached s Hwf) as Hq.
  destruct (advance_instance_eq k (Some v) false (rv s)) as
    (x' & Ea & Hu & Hp & Hqs & Hk & Hv & Hpax & Htask).
  set (s1 := set_rv x' (set_master_attempt false s)).
  set (p0 := (PaxosInstance.prepare (paxos x')).1).
  destruct (promise_all_run (me s) (quorum_size (rv s)) (peers (rv s)) ∅
    (set_rv (set_paxos p0 x') s1)) as (p & Epr & Hpr).
  { apply Hwf. }
  { set_solver. }
  { unfold proposer_of, p0. cbn. rewrite Hpax. apply (promised_fresh (me s)). lia. }
  exists (with_proposer p (set_rv (set_paxos p0 x') s1)). split; [|split; [|split]].
  - unfold advance_instance. rewrite bind_set. erewrite bind_pure; [|unfold py_call; by rewrite Hx].
    cbn [fst snd]. rewrite bind_pure with (s' := set_master_attempt false s) (a := Some v) by done.
    unfold py_bind, super_advance_instance, lift. cbn [rv set_master_attempt]. rewrite Ea. cbv beta iota.
    unfold after_advance. rewrite bind_get. cbv [id]. cbn [master_uid set_rv set_master_attempt]. rewrite Hm, Ht.
    unfold is_master. cbn [master_uid network_uid rv set_rv set_master_attempt]. rewrite Hm, Hu.
    rewrite bool_decide_eq_true_2 by done. unfold on_paxos, lift at 1, py_bind, py_set.
    cbn [rv set_rv]. fold p0. rewrite Hp. fold s1. rewrite Epr. done.
  - destruct Hpr as [Hl Hval Hid Hh Hac Hrec Hqq]. split; cbn; try done; [rewrite Hm; unfold me; cbn; by rewrite Hu|..].
    + rewrite Hl. apply bool_decide_eq_true_2. rewrite (right_id_L ∅ (∪)).
      rewrite size_list_to_set by apply Hwf. lia.
    + rewrite Hid. unfold me. by cbn; rewrite Hu.
  - unfold same_lease, me. cbn. by rewrite Hu, Hp, Hqs.
  - done.
Qed.

Definition accepts s (k : Z) (x : V) : list (effect U V) :=
  (fun u => Send u (WAccept k (Some (MkPID 1 (me s))) (Some x))) <$> peers (rv s).
Definition accept_loop s (x : V) : retransmission U V :=
  SendAccept (Some (MkPID 1 (me s))) (Some x) (inject_Z Backoff.retransmit_interval).

Lemma ready_proposes k x s : ready s k -> exists s',
  propose_application x s = (s', accepts s k (dump_pair None (Some x)), Ret tt) /\
  master_uid s' = Some (me s') /\ me s' = me s /\ peers (rv s') = peers (rv s) /\
  quorum_size (rv s') = quorum_size (rv s) /\ instance_number (rv s') = k /\
  leaked s' = leaked s ++ [accept_loop s (dump_pair None (Some x))].
Proof.
  intros [Hm Hk Hl Hid Hv Ht]. set (y := dump_pair None (Some x)).
  set (x1 := set_paxos (PaxosInstance.propose_value (Some y) (paxos (rv s))).1 (rv s)).
  destruct (stop_driving_eq x1) as [d Ed]. set (x2 := set_delayed_drive d (set_retransmit_task None x1)).
  assert (Hx1 : lift (Base.propose_update y) s = (set_rv x1 s, [], Ret tt)).
  { unfold lift, Base.propose_update, py_bind, py_get, py_set. unfold proposer_of in Hv. by rewrite Hv. }
  assert (Hp : Proposer.proposal_id (PaxosInstance.proposer (paxos x2)) = MkPID 1 (me s) /\
               Proposer.proposed_value (PaxosInstance.proposer (paxos x2)) = Some y).
  { unfold x2, x1, PaxosInstance.propose_value, Proposer.propose_value. unfold proposer_of in *. cbn. by rewrite Hv, Hl. }
  destruct Hp as [Hp1 Hp2].
  assert (Hmaster : forall z, network_uid z = network_uid (rv s) -> is_master (set_rv z s) = true).
  { intros z Hz. unfold is_master. apply bool_decide_eq_true_2. cbn. by rewrite Hz, Hm. }
  eexists. split; [|split; [|split; [|split; [|split; [|split]]]]].
  - unfold propose_application. rewrite bind_get. cbv [id]. unfold is_master at 1.
    rewrite bool_decide_eq_true_2 by exact Hm.
    unfold super_propose_update. erewrite bind_pure by exact Hx1. fold y.
    unfold drive_to_resolution. rewrite bind_get. cbv [id]. rewrite Hmaster by done.
    erewrite bind_pure; [|unfold lift; cbn [rv set_rv]; rewrite Ed; reflexivity]. fold x2.
    rewrite bind_get. cbv [id]. unfold proposal_id, proposed_value. cbn [rv set_rv]. rewrite Hp1, Hp2.
    cbn [number Z.eqb Pos.eqb]. unfold Backoff.send_accept, Base.send_accept, Base.broadcast, leak_retransmission.
    unfold lift, py_bind, py_set. cbn. rewrite app_nil_r. unfold accepts. fold y. by rewrite Hk.
  - cbn. exact Hm.
  - done.
  - done.
  - done.
  - cbn. exact Hk.
  - done.
Qed.

(** C17: once a master has resolved an instance with an application value, its
    next proposal sends one round of accept requests, under its first proposal
    id in the new instance and to every server, without a prepare. *)
Theorem master_one_round_trip k v x s text : master_uid s = Some (me s) -> truthy (me s) = true ->
  well_formed s -> load_pair text = Ret (None, Some v) ->
  exists s' s'', advance_instance truthy now k (Some text) false s = (s', [OnUpdate (Some v)], Ret tt) /\
    current_value (rv s') = Some v /\
    propose_application x s' = (s'', accepts s k (dump_pair None (Some x)), Ret tt).
Proof.
  intros Hm Ht Hwf Hx. destruct (advance_application k text v s Hm Ht Hwf Hx) as (s' & E1 & Hr & (Hme & Hp & _) & Hv).
  destruct (ready_proposes k x s' Hr) as (s'' & E2 & _). exists s', s''. split; [done|]. split; [done|].
  rewrite E2. unfold accepts. by rewrite Hme, Hp.
Qed.

(** While another server holds the lease, prepare and accept requests of
    anybody else change nothing and are not answered; and a client's value is
    not proposed. *)
Theorem lease_keeps_out m from_uid k pid v x s : master_uid s = Some m -> truthy m = true -> from_uid <> m ->
  receive_prepare truthy from_uid k pid s = (s, [], Ret tt) /\
  receive_accept truthy from_uid k pid v s = (s, [], Ret tt) /\
  (m <> me s -> propose_application x s = (s, [], Ret tt)).
Proof.
  intros Hm Ht Hne. assert (Ho : from_outsider truthy from_uid s = true).
  { unfold from_outsider. by rewrite Hm, Ht, bool_decide_eq_false_2. }
  unfold receive_prepare, receive_accept, propose_application. rewrite !bind_get. cbv [id]. rewrite Ho.
  split; [done|]. split; [done|]. intros Hs. unfold is_master. rewrite bool_decide_eq_false_2; [done|].
  rewrite Hm. intros [= E]. by apply Hs.
Qed.

(** A master that proposes in two instances one after the other has sent
    [text_y] in the second one; when the accept loop of the first one fires,
    which nothing stops, it sends the value of the first under the same
    proposal id in the second instance: two values for one proposal. *)
Theorem leaked_accept_conflicts k x y v text s : ready s k -> truthy (me s) = true -> well_formed s ->
  load_pair text = Ret (None, Some v) -> x <> y ->
  exists s1 s2 s3 s4,
    propose_application x s = (s1, accepts s k (dump_pair None (Some x)), Ret tt) /\
    advance_instance truthy now (k + 1) (Some text) false s1 = (s2, [OnUpdate (Some v)], Ret tt) /\
    propose_application y s2 = (s3, accepts s (k + 1) (dump_pair None (Some y)), Ret tt) /\
    leaked_fires (length (leaked s)) s3 = (s4, accepts s (k + 1) (dump_pair None (Some x)), Ret tt) /\
    dump_pair (U := U) None (Some x) <> dump_pair None (Some y).
Proof.
  intros Hr Ht [Hwf1 Hwf2 Hwf3] Hx Hxy.
  destruct (ready_proposes k x s Hr) as (s1 & E1 & Hm1 & Hme1 & Hp1 & Hq1 & Hk1 & Hl1).
  destruct (advance_application (k + 1) text v s1 Hm1) as (s2 & E2 & Hr2 & (Hme2 & Hp2 & _ & Hl2) & _);
    [by rewrite Hme1|split; rewrite ?Hp1, ?Hq1; done|done|].
  destruct (ready_proposes (k + 1) y s2 Hr2) as (s3 & E3 & _ & Hme3 & Hp3 & _ & Hk3 & Hl3).
  assert (Hac : forall z w, me z = me s -> peers (rv z) = peers (rv s) -> accepts z (k + 1) w = accepts s (k + 1) w).
  { intros z w Hz Hpz. unfold accepts. by rewrite Hz, Hpz. }
  eexists s1, s2, s3, s3. split; [done|]. split; [done|]. split; [|split].
  - rewrite E3. by rewrite Hac by congruence.
  - unfold leaked_fires. rewrite bind_get. cbv [id]. rewrite Hl3, Hl2, Hl1, <-app_assoc. cbn [app].
    rewrite list_lookup_middle by done. unfold CustomServer.fire, accept_loop, Base.send_accept, Base.broadcast, lift.
    rewrite Hk3, Hp3, Hp2, Hp1. unfold accepts. by destruct s3.
  - intros E. apply (f_equal load_pair) in E. rewrite !load_dump in E. congruence.
Qed.

(** A server that has learned the master's lease promises the master's
    first proposal in the next instance in memory only: its state file has no
    promise, and after a restart it would promise or accept an older one. *)
Theorem master_promise_lost k m text v s : master_uid s = Some m -> m <> me s -> truthy m = true ->
  load_pair text = Ret (None, Some v) ->
  exists s', advance_instance truthy now k (Some text) false s = (s', [OnUpdate (Some v)], Ret tt) /\
    Acceptor.promised_id (PaxosInstance.acceptor (paxos (rv s'))) = Some (MkPID 1 m) /\
    exists file, state_file (rv s') = Some file /\ sv_promised_id file = None /\
      Acceptor.promised_id (PaxosInstance.acceptor (paxos (rv
        (init now (me s) (peers (rv s)) (state_file (rv s')))))) = None.
Proof.
  intros Hm Hne Ht Hx. unfold advance_instance. rewrite bind_set.
  erewrite bind_pure; [|unfold py_call; by rewrite Hx]. cbn [fst snd].
  rewrite bind_pure with (s' := set_master_attempt false s) (a := Some v) by done.
  unfold super_advance_instance, Backoff.advance_instance, Base.advance_instance, Base.save_state, after_advance, lift.
  autounfold with pym; cbn.
  unfold is_master. destruct (delayed_drive (rv s)) as [[dt []]|]; cbn; rewrite Hm, Ht;
    rewrite bool_decide_eq_false_2 by (intros [= E]; by apply Hne);
    (eexists; split; [reflexivity|]; cbn; split; [done|]; eexists; split; [done|]; split; [done|]);
    by unfold init, update_lease; autounfold with pym; cbn.
Qed.
End theorems.

(** ** Three servers *)
Module Demo.
Inductive text : Type :=
| Plain (n : Z)
| Application (u : option Z) (x : text)
| Lease (u : option Z).
#[export] Instance text_eq_dec : EqDecision text.
Proof. solve_decision. Defined.
#[export] Program Instance text_json : MasterJson Z text := {|
  dump_pair u x := match x with Some x => Application u x | None => Lease u end;
  load_pair t := match t with
                 | Plain _ => Raise TypeError
                 | Application u x => Ret (u, Some x)
                 | Lease u => Ret (u, None)
                 end;
|}.
Next Obligation. by destruct v. Qed.

Definition truthy (u : Z) : bool := negb (u =? 0)%Z.
Definition fresh (u : Z) : Master.t Z text := Master.init 0 u [1; 2; 3]%Z None.
(** Server [u] after the lease of server 2 was resolved in instance 0. *)
Definition leased (u : Z) : Master.t Z text :=
  post (Master.advance_instance truthy 1 1 (Some (Lease (Some 2%Z))) false (fresh u)).
Definition value (n : Z) : text := Application None (Plain n).
(** Server 2 after it has also resolved an application value. *)
Definition master : Master.t Z text :=
  post (Master.advance_instance truthy 2 2 (Some (value 7)) false (leased 2)).

Lemma three_well_formed (s : Master.t Z text) :
  (peers (Master.rv s), quorum_size (Master.rv s)) = ([1; 2; 3], 2)%Z -> well_formed s.
Proof.
  intros [= Hp Hq]. split; rewrite Hp; [|done|by rewrite Hq]. apply (bool_decide_unpack _). by vm_compute.
Qed.
Lemma leased_well_formed : well_formed (leased 2).
Proof. apply three_well_formed. by vm_compute. Qed.
Lemma master_well_formed : well_formed master.
Proof. apply three_well_formed. by vm_compute. Qed.
Lemma master_ready : ready master 2.
Proof. split; vm_compute; reflexivity. Qed.
End Demo.
#[local] Existing Instance Demo.text_eq_dec.
#[local] Existing Instance Demo.text_json.

Lemma master_one_round_trip_witness : exists s' s'',
  Master.advance_instance Demo.truthy 2 2 (Some (Demo.value 7)) false (Demo.leased 2) =
    (s', [OnUpdate (Some (Demo.Plain 7))], Ret tt) /\
  current_value (Master.rv s') = Some (Demo.Plain 7) /\
  Master.propose_application (Demo.Plain 8) s' =
    (s'', accepts (Demo.leased 2) 2 (dump_pair None (Some (Demo.Plain 8))), Ret tt).
Proof.
  apply (master_one_round_trip Demo.truthy 2 2 (Demo.Plain 7) (Demo.Plain 8) (Demo.leased 2) (Demo.value 7));
    [by vm_compute|done|apply Demo.leased_well_formed|done].
Defined.

Lemma lease_keeps_out_witness :
  Master.receive_prepare Demo.truthy 1%Z 1 (Some (MkPID 5 1%Z)) (Demo.leased 3) = (Demo.leased 3, [], Ret tt) /\
  Master.receive_accept Demo.truthy 1%Z 1 (Some (MkPID 5 1%Z)) None (Demo.leased 3) = (Demo.leased 3, [], Ret tt) /\
  (2%Z <> me (Demo.leased 3) ->
   Master.propose_application (Demo.Plain 8) (Demo.leased 3) = (Demo.leased 3, [], Ret tt)).
Proof. by apply (lease_keeps_out Demo.truthy 2%Z). Defined.

Lemma leaked_accept_conflicts_witness : exists s1 s2 s3 s4,
  Master.propose_application (Demo.Plain 8) Demo.master =
    (s1, accepts Demo.master 2 (dump_pair None (Some (Demo.Plain 8))), Ret tt) /\
  Master.advance_instance Demo.truthy 3 3 (Some (Demo.value 8)) false s1 = (s2, [OnUpdate (Some (Demo.Plain 8))], Ret tt) /\
  Master.propose_application (Demo.Plain 9) s2 = (s3, accepts Demo.master 3 (dump_pair None (Some (Demo.Plain 9))), Ret tt) /\
  Master.leaked_fires 0 s3 = (s4, accepts Demo.master 3 (dump_pair None (Some (Demo.Plain 8))), Ret tt) /\
  dump_pair (U := Z) None (Some (Demo.Plain 8)) <> dump_pair None (Some (Demo.Plain 9)).
Proof.
  apply (leaked_accept_conflicts Demo.truthy 3 2 (Demo.Plain 8) (Demo.Plain 9) (Demo.Plain 8) (Demo.value 8) Demo.master);
    [apply Demo.master_ready|done|apply Demo.master_well_formed|done|done].
Defined.

Lemma master_promise_lost_witness : exists s',
  Master.advance_instance Demo.truthy 2 2 (Some (Demo.value 7)) false (Demo.leased 3) =
    (s', [OnUpdate (Some (Demo.Plain 7))], Ret tt) /\
  Acceptor.promised_id (PaxosInstance.acceptor (paxos (Master.rv s'))) = Some (MkPID 1 2%Z) /\
  exists file, state_file (Master.rv s') = Some file /\ sv_promised_id file = None /\
    Acceptor.promised_id (PaxosInstance.acceptor (paxos (Master.rv
      (Master.init 2 (me (Demo.leased 3)) (peers (Master.rv (Demo.leased 3))) (state_file (Master.rv s')))))) = None.
Proof.
  apply (master_promise_lost Demo.truthy 2 2 2%Z (Demo.value 7) (Demo.Plain 7) (Demo.leased 3));
    [by vm_compute|done|done|done].
Defined.
