(* ===== verification/PyList.v ===== *)
(** * Python's sequences: indexing and slicing

    [l[i]] and [l[i:j]] on lists and byte strings with Python's treatment of
    negative and out-of-range indices, and [struct]'s native 4-byte signed
    integer format 'i'. *)
From stdpp Require Import base list.
From Stdlib Require Import ZArith Lia.
From Stdlib Require Strings.Byte.
From S2P Require Import Prelude.
Local Open Scope Z_scope.

Section slices.
Context {A : Type}.
Implicit Types l : list A.

Definition py_len l : Z := Z.of_nat (length l).

(** An index of a slice, clipped to the sequence. *)
Definition clip l (i : Z) : nat :=
  Z.to_nat (if i <? 0 then Z.max 0 (py_len l + i) else Z.min (py_len l) i).

(** [l[i:j]], [l[i:]] and [l[:j]] *)
Definition py_slice l (i j : Z) : list A := take (clip l j - clip l i) (drop (clip l i) l).
Definition py_slice_from l (i : Z) : list A := drop (clip l i) l.
Definition py_slice_to l (j : Z) : list A := take (clip l j) l.

(** [l[i]]; [None] is an IndexError. *)
Definition py_item l (i : Z) : option A :=
  if i <? 0 then (if py_len l + i <? 0 then None else l !! Z.to_nat (py_len l + i))
  else l !! Z.to_nat i.

Lemma clip_nonneg l i : 0 <= i -> clip l i = Nat.min (length l) (Z.to_nat i).
Proof. intros Hi. unfold clip, py_len. destruct (Z.ltb_spec i 0); lia. Qed.

Lemma py_slice_from_nonneg l i : 0 <= i -> py_slice_from l i = drop (Z.to_nat i) l.
Proof.
  intros Hi. unfold py_slice_from. rewrite clip_nonneg by done.
  destruct (decide (Z.to_nat i <= length l)%nat); [by rewrite Nat.min_r by lia|].
  rewrite Nat.min_l by lia. by rewrite !drop_ge by lia.
Qed.

Lemma py_slice_to_nonneg l j : 0 <= j -> py_slice_to l j = take (Z.to_nat j) l.
Proof.
  intros Hj. unfold py_slice_to. rewrite clip_nonneg by done.
  destruct (decide (Z.to_nat j <= length l)%nat); [by rewrite Nat.min_r by lia|].
  rewrite Nat.min_l by lia. by rewrite !take_ge by lia.
Qed.

Lemma py_slice_nonneg l i n :
  0 <= i -> 0 <= n -> py_slice l i (i + n) = take (Z.to_nat n) (drop (Z.to_nat i) l).
Proof.
  intros Hi Hn. unfold py_slice. rewrite !clip_nonneg by lia.
  destruct (decide (Z.to_nat i <= length l)%nat) as [Hle|Hgt].
  - rewrite (Nat.min_r (length l) (Z.to_nat i)) by lia.
    destruct (decide (Z.to_nat (i + n) <= length l)%nat).
    + rewrite Nat.min_r by lia. f_equal. lia.
    + rewrite Nat.min_l by lia. rewrite !take_ge by (rewrite length_drop; lia). done.
  - rewrite !Nat.min_l by lia. rewrite !drop_ge by lia. by rewrite !take_nil.
Qed.

Lemma py_len_nonneg l : 0 <= py_len l.
Proof. unfold py_len. lia. Qed.

Lemma py_len_app l l' : py_len (l ++ l') = py_len l + py_len l'.
Proof. unfold py_len. rewrite length_app. lia. Qed.

Lemma py_item_last l : py_item l (-1) = last l.
Proof.
  unfold py_item, py_len. simpl. rewrite last_lookup.
  destruct (Z.ltb_spec (Z.of_nat (length l) + -1) 0) as [Hlt|Hge].
  - symmetry. apply lookup_ge_None. lia.
  - f_equal. lia.
Qed.

End slices.

(** ** struct.pack('i', n): little-endian, 32 bits, signed *)
Abbreviation bytes := (list Byte.byte).

Definition byte_of (z : Z) : Byte.byte :=
  match Byte.of_N (Z.to_N (z mod 256)) with Some b => b | None => Byte.x00 end.
Definition byte_val (b : Byte.byte) : Z := Z.of_N (Byte.to_N b).

Fixpoint le_split (n : nat) (z : Z) : bytes :=
  match n with O => [] | S n => byte_of z :: le_split n (z / 256) end.
Fixpoint le_combine (bs : bytes) : Z :=
  match bs with [] => 0 | b :: bs => byte_val b + 256 * le_combine bs end.

(** The value of 32 bits as a signed integer. *)
Definition signed32 (z : Z) : Z := if z <? 2 ^ 31 then z else z - 2 ^ 32.

(** [None] is [struct.error]. *)
Definition pack_i (n : Z) : option bytes :=
  if (- 2 ^ 31 <=? n) && (n <? 2 ^ 31) then Some (le_split 4 n) else None.
Definition unpack_i (bs : bytes) : option Z :=
  if (length bs =? 4)%nat then Some (signed32 (le_combine bs)) else None.

Lemma byte_val_of z : byte_val (byte_of z) = z mod 256.
Proof.
  unfold byte_val, byte_of.
  pose proof (Z.mod_pos_bound z 256 ltac:(lia)) as Hb.
  destruct (Byte.of_N (Z.to_N (z mod 256))) as [b|] eqn:E.
  - apply Byte.to_of_N in E. rewrite E. lia.
  - apply Byte.of_N_None_iff in E. lia.
Qed.

Lemma byte_val_bound b : 0 <= byte_val b < 256.
Proof. unfold byte_val. pose proof (Byte.to_N_bounded b). lia. Qed.

Lemma length_le_split n z : length (le_split n z) = n.
Proof. revert z. induction n as [|n IH]; intros z; [done|]. simpl. by rewrite IH. Qed.

Lemma le_combine_split n z : 0 <= z < 256 ^ Z.of_nat n -> le_combine (le_split n z) = z.
Proof.
  revert z. induction n as [|n IH]; intros z Hz; simpl in *; [lia|].
  rewrite byte_val_of, IH.
  - pose proof (Z.div_mod z 256). lia.
  - replace (Z.of_nat (S n)) with (Z.of_nat n + 1) in Hz by lia.
    rewrite Z.pow_add_r in Hz by lia. split; [apply Z.div_pos; lia|].
    apply Z.div_lt_upper_bound; lia.
Qed.

Lemma unpack_pack_i n : 0 <= n < 2 ^ 31 -> exists h,
  pack_i n = Some h /\ length h = 4%nat /\ unpack_i h = Some n.
Proof.
  intros Hn. unfold pack_i. exists (le_split 4 n).
  rewrite (proj2 (Z.leb_le _ _)), (proj2 (Z.ltb_lt _ _)) by lia. split; [done|].
  split; [apply length_le_split|].
  unfold unpack_i. rewrite length_le_split. simpl (4 =? 4)%nat.
  rewrite le_combine_split by (change (256 ^ Z.of_nat 4) with (2 ^ 32); lia).
  unfold signed32. by rewrite (proj2 (Z.ltb_lt _ _)) by lia.
Qed.
