(* ===== verification/Serializer.v ===== *)
(** * serializer.py: full dumps of the replicated object

    [Serializer] (src/pysyncobj/serializer.py) dumps the object, in memory or
    by a forked child into a file, and moves a dump to another node in chunks.
    The operating system's answers (waitpid, open, read, write, rename) are
    arguments of the methods; pickle, zlib and gzip are the class [Codec]. *)
From stdpp Require Import base gmap list strings.
From Stdlib Require Import ZArith Lia.
From S2P Require Import Prelude PyList.
Local Open Scope Z_scope.

(** [zlib.compress(cPickle.dumps(data, -1))] and its inverse, and the same
    through a [GzipFile]. *)
Class Codec (D : Type) : Type := {
  mem_dump : D -> bytes;
  mem_load : bytes -> outcome D;
  gz_dump : D -> bytes;
  gz_load : bytes -> outcome D;
}.

(** What the libraries promise. *)
Class CodecLaws (D : Type) `{Codec D} : Prop := {
  mem_load_dump d : mem_load (mem_dump d) = Ret d;
  gz_load_dump d : gz_load (gz_dump d) = Ret d;
}.

Module Serializer.

Inductive SERIALIZER_STATE : Type := NOT_SERIALIZING | SERIALIZING | SUCCESS | FAILED.

(** A running transmission: the string it slices, or the open file it reads.
    A dump file is only ever replaced by a rename, so an open file keeps the
    content it was opened with. *)
Record transmission : Type := MkTransmission { transmitted : Z; source : bytes }.

(** The result of [getTransmissionData]: [None], [False] or a triple. *)
Inductive chunk : Type :=
| NoChunk
| ChunkFailed
| Chunk (data : bytes) (isFirst isLast : bool).

(** The forked child: the data it dumps, and its exit status once it exited. *)
Record child (D : Type) : Type := MkChild { dumping : D; status : option Z }.
Arguments MkChild {D} _ _.
Arguments dumping {D} _.
Arguments status {D} _.

Section serializer.
Context {K D : Type} `{Countable K} `{Codec D}.

Record t : Type := MkSerializer {
  fileName : option string;
  transmissionBatchSize : Z;
  pid : Z;
  currentID : Z;
  transmissions : gmap K transmission;
  incomingTransmissionFile : option bytes;
  inMemorySerializedData : option bytes;
  file : option bytes;                (* the content of [fileName] on disk *)
  forked : option (child D);
}.

Definition init (fileName : option string) (transmissionBatchSize : Z) (file : option bytes) : t :=
  MkSerializer fileName transmissionBatchSize 0 0 ∅ None None file None.

Definition set_pid (p : Z) (s : t) : t :=
  MkSerializer (fileName s) (transmissionBatchSize s) p (currentID s) (transmissions s)
    (incomingTransmissionFile s) (inMemorySerializedData s) (file s) (forked s).
Definition set_currentID (i : Z) (s : t) : t :=
  MkSerializer (fileName s) (transmissionBatchSize s) (pid s) i (transmissions s)
    (incomingTransmissionFile s) (inMemorySerializedData s) (file s) (forked s).
Definition set_transmissions (m : gmap K transmission) (s : t) : t :=
  MkSerializer (fileName s) (transmissionBatchSize s) (pid s) (currentID s) m
    (incomingTransmissionFile s) (inMemorySerializedData s) (file s) (forked s).
Definition set_incoming (i : option bytes) (s : t) : t :=
  MkSerializer (fileName s) (transmissionBatchSize s) (pid s) (currentID s) (transmissions s)
    i (inMemorySerializedData s) (file s) (forked s).
Definition set_inMemory (d : option bytes) (s : t) : t :=
  MkSerializer (fileName s) (transmissionBatchSize s) (pid s) (currentID s) (transmissions s)
    (incomingTransmissionFile s) d (file s) (forked s).
Definition set_file (f : option bytes) (s : t) : t :=
  MkSerializer (fileName s) (transmissionBatchSize s) (pid s) (currentID s) (transmissions s)
    (incomingTransmissionFile s) (inMemorySerializedData s) f (forked s).
Definition set_forked (c : option (child D)) (s : t) : t :=
  MkSerializer (fileName s) (transmissionBatchSize s) (pid s) (currentID s) (transmissions s)
    (incomingTransmissionFile s) (inMemorySerializedData s) (file s) c.

(** [os.waitpid(pid, WNOHANG)]: [None] is an OSError. *)
Definition waitpid (os_error : bool) (s : t) : option (Z * Z) :=
  if os_error then None
  else match forked s with
       | Some (MkChild _ (Some st)) => Some (pid s, st)
       | _ => Some (0, 0)
       end.

Definition checkSerializing (os_error : bool) (s : t) : t * (SERIALIZER_STATE * option Z) :=
  match fileName s with
  | None =>
      if pid s =? -1 then
        (set_transmissions ∅ (set_pid 0 s), (SUCCESS, Some (currentID s)))
      else (s, (NOT_SERIALIZING, None))
  | Some _ =>
      if pid s =? 0 then (s, (NOT_SERIALIZING, None))
      else match waitpid os_error s with
           | None => (set_pid 0 s, (FAILED, Some (currentID s)))
           | Some (rpid, st) =>
               if rpid =? pid s then
                 if st =? 0 then
                   (set_pid 0 (set_transmissions ∅ s), (SUCCESS, Some (currentID s)))
                 else (set_pid 0 s, (FAILED, Some (currentID s)))
               else (s, (SERIALIZING, Some (currentID s)))
           end
  end.

(** [new_pid] is what [os.fork] returns in the parent. *)
Definition serialize (new_pid : Z) (data : D) (id : Z) (s : t) : t :=
  if negb (pid s =? 0) then s
  else
    let s := set_currentID id s in
    match fileName s with
    | None => set_pid (-1) (set_inMemory (Some (mem_dump data)) s)
    | Some _ => set_pid new_pid (set_forked (Some (MkChild data None)) s)
    end.

(** The child's branch of [serialize]: write the temporary file, rename it and
    exit, or exit with -1 when anything fails. *)
Definition child_exits (io_ok : bool) (s : t) : t :=
  match forked s with
  | Some (MkChild data None) =>
      if io_ok then set_file (Some (gz_dump data)) (set_forked (Some (MkChild data (Some 0))) s)
      else set_forked (Some (MkChild data (Some (-1)))) s
  | _ => s
  end.

Definition deserialize (s : t) : outcome D :=
  match fileName s with
  | None =>
      match inMemorySerializedData s with
      | Some b => mem_load b
      | None => Raise TypeError
      end
  | Some _ => match file s with Some b => gz_load b | None => Raise IOError end
  end.

(** What is sent: [None] when it cannot be opened. *)
Definition dump_source (open_ok : bool) (s : t) : option bytes :=
  match fileName s with
  | None => inMemorySerializedData s
  | Some _ => if open_ok then file s else None
  end.

(** The next bytes of a transmission: a slice, or [file.read(batch)], which
    reads to the end when the size is negative. *)
Definition next_bytes (batch : Z) (in_memory : bool) (tr : transmission) : bytes :=
  if in_memory then py_slice (source tr) (transmitted tr) (transmitted tr + batch)
  else
    let rest := py_slice_from (source tr) (transmitted tr) in
    if batch <? 0 then rest else py_slice_to rest batch.

Definition getTransmissionData (open_ok read_ok : bool) (transmissionID : K) (s : t)
  : t * chunk :=
  if negb (pid s =? 0) then (s, NoChunk)
  else
    match (match transmissions s !! transmissionID with
           | Some tr => Some tr
           | None => MkTransmission 0 <$> dump_source open_ok s
           end) with
    | None => (set_transmissions (delete transmissionID (transmissions s)) s, NoChunk)
    | Some tr =>
        let in_memory := bool_decide (fileName s = None) in
        let isFirst := transmitted tr =? 0 in
        if in_memory || read_ok then
          let data := next_bytes (transmissionBatchSize s) in_memory tr in
          let size := py_len data in
          let isLast := size =? 0 in
          (set_transmissions
             (if isLast then delete transmissionID (transmissions s)
              else <[transmissionID := MkTransmission (transmitted tr + size) (source tr)]>
                     (transmissions s)) s,
           Chunk data isFirst isLast)
        else (set_transmissions (delete transmissionID (transmissions s)) s, ChunkFailed)
    end.

(** [data] is the message's field: [None] or a triple. *)
Definition setTransmissionData (open_ok write_ok rename_ok : bool)
    (data : option (bytes * bool * bool)) (s : t) : t * bool :=
  match data with
  | None => (s, false)
  | Some (data, isFirst, isLast) =>
      match fileName s with
      | None =>
          match (if isFirst then Some [] else incomingTransmissionFile s) with
          | None => (s, false)
          | Some got =>
              let got := got ++ data in
              if isLast then (set_incoming None (set_inMemory (Some got) s), true)
              else (set_incoming (Some got) s, false)
          end
      | Some _ =>
          match (if isFirst then (if open_ok then Some [] else None)
                 else incomingTransmissionFile s) with
          | None => (set_incoming None s, false)
          | Some got =>
              if write_ok then
                let got := got ++ data in
                if isLast then
                  if rename_ok then (set_file (Some got) (set_incoming None s), true)
                  else (set_incoming None s, false)
                else (set_incoming (Some got) s, false)
              else (set_incoming None s, false)
          end
      end
  end.

Definition cancelTransmisstion (id : K) (s : t) : t :=
  set_transmissions (delete id (transmissions s)) s.

End serializer.
Arguments t K D {_ _}.
End Serializer.
