(* ===== verification/SerializerTheorems.v ===== *)
(** * The properties of the serializer

    A dump moved in chunks arrives unchanged, whatever an earlier, broken
    transmission left at the receiver; a dump that fails leaves the old one. *)
From stdpp Require Import base gmap list strings.
From Stdlib Require Import ZArith Lia.
From Stdlib Require Strings.Byte.
From S2P Require Import Prelude PyList Serializer.
Local Open Scope Z_scope.
Import Serializer.

Section transfer.
Context {K D : Type} `{Countable K} `{Codec D}.
Implicit Types s r : t K D.

(** The loop of [__sendAppendEntries] over a dump, and the receiver's
    [setTransmissionData] on every chunk: [None] when a chunk is missing or the
    fuel runs out, else both serializers and the receiver's last answer. *)
Fixpoint transfer (fuel : nat) (id : K) s r : option (t K D * t K D * bool) :=
  match fuel with
  | O => None
  | S fuel =>
      match getTransmissionData true true id s with
      | (s, Chunk data isFirst isLast) =>
          let '(r, done) := setTransmissionData true true true (Some (data, isFirst, isLast)) r in
          if isLast then Some (s, r, done) else transfer fuel id s r
      | _ => None
      end
  end.

(** The dump a serializer holds. *)
Definition held s : option bytes :=
  match fileName s with None => inMemorySerializedData s | Some _ => file s end.

(** The running transmission of [id], or the one that would start now. *)
Definition current (id : K) s : option transmission :=
  match transmissions s !! id with
  | Some tr => Some tr
  | None => MkTransmission 0 <$> dump_source true s
  end.

Lemma next_bytes_take batch m n d :
  0 < batch -> (n <= length d)%nat ->
  next_bytes batch m (MkTransmission (Z.of_nat n) d) = take (Z.to_nat batch) (drop n d).
Proof.
  intros Hb Hn. unfold next_bytes; simpl. destruct m.
  - rewrite py_slice_nonneg by lia. by rewrite Nat2Z.id.
  - destruct (Z.ltb_spec batch 0); [lia|].
    rewrite py_slice_from_nonneg, py_slice_to_nonneg by lia. by rewrite Nat2Z.id.
Qed.

Lemma getTransmissionData_step id s n d :
  pid s = 0 -> 0 < transmissionBatchSize s -> (n <= length d)%nat ->
  current id s = Some (MkTransmission (Z.of_nat n) d) ->
  let data := take (Z.to_nat (transmissionBatchSize s)) (drop n d) in
  exists s',
    getTransmissionData true true id s = (s', Chunk data (n =? 0)%nat (length data =? 0)%nat) /\
    pid s' = 0 /\ transmissionBatchSize s' = transmissionBatchSize s /\
    delete id (transmissions s') = delete id (transmissions s) /\
    ((length data = 0%nat) -> transmissions s' = delete id (transmissions s)) /\
    ((length data <> 0%nat) ->
       current id s' = Some (MkTransmission (Z.of_nat (n + length data)) d)).
Proof.
  intros Hpid Hb Hn Hcur data. unfold getTransmissionData. rewrite Hpid. simpl.
  unfold current in Hcur. rewrite Hcur. simpl. rewrite orb_true_r.
  rewrite next_bytes_take by done. fold data. unfold py_len.
  replace (Z.of_nat n =? 0) with (n =? 0)%nat
    by (destruct (Nat.eqb_spec n 0), (Z.eqb_spec (Z.of_nat n) 0); lia || done).
  replace (Z.of_nat (length data) =? 0) with (length data =? 0)%nat
    by (destruct (Nat.eqb_spec (length data) 0), (Z.eqb_spec (Z.of_nat (length data)) 0); lia || done).
  eexists. split; [reflexivity|]. split_and!; simpl; [done|done|..].
  - destruct (_ =? _)%nat; [by rewrite delete_delete_eq|by rewrite delete_insert_eq].
  - intros ->. done.
  - intros Hne%Nat.eqb_neq. rewrite Hne. unfold current; simpl.
    rewrite lookup_insert_eq. do 2 f_equal. lia.
Qed.

(** The receiver has the first [n] bytes, or nothing worth keeping. *)
Definition has_prefix (n : nat) (d : bytes) r : Prop :=
  n <> 0%nat -> incomingTransmissionFile r = Some (take n d).

Lemma setTransmissionData_step r n d (data : bytes) last :
  has_prefix n d r -> data = take (length data) (drop n d) ->
  exists r',
    setTransmissionData true true true (Some (data, (n =? 0)%nat, last)) r = (r', last) /\
    fileName r' = fileName r /\
    (last = true -> held r' = Some (take (n + length data) d) /\
       incomingTransmissionFile r' = None) /\
    (last = false -> has_prefix (n + length data) d r').
Proof.
  intros Hpre Hdata.
  assert ((if (n =? 0)%nat then Some [] else incomingTransmissionFile r) = Some (take n d)) as Hgot.
  { destruct (Nat.eqb_spec n 0) as [->|Hne]; [done|by apply Hpre]. }
  assert (take n d ++ data = take (n + length data) d) as Happ.
  { rewrite Hdata at 1. apply take_take_drop. }
  unfold setTransmissionData. destruct (fileName r) as [f|] eqn:Ef; rewrite Hgot.
  - destruct last; eexists; (split; [by rewrite Happ|]); (split_and!; [done|..]); try done.
    intros _. unfold held; simpl. by rewrite Ef.
  - destruct last; eexists; (split; [by rewrite Happ|]); (split_and!; [done|..]); try done.
    intros _. unfold held; simpl. by rewrite Ef.
Qed.

Lemma transfer_from id (d : bytes) fuel n s r :
  pid s = 0 -> 0 < transmissionBatchSize s -> (n <= length d)%nat ->
  current id s = Some (MkTransmission (Z.of_nat n) d) -> has_prefix n d r ->
  Z.of_nat (length d - n) <= (Z.of_nat fuel - 1) * transmissionBatchSize s ->
  exists s' r', transfer fuel id s r = Some (s', r', true) /\
    held r' = Some d /\ incomingTransmissionFile r' = None /\ fileName r' = fileName r /\
    transmissions s' = delete id (transmissions s).
Proof.
  revert n s r. induction fuel as [|fuel IH]; intros n s r Hpid Hb Hn Hcur Hpre Hfuel; [nia|].
  cbn [transfer]. destruct (getTransmissionData_step id s n d Hpid Hb Hn Hcur)
    as (s' & -> & Hpid' & Hb' & Hdel & Hlast & Hnext).
  set (data := take _ _) in *. cbv beta iota.
  assert (length data = Nat.min (Z.to_nat (transmissionBatchSize s)) (length d - n)) as Hlen
    by (unfold data; by rewrite length_take, length_drop).
  destruct (setTransmissionData_step r n d data (length data =? 0)%nat Hpre)
    as (r' & -> & Hname & Hdone & Hmore).
  { unfold data at 1. rewrite Hlen.
    destruct (decide (Z.to_nat (transmissionBatchSize s) <= length d - n)%nat).
    - by rewrite Nat.min_l by lia.
    - rewrite Nat.min_r by lia. by rewrite !take_ge by (rewrite length_drop; lia). }
  destruct (Nat.eqb_spec (length data) 0) as [E|E].
  - destruct (Hdone eq_refl) as [Hh Hi]. exists s', r'. split_and!; [done| |done|done|by apply Hlast].
    rewrite Hh. f_equal. apply take_ge. lia.
  - destruct (IH (n + length data)%nat s' r') as (s'' & r'' & Hrun & Hh & Hi & Hf & Ht);
      [done|lia|lia|by apply Hnext|by apply Hmore| |].
    + rewrite Hb'. rewrite Nat2Z.inj_succ in Hfuel.
      assert (1 <= Z.of_nat fuel) by nia.
      destruct (decide (Z.to_nat (transmissionBatchSize s) <= length d - n)%nat).
      * replace (Z.of_nat (length d - (n + length data)))
          with (Z.of_nat (length d - n) - transmissionBatchSize s) by lia. nia.
      * replace (length d - (n + length data))%nat with 0%nat by lia. nia.
    + exists s'', r''. split_and!; [done|done|done|congruence|]. by rewrite Ht, Hdel.
Qed.

(** A dump moved in chunks arrives complete and unchanged, in memory or
    through files, with any positive chunk size: the receiver answers [True]
    at the last chunk only, an earlier transmission that broke off leaves no
    trace, and the sender forgets the transmission. *)
Theorem dump_transfer id (d : bytes) s r fuel :
  pid s = 0 -> 0 < transmissionBatchSize s -> transmissions s !! id = None ->
  held s = Some d ->
  py_len d <= (Z.of_nat fuel - 1) * transmissionBatchSize s ->
  exists s' r', transfer fuel id s r = Some (s', r', true) /\
    held r' = Some d /\ incomingTransmissionFile r' = None /\
    transmissions s' = transmissions s.
Proof.
  intros Hpid Hb Hnone Hheld Hfuel.
  destruct (transfer_from id d fuel 0 s r) as (s' & r' & Hrun & Hh & Hi & _ & Ht);
    [done|done|lia| |by unfold has_prefix|unfold py_len in Hfuel; lia|].
  - unfold current, dump_source, held in *. rewrite Hnone.
    destruct (fileName s); by rewrite Hheld.
  - exists s', r'. split_and!; [done..|]. rewrite Ht. by apply delete_id.
Qed.

(** C13: what [serialize] was given comes out of [deserialize] at the other end:
    after the dump was made (by the child when there is a file), checked and
    transferred, the receiver deserializes the very object. *)
Theorem snapshot_roundtrip `{!CodecLaws D} id (data : D) logID new_pid s r fuel :
  pid s = 0 -> 0 < new_pid -> 0 < transmissionBatchSize s -> transmissions s = ∅ ->
  (fileName s = None <-> fileName r = None) ->
  let '(s1, (state, serializedID)) :=
    checkSerializing false (child_exits true (serialize new_pid data logID s)) in
  state = SUCCESS /\ serializedID = Some logID /\ deserialize s1 = Ret data /\
  (forall d, held s1 = Some d -> py_len d <= (Z.of_nat fuel - 1) * transmissionBatchSize s ->
    exists s' r', transfer fuel id s1 r = Some (s', r', true) /\ deserialize r' = Ret data).
Proof.
  intros Hpid Hnp Hb Htr Hkind.
  assert (forall s1, pid s1 = 0 -> transmissionBatchSize s1 = transmissionBatchSize s ->
    transmissions s1 = ∅ -> (fileName s1 = None <-> fileName s = None) ->
    held s1 = Some (if decide (fileName s = None) then mem_dump data else gz_dump data) ->
    deserialize s1 = Ret data /\
    (forall d, held s1 = Some d -> py_len d <= (Z.of_nat fuel - 1) * transmissionBatchSize s ->
      exists s' r', transfer fuel id s1 r = Some (s', r', true) /\ deserialize r' = Ret data)) as Hend.
  { intros s1 Hp1 Hb1 Ht1 Hf1 Hh1.
    assert (Hde : forall x, held x = held s1 -> (fileName x = None <-> fileName s = None) ->
      deserialize x = Ret data).
    { intros x Hx Hk. rewrite Hh1 in Hx. unfold held, deserialize in *.
      destruct (fileName x); rewrite Hx; case_decide as Hs.
      - by apply Hk in Hs.
      - apply gz_load_dump.
      - apply mem_load_dump.
      - exfalso. by apply Hs, Hk. }
    split; [by apply Hde|]. intros d Hd Hfuel.
    destruct (transfer_from id d fuel 0 s1 r) as (s' & r' & Hrun & Hh & _ & Hname & _);
      [done|lia|lia| |by unfold has_prefix|unfold py_len in Hfuel; lia|].
    - unfold current, dump_source, held in *. rewrite Ht1, lookup_empty.
      destruct (fileName s1); by rewrite Hd.
    - exists s', r'. split; [done|]. apply Hde; [congruence|]. rewrite Hname. by symmetry. }
  unfold serialize. rewrite Hpid. simpl. destruct (fileName s) as [f|] eqn:Ef; simpl.
  - unfold child_exits, checkSerializing; simpl. rewrite Ef.
    rewrite (proj2 (Z.eqb_neq new_pid 0)) by lia. unfold waitpid; simpl.
    rewrite Z.eqb_refl. simpl. do 2 (split; [done|]).
    apply Hend; try done; simpl; [by rewrite Ef|].
    unfold held; simpl. rewrite ?Ef. first [done|by case_decide].
  - unfold child_exits, checkSerializing; simpl.
    destruct (forked s) as [[x [y|]]|]; simpl; rewrite Ef; simpl; do 2 (split; [done|]);
      apply Hend; try done; simpl; first [by rewrite Ef|unfold held; simpl; rewrite ?Ef; first [done|by case_decide]].
Qed.

(** A dump that fails, and a second dump while one is being made, change
    nothing that is read back: until [checkSerializing] reports the end, no new
    dump starts and no chunk is handed out, and after a failure the old file is
    still there. *)
Theorem failed_dump_keeps_old id (data data' : D) logID logID' new_pid new_pid' s f :
  pid s = 0 -> 0 < new_pid -> fileName s = Some f ->
  let busy := serialize new_pid data logID s in
  serialize new_pid' data' logID' busy = busy /\
  getTransmissionData true true id busy = (busy, NoChunk) /\
  checkSerializing false busy = (busy, (SERIALIZING, Some logID)) /\
  let '(s', (state, _)) := checkSerializing false (child_exits false busy) in
  state = FAILED /\ pid s' = 0 /\ held s' = held s /\ deserialize s' = deserialize s /\
  transmissions s' = transmissions s.
Proof.
  intros Hpid Hnp Hf busy.
  assert ((new_pid =? 0) = false) as Hne by (apply Z.eqb_neq; lia).
  assert (busy = set_pid new_pid (set_forked (Some (MkChild data None)) (set_currentID logID s)))
    as -> by (subst busy; unfold serialize; rewrite Hpid; simpl; by rewrite Hf).
  split_and!.
  - unfold serialize; simpl. by rewrite Hne.
  - unfold getTransmissionData; simpl. by rewrite Hne.
  - unfold checkSerializing; simpl. rewrite Hf, Hne. by destruct new_pid.
  - unfold child_exits, checkSerializing; simpl. rewrite Hf, Hne. unfold waitpid; simpl.
    rewrite Z.eqb_refl. simpl. split_and!; try done; unfold held, deserialize; simpl; by rewrite Hf.
Qed.

End transfer.

(** ** Witnesses: objects are byte strings, dumped as they are *)
#[local] Instance bytes_codec : Codec bytes :=
  {| mem_dump d := d; mem_load := Ret; gz_dump d := Byte.x1f :: d;
     gz_load b := match b with _ :: d => Ret d | [] => Raise IOError end |}.

#[local] Instance bytes_codec_laws : CodecLaws bytes.
Proof. by constructor. Qed.

Definition hello : bytes := [Byte.x68; Byte.x65; Byte.x6c; Byte.x6c; Byte.x6f].

Lemma dump_transfer_witness :
  let s := set_inMemory (Some hello) (init None 2 None) : Serializer.t Z bytes in
  let r := set_incoming (Some hello) (init (Some "dump"%string) 2 None) : Serializer.t Z bytes in
  exists s' r', transfer 4 7 s r = Some (s', r', true) /\
    held r' = Some hello /\ incomingTransmissionFile r' = None /\
    transmissions s' = transmissions s.
Proof.
  refine (dump_transfer 7 hello _ _ 4 _ _ _ _ _); vm_compute; (reflexivity || discriminate).
Defined.

Lemma snapshot_roundtrip_witness :
  let s := init (Some "dump"%string) 2 None : Serializer.t Z bytes in
  let r := init (Some "dump"%string) 3 None : Serializer.t Z bytes in
  let '(s1, (state, serializedID)) :=
    checkSerializing false (child_exits true (serialize 99 hello 12 s)) in
  state = SUCCESS /\ serializedID = Some 12 /\ deserialize s1 = Ret hello /\
  (forall d, held s1 = Some d -> py_len d <= (Z.of_nat 5 - 1) * transmissionBatchSize s ->
    exists s' r', transfer 5 7 s1 r = Some (s', r', true) /\ deserialize r' = Ret hello).
Proof.
  refine (snapshot_roundtrip 7 hello 12 99 (init (Some "dump"%string) 2 None)
    (init (Some "dump"%string) 3 None) 5 _ _ _ _ _);
    [reflexivity|reflexivity|reflexivity|reflexivity|split; discriminate].
Defined.

Lemma failed_dump_keeps_old_witness :
  let s := init (Some "dump"%string) 2 (Some (Byte.x1f :: hello)) : Serializer.t Z bytes in
  let busy := serialize 99 [] 12 s in
  serialize 98 hello 13 busy = busy /\
  getTransmissionData true true 7 busy = (busy, NoChunk) /\
  checkSerializing false busy = (busy, (SERIALIZING, Some 12)) /\
  let '(s', (state, _)) := checkSerializing false (child_exits false busy) in
  state = FAILED /\ pid s' = 0 /\ held s' = held s /\ deserialize s' = deserialize s /\
  transmissions s' = transmissions s.
Proof.
  exact (failed_dump_keeps_old 7 [] hello 12 13 99 98
    (init (Some "dump"%string) 2 (Some (Byte.x1f :: hello))) "dump"%string eq_refl eq_refl eq_refl).
Defined.
