(* ===== verification/Connection.v ===== *)
(** * connection.py: framed messages over a non-blocking socket

    [Connection] (src/pysyncobj/connection.py).  Every answer of the socket is
    an argument: what [send] accepted, what [recv] returned, the time.  The
    bytes handed to the socket are returned by the methods that send. *)
From stdpp Require Import base list.
From Stdlib Require Import ZArith QArith Lia.
From Stdlib Require Strings.Byte.
From S2P Require Import Prelude PyList.
Local Open Scope Z_scope.

(** [zlib.compress(cPickle.dumps(message, -1), 3)] and
    [cPickle.loads(zlib.decompress(data))]; [UnpicklingError] stands for the
    two exceptions that [getMessage] catches. *)
Class Pickle (Msg : Type) : Type := {
  encode : Msg -> bytes;
  decode : bytes -> outcome Msg;
}.

Class PickleLaws (Msg : Type) `{Pickle Msg} : Prop := {
  decode_encode m : decode (encode m) = Ret m;
  decode_empty : decode [] = Raise UnpicklingError;   (* incomplete zlib stream *)
}.

Module Connection.

(** The answers of [socket.send], [socket.recv] and [socket.connect]. *)
Inductive send_result : Type := SendReturned (res : Z) | SendEAGAIN | SendError.
Inductive recv_result : Type := Received (incoming : bytes) | RecvEAGAIN | RecvError.

Section connection.
Context {Msg : Type} `{Pickle Msg}.

Record t : Type := MkConnection {
  readBuffer : bytes;
  writeBuffer : bytes;
  lastReadTime : Q;
  timeout : Q;
  disconnected : bool;
  fileno : option Z;
}.

(** [sock] is the descriptor of the socket passed in, if any. *)
Definition init (sock : option Z) (timeout now : Q) : t :=
  MkConnection [] [] now timeout (bool_decide (sock = None)) sock.

Definition set_readBuffer (b : bytes) (s : t) : t :=
  MkConnection b (writeBuffer s) (lastReadTime s) (timeout s) (disconnected s) (fileno s).
Definition set_writeBuffer (b : bytes) (s : t) : t :=
  MkConnection (readBuffer s) b (lastReadTime s) (timeout s) (disconnected s) (fileno s).
Definition set_disconnected (s : t) : t :=
  MkConnection (readBuffer s) (writeBuffer s) (lastReadTime s) (timeout s) true (fileno s).
Definition set_lastReadTime (now : Q) (s : t) : t :=
  MkConnection (readBuffer s) (writeBuffer s) now (timeout s) (disconnected s) (fileno s).

Definition isDisconnected (now : Q) (s : t) : bool :=
  disconnected s || negb (Qle_bool (now - lastReadTime s) (timeout s)).

(** [connected]: the non-blocking [connect] succeeded or is in progress. *)
Definition connect (connected : bool) (descr : Z) (now : Q) (s : t) : t * bool :=
  if connected then (MkConnection [] [] now (timeout s) false (Some descr), true)
  else (MkConnection [] [] now (timeout s) (disconnected s) (fileno s), false).

(** Both buffers are dropped on an error. *)
Definition drop_buffers (s : t) : t := set_disconnected (set_readBuffer [] (set_writeBuffer [] s)).

Definition processSend (answer : send_result) (s : t) : t * bytes * bool :=
  match writeBuffer s with
  | [] => (s, [], false)
  | buf =>
      match answer with
      | SendReturned res =>
          if res <? 0 then (drop_buffers s, [], false)
          else if res =? 0 then (s, [], false)
          else (set_writeBuffer (py_slice_from buf res) s, py_slice_to buf res, true)
      | SendEAGAIN => (s, [], false)
      | SendError => (drop_buffers s, [], false)
      end
  end.

(** [while self.processSend(): pass]; [kernel k] is the answer to the [k]-th
    call of [socket.send]. [None]: out of fuel. *)
Fixpoint trySendBuffer (fuel : nat) (kernel : nat -> send_result) (s : t) : option (t * bytes) :=
  match fuel with
  | O => None
  | S fuel =>
      let '(s, sent, more) := processSend (kernel 0%nat) s in
      if more then
        '(s, sent') ← trySendBuffer fuel (fun k => kernel (S k)) s; Some (s, sent ++ sent')
      else Some (s, sent)
  end.

(** Enough fuel for [trySendBuffer]: every round sends a byte. *)
Definition send_fuel (s : t) : nat := S (length (writeBuffer s)).

Definition flush (kernel : nat -> send_result) (s : t) : t * bytes :=
  default (s, []) (trySendBuffer (send_fuel s) kernel s).

(** The 4-byte length and the data. *)
Definition frame (m : Msg) : option bytes :=
  h ← pack_i (py_len (encode m)); Some (h ++ encode m).

Definition send (kernel : nat -> send_result) (message : Msg) (s : t) : t * bytes * outcome unit :=
  match frame message with
  | None => (s, [], Raise StructError)
  | Some data =>
      let '(s, sent) := flush kernel (set_writeBuffer (writeBuffer s ++ data) s) in
      (s, sent, Ret tt)
  end.

Definition getSendBufferSize (s : t) : Z := py_len (writeBuffer s).

(** [so_error]: [getsockopt(SO_ERROR)] is not zero. *)
Definition read (answer : recv_result) (so_error : bool) (now : Q) (s : t) : t * bool :=
  match answer with
  | RecvEAGAIN => (s, false)
  | RecvError => (set_disconnected s, false)
  | Received incoming =>
      if so_error then (set_disconnected s, false)
      else match incoming with
           | [] => (s, false)
           | _ => (set_readBuffer (readBuffer s ++ incoming) (set_lastReadTime now s), true)
           end
  end.

Definition getMessage (s : t) : t * outcome (option Msg) :=
  let buf := readBuffer s in
  if py_len buf <? 4 then (s, Ret None)
  else match unpack_i (py_slice_to buf 4) with
       | None => (s, Raise StructError)
       | Some l =>
           if py_len buf - 4 <? l then (s, Ret None)
           else match decode (py_slice buf 4 (4 + l)) with
                | Raise UnpicklingError => (set_disconnected s, Ret None)
                | Raise e => (s, Raise e)
                | Ret message => (set_readBuffer (py_slice_from buf (4 + l)) s, Ret (Some message))
                end
       end.

(** [while True: message = conn.getMessage(); if message is None: break; ...]
    of node.py: the messages, and the exception that ended the loop if any.
    [None]: out of fuel. *)
Fixpoint getMessages (fuel : nat) (s : t) : option (t * list Msg * outcome unit) :=
  match fuel with
  | O => None
  | S fuel =>
      match getMessage s with
      | (s, Ret None) => Some (s, [], Ret tt)
      | (s, Raise e) => Some (s, [], Raise e)
      | (s, Ret (Some m)) =>
          '(s, ms, r) ← getMessages fuel s; Some (s, m :: ms, r)
      end
  end.

(** Enough fuel for [getMessages]: every message takes a byte. *)
Definition read_fuel (s : t) : nat := S (length (readBuffer s)).

Definition drain (s : t) : t * list Msg * outcome unit :=
  default (s, [], Ret tt) (getMessages (read_fuel s) s).

Definition close (s : t) : t := set_disconnected s.

End connection.
End Connection.
