(* ===== verification/ConnectionTheorems.v ===== *)
(** * The properties of framed connections

    The bytes of a connection are the frames of its messages: the sender puts
    them on the wire in order whatever the socket accepts at a time, and the
    receiver recovers the messages from any division of the stream into
    reads. *)
From stdpp Require Import base list.
From Stdlib Require Import ZArith QArith Lia.
From Stdlib Require Strings.Byte.
From S2P Require Import Prelude PyList Connection.
Local Open Scope Z_scope.
Import Connection.

Section framing.
Context {Msg : Type} `{PickleLaws Msg}.
Implicit Types s : Connection.t.
Implicit Types m : Msg.

(** A message whose dump fits the length field. *)
Definition fits (m : Msg) : Prop := py_len (encode m) < 2 ^ 31.

Definition frame_bytes (m : Msg) : bytes := default [] (frame m).
Definition stream (ms : list Msg) : bytes := ms ≫= frame_bytes.

Lemma frame_fits m : fits m -> exists h,
  frame_bytes m = h ++ encode m /\ frame m = Some (h ++ encode m) /\ length h = 4%nat /\
  unpack_i h = Some (py_len (encode m)).
Proof.
  intros Hf. destruct (unpack_pack_i (py_len (encode m))) as (h & Hp & Hl & Hu).
  { pose proof (py_len_nonneg (encode m)). unfold fits in Hf. lia. }
  exists h. unfold frame_bytes, frame. rewrite Hp. done.
Qed.

(** ** Sending *)

(** A socket that is never in error. *)
Definition healthy (kernel : nat -> send_result) : Prop :=
  forall k, kernel k <> SendError /\ forall res, kernel k = SendReturned res -> 0 <= res.

Lemma processSend_healthy answer s :
  answer <> SendError -> (forall res, answer = SendReturned res -> 0 <= res) ->
  exists s' sent more, processSend answer s = (s', sent, more) /\
    sent ++ writeBuffer s' = writeBuffer s /\ readBuffer s' = readBuffer s /\
    disconnected s' = disconnected s /\
    (more = true -> (length (writeBuffer s') < length (writeBuffer s))%nat).
Proof.
  intros Hne Hpos. unfold processSend. destruct (writeBuffer s) as [|b buf] eqn:Eb.
  { exists s, [], false. by rewrite Eb. }
  destruct answer as [res| |]; [|exists s, [], false; by rewrite Eb|done].
  specialize (Hpos res eq_refl). rewrite (proj2 (Z.ltb_ge _ _)) by lia.
  destruct (Z.eqb_spec res 0) as [->|Hr]; [exists s, [], false; by rewrite Eb|].
  eexists _, _, true. split; [reflexivity|]. simpl.
  rewrite py_slice_to_nonneg, py_slice_from_nonneg by lia.
  split_and!; [apply take_drop|done|done|]. intros _. rewrite length_drop. simpl. lia.
Qed.

Lemma trySendBuffer_healthy fuel kernel s :
  healthy kernel -> (length (writeBuffer s) < fuel)%nat ->
  exists s' sent, trySendBuffer fuel kernel s = Some (s', sent) /\
    sent ++ writeBuffer s' = writeBuffer s /\ readBuffer s' = readBuffer s /\
    disconnected s' = disconnected s.
Proof.
  revert kernel s. induction fuel as [|fuel IH]; intros kernel s Hk Hfuel; [lia|]. simpl.
  destruct (processSend_healthy (kernel 0%nat) s) as (s1 & sent & more & -> & Hs & Hr & Hd & Hless);
    [apply Hk..|]. destruct more; [|by eexists _, _].
  specialize (Hless eq_refl).
  destruct (IH (fun k => kernel (S k)) s1) as (s2 & sent' & -> & Hs' & Hr' & Hd').
  { intros k. apply Hk. }
  { lia. }
  simpl. eexists _, _. split; [reflexivity|]. split_and!; [|congruence..].
  by rewrite <-app_assoc, Hs'.
Qed.

Lemma send_healthy kernel m s :
  healthy kernel -> fits m ->
  exists s' sent, send kernel m s = (s', sent, Ret tt) /\
    sent ++ writeBuffer s' = writeBuffer s ++ frame_bytes m /\ readBuffer s' = readBuffer s /\
    disconnected s' = disconnected s.
Proof.
  intros Hk Hm. destruct (frame_fits m Hm) as (h & Hb & Hf & _ & _).
  unfold send, flush, send_fuel. rewrite Hf, Hb.
  destruct (trySendBuffer_healthy (S (length (writeBuffer s ++ h ++ encode m))) kernel
              (set_writeBuffer (writeBuffer s ++ h ++ encode m) s) Hk) as (s' & sent & Ht & Hs & Hr & Hd);
    [simpl; lia|].
  simpl in *. rewrite Ht. simpl. eexists _, _. done.
Qed.

(** Sending messages one after the other, each with its socket answers. *)
Fixpoint send_all (ks : list (nat -> send_result)) (ms : list Msg) s : Connection.t * bytes :=
  match ks, ms with
  | k :: ks, m :: ms =>
      let '(s, sent, _) := send k m s in
      let '(s, sent') := send_all ks ms s in
      (s, sent ++ sent')
  | _, _ => (s, [])
  end.

(** C20: the send loop ends (the fuel [send_fuel] is enough) and the stream is
    never corrupted: however few bytes the socket takes at a time, the bytes on
    the wire followed by those still buffered are the frames of the messages in
    the order of the calls. *)
Theorem send_stream ks ms s :
  length ks = length ms -> Forall healthy ks -> Forall fits ms ->
  (forall kernel, healthy kernel -> exists x, trySendBuffer (send_fuel s) kernel s = Some x) /\
  let '(s', sent) := send_all ks ms s in
  sent ++ writeBuffer s' = writeBuffer s ++ stream ms /\ disconnected s' = disconnected s.
Proof.
  intros Hlen Hks Hms. split.
  { intros kernel Hk. destruct (trySendBuffer_healthy (send_fuel s) kernel s Hk) as (? & ? & ? & _);
      [unfold send_fuel; lia|eauto]. }
  revert ks s Hlen Hks. induction Hms as [|m ms Hm Hms IH]; intros [|k ks] s Hlen Hks; try done.
  { simpl. by rewrite app_nil_r. }
  apply Forall_cons in Hks as [Hk Hks]. simpl.
  destruct (send_healthy k m s Hk Hm) as (s1 & sent & -> & Hs & _ & Hd).
  specialize (IH ks s1 ltac:(simpl in Hlen; lia) Hks).
  destruct (send_all ks ms s1) as [s2 sent']. destruct IH as [Hs' Hd']. split; [|congruence].
  rewrite <-app_assoc, Hs', (app_assoc sent), Hs, <-app_assoc. done.
Qed.

(** ** Receiving *)

(** The buffer ends in the middle of a message. *)
Definition incomplete (buf : bytes) (ms : list Msg) : Prop :=
  match ms with [] => buf = [] | m :: _ => (length buf < length (frame_bytes m))%nat end.

Lemma getMessage_frame m rest s :
  fits m -> readBuffer s = frame_bytes m ++ rest ->
  getMessage s = (set_readBuffer rest s, Ret (Some m)).
Proof.
  intros Hm Hbuf. destruct (frame_fits m Hm) as (h & Hb & _ & Hlh & Hu).
  rewrite Hb, <-app_assoc in Hbuf. unfold getMessage. rewrite Hbuf.
  assert (py_len h = 4) as Hh by (unfold py_len; lia).
  pose proof (py_len_nonneg (encode m)). pose proof (py_len_nonneg rest).
  rewrite !py_len_app, Hh. rewrite (proj2 (Z.ltb_ge _ 4)) by lia.
  rewrite py_slice_to_nonneg by lia. rewrite take_app_length' by lia. rewrite Hu.
  rewrite (proj2 (Z.ltb_ge _ _)) by lia.
  rewrite py_slice_nonneg, drop_app_length' by lia.
  rewrite take_app_length' by (unfold py_len; lia). rewrite decode_encode.
  rewrite py_slice_from_nonneg by lia. rewrite app_assoc, drop_app_length'; [done|].
  rewrite length_app. unfold py_len. lia.
Qed.

Lemma getMessage_incomplete m rest' s :
  fits m -> readBuffer s ++ rest' = frame_bytes m -> rest' <> [] ->
  getMessage s = (s, Ret None).
Proof.
  intros Hm Hbuf Hne. destruct (frame_fits m Hm) as (h & Hb & _ & Hlh & Hu).
  rewrite Hb in Hbuf. unfold getMessage.
  destruct (Z.ltb_spec (py_len (readBuffer s)) 4) as [|Hge]; [done|].
  rewrite py_slice_to_nonneg by lia.
  assert (take (Z.to_nat 4) (readBuffer s) = h) as ->.
  { assert (take 4 (readBuffer s ++ rest') = h) as <- by (rewrite Hbuf; by apply take_app_length').
    change (Z.to_nat 4) with 4%nat. rewrite take_app_le; [done|]. unfold py_len in Hge. lia. }
  rewrite Hu. rewrite (proj2 (Z.ltb_lt _ _)); [done|].
  apply (f_equal length) in Hbuf. rewrite !length_app in Hbuf. unfold py_len.
  destruct rest'; [done|]. simpl in Hbuf. lia.
Qed.

(** Of a stream that begins with the frame of [m] either too little has arrived,
    or [m] is the next message. *)
Lemma getMessage_next m rest tail s :
  fits m -> readBuffer s ++ rest = frame_bytes m ++ tail ->
  (getMessage s = (s, Ret None) /\ (length (readBuffer s) < length (frame_bytes m))%nat) \/
  exists rest', readBuffer s = frame_bytes m ++ rest' /\ rest' ++ rest = tail /\
    getMessage s = (set_readBuffer rest' s, Ret (Some m)).
Proof.
  intros Hm Hbuf. destruct (decide (length (frame_bytes m) <= length (readBuffer s))%nat) as [Hle|Hgt].
  - right. exists (drop (length (frame_bytes m)) (readBuffer s)).
    assert (readBuffer s = frame_bytes m ++ drop (length (frame_bytes m)) (readBuffer s)) as Hread.
    { assert (take (length (frame_bytes m)) (readBuffer s) = frame_bytes m) as Ht.
      { rewrite <-(take_app_le _ rest) by done. rewrite Hbuf. apply take_app_length. }
      by rewrite <-Ht at 1; rewrite take_drop. }
    split_and!; [done| |by apply getMessage_frame].
    rewrite <-drop_app_le by done. rewrite Hbuf. apply drop_app_length.
  - left. split; [|lia].
    apply (getMessage_incomplete m (drop (length (readBuffer s)) (frame_bytes m))); [done| |].
    + assert (take (length (readBuffer s)) (frame_bytes m) = readBuffer s) as Htk.
      { rewrite <-(take_app_le _ tail) by lia. rewrite <-Hbuf. apply take_app_length. }
      by rewrite <-Htk at 1; rewrite take_drop.
    + intros Hnil. apply (f_equal length) in Hnil. rewrite length_drop in Hnil. simpl in Hnil. lia.
Qed.

Lemma getMessages_stream fuel ms rest s :
  Forall fits ms -> readBuffer s ++ rest = stream ms ->
  (length (readBuffer s) < fuel)%nat ->
  exists ms1 ms2 buf, ms = ms1 ++ ms2 /\
    getMessages fuel s = Some (set_readBuffer buf s, ms1, Ret tt) /\
    buf ++ rest = stream ms2 /\ incomplete buf ms2.
Proof.
  intros Hms. revert fuel s. induction Hms as [|m ms Hm Hms IH]; intros [|fuel] s Hbuf Hfuel;
    try lia.
  { apply app_nil in Hbuf as [Hbuf ->]. exists [], [], []. split; [done|].
    simpl. unfold getMessage. rewrite Hbuf. simpl. split_and!; try done.
    destruct s; simpl in *; by subst. }
  change (stream (m :: ms)) with (frame_bytes m ++ stream ms) in Hbuf. cbn [getMessages].
  destruct (getMessage_next m rest (stream ms) s Hm Hbuf) as [[-> Hlt]|(rest' & Hread & Hrest & ->)].
  - exists [], (m :: ms), (readBuffer s). split_and!; [done|by destruct s|done|done].
  - destruct (frame_fits m Hm) as (h & Hb & _ & Hlh & _).
    destruct (IH fuel (set_readBuffer rest' s)) as (ms1 & ms2 & buf & -> & Hget & Hbr & Hinc).
    { done. }
    { simpl. rewrite Hread, Hb, !length_app in Hfuel. lia. }
    exists (m :: ms1), ms2, buf. split; [done|]. rewrite Hget. simpl. split_and!; [|done..].
    by destruct s.
Qed.

(** The reads of node.py: [conn.read()], then [getMessage] until [None]. *)
Definition on_read (now : Q) (incoming : bytes) s : Connection.t * list Msg * outcome unit :=
  let '(s, got) := read (Received incoming) false now s in
  if got then drain s else (s, [], Ret tt).

Fixpoint receive_all (now : Q) (chunks : list bytes) s : Connection.t * list Msg * outcome unit :=
  match chunks with
  | [] => (s, [], Ret tt)
  | c :: chunks =>
      match on_read now c s with
      | (s, ms, Raise e) => (s, ms, Raise e)
      | (s, ms, Ret _) => let '(s, ms', r) := receive_all now chunks s in (s, ms ++ ms', r)
      end
  end.

Lemma receive_all_stream now chunks ms rest s :
  Forall fits ms -> incomplete (readBuffer s) ms ->
  readBuffer s ++ concat chunks ++ rest = stream ms ->
  exists ms1 ms2 s', ms = ms1 ++ ms2 /\ receive_all now chunks s = (s', ms1, Ret tt) /\
    readBuffer s' ++ rest = stream ms2 /\ incomplete (readBuffer s') ms2 /\
    disconnected s' = disconnected s.
Proof.
  revert ms s. induction chunks as [|c chunks IH]; intros ms s Hms Hinc Hbuf.
  { exists [], ms, s. done. }
  simpl in *. unfold on_read, read. destruct c as [|b c]; simpl.
  - destruct (IH ms s Hms Hinc Hbuf) as (ms1 & ms2 & s' & -> & -> & H1 & H2 & H3).
    exists ms1, ms2, s'. done.
  - set (s1 := set_readBuffer _ _).
    destruct (getMessages_stream (read_fuel s1) ms (concat chunks ++ rest) s1)
      as (ms1 & ms2 & buf & -> & Hget & Hbr & Hinc2); [done| |unfold read_fuel; lia|].
    { unfold s1; simpl. rewrite <-(app_assoc (b :: c)) in Hbuf. rewrite <-app_assoc. exact Hbuf. }
    unfold drain. rewrite Hget. simpl.
    apply Forall_app in Hms as [_ Hms2].
    destruct (IH ms2 (set_readBuffer buf s1)) as (ms3 & ms4 & s' & -> & -> & H1 & H2 & H3);
      [done..|].
    exists (ms1 ++ ms3), ms4, s'. split; [by rewrite app_assoc|]. done.
Qed.


(** ** Termination on any input *)
Lemma getMessage_shrinks s s' m :
  getMessage s = (s', Ret (Some m)) -> (length (readBuffer s') < length (readBuffer s))%nat.
Proof.
  unfold getMessage. destruct (Z.ltb_spec (py_len (readBuffer s)) 4) as [|Hge]; [done|].
  destruct (unpack_i _) as [l|]; [|done].
  destruct (Z.ltb_spec (py_len (readBuffer s) - 4) l) as [|Hl]; [done|].
  destruct (decode (py_slice _ _ _)) as [m'|e] eqn:Ed; [|by destruct e].
  intros [= <- _]. simpl. unfold py_slice_from. rewrite length_drop.
  assert (0 < clip (readBuffer s) (4 + l))%nat; [|unfold py_len in Hge; lia].
  destruct (decide (clip (readBuffer s) (4 + l) = 0%nat)) as [E|]; [|lia].
  exfalso. revert Ed. unfold py_slice. rewrite E. rewrite decode_empty. done.
Qed.

(** The read loop of a node ends on any bytes whatever, also a negative
    length field: with the fuel [read_fuel] it never runs out. *)
Theorem read_loop_terminates s : exists x, getMessages (read_fuel s) s = Some x.
Proof.
  unfold read_fuel. assert (length (readBuffer s) < S (length (readBuffer s)))%nat as Hlt by lia.
  revert Hlt. generalize (S (length (readBuffer s))) as fuel. intros fuel.
  revert s. induction fuel as [|fuel IH]; intros s Hlt; [lia|]. simpl.
  destruct (getMessage s) as [s1 [[m|]|e]] eqn:E; [|eauto..].
  apply getMessage_shrinks in E. destruct (IH s1) as [[[s2 ms] r] ->]; [lia|]. simpl. eauto.
Qed.

End framing.

(** ** Witnesses: a message is a byte string, dumped with a one-byte tag *)
#[local] Instance tagged : Pickle bytes := {|
  encode m := Byte.x78 :: m;
  decode b := match b with Byte.x78 :: m => Ret m | _ => Raise UnpicklingError end;
|}.

#[local] Instance tagged_laws : PickleLaws bytes.
Proof. by constructor. Qed.

Definition two_messages : list bytes := [[Byte.x61; Byte.x62]; [Byte.x63]].

Lemma send_stream_witness :
  let s := init (Some 5) 10 0 in
  let kernel k := if (k =? 2)%nat then SendEAGAIN else SendReturned 1 in
  (forall kernel, healthy kernel -> exists x, trySendBuffer (send_fuel s) kernel s = Some x) /\
  let '(s', sent) := send_all [kernel; kernel] two_messages s in
  sent ++ writeBuffer s' = [] ++ stream two_messages /\ disconnected s' = false.
Proof.
  intros s kernel.
  refine (send_stream [kernel; kernel] two_messages s _ _ _); [reflexivity| |].
  - assert (healthy kernel) as Hk; [|by rewrite !Forall_cons, Forall_nil].
    intros k. unfold kernel. destruct (k =? 2)%nat; (split; [done|]); intros res [= <-]; lia.
  - repeat constructor.
Defined.


Lemma read_loop_terminates_witness :
  exists x, getMessages (read_fuel (set_readBuffer [Byte.xff; Byte.xff; Byte.xff; Byte.xff; Byte.x78]
    (init (Some 5) 10 0))) (set_readBuffer [Byte.xff; Byte.xff; Byte.xff; Byte.xff; Byte.x78]
    (init (Some 5) 10 0)) = Some x.
Proof. exact (read_loop_terminates (Msg := bytes) _). Defined.
