(* ===== verification/SyncObj.v ===== *)
(** * syncobj.py: the Raft core of PySyncObj

    The class SyncObj (src/pysyncobj/syncobj.py): its state as the record [t],
    one definition per method, in the method monad of the prelude.  The
    operating system is the record [env]: the clock, the random number, which
    peers are connected, the answers of the file system.  A node's [send]
    (node.py) is the effect [Send]; a user's callback the effect [Callback].
    Addresses [A], replicated commands [C] with results [R] on objects [X], and
    callbacks [F] are parameters. *)
From stdpp Require Import base gmap sets list strings sorting.
From Stdlib Require Import ZArith QArith Lia.
From S2P Require Import Prelude PyList Serializer.
Local Open Scope Z_scope.

Inductive RAFT_STATE : Type := FOLLOWER | CANDIDATE | LEADER.

#[export] Instance RAFT_STATE_eq_dec : EqDecision RAFT_STATE.
Proof. solve_decision. Defined.

(** config.py *)
Inductive FAIL_REASON : Type :=
| SUCCESS | QUEUE_FULL | MISSING_LEADER | DISCARDED | NOT_LEADER | LEADER_CHANGED.

#[export] Instance FAIL_REASON_eq_dec : EqDecision FAIL_REASON.
Proof. solve_decision. Defined.

(** The options, with their defaults in [default_conf]. *)
Record SyncObjConf : Type := MkConf {
  autoTick : bool;
  autoTickPeriod : Q;
  commandsQueueSize : Z;
  maxCommandsPerTick : Z;
  raftMinTimeout : Q;
  raftMaxTimeout : Q;
  appendEntriesPeriod : Q;
  connectionTimeout : Q;
  connectionRetryTime : Q;
  appendEntriesBatchSize : Z;
  appendEntriesUseBatch : bool;
  sendBufferSize : Z;
  recvBufferSize : Z;
  dnsCacheTime : Q;
  dnsFailCacheTime : Q;
  logCompactionMinEntries : Z;
  logCompactionMinTime : Q;
  logCompactionBatchSize : Z;
  commandsWaitLeader : bool;
  fullDumpFile : option string;
  bindRetryTime : Q;
}.

Definition default_conf : SyncObjConf := {|
  autoTick := true; autoTickPeriod := 5 # 100;
  commandsQueueSize := 1000;
  maxCommandsPerTick := 100;
  raftMinTimeout := 1; raftMaxTimeout := 3;
  appendEntriesPeriod := 3 # 10;
  connectionTimeout := 35 # 10;
  connectionRetryTime := 5;
  appendEntriesBatchSize := 1000;
  appendEntriesUseBatch := true;
  sendBufferSize := 2 ^ 13; recvBufferSize := 2 ^ 13;
  dnsCacheTime := 600; dnsFailCacheTime := 30;
  logCompactionMinEntries := 5000; logCompactionMinTime := 60;
  logCompactionBatchSize := 2 ^ 13;
  commandsWaitLeader := true;
  fullDumpFile := None;
  bindRetryTime := 1;
|}.

(** A log entry: (command, logID, term); the first one has no command. *)
Record entry (C : Type) : Type := MkEntry { command : option C; logID : Z; term : Z }.
Arguments MkEntry {C} _ _ _.
Arguments command {C} _.
Arguments logID {C} _.
Arguments term {C} _.

#[export] Instance entry_eq_dec `{EqDecision C} : EqDecision (entry C).
Proof. solve_decision. Defined.

(** The messages between nodes, by their 'type' field. *)
Inductive message (C : Type) : Type :=
| request_vote (term last_log_index last_log_term : Z)
| response_vote (term : Z)
| append_entries (term commit_index : Z) (entries : list (entry C))
    (prevLogIdx prevLogTerm : option Z)
| append_serialized (term commit_index : Z) (serialized : Serializer.chunk)
| apply_command (command : C) (request_id : option Z)
| apply_command_error (request_id : Z) (error : FAIL_REASON)
| apply_command_response (request_id log_idx log_term : Z)
| next_node_idx (next_node_idx : Z) (reset : bool).
Arguments request_vote {C} _ _ _.
Arguments response_vote {C} _.
Arguments append_entries {C} _ _ _ _ _.
Arguments append_serialized {C} _ _ _.
Arguments apply_command {C} _ _.
Arguments apply_command_error {C} _ _.
Arguments apply_command_response {C} _ _ _.
Arguments next_node_idx {C} _ _.

Inductive effect (A C R F : Type) : Type :=
| Send (to : A) (m : message C)
| Callback (callback : F) (result : option R) (error : FAIL_REASON).
Arguments Send {A C R F} _ _.
Arguments Callback {A C R F} _ _ _.

(** The second component of a queued command: [None], a function, or the tuple
    of a command another node forwarded. *)
Inductive origin (A F : Type) : Type :=
| NoCallback
| Local (callback : F)
| Remote (requestNode : A) (requestID : Z).
Arguments NoCallback {A F}.
Arguments Local {A F} _.
Arguments Remote {A F} _ _.

(** What a method reads from its environment.  [time.time()] is [now] in one
    call of a method; [rounds] is how many rounds of the sending loop fit into
    [appendEntriesPeriod]. *)
Record env (A : Type) : Type := MkEnv {
  now : Q;
  random : Q;
  connected : A -> bool;
  rounds : nat;
  waitpid_error : bool;
  fork_pid : Z;
  open_ok : bool;
  read_ok : bool;
  write_ok : bool;
  rename_ok : bool;
}.
Arguments MkEnv {A} _ _ _ _ _ _ _ _ _ _.
Arguments now {A} _.
Arguments random {A} _.
Arguments connected {A} _ _.
Arguments rounds {A} _.
Arguments waitpid_error {A} _.
Arguments fork_pid {A} _.
Arguments open_ok {A} _.
Arguments read_ok {A} _.
Arguments write_ok {A} _.
Arguments rename_ok {A} _.

(** [__doApplyCommand] on the replicated object. *)
Class Machine (C R X : Type) : Type := doApply : C -> X -> X * R.
#[global] Arguments doApply {C R X _} c x : simpl never.

Definition q_ltb (x y : Q) : bool := negb (Qle_bool y x).

(** The dump of [__tryLogCompaction]: the object and the last two applied entries. *)
Definition dump (C X : Type) : Type := X * entry C * entry C.

Section syncobj.
Context {A C R X F : Type} `{Countable A} `{Machine C R X} `{Codec (dump C X)}.
Context (conf : SyncObjConf).

Record t : Type := MkSyncObj {
  selfNodeAddr : A;
  nodes : list A;
  raftState : RAFT_STATE;
  raftCurrentTerm : Z;
  votesCount : Z;
  raftLeader : option A;
  raftElectionDeadline : Q;
  raftLog : list (entry C);
  raftCommitIndex : Z;
  raftLastApplied : Z;
  raftNextIndex : gmap A Z;
  raftMatchIndex : gmap A Z;
  lastSerializedTime : Q;
  forceLogCompaction : bool;
  serializer : Serializer.t A (dump C X);
  needLoadDumpFile : bool;
  commandsQueue : list (C * origin A F);
  newAppendEntriesTime : Q;
  commandsWaitingCommit : gmap Z (list (Z * F));
  commandsLocalCounter : Z;
  commandsWaitingReply : gmap Z F;
  object : X;
}.

(** Assignments to an attribute. *)
Definition set_raftState (x : RAFT_STATE) (s : t) : t :=
  MkSyncObj (selfNodeAddr s) (nodes s) x (raftCurrentTerm s) (votesCount s) (raftLeader s)
    (raftElectionDeadline s) (raftLog s) (raftCommitIndex s) (raftLastApplied s) (raftNextIndex s)
    (raftMatchIndex s) (lastSerializedTime s) (forceLogCompaction s) (serializer s)
    (needLoadDumpFile s) (commandsQueue s) (newAppendEntriesTime s) (commandsWaitingCommit s)
    (commandsLocalCounter s) (commandsWaitingReply s) (object s).
Definition set_raftCurrentTerm (x : Z) (s : t) : t :=
  MkSyncObj (selfNodeAddr s) (nodes s) (raftState s) x (votesCount s) (raftLeader s)
    (raftElectionDeadline s) (raftLog s) (raftCommitIndex s) (raftLastApplied s) (raftNextIndex s)
    (raftMatchIndex s) (lastSerializedTime s) (forceLogCompaction s) (serializer s)
    (needLoadDumpFile s) (commandsQueue s) (newAppendEntriesTime s) (commandsWaitingCommit s)
    (commandsLocalCounter s) (commandsWaitingReply s) (object s).
Definition set_votesCount (x : Z) (s : t) : t :=
  MkSyncObj (selfNodeAddr s) (nodes s) (raftState s) (raftCurrentTerm s) x (raftLeader s)
    (raftElectionDeadline s) (raftLog s) (raftCommitIndex s) (raftLastApplied s) (raftNextIndex s)
    (raftMatchIndex s) (lastSerializedTime s) (forceLogCompaction s) (serializer s)
    (needLoadDumpFile s) (commandsQueue s) (newAppendEntriesTime s) (commandsWaitingCommit s)
    (commandsLocalCounter s) (commandsWaitingReply s) (object s).
Definition set_raftLeader (x : option A) (s : t) : t :=
  MkSyncObj (selfNodeAddr s) (nodes s) (raftState s) (raftCurrentTerm s) (votesCount s) x
    (raftElectionDeadline s) (raftLog s) (raftCommitIndex s) (raftLastApplied s) (raftNextIndex s)
    (raftMatchIndex s) (lastSerializedTime s) (forceLogCompaction s) (serializer s)
    (needLoadDumpFile s) (commandsQueue s) (newAppendEntriesTime s) (commandsWaitingCommit s)
    (commandsLocalCounter s) (commandsWaitingReply s) (object s).
Definition set_raftElectionDeadline (x : Q) (s : t) : t :=
  MkSyncObj (selfNodeAddr s) (nodes s) (raftState s) (raftCurrentTerm s) (votesCount s)
  (raftLeader s) x (raftLog s) (raftCommitIndex s) (raftLastApplied s) (raftNextIndex s)
    (raftMatchIndex s) (lastSerializedTime s) (forceLogCompaction s) (serializer s)
    (needLoadDumpFile s) (commandsQueue s) (newAppendEntriesTime s) (commandsWaitingCommit s)
    (commandsLocalCounter s) (commandsWaitingReply s) (object s).
Definition set_raftLog (x : list (entry C)) (s : t) : t :=
  MkSyncObj (selfNodeAddr s) (nodes s) (raftState s) (raftCurrentTerm s) (votesCount s)
  (raftLeader s) (raftElectionDeadline s) x (raftCommitIndex s) (raftLastApplied s)
  (raftNextIndex s) (raftMatchIndex s) (lastSerializedTime s) (forceLogCompaction s) (serializer
  s) (needLoadDumpFile s) (commandsQueue s) (newAppendEntriesTime s) (commandsWaitingCommit s)
    (commandsLocalCounter s) (commandsWaitingReply s) (object s).
Definition set_raftCommitIndex (x : Z) (s : t) : t :=
  MkSyncObj (selfNodeAddr s) (nodes s) (raftState s) (raftCurrentTerm s) (votesCount s)
  (raftLeader s) (raftElectionDeadline s) (raftLog s) x (raftLastApplied s) (raftNextIndex s)
    (raftMatchIndex s) (lastSerializedTime s) (forceLogCompaction s) (serializer s)
    (needLoadDumpFile s) (commandsQueue s) (newAppendEntriesTime s) (commandsWaitingCommit s)
    (commandsLocalCounter s) (commandsWaitingReply s) (object s).
Definition set_raftLastApplied (x : Z) (s : t) : t :=
  MkSyncObj (selfNodeAddr s) (nodes s) (raftState s) (raftCurrentTerm s) (votesCount s)
  (raftLeader s) (raftElectionDeadline s) (raftLog s) (raftCommitIndex s) x (raftNextIndex s)
    (raftMatchIndex s) (lastSerializedTime s) (forceLogCompaction s) (serializer s)
    (needLoadDumpFile s) (commandsQueue s) (newAppendEntriesTime s) (commandsWaitingCommit s)
    (commandsLocalCounter s) (commandsWaitingReply s) (object s).
Definition set_raftNextIndex (x : gmap A Z) (s : t) : t :=
  MkSyncObj (selfNodeAddr s) (nodes s) (raftState s) (raftCurrentTerm s) (votesCount s)
  (raftLeader s) (raftElectionDeadline s) (raftLog s) (raftCommitIndex s) (raftLastApplied s) x
    (raftMatchIndex s) (lastSerializedTime s) (forceLogCompaction s) (serializer s)
    (needLoadDumpFile s) (commandsQueue s) (newAppendEntriesTime s) (commandsWaitingCommit s)
    (commandsLocalCounter s) (commandsWaitingReply s) (object s).
Definition set_raftMatchIndex (x : gmap A Z) (s : t) : t :=
  MkSyncObj (selfNodeAddr s) (nodes s) (raftState s) (raftCurrentTerm s) (votesCount s)
  (raftLeader s) (raftElectionDeadline s) (raftLog s) (raftCommitIndex s) (raftLastApplied s)
  (raftNextIndex s) x (lastSerializedTime s) (forceLogCompaction s) (serializer s)
    (needLoadDumpFile s) (commandsQueue s) (newAppendEntriesTime s) (commandsWaitingCommit s)
    (commandsLocalCounter s) (commandsWaitingReply s) (object s).
Definition set_lastSerializedTime (x : Q) (s : t) : t :=
  MkSyncObj (selfNodeAddr s) (nodes s) (raftState s) (raftCurrentTerm s) (votesCount s)
  (raftLeader s) (raftElectionDeadline s) (raftLog s) (raftCommitIndex s) (raftLastApplied s)
  (raftNextIndex s) (raftMatchIndex s) x (forceLogCompaction s) (serializer s) (needLoadDumpFile
  s) (commandsQueue s) (newAppendEntriesTime s) (commandsWaitingCommit s) (commandsLocalCounter
  s) (commandsWaitingReply s) (object s).
Definition set_forceLogCompaction (x : bool) (s : t) : t :=
  MkSyncObj (selfNodeAddr s) (nodes s) (raftState s) (raftCurrentTerm s) (votesCount s)
  (raftLeader s) (raftElectionDeadline s) (raftLog s) (raftCommitIndex s) (raftLastApplied s)
  (raftNextIndex s) (raftMatchIndex s) (lastSerializedTime s) x (serializer s) (needLoadDumpFile
  s) (commandsQueue s) (newAppendEntriesTime s) (commandsWaitingCommit s) (commandsLocalCounter
  s) (commandsWaitingReply s) (object s).
Definition set_serializer (x : Serializer.t A (dump C X)) (s : t) : t :=
  MkSyncObj (selfNodeAddr s) (nodes s) (raftState s) (raftCurrentTerm s) (votesCount s)
  (raftLeader s) (raftElectionDeadline s) (raftLog s) (raftCommitIndex s) (raftLastApplied s)
  (raftNextIndex s) (raftMatchIndex s) (lastSerializedTime s) (forceLogCompaction s) x
    (needLoadDumpFile s) (commandsQueue s) (newAppendEntriesTime s) (commandsWaitingCommit s)
    (commandsLocalCounter s) (commandsWaitingReply s) (object s).
Definition set_needLoadDumpFile (x : bool) (s : t) : t :=
  MkSyncObj (selfNodeAddr s) (nodes s) (raftState s) (raftCurrentTerm s) (votesCount s)
  (raftLeader s) (raftElectionDeadline s) (raftLog s) (raftCommitIndex s) (raftLastApplied s)
  (raftNextIndex s) (raftMatchIndex s) (lastSerializedTime s) (forceLogCompaction s) (serializer
  s) x (commandsQueue s) (newAppendEntriesTime s) (commandsWaitingCommit s)
    (commandsLocalCounter s) (commandsWaitingReply s) (object s).
Definition set_commandsQueue (x : list (C * origin A F)) (s : t) : t :=
  MkSyncObj (selfNodeAddr s) (nodes s) (raftState s) (raftCurrentTerm s) (votesCount s)
  (raftLeader s) (raftElectionDeadline s) (raftLog s) (raftCommitIndex s) (raftLastApplied s)
  (raftNextIndex s) (raftMatchIndex s) (lastSerializedTime s) (forceLogCompaction s) (serializer
  s) (needLoadDumpFile s) x (newAppendEntriesTime s) (commandsWaitingCommit s)
    (commandsLocalCounter s) (commandsWaitingReply s) (object s).
Definition set_newAppendEntriesTime (x : Q) (s : t) : t :=
  MkSyncObj (selfNodeAddr s) (nodes s) (raftState s) (raftCurrentTerm s) (votesCount s)
  (raftLeader s) (raftElectionDeadline s) (raftLog s) (raftCommitIndex s) (raftLastApplied s)
  (raftNextIndex s) (raftMatchIndex s) (lastSerializedTime s) (forceLogCompaction s) (serializer
  s) (needLoadDumpFile s) (commandsQueue s) x (commandsWaitingCommit s) (commandsLocalCounter s)
  (commandsWaitingReply s) (object s).
Definition set_commandsWaitingCommit (x : gmap Z (list (Z * F))) (s : t) : t :=
  MkSyncObj (selfNodeAddr s) (nodes s) (raftState s) (raftCurrentTerm s) (votesCount s)
  (raftLeader s) (raftElectionDeadline s) (raftLog s) (raftCommitIndex s) (raftLastApplied s)
  (raftNextIndex s) (raftMatchIndex s) (lastSerializedTime s) (forceLogCompaction s) (serializer
  s) (needLoadDumpFile s) (commandsQueue s) (newAppendEntriesTime s) x (commandsLocalCounter s)
  (commandsWaitingReply s) (object s).
Definition set_commandsLocalCounter (x : Z) (s : t) : t :=
  MkSyncObj (selfNodeAddr s) (nodes s) (raftState s) (raftCurrentTerm s) (votesCount s)
  (raftLeader s) (raftElectionDeadline s) (raftLog s) (raftCommitIndex s) (raftLastApplied s)
  (raftNextIndex s) (raftMatchIndex s) (lastSerializedTime s) (forceLogCompaction s) (serializer
  s) (needLoadDumpFile s) (commandsQueue s) (newAppendEntriesTime s) (commandsWaitingCommit s) x
  (commandsWaitingReply s) (object s).
Definition set_commandsWaitingReply (x : gmap Z F) (s : t) : t :=
  MkSyncObj (selfNodeAddr s) (nodes s) (raftState s) (raftCurrentTerm s) (votesCount s)
  (raftLeader s) (raftElectionDeadline s) (raftLog s) (raftCommitIndex s) (raftLastApplied s)
  (raftNextIndex s) (raftMatchIndex s) (lastSerializedTime s) (forceLogCompaction s) (serializer
  s) (needLoadDumpFile s) (commandsQueue s) (newAppendEntriesTime s) (commandsWaitingCommit s)
    (commandsLocalCounter s) x (object s).
Definition set_object (x : X) (s : t) : t :=
  MkSyncObj (selfNodeAddr s) (nodes s) (raftState s) (raftCurrentTerm s) (votesCount s)
  (raftLeader s) (raftElectionDeadline s) (raftLog s) (raftCommitIndex s) (raftLastApplied s)
  (raftNextIndex s) (raftMatchIndex s) (lastSerializedTime s) (forceLogCompaction s) (serializer
  s) (needLoadDumpFile s) (commandsQueue s) (newAppendEntriesTime s) (commandsWaitingCommit s)
    (commandsLocalCounter s) (commandsWaitingReply s) x.

Abbreviation M := (PyM t (effect A C R F)).

Definition send (to : A) (m : message C) : M unit := py_emit [Send to m].

(** [__send]: only to an address of the configuration. *)
Definition send_to (nodeAddr : A) (m : message C) : M unit :=
  let! ns := py_get nodes in
  if decide (nodeAddr ∈ ns) then send nodeAddr m else py_return tt.

(** [for x in l: body(x)] *)
Fixpoint for_each {B} (l : list B) (body : B -> M unit) : M unit :=
  match l with
  | [] => py_return tt
  | x :: l => body x ;;! for_each l body
  end.

Definition generateRaftTimeout (e : env A) : Q :=
  raftMinTimeout conf + (raftMaxTimeout conf - raftMinTimeout conf) * random e.

Definition init (selfNodeAddr : A) (otherNodesAddrs : list A) (object : X)
    (file : option bytes) (e : env A) : t :=
  {| selfNodeAddr := selfNodeAddr; nodes := otherNodesAddrs;
     raftState := FOLLOWER; raftCurrentTerm := 0; votesCount := 0; raftLeader := None;
     raftElectionDeadline := now e + generateRaftTimeout e;
     raftLog := [MkEntry None 1 0]; raftCommitIndex := 1; raftLastApplied := 1;
     (* __initInTickThread *)
     raftNextIndex := list_to_map ((fun a => (a, 0)) <$> otherNodesAddrs);
     raftMatchIndex := list_to_map ((fun a => (a, 0)) <$> otherNodesAddrs);
     lastSerializedTime := now e; forceLogCompaction := false;
     serializer := Serializer.init (fullDumpFile conf) (logCompactionBatchSize conf) file;
     needLoadDumpFile := true;
     commandsQueue := []; newAppendEntriesTime := 0;
     commandsWaitingCommit := ∅; commandsLocalCounter := 0; commandsWaitingReply := ∅;
     object := object |}.

(** ** The log *)

(** [self.__raftLog[-1]] and [self.__raftLog[0]] *)
Definition last_entry (log : list (entry C)) : outcome (entry C) :=
  match py_item log (-1) with Some e => Ret e | None => Raise IndexError end.
Definition first_entry (log : list (entry C)) : outcome (entry C) :=
  match py_item log 0 with Some e => Ret e | None => Raise IndexError end.

(** Lift a function of the log. *)
Definition on_log {B} (f : list (entry C) -> outcome B) : M B :=
  py_call (fun s => (s, f (raftLog s))).

Definition outcome_map {B D} (f : B -> D) (x : outcome B) : outcome D :=
  match x with Ret a => Ret (f a) | Raise e => Raise e end.

Definition current_index (log : list (entry C)) : outcome Z := outcome_map logID (last_entry log).
Definition current_term (log : list (entry C)) : outcome Z := outcome_map term (last_entry log).
Definition getCurrentLogIndex : M Z := on_log current_index.
Definition getCurrentLogTerm : M Z := on_log current_term.

(** [None < x] holds for every number, so no entries are found from [None]. *)
Definition entries_from (fromIDx : option Z) (count : option Z) (log : list (entry C))
  : outcome (list (entry C)) :=
  match first_entry log with
  | Raise e => Raise e
  | Ret first =>
      match fromIDx with
      | None => Ret []
      | Some from =>
          if from <? logID first then Ret []
          else
            let diff := from - logID first in
            Ret (match count with
                 | None => py_slice_from log diff
                 | Some count => py_slice log diff (diff + count)
                 end)
      end
  end.
Definition getEntries (fromIDx : option Z) (count : option Z) : M (list (entry C)) :=
  on_log (entries_from fromIDx count).

Definition log_until (fromIDx : Z) (log : list (entry C)) : outcome (list (entry C)) :=
  outcome_map (fun first =>
    let diff := fromIDx - logID first in
    if diff <? 0 then log else py_slice_to log diff) (first_entry log).
Definition deleteEntriesFrom (fromIDx : Z) : M unit :=
  let! log := on_log (log_until fromIDx) in py_set (set_raftLog log).

Definition log_since (toIDx : Z) (log : list (entry C)) : outcome (list (entry C)) :=
  outcome_map (fun first =>
    let diff := toIDx - logID first in
    if diff <? 0 then log else py_slice_from log diff) (first_entry log).
Definition deleteEntriesTo (toIDx : Z) : M unit :=
  let! log := on_log (log_since toIDx) in py_set (set_raftLog log).

Definition getPrevLogIndexTerm (nextNodeIndex : Z) : M (option Z * option Z) :=
  let! entries := getEntries (Some (nextNodeIndex - 1)) (Some 1) in
  match entries with
  | e :: _ => py_return (Some (nextNodeIndex - 1), Some (term e))
  | [] => py_return (None, None)
  end.

(** ** Commands *)

(** [__onLeaderChanged]: the callbacks in the order of their request ids. *)
Definition replies_in_order (m : gmap Z F) : list F :=
  omap (fun id => m !! id) (merge_sort Z.le (elements (dom m))).
Definition onLeaderChanged : M unit :=
  let! waiting := py_get commandsWaitingReply in
  for_each (replies_in_order waiting) (fun cb => py_emit [Callback cb None LEADER_CHANGED]) ;;!
  py_set (set_commandsWaitingReply ∅).

(** [Queue.put_nowait]: a queue of size 0 or less is unbounded. *)
Definition queue_full (q : list (C * origin A F)) : bool :=
  (0 <? commandsQueueSize conf) && (commandsQueueSize conf <=? py_len q).

(** [callback(None, error)]: neither [None] nor a tuple can be called. *)
Definition call_back (cb : origin A F) (error : FAIL_REASON) : M unit :=
  match cb with
  | Local f => py_emit [Callback f None error]
  | NoCallback | Remote _ _ => py_raise TypeError
  end.

Definition applyCommand (c : C) (callback : origin A F) : M unit :=
  let! q := py_get commandsQueue in
  if queue_full q then call_back callback QUEUE_FULL
  else py_set (set_commandsQueue (q ++ [(c, callback)])).

(** A [defaultdict(list)] entry extended by one. *)
Definition subscribe_commit (idx : Z) (x : Z * F) : M unit :=
  py_set (fun s => set_commandsWaitingCommit
    (<[idx := default [] (commandsWaitingCommit s !! idx) ++ [x]]> (commandsWaitingCommit s)) s).

(** ** Sending the log *)

(** What one round of the sending loop does for [nodeAddr] with
    [nextNodeIndex]; the result is [sendingSerialized]. *)
Definition send_round (e : env A) (nodeAddr : A) (nextNodeIndex : Z) (sendingSerialized : bool)
  : M bool :=
  let! first := on_log first_entry in
  if logID first <=? nextNodeIndex then
    let! prev := getPrevLogIndexTerm nextNodeIndex in
    let! cur := getCurrentLogIndex in
    let! entries :=
      (if nextNodeIndex <=? cur then
         let! es := getEntries (Some nextNodeIndex) (Some (appendEntriesBatchSize conf)) in
         match last es with
         | None => py_raise IndexError
         | Some l =>
             py_set (fun s => set_raftNextIndex (<[nodeAddr := logID l + 1]> (raftNextIndex s)) s) ;;!
             py_return es
         end
       else py_return []) in
    let! s := py_get id in
    send nodeAddr
      (append_entries (raftCurrentTerm s) (raftCommitIndex s) entries prev.1 prev.2) ;;!
    py_return sendingSerialized
  else
    let! transmissionData := py_call (fun s =>
      let '(z, c) := Serializer.getTransmissionData (open_ok e) (read_ok e) nodeAddr
                       (serializer s) in
      (set_serializer z s, Ret c)) in
    let! s := py_get id in
    send nodeAddr
      (append_serialized (raftCurrentTerm s) (raftCommitIndex s) transmissionData) ;;!
    match transmissionData with
    | Serializer.Chunk _ _ true =>
        let! first := on_log first_entry in
        py_set (fun s => set_raftNextIndex (<[nodeAddr := logID first]> (raftNextIndex s)) s) ;;!
        py_return false
    | Serializer.Chunk _ _ false => py_return true
    | Serializer.NoChunk => py_return false
    | Serializer.ChunkFailed => py_raise TypeError      (* False[2] *)
    end.

(** The [while] loop for one node: [quota] rounds end before the period is over,
    and the round that is running then is the last one. The result is how many
    rounds are quota for the next node. *)
Fixpoint send_rounds (e : env A) (nodeAddr : A) (quota : nat) (sendSingle sendingSerialized : bool)
  : M nat :=
  let! s := py_get id in
  match raftNextIndex s !! nodeAddr with
  | None => py_raise KeyError
  | Some nextNodeIndex =>
      let! cur := getCurrentLogIndex in
      if (nextNodeIndex <=? cur) || sendSingle || sendingSerialized then
        let! sendingSerialized := send_round e nodeAddr nextNodeIndex sendingSerialized in
        match quota with
        | O => py_return O
        | S quota => send_rounds e nodeAddr quota false sendingSerialized
        end
      else py_return quota
  end.

Fixpoint send_nodes (e : env A) (quota : nat) (ns : list A) : M unit :=
  match ns with
  | [] => py_return tt
  | nodeAddr :: ns =>
      if connected e nodeAddr then
        let! quota := send_rounds e nodeAddr quota true false in
        send_nodes e quota ns
      else
        py_set (fun s => set_serializer (Serializer.cancelTransmisstion nodeAddr (serializer s)) s) ;;!
        send_nodes e quota ns
  end.

Definition sendAppendEntries (e : env A) : M unit :=
  py_set (set_newAppendEntriesTime (now e + appendEntriesPeriod conf)) ;;!
  let! ns := py_get nodes in
  send_nodes e (rounds e) ns.

Definition sendNextNodeIdx (nodeAddr : A) (reset : bool) : M unit :=
  let! idx := getCurrentLogIndex in
  send_to nodeAddr (next_node_idx (idx + 1) reset).

Definition onBecomeLeader (e : env A) : M unit :=
  py_set (fun s => set_raftLeader (Some (selfNodeAddr s)) s) ;;!
  py_set (set_raftState LEADER) ;;!
  let! ns := py_get nodes in
  for_each ns (fun nodeAddr =>
    let! idx := getCurrentLogIndex in
    py_set (fun s => set_raftNextIndex (<[nodeAddr := idx + 1]> (raftNextIndex s)) s) ;;!
    py_set (fun s => set_raftMatchIndex (<[nodeAddr := 0]> (raftMatchIndex s)) s)) ;;!
  sendAppendEntries e.

(** ** Commands from the queue *)
Definition process_command (e : env A) (c : C) (callback : origin A F) : M unit :=
  let! s := py_get id in
  match raftState s, raftLeader s with
  | LEADER, _ =>
      let! cur := getCurrentLogIndex in
      let idx := cur + 1 in
      let term := raftCurrentTerm s in
      py_set (fun s => set_raftLog (raftLog s ++ [MkEntry (Some c) idx term]) s) ;;!
      match callback with
      | NoCallback => py_return tt
      | Local f => subscribe_commit idx (term, f)
      | Remote n rid => send_to n (apply_command_response rid idx term)
      end ;;!
      (if appendEntriesUseBatch conf then py_return tt else sendAppendEntries e)
  | _, Some leader =>
      match callback with
      | NoCallback => send_to leader (apply_command c None)
      | Local f =>
          let rid := commandsLocalCounter s + 1 in
          py_set (set_commandsLocalCounter rid) ;;!
          py_set (fun s => set_commandsWaitingReply (<[rid := f]> (commandsWaitingReply s)) s) ;;!
          send_to leader (apply_command c (Some rid))
      | Remote n rid => send_to n (apply_command_error rid NOT_LEADER)
      end
  | _, None =>
      match callback with
      | Remote n rid => send_to n (apply_command_error rid NOT_LEADER)
      | _ => call_back callback MISSING_LEADER
      end
  end.

(** [for i in xrange(maxCommandsPerTick)] *)
Fixpoint checkCommands (e : env A) (i : nat) : M unit :=
  match i with
  | O => py_return tt
  | S i =>
      let! s := py_get id in
      if bool_decide (raftLeader s = None) && commandsWaitLeader conf then py_return tt
      else match commandsQueue s with
           | [] => py_return tt
           | (c, callback) :: q =>
               py_set (set_commandsQueue q) ;;!
               process_command e c callback ;;!
               checkCommands e i
           end
  end.
Definition checkCommandsToApply (e : env A) : M unit :=
  checkCommands e (Z.to_nat (maxCommandsPerTick conf)).

(** ** Snapshots *)

(** [__loadDumpFile]: any exception is logged; the attributes are assigned in
    this order, so nothing is assigned when [deserialize] raises. *)
Definition loadDumpFile : M unit :=
  let! s := py_get id in
  match Serializer.deserialize (serializer s) with
  | Raise _ => py_return tt
  | Ret (x, e1, e0) =>
      py_set (set_object x) ;;!
      py_set (set_raftLog [e0; e1]) ;;!
      py_set (set_raftLastApplied (logID e1))
  end.

(** Lines 598-600: the dump is complete, the log is cut. *)
Definition compaction_done (e : env A) (st : Serializer.SERIALIZER_STATE * option Z) : M unit :=
  match st with
  | (Serializer.SUCCESS, Some serializeID) =>
      py_set (set_lastSerializedTime (now e)) ;;! deleteEntriesTo serializeID
  | _ => py_return tt
  end.

(** Lines 608-611. *)
Definition too_early (e : env A) (s : t) : bool :=
  (py_len (raftLog s) <=? logCompactionMinEntries conf) &&
  Qle_bool (now e - lastSerializedTime s) (logCompactionMinTime conf) &&
  negb (forceLogCompaction s).

(** Lines 605-620: a dump of the object with the last two applied entries. *)
Definition compaction_starts (e : env A) (st : Serializer.SERIALIZER_STATE) : M unit :=
  match st with
  | Serializer.NOT_SERIALIZING =>
      let! s := py_get id in
      if too_early e s then py_return tt
      else
        py_set (set_forceLogCompaction false) ;;!
        let! lastAppliedEntries := getEntries (Some (raftLastApplied s - 1)) (Some 2) in
        match lastAppliedEntries with
        | [] => py_return tt
        | e0 :: e1 :: _ =>
            py_set (fun s => set_serializer
              (Serializer.serialize (fork_pid e) (object s, e1, e0) (logID e1) (serializer s)) s)
        | [_] => py_raise IndexError
        end
  | _ => py_return tt
  end.

Definition tryLogCompaction (e : env A) : M unit :=
  let! st := py_call (fun s =>
    let '(z, st) := Serializer.checkSerializing (waitpid_error e) (serializer s) in
    (set_serializer z s, Ret st)) in
  compaction_done e st ;;!
  compaction_starts e st.1.

(** ** _onTick *)

(** Lines 194-208: an expired election deadline. *)
Definition tick_election (e : env A) : M unit :=
  let! s := py_get id in
  if bool_decide (raftState s <> LEADER) && q_ltb (raftElectionDeadline s) (now e) then
    py_set (set_raftElectionDeadline (now e + generateRaftTimeout e)) ;;!
    py_set (set_raftLeader None) ;;!
    py_set (set_raftState CANDIDATE) ;;!
    py_set (set_raftCurrentTerm (raftCurrentTerm s + 1)) ;;!
    py_set (set_votesCount 1) ;;!
    for_each (nodes s) (fun n =>
      let! idx := getCurrentLogIndex in
      let! trm := getCurrentLogTerm in
      send n (request_vote (raftCurrentTerm s + 1) idx trm)) ;;!
    onLeaderChanged
  else py_return tt.

(** Lines 213-217: who stores the entry [i], the leader included. *)
Definition replicas (i : Z) (s : t) : outcome Z :=
  foldl (fun acc n =>
    match acc with
    | Raise e => Raise e
    | Ret count =>
        match raftMatchIndex s !! n with
        | None => Raise KeyError
        | Some m => Ret (if i <=? m then count + 1 else count)
        end
    end) (Ret 1) (nodes s).

(** [(len(self.__nodes) + 1) / 2] *)
Definition half (s : t) : Z := (py_len (nodes s) + 1) / 2.

(** Lines 211-220. Every round raises the commit index: [current - commit]
    rounds are enough. *)
Fixpoint commit_loop (fuel : nat) : M unit :=
  match fuel with
  | O => py_return tt
  | S fuel =>
      let! s := py_get id in
      let! cur := getCurrentLogIndex in
      if raftCommitIndex s <? cur then
        let! count := py_call (fun s => (s, replicas (raftCommitIndex s + 1) s)) in
        if half s <? count then
          py_set (set_raftCommitIndex (raftCommitIndex s + 1)) ;;!
          commit_loop fuel
        else py_return tt
      else py_return tt
  end.

Definition tick_leader (e : env A) : M unit :=
  let! s := py_get id in
  match raftState s with
  | LEADER =>
      let! cur := getCurrentLogIndex in
      commit_loop (Z.to_nat (cur - raftCommitIndex s)) ;;!
      let! s := py_get id in
      if q_ltb (newAppendEntriesTime s) (now e) then sendAppendEntries e else py_return tt
  | _ => py_return tt
  end.

(** [self.__doApplyCommand(entry[0])]: there is no method [None]. *)
Definition doApplyCommand (c : option C) : M R :=
  match c with
  | None => py_raise KeyError
  | Some c => py_call (fun s => let '(x, r) := doApply c (object s) in (set_object x s, Ret r))
  end.

(** Lines 228-238 for one entry. *)
Definition apply_entry (en : entry C) : M unit :=
  let! subscribers := py_get (fun s => default [] (commandsWaitingCommit s !! logID en)) in
  py_set (fun s => set_commandsWaitingCommit (delete (logID en) (commandsWaitingCommit s)) s) ;;!
  let! res := doApplyCommand (command en) in
  for_each subscribers (fun x =>
    py_emit [if x.1 =? term en then Callback x.2 (Some res) SUCCESS
             else Callback x.2 None DISCARDED]) ;;!
  py_set (fun s => set_raftLastApplied (raftLastApplied s + 1) s).

Definition tick_apply : M unit :=
  let! s := py_get id in
  if raftLastApplied s <? raftCommitIndex s then
    let! entries := getEntries (Some (raftLastApplied s + 1))
                      (Some (raftCommitIndex s - raftLastApplied s)) in
    for_each entries apply_entry
  else py_return tt.

(** [_onTick] of an initialised object, up to the connections and the poll. *)
Definition onTick (e : env A) : M unit :=
  let! s := py_get id in
  (if needLoadDumpFile s then
     (if bool_decide (fullDumpFile conf <> None) &&
         bool_decide (Serializer.file (serializer s) <> None)
      then loadDumpFile else py_return tt) ;;!
     py_set (set_needLoadDumpFile false)
   else py_return tt) ;;!
  tick_election e ;;!
  tick_leader e ;;!
  tick_apply ;;!
  checkCommandsToApply e ;;!
  tryLogCompaction e.

(** ** _onMessageReceived *)

(** Lines 283-303. *)
Definition on_request_vote (e : env A) (nodeAddr : A) (trm lastLogIdx lastLogTerm : Z) : M unit :=
  let! s := py_get id in
  (if raftCurrentTerm s <? trm then
     py_set (set_raftCurrentTerm trm) ;;! py_set (set_raftState FOLLOWER)
   else py_return tt) ;;!
  let! s := py_get id in
  if bool_decide (raftState s <> LEADER) && (raftCurrentTerm s <=? trm) then
    let! curTerm := getCurrentLogTerm in
    let! curIdx := getCurrentLogIndex in
    if (lastLogTerm <? curTerm) || ((lastLogTerm =? curTerm) && (lastLogIdx <? curIdx))
    then py_return tt
    else
      py_set (set_raftElectionDeadline (now e + generateRaftTimeout e)) ;;!
      send_to nodeAddr (response_vote trm)
  else py_return tt.

(** Lines 306-311: the sender is the leader of its term. *)
Definition accept_leader (e : env A) (nodeAddr : A) (trm : Z) : M unit :=
  py_set (set_raftElectionDeadline (now e + generateRaftTimeout e)) ;;!
  let! leader := py_get raftLeader in
  (if decide (leader = Some nodeAddr) then py_return tt else onLeaderChanged) ;;!
  py_set (set_raftLeader (Some nodeAddr)) ;;!
  py_set (set_raftCurrentTerm trm) ;;!
  py_set (set_raftState FOLLOWER).

(** Lines 318-330; [false] when the method returns early. *)
Definition store_entries (nodeAddr : A) (newEntries : list (entry C))
    (prevLogIdx prevLogTerm : option Z) : M bool :=
  let! prevEntries := getEntries prevLogIdx None in
  match prevEntries, prevLogIdx with
  | [], _ | _, None => sendNextNodeIdx nodeAddr true ;;! py_return false
  | p :: ps, Some prev =>
      if bool_decide (Some (term p) = prevLogTerm) then
        match ps with
        | [] => py_return tt
        | _ :: _ => deleteEntriesFrom (prev + 1)
        end ;;!
        py_set (fun s => set_raftLog (raftLog s ++ newEntries) s) ;;!
        py_return true
      else
        deleteEntriesFrom prev ;;!
        sendNextNodeIdx nodeAddr true ;;!
        py_return false
  end.

(** Line 339. *)
Definition follow_commit (leaderCommitIndex : Z) : M unit :=
  let! cur := getCurrentLogIndex in
  py_set (set_raftCommitIndex (Z.min leaderCommitIndex cur)).

Definition on_append_entries (e : env A) (nodeAddr : A) (trm leaderCommitIndex : Z)
    (newEntries : list (entry C)) (prevLogIdx prevLogTerm : option Z) : M unit :=
  let! cur := py_get raftCurrentTerm in
  if cur <=? trm then
    accept_leader e nodeAddr trm ;;!
    let! stored := store_entries nodeAddr newEntries prevLogIdx prevLogTerm in
    if (stored : bool) then
      sendNextNodeIdx nodeAddr false ;;! follow_commit leaderCommitIndex
    else py_return tt
  else py_return tt.

(** [serialized is None] takes the branch of regular entries, whose
    ['prevLogIdx'] this message lacks; [False] cannot be unpacked. *)
Definition on_append_serialized (e : env A) (nodeAddr : A) (trm leaderCommitIndex : Z)
    (serialized : Serializer.chunk) : M unit :=
  let! cur := py_get raftCurrentTerm in
  if cur <=? trm then
    accept_leader e nodeAddr trm ;;!
    match serialized with
    | Serializer.NoChunk => py_raise KeyError
    | Serializer.ChunkFailed => py_raise TypeError
    | Serializer.Chunk data isFirst isLast =>
        let! done := py_call (fun s =>
          let '(z, b) := Serializer.setTransmissionData (open_ok e) (write_ok e) (rename_ok e)
                           (Some (data, isFirst, isLast)) (serializer s) in
          (set_serializer z s, Ret b)) in
        (if (done : bool) then loadDumpFile else py_return tt) ;;!
        sendNextNodeIdx nodeAddr false ;;!
        follow_commit leaderCommitIndex
    end
  else py_return tt.

Definition pop_reply (requestID : Z) : M (option F) :=
  let! cb := py_get (fun s => commandsWaitingReply s !! requestID) in
  py_set (fun s => set_commandsWaitingReply (delete requestID (commandsWaitingReply s)) s) ;;!
  py_return cb.

Definition onMessageReceived (e : env A) (nodeAddr : A) (m : message C) : M unit :=
  match m with
  | request_vote trm lastLogIdx lastLogTerm => on_request_vote e nodeAddr trm lastLogIdx lastLogTerm
  | append_entries trm commit es prevIdx prevTerm =>
      on_append_entries e nodeAddr trm commit es prevIdx prevTerm
  | append_serialized trm commit serialized =>
      on_append_serialized e nodeAddr trm commit serialized
  | apply_command c (Some requestID) => applyCommand c (Remote nodeAddr requestID)
  | apply_command c None => applyCommand c NoCallback
  | apply_command_error requestID error =>
      let! callback := pop_reply requestID in
      match callback with
      | Some f => py_emit [Callback f None error]
      | None => py_return tt
      end
  | apply_command_response requestID idx trm =>
      let! callback := pop_reply requestID in
      match callback with
      | Some f =>
          let! applied := py_get raftLastApplied in
          if applied <? idx then subscribe_commit idx (trm, f) else py_raise AssertionError
      | None => py_return tt
      end
  | response_vote trm =>
      let! s := py_get id in
      if bool_decide (raftState s = CANDIDATE) && (trm =? raftCurrentTerm s) then
        py_set (set_votesCount (votesCount s + 1)) ;;!
        if half s <? votesCount s + 1 then onBecomeLeader e else py_return tt
      else py_return tt
  | next_node_idx nextNodeIdx reset =>
      let! s := py_get id in
      match raftState s with
      | LEADER =>
          (if (reset : bool) then
             py_set (fun s => set_raftNextIndex (<[nodeAddr := nextNodeIdx]> (raftNextIndex s)) s)
           else py_return tt) ;;!
          py_set (fun s => set_raftMatchIndex (<[nodeAddr := nextNodeIdx - 1]> (raftMatchIndex s)) s)
      | _ => py_return tt
      end
  end.

(** [_forceLogCompaction] *)
Definition force_log_compaction : M unit := py_set (set_forceLogCompaction true).

End syncobj.
Arguments t A C X F {_ _}.
