(* ===== verification/SyncObjLog.v ===== *)
(** * The Raft log of PySyncObj

    A log is numbered without gaps; the slices that syncobj.py computes from
    index differences are then the entries with the wanted indices. *)
From stdpp Require Import base gmap sets list.
From Stdlib Require Import ZArith QArith Lia.
From S2P Require Import Prelude PyList Serializer SyncObj.
Local Open Scope Z_scope.

Section log.
Context {C : Type}.
Implicit Types log es : list (entry C).
Implicit Types e : entry C.

(** Entries [n], [n+1], ... *)
Fixpoint numbered (n : Z) log : Prop :=
  match log with
  | [] => True
  | e :: log => logID e = n /\ numbered (n + 1) log
  end.

(** A log that is never empty and has no gaps. *)
Definition log_ok log : Prop :=
  match log with [] => False | e :: _ => numbered (logID e) log end.

(** The index of the first entry, and of the last one. *)
Definition first_index log : Z := match log with [] => 0 | e :: _ => logID e end.
Definition last_index log : Z := first_index log + py_len log - 1.

Lemma numbered_app n log es :
  numbered n (log ++ es) <-> numbered n log /\ numbered (n + py_len log) es.
Proof.
  revert n. induction log as [|e log IH]; intros n; simpl.
  { unfold py_len; simpl. rewrite Z.add_0_r. tauto. }
  rewrite IH. replace (n + py_len (e :: log)) with (n + 1 + py_len log)
    by (unfold py_len; simpl; lia). tauto.
Qed.

Lemma numbered_take n log k : numbered n log -> numbered n (take k log).
Proof. rewrite <-(take_drop k log) at 1. rewrite numbered_app. by intros []. Qed.

Lemma numbered_drop n log k :
  numbered n log -> numbered (n + Z.of_nat k) (drop k log) \/ drop k log = [].
Proof.
  intros Hn. destruct (decide (k <= length log)%nat) as [Hk|Hk];
    [left|right; apply drop_ge; lia].
  rewrite <-(take_drop k log) in Hn. apply numbered_app in Hn as [_ Hn].
  replace (Z.of_nat k) with (py_len (take k log)); [done|].
  unfold py_len. rewrite length_take. lia.
Qed.

Lemma numbered_elem n log e : numbered n log -> e ∈ log -> n <= logID e < n + py_len log.
Proof.
  intros Hn He. apply list_elem_of_split in He as (l1 & l2 & ->).
  apply numbered_app in Hn as [_ [He _]]. rewrite py_len_app. unfold py_len in *. simpl. lia.
Qed.

Lemma numbered_lookup n log i e :
  numbered n log -> log !! i = Some e -> logID e = n + Z.of_nat i.
Proof.
  revert n i. induction log as [|e' log IH]; intros n [|i] Hn Hi; simplify_eq/=.
  - destruct Hn as [-> _]. lia.
  - destruct Hn as [_ Hn]. rewrite (IH _ _ Hn Hi). lia.
Qed.

Lemma numbered_last n log e : numbered n log -> last log = Some e -> logID e = n + py_len log - 1.
Proof.
  intros Hn Hl. rewrite last_lookup in Hl. rewrite (numbered_lookup _ _ _ _ Hn Hl).
  unfold py_len. assert (length log <> 0)%nat by (by destruct log). lia.
Qed.

(** The split of a numbered list at an index. *)
Lemma filter_all (P : entry C -> Prop) `{!forall e, Decision (P e)} es :
  (forall e, e ∈ es -> P e) -> filter P es = es.
Proof.
  induction es as [|e es IH]; intros Hall; [done|].
  rewrite filter_cons_True by (apply Hall; by left). f_equal. apply IH. intros x Hx.
  apply Hall. by right.
Qed.

Lemma filter_none (P : entry C -> Prop) `{!forall e, Decision (P e)} es :
  (forall e, e ∈ es -> ~ P e) -> filter P es = [].
Proof.
  induction es as [|e es IH]; intros Hnone; [done|].
  rewrite filter_cons_False by (apply Hnone; by left). apply IH. intros x Hx.
  apply Hnone. by right.
Qed.

Lemma filter_below n log k : numbered n log ->
  filter (fun e => logID e < n + Z.of_nat k) log = take k log.
Proof.
  intros Hn. rewrite <-(take_drop k log) at 1. rewrite filter_app.
  rewrite filter_all, filter_none; [apply app_nil_r|..].
  - intros e He. destruct (numbered_drop n log k Hn) as [Hd|Hd].
    + pose proof (numbered_elem _ _ _ Hd He). lia.
    + rewrite Hd in He. by apply elem_of_nil in He.
  - intros e He. pose proof (numbered_elem _ _ _ (numbered_take _ _ k Hn) He) as Hb.
    unfold py_len in Hb. rewrite length_take in Hb. lia.
Qed.

Lemma filter_from n log k : numbered n log ->
  filter (fun e => n + Z.of_nat k <= logID e) log = drop k log.
Proof.
  intros Hn. rewrite <-(take_drop k log) at 1. rewrite filter_app.
  rewrite filter_none, filter_all; [done|..].
  - intros e He. destruct (numbered_drop n log k Hn) as [Hd|Hd].
    + pose proof (numbered_elem _ _ _ Hd He). lia.
    + rewrite Hd in He. by apply elem_of_nil in He.
  - intros e He. pose proof (numbered_elem _ _ _ (numbered_take _ _ k Hn) He) as Hb.
    unfold py_len in Hb. rewrite length_take in Hb. lia.
Qed.

(** ** The ends of the log *)
Lemma log_ok_numbered log : log_ok log -> numbered (first_index log) log.
Proof. by destruct log. Qed.

Lemma first_entry_ok log : log_ok log -> exists e, first_entry log = Ret e /\ logID e = first_index log.
Proof. destruct log as [|e log]; [done|]. intros _. by exists e. Qed.

Lemma last_entry_ok log : log_ok log -> exists e,
  last_entry log = Ret e /\ last log = Some e /\ logID e = last_index log.
Proof.
  intros Hok. unfold last_entry. rewrite py_item_last.
  destruct (last log) as [e|] eqn:El.
  - exists e. split_and!; [done..|]. apply numbered_last with (n := first_index log) in El;
      [done|by apply log_ok_numbered].
  - apply last_None in El. by subst.
Qed.

Lemma current_index_ok log : log_ok log -> current_index log = Ret (last_index log).
Proof.
  intros Hok. unfold current_index. by destruct (last_entry_ok log Hok) as (e & -> & _ & <-).
Qed.

Lemma log_ok_len log : log_ok log -> 1 <= py_len log.
Proof. destruct log; [done|]. unfold py_len; simpl. lia. Qed.

(** ** The slices *)
Lemma entries_from_ok log f count : log_ok log ->
  entries_from (Some f) count log
    = Ret (if f <? first_index log then []
           else match count with
                | None => drop (Z.to_nat (f - first_index log)) log
                | Some c => if 0 <=? c then take (Z.to_nat c) (drop (Z.to_nat (f - first_index log)) log)
                            else py_slice log (f - first_index log) (f - first_index log + c)
                end).
Proof.
  intros Hok. unfold entries_from. destruct (first_entry_ok log Hok) as (e & -> & He).
  rewrite He. destruct (Z.ltb_spec f (first_index log)); [done|]. f_equal.
  destruct count as [c|]; [|by rewrite py_slice_from_nonneg by lia].
  destruct (Z.leb_spec 0 c); [|done]. by rewrite py_slice_nonneg by lia.
Qed.

Lemma log_until_ok log f : log_ok log ->
  log_until f log
    = Ret (if f <? first_index log then log else take (Z.to_nat (f - first_index log)) log).
Proof.
  intros Hok. unfold log_until. destruct (first_entry_ok log Hok) as (e & -> & He). simpl. rewrite He.
  destruct (Z.ltb_spec f (first_index log)), (Z.ltb_spec (f - first_index log) 0); try lia; [done|].
  by rewrite py_slice_to_nonneg by lia.
Qed.

Lemma log_since_ok log f : log_ok log ->
  log_since f log
    = Ret (if f <? first_index log then log else drop (Z.to_nat (f - first_index log)) log).
Proof.
  intros Hok. unfold log_since. destruct (first_entry_ok log Hok) as (e & -> & He). simpl. rewrite He.
  destruct (Z.ltb_spec f (first_index log)), (Z.ltb_spec (f - first_index log) 0); try lia; [done|].
  by rewrite py_slice_from_nonneg by lia.
Qed.

(** ** Well-formed logs *)
Lemma log_ok_take log k : log_ok log -> (0 < k)%nat -> log_ok (take k log).
Proof. destruct log as [|e log], k as [|k]; try done; try lia. intros Hn _. by apply (numbered_take _ _ (S k)). Qed.

Lemma log_ok_drop log k : log_ok log -> (k < length log)%nat -> log_ok (drop k log).
Proof.
  intros Hok Hk. pose proof (log_ok_numbered _ Hok) as Hn.
  destruct (numbered_drop _ _ k Hn) as [Hd|Hd].
  - destruct (drop k log) as [|e l] eqn:E; [apply (f_equal length) in E; rewrite length_drop in E; simpl in E; lia|].
    simpl. destruct Hd as [He Hd]. split; [done|]. by rewrite He.
  - apply (f_equal length) in Hd. rewrite length_drop in Hd. simpl in Hd. lia.
Qed.

Lemma log_ok_app log es : log_ok log -> numbered (last_index log + 1) es -> log_ok (log ++ es).
Proof.
  destruct log as [|e log]; [done|]. intros Hok Hes. change (numbered (logID e) ((e :: log) ++ es)).
  apply numbered_app. split; [done|]. unfold last_index in Hes. simpl in Hes.
  replace (logID e + py_len (e :: log)) with (logID e + py_len (e :: log) - 1 + 1) by lia. done.
Qed.

End log.
