(* ===== verification/SyncObjMoves.v ===== *)
(** * How the methods of SyncObj move its state

    [moves R m]: method [m] takes every state to one it is related to by the
    preorder [R], also when it raises.  The automation [moves_auto] goes
    through the body of a method; what is left are the assignments that [R]
    does not allow in every state. *)
From stdpp Require Import base gmap sets list.
From Stdlib Require Import ZArith QArith Lia.
From S2P Require Import Prelude PyList Serializer SyncObj SyncObjLog.
Local Open Scope Z_scope.

Section moves.
Context {S E : Type} (R : S -> S -> Prop) {HR : PreOrder R}.

Definition moves_at {B} (m : PyM S E B) (s : S) : Prop := R s (post (m s)).
Definition moves {B} (m : PyM S E B) : Prop := forall s, moves_at m s.

Lemma moves_return {B} (b : B) : moves (py_return b).
Proof. intros s. unfold moves_at. simpl. reflexivity. Qed.

Lemma moves_raise {B} e : moves (py_raise (A := B) e).
Proof. intros s. unfold moves_at. simpl. reflexivity. Qed.

Lemma moves_get {B} (f : S -> B) : moves (py_get f).
Proof. intros s. unfold moves_at. simpl. reflexivity. Qed.

Lemma moves_emit es : moves (py_emit es).
Proof. intros s. unfold moves_at. simpl. reflexivity. Qed.

Lemma moves_set f : (forall s, R s (f s)) -> moves (py_set f).
Proof. intros Hf s. apply Hf. Qed.

Lemma moves_call {B} (f : S -> S * outcome B) : (forall s, R s (f s).1) -> moves (py_call f).
Proof.
  intros Hf s. unfold moves_at, py_call. specialize (Hf s). by destruct (f s).
Qed.

Lemma moves_at_bind {B D} (c : PyM S E B) (k : B -> PyM S E D) s :
  moves_at c s -> (forall b, result (c s) = Ret b -> moves_at (k b) (post (c s))) ->
  moves_at (py_bind c k) s.
Proof.
  unfold moves_at, py_bind, post, result. destruct (c s) as [[s' es] [b|e]]; simpl; [|done].
  intros Hc Hk. specialize (Hk b eq_refl). destruct (k b s') as [[s'' es'] r]. simpl in *.
  by etrans.
Qed.

Lemma moves_bind {B D} (c : PyM S E B) (k : B -> PyM S E D) :
  moves c -> (forall b, moves (k b)) -> moves (py_bind c k).
Proof. intros Hc Hk s. apply moves_at_bind; [done|]. intros. apply Hk. Qed.

(** Reads and assignments are executed. *)
Lemma post_get {B D} (f : S -> B) (k : B -> PyM S E D) s :
  post (py_bind (py_get f) k s) = post (k (f s) s).
Proof. unfold py_bind, py_get, post. by destruct (k (f s) s) as [[s' es] r]. Qed.

Lemma post_set {D} (f : S -> S) (k : unit -> PyM S E D) s :
  post (py_bind (py_set f) k s) = post (k tt (f s)).
Proof. unfold py_bind, py_set, post. by destruct (k tt (f s)) as [[s' es] r]. Qed.

Lemma moves_after {B} (m : PyM S E B) s s' : R s s' -> moves m -> R s (post (m s')).
Proof. intros Hs Hm. etrans; [done|apply Hm]. Qed.

Lemma moves_weaken (R' : S -> S -> Prop) {B} (m : PyM S E B) :
  (forall s s', R s s' -> R' s s') -> moves m -> forall s, R' s (post (m s)).
Proof. intros Hsub Hm s. apply Hsub, Hm. Qed.

End moves.

Create HintDb moves.

Ltac moves_order := typeclasses eauto || eauto with moves.
Ltac moves_step :=
  match goal with
  | |- moves _ (py_return _) => apply moves_return; moves_order
  | |- moves _ (py_raise _) => apply moves_raise; moves_order
  | |- moves _ (py_get _) => apply moves_get; moves_order
  | |- moves _ (py_emit _) => apply moves_emit; moves_order
  | |- moves _ (py_set _) =>
      apply moves_set; intros ?; first [done|let Hm := fresh in intros Hm; exact Hm|idtac]
  | |- moves _ (py_call _) => apply moves_call; intros ?
  | |- moves _ (py_bind _ _) => apply moves_bind; [moves_order| |intros ?]
  | |- moves _ (match ?x with _ => _ end) => destruct x
  | |- moves _ _ => solve [eauto with moves]
  end.
Ltac moves_auto := repeat moves_step.

Section same_log.
Context {A C R X F : Type} `{Countable A} `{Machine C R X} `{Codec (dump C X)}.
Context (conf : SyncObjConf).
Implicit Types s : t A C X F.
Implicit Types e : env A.

(** Nothing that decides elections or the log changes. *)
Definition same_log s s' : Prop :=
  raftCurrentTerm s' = raftCurrentTerm s /\ raftLog s' = raftLog s /\ nodes s' = nodes s /\
  selfNodeAddr s' = selfNodeAddr s /\
  Serializer.currentID (serializer s') = Serializer.currentID (serializer s).

#[export] Instance same_log_preorder : PreOrder same_log.
Proof.
  split; [by intros s|]. intros s1 s2 s3 (? & ? & ? & ? & ?) (? & ? & ? & ? & ?).
  split_and!; congruence.
Qed.

Lemma getTransmissionData_currentID ok ok' n (z : Serializer.t A (dump C X)) :
  Serializer.currentID (Serializer.getTransmissionData ok ok' n z).1 = Serializer.currentID z.
Proof.
  unfold Serializer.getTransmissionData. destruct (negb _); [done|].
  destruct (Serializer.transmissions z !! n) as [tr|]; [by destruct (_ || _)|].
  destruct (Serializer.dump_source _ z); simpl; [|done]. by destruct (_ || _).
Qed.

Abbreviation keeps m := (moves (E := effect A C R F) same_log m).

Lemma for_each_keeps {B} (l : list B) (body : B -> PyM (t A C X F) (effect A C R F) unit) :
  (forall b, keeps (body b)) -> keeps (for_each l body).
Proof. intros Hb. induction l as [|b l IH]; simpl; moves_auto; auto. Qed.

Lemma on_log_keeps {B} (f : list (entry C) -> outcome B) : keeps (on_log f).
Proof. apply moves_call. intros s. simpl. reflexivity. Qed.

Lemma send_to_keeps n m : keeps (send_to (R := R) (X := X) (F := F) n m).
Proof. unfold send_to, send. moves_auto. Qed.

End same_log.
#[export] Hint Resolve on_log_keeps send_to_keeps for_each_keeps same_log_preorder : moves.

Section keeps.
Context {A C R X F : Type} `{Countable A} `{Machine C R X} `{Codec (dump C X)}.
Context (conf : SyncObjConf).
Implicit Types s : t A C X F.
Implicit Types e : env A.

Abbreviation keeps m := (moves (S := t A C X F) (E := effect A C R F) same_log m).

Lemma getEntries_keeps from count : keeps (getEntries from count).
Proof. apply on_log_keeps. Qed.

Lemma getCurrentLogIndex_keeps : keeps getCurrentLogIndex.
Proof. apply on_log_keeps. Qed.

Lemma getCurrentLogTerm_keeps : keeps getCurrentLogTerm.
Proof. apply on_log_keeps. Qed.

Lemma getPrevLogIndexTerm_keeps i : keeps (getPrevLogIndexTerm i).
Proof. unfold getPrevLogIndexTerm. pose proof getEntries_keeps. moves_auto. Qed.

Lemma sendNextNodeIdx_keeps n b : keeps (sendNextNodeIdx n b).
Proof. unfold sendNextNodeIdx. pose proof getCurrentLogIndex_keeps. moves_auto. Qed.

Lemma onLeaderChanged_keeps : keeps onLeaderChanged.
Proof.
  unfold onLeaderChanged. moves_auto. apply for_each_keeps. intros. moves_auto.
Qed.

Lemma applyCommand_keeps c o : keeps (applyCommand conf c o).
Proof. unfold applyCommand, call_back. moves_auto. Qed.

Lemma subscribe_commit_keeps i x : keeps (subscribe_commit i x).
Proof. unfold subscribe_commit. moves_auto. Qed.

Lemma pop_reply_keeps i : keeps (pop_reply i).
Proof. unfold pop_reply. moves_auto. Qed.

Lemma send_round_keeps e n next b : keeps (send_round conf e n next b).
Proof.
  unfold send_round, send. pose proof getEntries_keeps. pose proof getCurrentLogIndex_keeps.
  pose proof getPrevLogIndexTerm_keeps. moves_auto.
  match goal with |- context [Serializer.getTransmissionData ?a ?b ?c ?d] =>
    pose proof (getTransmissionData_currentID a b c d);
    by destruct (Serializer.getTransmissionData a b c d) end.
Qed.

Lemma send_rounds_keeps e n quota b1 b2 : keeps (send_rounds conf e n quota b1 b2).
Proof.
  pose proof send_round_keeps. pose proof getCurrentLogIndex_keeps.
  revert b1 b2. induction quota as [|quota IH]; intros b1 b2; simpl; moves_auto.
Qed.

Lemma send_nodes_keeps e quota ns : keeps (send_nodes conf e quota ns).
Proof.
  pose proof send_rounds_keeps.
  revert quota. induction ns as [|n ns IH]; intros quota; simpl; moves_auto.
Qed.

Lemma sendAppendEntries_keeps e : keeps (sendAppendEntries conf e).
Proof. pose proof send_nodes_keeps. unfold sendAppendEntries. moves_auto. Qed.

Lemma onBecomeLeader_keeps e : keeps (onBecomeLeader conf e).
Proof.
  pose proof sendAppendEntries_keeps. pose proof getCurrentLogIndex_keeps.
  unfold onBecomeLeader. moves_auto. apply for_each_keeps. intros. moves_auto.
Qed.

Lemma commit_loop_keeps fuel : keeps (commit_loop fuel).
Proof.
  pose proof getCurrentLogIndex_keeps. induction fuel; simpl; moves_auto. simpl. reflexivity.
Qed.

Lemma tick_leader_keeps e : keeps (tick_leader conf e).
Proof.
  pose proof commit_loop_keeps. pose proof getCurrentLogIndex_keeps.
  pose proof sendAppendEntries_keeps. unfold tick_leader. moves_auto.
Qed.

Lemma apply_entry_keeps en : keeps (apply_entry en).
Proof.
  unfold apply_entry, doApplyCommand. moves_auto; [|by apply for_each_keeps; intros; moves_auto].
  by destruct (doApply _ _).
Qed.

Lemma tick_apply_keeps : keeps tick_apply.
Proof.
  pose proof getEntries_keeps. pose proof apply_entry_keeps. unfold tick_apply. moves_auto.
Qed.

Lemma follow_commit_keeps i : keeps (follow_commit i).
Proof. pose proof getCurrentLogIndex_keeps. unfold follow_commit. moves_auto. Qed.

(** ** Terms *)

(** The configuration is fixed and the term never falls. *)
Definition later s s' : Prop :=
  raftCurrentTerm s <= raftCurrentTerm s' /\ nodes s' = nodes s /\
  selfNodeAddr s' = selfNodeAddr s.

#[export] Instance later_preorder : PreOrder later.
Proof.
  split; [by intros s|]. intros s1 s2 s3 (? & ? & ?) (? & ? & ?). split_and!; [lia|congruence..].
Qed.

Lemma keeps_later {B} (m : PyM (t A C X F) (effect A C R F) B) : keeps m -> moves later m.
Proof.
  intros Hm s. unfold moves_at, later. destruct (Hm s) as (-> & _ & -> & -> & _). done.
Qed.

Abbreviation rises m := (moves (S := t A C X F) (E := effect A C R F) later m).

Lemma deleteEntriesFrom_later i : rises (deleteEntriesFrom i).
Proof. unfold deleteEntriesFrom, on_log. moves_auto. done. Qed.

Lemma deleteEntriesTo_later i : rises (deleteEntriesTo i).
Proof. unfold deleteEntriesTo, on_log. moves_auto. done. Qed.

Lemma for_each_later {B} (l : list B) (body : B -> PyM (t A C X F) (effect A C R F) unit) :
  (forall b, rises (body b)) -> rises (for_each l body).
Proof. intros Hb. induction l as [|b l IH]; simpl; moves_auto. Qed.

Lemma loadDumpFile_later : rises loadDumpFile.
Proof. unfold loadDumpFile. moves_auto. Qed.

Lemma tryLogCompaction_later e : rises (tryLogCompaction conf e).
Proof.
  pose proof deleteEntriesTo_later. pose proof (fun f c => keeps_later _ (getEntries_keeps f c)).
  unfold tryLogCompaction, compaction_done, compaction_starts. moves_auto. by destruct (Serializer.checkSerializing _ _).
Qed.

Lemma process_command_later e c o : rises (process_command conf e c o).
Proof.
  pose proof (keeps_later _ getCurrentLogIndex_keeps).
  pose proof (fun e => keeps_later _ (sendAppendEntries_keeps e)).
  pose proof (fun n m => keeps_later _ (send_to_keeps n m)).
  pose proof (fun i x => keeps_later _ (subscribe_commit_keeps i x)).
  unfold process_command, call_back. moves_auto.
Qed.

Lemma checkCommands_later e i : rises (checkCommands conf e i).
Proof.
  pose proof process_command_later. induction i as [|i IH]; simpl; moves_auto.
Qed.

Lemma tick_election_later e : rises (tick_election conf e).
Proof.
  pose proof (keeps_later _ getCurrentLogIndex_keeps).
  pose proof (keeps_later _ getCurrentLogTerm_keeps).
  pose proof (keeps_later _ onLeaderChanged_keeps).
  unfold tick_election. intros s. unfold moves_at. rewrite post_get. simpl.
  destruct (bool_decide _ && _); [|done].
  rewrite !post_set. apply moves_after; [moves_order|split_and!; simpl; lia || done|].
  moves_auto. apply for_each_later. intros n. unfold send. moves_auto.
Qed.

Lemma tick_leader_later e : rises (tick_leader conf e).
Proof. apply keeps_later, tick_leader_keeps. Qed.

Lemma onTick_later e : rises (onTick conf e).
Proof.
  pose proof loadDumpFile_later. pose proof tick_election_later.
  pose proof tick_leader_later. pose proof (keeps_later _ tick_apply_keeps).
  pose proof checkCommands_later. pose proof tryLogCompaction_later.
  unfold onTick, checkCommandsToApply. moves_auto.
Qed.

Lemma on_request_vote_later e n trm i l : rises (on_request_vote conf e n trm i l).
Proof.
  pose proof (keeps_later _ getCurrentLogIndex_keeps).
  pose proof (keeps_later _ getCurrentLogTerm_keeps).
  pose proof (fun n m => keeps_later _ (send_to_keeps n m)).
  unfold on_request_vote. intros s. unfold moves_at. rewrite post_get. unfold id at 1.
  apply (moves_at_bind later); [|intros [] _].
  - destruct (Z.ltb_spec (raftCurrentTerm s) trm); [|done].
    unfold moves_at. rewrite post_set. split_and!; simpl; lia || done.
  - match goal with |- moves_at _ ?m ?x => apply (fun Hm : moves later m => Hm x) end.
    moves_auto.
Qed.

(** ** Methods that neither read the log nor raise, as equations *)
Lemma for_each_emit {B} (l : list B) (f : B -> list (effect A C R F)) s :
  for_each l (fun x => py_emit (f x)) s = (s, l ≫= f, Ret tt).
Proof.
  induction l as [|x l IH]; [done|]. simpl. unfold py_bind, py_emit at 1. by rewrite IH.
Qed.

Lemma onLeaderChanged_eq s :
  onLeaderChanged s =
    (set_commandsWaitingReply ∅ s,
     (fun f => Callback f None LEADER_CHANGED) <$> replies_in_order (commandsWaitingReply s),
     @Ret unit tt) :> _ * list (effect A C R F) * _.
Proof.
  unfold onLeaderChanged, py_bind, py_get, py_set. rewrite for_each_emit. simpl.
  by rewrite app_nil_r.
Qed.

(** The callbacks that [accept_leader] calls, and the state it leaves. *)
Definition leader_lost (n : A) s : list (effect A C R F) :=
  if decide (raftLeader s = Some n) then []
  else (fun f => Callback f None LEADER_CHANGED) <$> replies_in_order (commandsWaitingReply s).
Definition following e (n : A) (trm : Z) s : t A C X F :=
  set_raftState FOLLOWER (set_raftCurrentTerm trm (set_raftLeader (Some n)
    (set_commandsWaitingReply
       (if decide (raftLeader s = Some n) then commandsWaitingReply s else ∅)
       (set_raftElectionDeadline (now e + generateRaftTimeout conf e) s)))).

Lemma accept_leader_eq e n trm s :
  accept_leader conf e n trm s = (following e n trm s, leader_lost n s, Ret tt).
Proof.
  unfold accept_leader, following, leader_lost. autounfold with pym. simpl.
  destruct (decide (raftLeader s = Some n)); simpl; [by destruct s|].
  rewrite onLeaderChanged_eq. simpl. by rewrite app_nil_r.
Qed.

Lemma store_entries_later n es prev ptrm : rises (store_entries n es prev ptrm).
Proof.
  pose proof (fun f c => keeps_later _ (getEntries_keeps f c)).
  pose proof (fun n b => keeps_later _ (sendNextNodeIdx_keeps n b)).
  pose proof deleteEntriesFrom_later. unfold store_entries. moves_auto.
Qed.

Lemma on_append_entries_later e n trm ci es prev ptrm :
  rises (on_append_entries conf e n trm ci es prev ptrm).
Proof.
  intros s. unfold on_append_entries, moves_at. rewrite post_get.
  destruct (Z.leb_spec (raftCurrentTerm s) trm); [|done].
  apply (moves_at_bind later).
  - unfold moves_at. rewrite accept_leader_eq. split_and!; simpl; lia || done.
  - intros [] _. pose proof store_entries_later.
    pose proof (fun n b => keeps_later _ (sendNextNodeIdx_keeps n b)).
    pose proof (fun i => keeps_later _ (follow_commit_keeps i)).
    match goal with |- moves_at _ ?m ?x => apply (fun Hm : moves later m => Hm x) end.
    moves_auto.
Qed.

Lemma on_append_serialized_later e n trm ci c :
  rises (on_append_serialized conf e n trm ci c).
Proof.
  intros s. unfold on_append_serialized, moves_at. rewrite post_get.
  destruct (Z.leb_spec (raftCurrentTerm s) trm); [|done].
  apply (moves_at_bind later).
  - unfold moves_at. rewrite accept_leader_eq. split_and!; simpl; lia || done.
  - intros [] _. pose proof loadDumpFile_later.
    pose proof (fun n b => keeps_later _ (sendNextNodeIdx_keeps n b)).
    pose proof (fun i => keeps_later _ (follow_commit_keeps i)).
    match goal with |- moves_at _ ?m ?x => apply (fun Hm : moves later m => Hm x) end.
    moves_auto. by destruct (Serializer.setTransmissionData _ _ _ _ _).
Qed.

Lemma onMessageReceived_later e n m : rises (onMessageReceived conf e n m).
Proof.
  destruct m as [trm i l|trm|trm ci es prev ptrm|trm ci c|c [rid|]|rid er|rid i trm|i b]; simpl.
  - apply on_request_vote_later.
  - pose proof (fun e => keeps_later _ (onBecomeLeader_keeps e)). moves_auto.
  - apply on_append_entries_later.
  - apply on_append_serialized_later.
  - apply keeps_later, applyCommand_keeps.
  - apply keeps_later, applyCommand_keeps.
  - pose proof (fun i => keeps_later _ (pop_reply_keeps i)). moves_auto.
  - pose proof (fun i => keeps_later _ (pop_reply_keeps i)).
    pose proof (fun i x => keeps_later _ (subscribe_commit_keeps i x)). moves_auto.
  - moves_auto.
Qed.

End keeps.
