(* ===== verification/SyncObjTheorems.v ===== *)
(** * The properties of the Raft core

    The log of a node and the handlers of append_entries, the leader's commit
    rule, the application of committed entries, terms, and the leader's
    sending loop against a follower. *)
From stdpp Require Import base gmap sets list strings.
From Stdlib Require Import ZArith QArith Lia.
From S2P Require Import Prelude PyList Serializer SyncObj SyncObjLog SyncObjMoves.
Local Open Scope Z_scope.

(** ** Slices of the log *)
Section slices.
Context {C : Type}.
Implicit Types log : list (entry C).

(** On a log numbered without gaps the slices computed from index
    differences are the entries with the wanted indices; only a start before
    the (compacted) first entry is special: nothing is returned, and nothing is
    deleted from there. *)
Theorem log_slices log from count :
  log_ok log -> 0 <= count ->
  entries_from (Some from) None log
    = Ret (if from <? first_index log then [] else filter (fun e => from <= logID e) log) /\
  entries_from (Some from) (Some count) log
    = Ret (if from <? first_index log then []
           else filter (fun e => from <= logID e < from + count) log) /\
  log_until from log
    = Ret (if from <? first_index log then log else filter (fun e => logID e < from) log) /\
  log_since from log = Ret (filter (fun e => from <= logID e) log).
Proof.
  intros Hok Hc. pose proof (log_ok_numbered _ Hok) as Hn.
  rewrite !entries_from_ok, log_until_ok, log_since_ok by done.
  rewrite (proj2 (Z.leb_le _ _) Hc).
  destruct (Z.ltb_spec from (first_index log)) as [Hlt|Hge].
  { split_and!; [done..|]. f_equal. symmetry. apply filter_all. intros x Hx.
    pose proof (numbered_elem _ _ _ Hn Hx). lia. }
  set (k := Z.to_nat (from - first_index log)).
  assert (from = first_index log + Z.of_nat k) as Hfrom by (unfold k; lia).
  clearbody k. subst from.
  rewrite filter_from, filter_below by done. split_and!; [done| |done..]. f_equal.
  trans (filter (fun e => logID e < first_index log + Z.of_nat k + count)
          (filter (fun e => first_index log + Z.of_nat k <= logID e) log));
    [|rewrite list_filter_filter; apply list_filter_iff; intros; lia].
  rewrite filter_from by done.
  destruct (numbered_drop _ _ k Hn) as [Hd| ->]; [|by rewrite take_nil].
  rewrite <-(filter_below _ _ (Z.to_nat count) Hd). apply list_filter_iff. intros; lia.
Qed.

End slices.

(** ** append_entries at a follower *)
Section follower.
Context {A C R X F : Type} `{Countable A} `{Machine C R X} `{Codec (dump C X)}.
Context (conf : SyncObjConf).
Implicit Types s : t A C X F.
Implicit Types e : env A.

(** The entry with index [i]. *)
Definition log_at (log : list (entry C)) (i : Z) : option (entry C) :=
  if i <? first_index log then None else log !! Z.to_nat (i - first_index log).

(** The entries up to index [i]. *)
Definition log_upto (log : list (entry C)) (i : Z) : list (entry C) :=
  take (Z.to_nat (i - first_index log + 1)) log.

Lemma log_at_in log i : log_ok log ->
  first_index log <= i <= last_index log -> is_Some (log_at log i).
Proof.
  intros Hok Hi. unfold log_at. rewrite (proj2 (Z.ltb_ge _ _)) by lia.
  apply lookup_lt_is_Some. unfold last_index, py_len in Hi. lia.
Qed.

Lemma log_at_Some log i en : log_at log i = Some en -> first_index log <= i <= last_index log.
Proof.
  unfold log_at. destruct (Z.ltb_spec i (first_index log)); [done|]. intros Hl%lookup_lt_Some.
  unfold last_index, py_len. lia.
Qed.

(** What the prefix check of an append_entries message finds. *)
Definition prev_entry (log : list (entry C)) (prev : option Z) : option (entry C) :=
  i ← prev; log_at log i.

Lemma entries_from_prev log prev : log_ok log ->
  match prev_entry log prev with
  | Some p => exists i, prev = Some i /\ first_index log <= i <= last_index log /\
      entries_from prev None log = Ret (p :: drop (Z.to_nat (i - first_index log + 1)) log)
  | None => entries_from prev None log = Ret []
  end.
Proof.
  intros Hok. unfold prev_entry, log_at. destruct prev as [i|]; simpl; cycle 1.
  { unfold entries_from. by destruct (first_entry_ok log Hok) as (en & -> & _). }
  rewrite entries_from_ok by done.
  destruct (Z.ltb_spec i (first_index log)) as [|Hge]; [done|].
  destruct (log !! Z.to_nat (i - first_index log)) as [p|] eqn:Ep.
  - exists i. split; [done|]. split; [apply lookup_lt_Some in Ep; unfold last_index, py_len; lia|].
    f_equal. rewrite (drop_S _ _ _ Ep). do 2 f_equal. lia.
  - apply lookup_ge_None in Ep. by rewrite drop_ge by lia.
Qed.

(** Equations of the helpers on a well-formed log. *)
Lemma getEntries_eq from count s l :
  entries_from from count (raftLog s) = Ret l ->
  getEntries from count s = (s, [], Ret l) :> _ * list (effect A C R F) * _.
Proof. intros El. unfold getEntries, on_log, py_call. by rewrite El. Qed.

Lemma getCurrentLogIndex_eq s : log_ok (raftLog s) ->
  getCurrentLogIndex s = (s, [], Ret (last_index (raftLog s))) :> _ * list (effect A C R F) * _.
Proof.
  intros Hok. unfold getCurrentLogIndex, on_log, py_call. by rewrite current_index_ok.
Qed.

Lemma send_to_eq n m s : n ∈ nodes s ->
  send_to n m s = (s, [Send n m], Ret tt) :> _ * list (effect A C R F) * _.
Proof.
  intros Hn. unfold send_to, py_bind, py_get. by rewrite decide_True.
Qed.

Lemma sendNextNodeIdx_eq n b s : log_ok (raftLog s) -> n ∈ nodes s ->
  sendNextNodeIdx n b s
    = (s, [Send n (next_node_idx (last_index (raftLog s) + 1) b)], Ret tt)
    :> _ * list (effect A C R F) * _.
Proof.
  intros Hok Hn. unfold sendNextNodeIdx, py_bind. rewrite getCurrentLogIndex_eq by done.
  by rewrite send_to_eq.
Qed.

Lemma deleteEntriesFrom_eq i s : log_ok (raftLog s) -> first_index (raftLog s) <= i ->
  deleteEntriesFrom i s
    = (set_raftLog (log_upto (raftLog s) (i - 1)) s, [], Ret tt) :> _ * list (effect A C R F) * _.
Proof.
  intros Hok Hi. unfold deleteEntriesFrom, on_log, py_bind, py_call, log_upto.
  rewrite log_until_ok by done. rewrite (proj2 (Z.ltb_ge _ _)) by lia.
  replace (i - 1 - first_index (raftLog s) + 1) with (i - first_index (raftLog s)) by lia. done.
Qed.

Lemma last_index_upto (log : list (entry C)) i : log_ok log -> first_index log <= i <= last_index log ->
  first_index (log_upto log i) = first_index log /\ last_index (log_upto log i) = i /\
  log_ok (log_upto log i).
Proof.
  intros Hok Hi. unfold log_upto, last_index in *.
  assert (first_index (take (Z.to_nat (i - first_index log + 1)) log) = first_index log) as Hf.
  { destruct log; [done|].
    replace (Z.to_nat (i - first_index (e :: log) + 1))
      with (S (Z.to_nat (i - first_index (e :: log)))) by lia. done. }
  rewrite Hf. split_and!; [done| |apply log_ok_take; [done|lia]].
  unfold py_len in *. rewrite length_take. lia.
Qed.

Lemma last_index_app (log es : list (entry C)) : log_ok log -> last_index (log ++ es) = last_index log + py_len es.
Proof.
  intros Hok. unfold last_index. rewrite py_len_app. destruct log; [done|]. simpl. lia.
Qed.

(** The result of a message of regular entries. *)
Definition append_outcome e (n : A) (trm ci : Z) (es : list (entry C)) (prev ptrm : option Z) s
  : t A C X F * list (effect A C R F) * outcome unit :=
  let log := raftLog s in
  let s1 := following conf e n trm s in
  match prev_entry log prev with
  | None => (s1, leader_lost n s ++ [Send n (next_node_idx (last_index log + 1) true)], Ret tt)
  | Some p =>
      let i := default 0 prev in
      if bool_decide (Some (term p) = ptrm) then
        let last := i + py_len es in
        (set_raftCommitIndex (Z.min ci last) (set_raftLog (log_upto log i ++ es) s1),
         leader_lost n s ++ [Send n (next_node_idx (last + 1) false)], Ret tt)
      else if i =? first_index log then
        (set_raftLog [] s1, leader_lost n s, Raise IndexError)
      else
        (set_raftLog (log_upto log (i - 1)) s1,
         leader_lost n s ++ [Send n (next_node_idx i true)], Ret tt)
  end.

(** Entries after the previous one are dropped, if there are any. *)
Lemma drop_after_eq i s :
  log_ok (raftLog s) -> first_index (raftLog s) <= i <= last_index (raftLog s) ->
  (match drop (Z.to_nat (i - first_index (raftLog s) + 1)) (raftLog s) with
   | [] => py_return tt | _ :: _ => deleteEntriesFrom (i + 1) end) s
    = (set_raftLog (log_upto (raftLog s) i) s, [], Ret tt) :> _ * list (effect A C R F) * _.
Proof.
  intros Hok Hi. destruct (drop _ (raftLog s)) as [|en rest] eqn:Ed.
  - unfold py_return. do 2 f_equal. unfold log_upto. rewrite <-(app_nil_r (take _ _)), <-Ed.
    rewrite take_drop. by destruct s.
  - rewrite deleteEntriesFrom_eq by (done || lia). by replace (i + 1 - 1) with i by lia.
Qed.

Lemma on_append_entries_eq s e n trm ci es prev ptrm :
  log_ok (raftLog s) -> n ∈ nodes s -> raftCurrentTerm s <= trm ->
  (forall i, prev = Some i -> numbered (i + 1) es) ->
  on_append_entries conf e n trm ci es prev ptrm s = append_outcome e n trm ci es prev ptrm s.
Proof.
  intros Hok Hn Hle Hes. unfold append_outcome. set (log := raftLog s).
  set (s1 := following conf e n trm s). unfold on_append_entries, py_bind at 1, py_get at 1.
  rewrite (proj2 (Z.leb_le _ _) Hle). unfold py_bind at 1. rewrite accept_leader_eq. fold s1.
  assert (raftLog s1 = log) as Hlog by done. assert (n ∈ nodes s1) as Hn1 by done.
  assert (log_ok (raftLog s1)) as Hok1 by (by rewrite Hlog).
  unfold py_bind at 1, store_entries, py_bind at 1.
  pose proof (entries_from_prev log prev Hok) as Hprev.
  destruct (prev_entry log prev) as [p|]; cycle 1.
  { rewrite (getEntries_eq _ _ s1 _ Hprev). unfold py_bind at 1.
    rewrite sendNextNodeIdx_eq by done. rewrite Hlog. done. }
  destruct Hprev as (i & -> & Hi & Hent). rewrite (getEntries_eq _ _ s1 _ Hent). simpl.
  destruct (last_index_upto log i Hok Hi) as (Hf & Hl & Hoku).
  case_bool_decide as Hterm.
  - unfold py_bind at 1. pose proof (drop_after_eq i s1 Hok1) as Hdrop. rewrite Hlog in Hdrop.
    rewrite Hdrop by done. unfold py_bind, py_set, py_return. simpl.
    rewrite sendNextNodeIdx_eq by (done || (apply log_ok_app; [done|rewrite Hl; by apply Hes])).
    simpl. unfold follow_commit, py_bind.
    rewrite getCurrentLogIndex_eq by (apply log_ok_app; [done|rewrite Hl; by apply Hes]).
    simpl. by rewrite last_index_app, Hl by done.
  - unfold py_bind at 1. rewrite deleteEntriesFrom_eq by (done || (rewrite Hlog; lia)).
    rewrite Hlog. destruct (Z.eqb_spec i (first_index log)) as [->|Hne].
    + unfold log_upto. replace (Z.to_nat _) with 0%nat by lia. simpl. by rewrite ?app_nil_r.
    + destruct (last_index_upto log (i - 1) Hok) as (_ & Hl' & Hok'); [lia|].
      unfold py_bind. rewrite sendNextNodeIdx_eq by done. simpl. rewrite Hl'.
      by replace (i - 1 + 1) with i by lia.
Qed.

(** C9: what a follower does with a message of regular entries of its leader
    ([n], a configured address): without the previous entry it asks for its own
    end of the log; on a term conflict it drops the conflicting entry and all
    after it and asks again; when the previous entry agrees its log becomes
    exactly the entries up to the previous one followed by the new ones, it
    acknowledges the end of that log, and its commit index follows the
    leader's within the log.  When the conflicting entry is the first one of
    the log, the log is emptied and the answer raises an IndexError. *)
Theorem append_entries_spec s e n trm ci es prev ptrm :
  log_ok (raftLog s) -> n ∈ nodes s -> raftCurrentTerm s <= trm ->
  (forall i, prev = Some i -> numbered (i + 1) es) ->
  let log := raftLog s in
  let s1 := following conf e n trm s in
  onMessageReceived (R := R) conf e n (append_entries trm ci es prev ptrm) s =
    match prev_entry log prev with
    | None => (s1, leader_lost n s ++ [Send n (next_node_idx (last_index log + 1) true)], Ret tt)
    | Some p =>
        let i := default 0 prev in
        if bool_decide (Some (term p) = ptrm) then
          let last := i + py_len es in
          (set_raftCommitIndex (Z.min ci last) (set_raftLog (log_upto log i ++ es) s1),
           leader_lost n s ++ [Send n (next_node_idx (last + 1) false)], Ret tt)
        else if i =? first_index log then
          (set_raftLog [] s1, leader_lost n s, Raise IndexError)
        else
          (set_raftLog (log_upto log (i - 1)) s1,
           leader_lost n s ++ [Send n (next_node_idx i true)], Ret tt)
    end.
Proof. apply on_append_entries_eq. Qed.

(** ** The log stays well-formed *)

(** What a message must satisfy: entries numbered after the previous one, no
    conflict with the first entry of the log, and a snapshot whose two entries
    are consecutive. *)
Definition message_fits e (m : message C) s : Prop :=
  match m with
  | append_entries _ _ es prev ptrm =>
      (forall i, prev = Some i -> numbered (i + 1) es) /\
      (forall p, prev = Some (first_index (raftLog s)) -> raftLog s !! 0%nat = Some p ->
         ptrm = Some (term p))
  | append_serialized _ _ (Serializer.Chunk data isFirst isLast) =>
      forall x en1 en0,
        Serializer.deserialize (Serializer.setTransmissionData (open_ok e) (write_ok e)
          (rename_ok e) (Some (data, isFirst, isLast)) (serializer s)).1 = Ret (x, en1, en0) ->
        logID en1 = logID en0 + 1
  | _ => True
  end.

Definition same_entries s s' : Prop := raftLog s' = raftLog s.

#[local] Instance same_entries_preorder : PreOrder same_entries.
Proof. split; [by intros s|]. intros s1 s2 s3 ? ?. unfold same_entries in *. congruence. Qed.

Lemma keeps_entries {B} (m : PyM (t A C X F) (effect A C R F) B) :
  moves same_log m -> moves same_entries m.
Proof. intros Hm s. unfold moves_at, same_entries. by destruct (Hm s) as (_ & -> & _). Qed.

Lemma post_prefix {B} (pre : list (effect A C R F)) (y : t A C X F * list (effect A C R F) * outcome B) :
  post (let '(s', es, r) := y in (s', pre ++ es, r)) = post y.
Proof. by destruct y as [[? ?] ?]. Qed.

Lemma post_bind_entries {B D} (c : PyM (t A C X F) (effect A C R F) B) (k : B -> PyM _ _ D) s :
  (forall b, moves same_entries (k b)) -> raftLog (post (py_bind c k s)) = raftLog (post (c s)).
Proof.
  intros Hk. unfold py_bind, post. destruct (c s) as [[s' es] [b|er]]; simpl; [|done].
  pose proof (Hk b s') as Hb. unfold moves_at, same_entries, post in Hb.
  by destruct (k b s') as [[s'' es'] r].
Qed.

Lemma on_request_vote_entries e n trm i l :
  moves same_entries (on_request_vote (R := R) (X := X) (F := F) conf e n trm i l).
Proof.
  pose proof (keeps_entries _ getCurrentLogIndex_keeps).
  pose proof (keeps_entries _ getCurrentLogTerm_keeps).
  pose proof (fun n m => keeps_entries _ (send_to_keeps n m)).
  unfold on_request_vote. moves_auto.
Qed.

Lemma loadDumpFile_ok s :
  log_ok (raftLog s) ->
  (forall x en1 en0, Serializer.deserialize (serializer s) = Ret (x, en1, en0) ->
     logID en1 = logID en0 + 1) ->
  log_ok (raftLog (post (loadDumpFile (R := R) s))).
Proof.
  intros Hok Hd. unfold loadDumpFile, py_bind, py_get, id. unfold post.
  destruct (Serializer.deserialize (serializer s)) as [[[x en1] en0]|er] eqn:E; simpl; [|done].
  specialize (Hd x en1 en0 eq_refl). done.
Qed.

(** New entries after an entry that matches, or the log cut before one that
    does not. *)
Lemma append_keeps_log s e n trm ci es prev ptrm :
  log_ok (raftLog s) -> n ∈ nodes s -> message_fits e (append_entries trm ci es prev ptrm) s ->
  log_ok (raftLog (post (onMessageReceived (R := R) conf e n (append_entries trm ci es prev ptrm) s))).
Proof.
  intros Hok Hn Hfit. destruct (Z.leb_spec (raftCurrentTerm s) trm) as [Hle|Hlt]; cycle 1.
  { simpl. unfold on_append_entries, py_bind, py_get, post.
    by rewrite (proj2 (Z.leb_gt _ _)) by lia. }
  destruct Hfit as [Hes Hfirst]. simpl onMessageReceived.
  rewrite on_append_entries_eq by done. unfold append_outcome.
  pose proof (entries_from_prev (raftLog s) prev Hok) as Hprev.
  destruct (prev_entry (raftLog s) prev) as [p|] eqn:Ep; [|done].
  destruct Hprev as (i & -> & Hi & _). simpl.
  destruct (last_index_upto (raftLog s) i Hok Hi) as (_ & Hl & Hoku).
  case_bool_decide as Hterm.
  - simpl. apply log_ok_app; [done|]. rewrite Hl. by apply Hes.
  - destruct (Z.eqb_spec i (first_index (raftLog s))) as [->|Hne].
    + exfalso. apply Hterm. symmetry. apply Hfirst; [done|].
      simpl in Ep. unfold log_at in Ep. rewrite Z.ltb_irrefl in Ep.
      by rewrite Z.sub_diag in Ep.
    + simpl. by apply last_index_upto; [|lia].
Qed.

(** A chunk of a snapshot: the last one replaces the log. *)
Lemma serialized_keeps_log s e n trm ci c :
  log_ok (raftLog s) -> message_fits e (append_serialized trm ci c) s ->
  log_ok (raftLog (post (onMessageReceived (R := R) conf e n (append_serialized trm ci c) s))).
Proof.
  intros Hok Hfit. simpl. unfold on_append_serialized, py_bind at 1, py_get at 1.
  destruct (Z.leb_spec (raftCurrentTerm s) trm); [|done]. rewrite post_prefix.
  unfold py_bind at 1. rewrite accept_leader_eq.
  destruct c as [| |data isFirst isLast]; [done..|]. rewrite post_prefix.
  unfold py_bind at 1, py_call.
  change (serializer (following conf e n trm s)) with (serializer s).
  cbn [message_fits] in Hfit.
  destruct (Serializer.setTransmissionData _ _ _ _ _) as [z b]. cbn [fst] in Hfit.
  rewrite post_prefix.
  rewrite post_bind_entries.
  - destruct b; [|done]. apply loadDumpFile_ok; [exact Hok|exact Hfit].
  - intros []. pose proof (fun n b => keeps_entries _ (sendNextNodeIdx_keeps n b)).
    pose proof (fun i => keeps_entries _ (follow_commit_keeps i)). moves_auto.
Qed.

(** Every message that fits leaves a log that is numbered without gaps and
    not empty: votes, acknowledgements and commands do not touch it, and
    entries and snapshots replace it by another such log. *)
Theorem messages_keep_log s e n m :
  log_ok (raftLog s) -> n ∈ nodes s -> message_fits e m s ->
  log_ok (raftLog (post (onMessageReceived (R := R) conf e n m s))).
Proof.
  intros Hok Hn Hfit.
  assert (forall B (x : PyM (t A C X F) (effect A C R F) B), moves same_entries x ->
    log_ok (raftLog (post (x s)))) as Hsame by (intros B x Hx; by rewrite (Hx s)).
  destruct m as [trm i l|trm|trm ci es prev ptrm|trm ci c|c [rid|]|rid er|rid i trm|i b];
    [| |by apply append_keeps_log|by apply serialized_keeps_log|..]; apply Hsame.
  - apply on_request_vote_entries.
  - simpl. pose proof (fun e => keeps_entries _ (onBecomeLeader_keeps conf e)). moves_auto.
  - apply keeps_entries, applyCommand_keeps.
  - apply keeps_entries, applyCommand_keeps.
  - simpl. pose proof (fun i => keeps_entries _ (pop_reply_keeps i)). moves_auto.
  - simpl. pose proof (fun i => keeps_entries _ (pop_reply_keeps i)).
    pose proof (fun i x => keeps_entries _ (subscribe_commit_keeps i x)). moves_auto.
  - simpl. moves_auto.
Qed.

(** ** A tick *)

(** The log can be cut at the end of the running dump. *)
Definition compactable s : Prop :=
  log_ok (raftLog s) /\ Serializer.currentID (serializer s) <= last_index (raftLog s).

Definition stays_compactable s s' : Prop := compactable s -> compactable s'.

#[local] Instance stays_compactable_preorder : PreOrder stays_compactable.
Proof. split; [intros s Hs; exact Hs|]. intros s1 s2 s3 H12 H23 Hs. by apply H23, H12. Qed.

Lemma keeps_compactable {B} (m : PyM (t A C X F) (effect A C R F) B) :
  moves same_log m -> moves stays_compactable m.
Proof.
  intros Hm s [Hok Hid]. destruct (Hm s) as (_ & El & _ & _ & Ec).
  split; [by rewrite El|by rewrite El, Ec].
Qed.

Lemma for_each_compactable {B} (l : list B) (body : B -> PyM (t A C X F) (effect A C R F) unit) :
  (forall b, moves stays_compactable (body b)) -> moves stays_compactable (for_each l body).
Proof. intros Hb. induction l as [|b l IH]; simpl; moves_auto. Qed.

Lemma tick_election_compactable e :
  moves stays_compactable (tick_election (R := R) (X := X) (F := F) conf e).
Proof.
  pose proof (keeps_compactable _ getCurrentLogIndex_keeps).
  pose proof (keeps_compactable _ getCurrentLogTerm_keeps).
  pose proof (keeps_compactable _ onLeaderChanged_keeps).
  unfold tick_election. moves_auto. apply for_each_compactable. intros n. unfold send. moves_auto.
Qed.

Lemma process_command_compactable e c o :
  moves stays_compactable (process_command (R := R) (X := X) conf e c o).
Proof.
  pose proof (fun e => keeps_compactable _ (sendAppendEntries_keeps conf e)).
  pose proof (fun n m => keeps_compactable _ (send_to_keeps n m)).
  pose proof (fun i x => keeps_compactable _ (subscribe_commit_keeps i x)).
  intros s. unfold process_command, moves_at. rewrite post_get. unfold id.
  pose proof (keeps_compactable _ getCurrentLogIndex_keeps).
  destruct (raftState s); [| |].
  1,2: destruct (raftLeader s) as [l|];
    match goal with |- stays_compactable _ (post (?m ?x)) =>
      apply (fun Hm : moves stays_compactable m => Hm x) end; unfold call_back; moves_auto.
  intros [Hok Hid]. unfold py_bind at 1. rewrite getCurrentLogIndex_eq by done.
  rewrite post_prefix, post_set.
  match goal with |- compactable (post (?m ?x)) => assert (compactable x) as Hx;
    [|revert Hx; apply (fun Hm : moves stays_compactable m => Hm x)] end.
  - split; simpl.
    + by apply log_ok_app.
    + rewrite last_index_app by done. unfold py_len at 1. simpl. lia.
  - moves_auto.
Qed.

Lemma checkCommands_compactable e i :
  moves stays_compactable (checkCommands (R := R) (X := X) conf e i).
Proof.
  pose proof process_command_compactable. induction i as [|i IH]; simpl; moves_auto.
Qed.

Lemma checkSerializing_id b (z : Serializer.t A (dump C X)) :
  Serializer.currentID (Serializer.checkSerializing b z).1 = Serializer.currentID z /\
  forall i, (Serializer.checkSerializing b z).2.2 = Some i -> i = Serializer.currentID z.
Proof.
  unfold Serializer.checkSerializing.
  destruct (Serializer.fileName z); [|destruct (_ =? _); simpl; split; congruence].
  destruct (_ =? _); [simpl; split; congruence|].
  destruct (Serializer.waitpid b z) as [[rpid st]|]; [|simpl; split; congruence].
  destruct (_ =? _); [|simpl; split; congruence]. destruct (_ =? _); simpl; split; congruence.
Qed.

Lemma serialize_id p (d : dump C X) i (z : Serializer.t A (dump C X)) :
  Serializer.currentID (Serializer.serialize p d i z) = i \/
  Serializer.serialize p d i z = z.
Proof.
  unfold Serializer.serialize. destruct (negb _); [by right|left].
  simpl. by destruct (Serializer.fileName z).
Qed.

Lemma deleteEntriesTo_compactable s :
  compactable s ->
  compactable (post (deleteEntriesTo (R := R) (Serializer.currentID (serializer s)) s)).
Proof.
  intros [Hok Hid]. unfold deleteEntriesTo, on_log, py_bind, py_call.
  rewrite log_since_ok by done. unfold post; simpl.
  destruct (Z.ltb_spec (Serializer.currentID (serializer s)) (first_index (raftLog s))) as [|Hge];
    [done|].
  set (k := Z.to_nat _). assert (k < length (raftLog s))%nat as Hk.
  { unfold k, last_index, py_len in *. lia. }
  pose proof (log_ok_drop _ k Hok Hk) as Hd. split; simpl; [done|].
  pose proof (log_ok_numbered _ Hok) as Hn. destruct (numbered_drop _ _ k Hn) as [Hdn|Hdn].
  - assert (first_index (drop k (raftLog s)) = first_index (raftLog s) + Z.of_nat k) as Hf.
    { destruct (drop k (raftLog s)); [done|]. by destruct Hdn. }
    unfold last_index. rewrite Hf. unfold py_len. rewrite length_drop.
    unfold k, last_index, py_len in *. lia.
  - by rewrite Hdn in Hd.
Qed.

Lemma compaction_starts_compactable e st :
  moves stays_compactable (compaction_starts (R := R) (F := F) conf e st).
Proof.
  intros s Hs. unfold compaction_starts, moves_at. destruct st; [|done..].
  rewrite post_get. unfold id. destruct (too_early conf e s); [done|]. rewrite post_set.
  destruct Hs as [Hok Hid]. unfold py_bind. set (s1 := set_forceLogCompaction false s).
  assert (log_ok (raftLog s1)) as Hok1 by done.
  destruct (entries_from (Some (raftLastApplied s - 1)) (Some 2) (raftLog s1)) as [es|er] eqn:Ees;
    [|by rewrite entries_from_ok in Ees].
  rewrite (getEntries_eq _ _ s1 _ Ees).
  destruct es as [|en0 [|en1 es]]; [done..|]. unfold post; simpl.
  destruct (serialize_id (fork_pid e) (object s, en1, en0) (logID en1) (serializer s)) as [Hn|Hn];
    (split; [done|]); simpl; cycle 1.
  { etrans; [apply Z.eq_le_incl; exact (f_equal Serializer.currentID Hn)|done]. }
  etrans; [apply Z.eq_le_incl; exact Hn|].
  rewrite entries_from_ok in Ees by done. injection Ees as Ees.
  destruct (_ <? _); [done|]. simpl in Ees.
  assert (en1 ∈ raftLog s) as Hin.
  { eapply subseteq_drop, subseteq_take. rewrite Ees. set_solver. }
  pose proof (numbered_elem _ _ _ (log_ok_numbered _ Hok) Hin). unfold last_index. lia.
Qed.

Lemma tryLogCompaction_compactable e :
  moves stays_compactable (tryLogCompaction (R := R) (F := F) conf e).
Proof.
  intros s Hs. unfold tryLogCompaction, py_bind at 1, py_call at 1.
  destruct (checkSerializing_id (waitpid_error e) (serializer s)) as [Hz Hi].
  destruct (Serializer.checkSerializing _ _) as [z st]. simpl in Hz, Hi. rewrite post_prefix.
  assert (compactable (set_serializer z s)) as Hs1.
  { destruct Hs as [Hok Hid]. split; simpl; [done|]. by rewrite Hz. }
  revert Hs1. rewrite <-Hz in Hi. change z with (serializer (set_serializer z s)) in Hi.
  revert Hi. generalize (set_serializer z s) as s1. clear. intros s1 Hi Hs1.
  apply (moves_at_bind stays_compactable); [..|done].
  - intros _. unfold compaction_done. destruct st as [[] [i|]]; try done.
    rewrite post_set, (Hi i eq_refl).
    by apply (deleteEntriesTo_compactable (set_lastSerializedTime (now e) s1)).
  - intros [] _. apply compaction_starts_compactable.
Qed.

(** A tick (election, commit, application, new commands of a leader, log
    compaction) leaves a log that is numbered without gaps and not empty, and
    that can still be cut at the end of the running dump. *)
Theorem tick_keeps_log s e :
  needLoadDumpFile s = false -> log_ok (raftLog s) ->
  Serializer.currentID (serializer s) <= last_index (raftLog s) ->
  let s' := post (onTick (R := R) conf e s) in
  log_ok (raftLog s') /\ Serializer.currentID (serializer s') <= last_index (raftLog s').
Proof.
  intros Hload Hok Hid. cut (compactable (post (onTick (R := R) conf e s))); [done|].
  unfold onTick. rewrite post_get. unfold id. rewrite Hload.
  match goal with |- compactable (post (?m s)) =>
    apply (fun Hm : moves stays_compactable m => Hm s); [|done] end.
  pose proof tick_election_compactable.
  pose proof (fun e => keeps_compactable _ (tick_leader_keeps conf e)).
  pose proof (keeps_compactable _ tick_apply_keeps).
  pose proof checkCommands_compactable. pose proof tryLogCompaction_compactable.
  unfold checkCommandsToApply. moves_auto.
Qed.

(** The term of a node never falls and its address and peers never change,
    whatever message arrives and in every tick, also when the method raises. *)
Theorem terms_rise s e n m :
  let s1 := post (onMessageReceived (R := R) conf e n m s) in
  let s2 := post (onTick (R := R) conf e s) in
  (raftCurrentTerm s <= raftCurrentTerm s1 /\ nodes s1 = nodes s /\
   selfNodeAddr s1 = selfNodeAddr s) /\
  (raftCurrentTerm s <= raftCurrentTerm s2 /\ nodes s2 = nodes s /\
   selfNodeAddr s2 = selfNodeAddr s).
Proof. split; [apply onMessageReceived_later|apply onTick_later]. Qed.

End follower.
