(* ===== verification/SyncObjSends.v ===== *)
(** * What a node sends

    [does Q m]: method [m] relates every state, by what it sends, to the state
    it leaves, also when it raises.  [steady]: the log, the term and the role stay,
    and every append_entries is a slice of the log. *)
From stdpp Require Import base gmap sets list.
From Stdlib Require Import ZArith QArith Lia.
From S2P Require Import Prelude PyList Serializer SyncObj SyncObjLog SyncObjMoves SyncObjTheorems.
Local Open Scope Z_scope.

(** ** Methods as traces *)
Section does.
Context {S E : Type}.

(** Relations that compose along effects. *)
Class TraceOrder (Q : S -> list E -> S -> Prop) : Prop := {
  trace_refl s : Q s [] s;
  trace_app s es s' es' s'' : Q s es s' -> Q s' es' s'' -> Q s (es ++ es') s'';
}.

Context (Q : S -> list E -> S -> Prop) `{!TraceOrder Q}.

Definition does_at {B} (m : PyM S E B) (s : S) : Prop := Q s (effects (m s)) (post (m s)).
Definition does {B} (m : PyM S E B) : Prop := forall s, does_at m s.

Lemma does_ret {B} (b : B) : does (py_return b).
Proof. intros s. apply trace_refl. Qed.
Lemma does_raise {B} e : does (py_raise (A := B) e).
Proof. intros s. apply trace_refl. Qed.
Lemma does_get {B} (f : S -> B) : does (py_get f).
Proof. intros s. apply trace_refl. Qed.
Lemma does_output es : (forall s, Q s es s) -> does (py_emit es).
Proof. intros He s. apply He. Qed.
Lemma does_set f : (forall s, Q s [] (f s)) -> does (py_set f).
Proof. intros Hf s. apply Hf. Qed.
Lemma does_update {B} (f : S -> S * outcome B) : (forall s, Q s [] (f s).1) -> does (py_call f).
Proof. intros Hf s. unfold does_at, py_call. specialize (Hf s). by destruct (f s). Qed.

Lemma does_at_bind {B D} (c : PyM S E B) (k : B -> PyM S E D) s :
  does_at c s -> (forall b, result (c s) = Ret b -> does_at (k b) (post (c s))) -> does_at (py_bind c k) s.
Proof.
  unfold does_at, py_bind, post, effects, result. destruct (c s) as [[s' es] [b|e]]; simpl; [|done].
  intros Hc Hk. specialize (Hk b eq_refl). destruct (k b s') as [[s'' es'] r]. simpl in *. by eapply trace_app.
Qed.
Lemma does_seq {B D} (c : PyM S E B) (k : B -> PyM S E D) : does c -> (forall b, does (k b)) -> does (py_bind c k).
Proof. intros Hc Hk s. apply does_at_bind; [done|]. intros. apply Hk. Qed.

(** Reads and assignments are executed. *)
Lemma does_at_get {B D} (f : S -> B) (k : B -> PyM S E D) s : does_at (k (f s)) s -> does_at (py_bind (py_get f) k) s.
Proof. intros Hk. apply does_at_bind; [apply does_get|]. by intros b [= <-]. Qed.
End does.

Create HintDb does.
Ltac does_step :=
  match goal with
  | |- does _ (py_return _) => apply does_ret; typeclasses eauto
  | |- does _ (py_raise _) => apply does_raise; typeclasses eauto
  | |- does _ (py_get _) => apply does_get; typeclasses eauto
  | |- does _ (py_emit _) => apply does_output; intros ?
  | |- does _ (py_set _) => apply does_set; intros ?
  | |- does _ (py_call _) => apply does_update; intros ?
  | |- does _ (py_bind _ _) => apply does_seq; [typeclasses eauto| |intros ?]
  | |- does _ (match ?x with _ => _ end) => destruct x
  | |- does _ _ => solve [eauto with does]
  end.
Ltac does_auto := repeat does_step.

Section sends.
Context {A C R X F : Type} `{Countable A} `{Machine C R X} `{Codec (dump C X)}.
Context (conf : SyncObjConf).
Implicit Types s : t A C X F.
Implicit Types e : env A.
Implicit Types fx : list (effect A C R F).
Implicit Types log es : list (entry C).

(** A log without gaps, or an emptied one. *)
Definition num_ok log : Prop := numbered (first_index log) log.

(** The message is a piece of the log [L]. *)
Definition slice (L : list (entry C)) (m : message C) : Prop :=
  match m with
  | append_entries _ _ es prev ptrm =>
      num_ok es /\ (forall en, en ∈ es -> log_at L (logID en) = Some en) /\
      match prev with
      | Some i => numbered (i + 1) es /\ exists p, log_at L i = Some p /\ ptrm = Some (term p)
      | None => ptrm = None
      end
  | _ => True
  end.
Definition is_append (m : message C) : bool := match m with append_entries _ _ _ _ _ => true | _ => false end.
Definition append_term (m : message C) : Z := match m with append_entries trm _ _ _ _ => trm | _ => 0 end.

(** Role, term and configuration. *)
Definition same_role s s' : Prop :=
  raftState s' = raftState s /\ raftCurrentTerm s' = raftCurrentTerm s /\ nodes s' = nodes s /\
  selfNodeAddr s' = selfNodeAddr s.

(** Nothing of interest changes; [b]: entries may be sent. *)
Definition steady (b : bool) (N : list A) s fx s' : Prop :=
  nodes s = N -> num_ok (raftLog s) ->
  same_role s s' /\ raftLog s' = raftLog s /\
  forall to m, Send to m ∈ fx -> to ∈ N /\
    (is_append m = true -> b = true /\ append_term m = raftCurrentTerm s /\ slice (raftLog s) m).

Lemma same_role_refl s : same_role s s.
Proof. done. Qed.
Lemma same_role_trans s1 s2 s3 : same_role s1 s2 -> same_role s2 s3 -> same_role s1 s3.
Proof. intros (?&?&?&?) (?&?&?&?). split_and!; congruence. Qed.

#[export] Instance steady_trace b N : TraceOrder (steady b N).
Proof.
  split.
  - intros s _ _. split_and!; [done..|]. by intros to m ?%elem_of_nil.
  - intros s es s' es' s'' Hs1 Hs2 HN Hok. destruct (Hs1 HN Hok) as (Hr & El & Hs).
    destruct Hr as (Er & Et & En & Ea). destruct (Hs2 ltac:(congruence) ltac:(by rewrite El)) as (Hr' & El' & Hs').
    split; [by eapply same_role_trans|]. split; [congruence|].
    intros to m [Hin|Hin]%elem_of_app; [by apply Hs|]. by rewrite <-Et, <-El; apply Hs'.
Qed.

Lemma steady_quiet b N s s' : same_role s s' -> raftLog s' = raftLog s -> steady b N s [] s'.
Proof. intros Hr El _ _. split_and!; [done..|]. by intros to m ?%elem_of_nil. Qed.

(** Messages without entries. *)
Lemma steady_send b N to m s : is_append m = false -> to ∈ N -> steady b N s [Send to m] s.
Proof.
  intros Hm Hto _ _. split_and!; [done..|]. intros to' m' Hin%list_elem_of_singleton. injection Hin as -> ->.
  split; [done|]. congruence.
Qed.
Lemma steady_callbacks b N fx s : (forall to m, Send to m ∉ fx) -> steady b N s fx s.
Proof. intros Hfx _ _. split_and!; [done..|]. intros to m Hin. by apply Hfx in Hin. Qed.
Lemma steady_weaken b N s fx s' : steady b N s fx s' -> steady true N s fx s'.
Proof.
  intros Hs HN Hok. destruct (Hs HN Hok) as (? & ? & Hm). split_and!; [done..|]. intros to m Hin.
  destruct (Hm to m Hin) as [? Ha]. split; [done|]. intros Hap. by destruct (Ha Hap).
Qed.

Ltac quiet :=
  try match goal with
  | |- steady _ _ _ [] _ => apply steady_quiet; [done|done]
  | |- steady _ _ _ [Callback _ _ _] _ =>
      apply steady_callbacks; intros ? ?; rewrite list_elem_of_singleton; discriminate
  end.
Abbreviation calm b N m := (does (E := effect A C R F) (steady b N) m).

Lemma does_weaken {B} b N (m : PyM (t A C X F) (effect A C R F) B) : calm b N m -> calm true N m.
Proof. intros Hm s. eapply steady_weaken, Hm. Qed.

Lemma for_each_does {B} Q `{!TraceOrder Q} (l : list B) (body : B -> PyM (t A C X F) (effect A C R F) unit) :
  (forall x, x ∈ l -> does Q (body x)) -> does Q (for_each l body).
Proof.
  intros Hb. induction l as [|x l IH]; simpl; [by apply does_ret|].
  apply does_seq; [done|apply Hb; by left|]. intros _. apply IH. intros y Hy. apply Hb. by right.
Qed.

Lemma on_log_calm {B} b N (f : list (entry C) -> outcome B) : calm b N (on_log f).
Proof. apply does_update. intros s. by apply steady_quiet. Qed.
Lemma getEntries_calm b N i c : calm b N (getEntries i c).
Proof. apply on_log_calm. Qed.
Lemma getCurrentLogIndex_calm b N : calm b N getCurrentLogIndex.
Proof. apply on_log_calm. Qed.
Lemma getCurrentLogTerm_calm b N : calm b N getCurrentLogTerm.
Proof. apply on_log_calm. Qed.
Lemma getPrev_calm b N i : calm b N (getPrevLogIndexTerm i).
Proof. unfold getPrevLogIndexTerm. pose proof getEntries_calm. does_auto. Qed.

(** [__send] sends to nodes only. *)
Lemma send_to_calm b N n m : is_append m = false -> calm b N (send_to n m).
Proof.
  intros Hm s. unfold send_to. apply does_at_get; [typeclasses eauto|].
  destruct (decide (n ∈ nodes s)) as [Hn|]; [|apply does_ret; typeclasses eauto].
  intros HN. by apply (steady_send b N n m s Hm); [rewrite <-HN|].
Qed.

(** ** Sending the log *)
Lemma num_ok_log_ok log en : num_ok log -> first_entry log = Ret en -> log_ok log.
Proof. by destruct log. Qed.

Lemma numbered_num_ok n log : numbered n log -> num_ok log.
Proof. unfold num_ok. destruct log as [|en log]; [done|]. intros [<- Hn]. done. Qed.

Lemma py_slice_segment log a b : 0 <= a -> exists k, py_slice log a b = take k (drop (Z.to_nat a) log).
Proof.
  intros Ha. exists (clip log b - clip log a)%nat. unfold py_slice. f_equal.
  by apply (py_slice_from_nonneg log a).
Qed.

(** A piece of the log that starts at [next]. *)
Lemma segment_slice log next k : num_ok log -> first_index log <= next ->
  let es := take k (drop (Z.to_nat (next - first_index log)) log) in
  numbered next es /\ forall en, en ∈ es -> log_at log (logID en) = Some en.
Proof.
  intros Hok Hge es.
  assert (numbered next es) as Hn.
  { destruct (numbered_drop _ _ (Z.to_nat (next - first_index log)) Hok) as [Hd|Hd]; subst es.
    - apply numbered_take. by replace next with (first_index log + Z.of_nat (Z.to_nat (next - first_index log))) at 1 by lia.
    - by rewrite Hd, take_nil. }
  split; [done|]. intros en [i Hi]%list_elem_of_lookup.
  pose proof (numbered_lookup _ _ _ _ Hn Hi) as Hid. subst es.
  rewrite lookup_take_Some, lookup_drop in Hi. destruct Hi as [Hi _].
  unfold log_at. rewrite (proj2 (Z.ltb_ge _ _)) by lia. rewrite <-Hi. f_equal. lia.
Qed.

Lemma entries_from_segment log next count es : num_ok log -> entries_from (Some next) count log = Ret es ->
  es = [] \/ (first_index log <= next /\ exists k, es = take k (drop (Z.to_nat (next - first_index log)) log)).
Proof.
  intros Hok. unfold entries_from. destruct log as [|en log']; [done|].
  change (first_entry (en :: log')) with (Ret en). change (first_index (en :: log')) with (logID en).
  cbv beta iota.
  set (log := en :: log') in *. destruct (Z.ltb_spec next (logID en)) as [|Hge]; intros E.
  { left. congruence. }
  right. assert (es = match count with Some c => py_slice log (next - logID en) (next - logID en + c)
    | None => py_slice_from log (next - logID en) end) as -> by congruence. split; [done|]. destruct count as [c|].
  - apply py_slice_segment. lia.
  - exists (length log). rewrite py_slice_from_nonneg by lia. rewrite take_ge; [done|]. rewrite length_drop. lia.
Qed.

(** What a round puts into its message. *)
Lemma round_slice log next count es prev trm ci :
  num_ok log -> (es = [] \/ entries_from (Some next) count log = Ret es) ->
  match prev with
  | (Some i, pt) => i = next - 1 /\ exists p, log_at log i = Some p /\ pt = Some (term p)
  | (None, pt) => pt = None
  end -> slice log (append_entries trm ci es prev.1 prev.2).
Proof.
  intros Hok Hes Hprev.
  assert (num_ok es /\ numbered next es /\ forall en, en ∈ es -> log_at log (logID en) = Some en) as (Hn1 & Hn2 & Hin).
  { destruct Hes as [->|Hes%entries_from_segment]; [by split_and!; [..|intros en ?%elem_of_nil]| |done].
    destruct Hes as [->|(Hge & k & ->)]; [by split_and!; [..|intros en ?%elem_of_nil]|].
    destruct (segment_slice log next k Hok Hge) as [Hn Hin]. split_and!; [by eapply numbered_num_ok|done|done]. }
  split_and!; [done..|]. destruct prev as [[i|] pt]; [|done]. destruct Hprev as (-> & p & Hp). cbn.
  replace (next - 1 + 1) with next by lia. eauto.
Qed.

Lemma getPrev_result log next s prev s' fx : raftLog s = log -> num_ok log ->
  getPrevLogIndexTerm next s = (s', fx, Ret prev) :> _ * list (effect A C R F) * _ ->
  match prev with
  | (Some i, pt) => i = next - 1 /\ exists p, log_at log i = Some p /\ pt = Some (term p)
  | (None, pt) => pt = None
  end.
Proof.
  intros El Hok. unfold getPrevLogIndexTerm, getEntries, on_log, py_bind, py_call. rewrite El.
  destruct (entries_from (Some (next - 1)) (Some 1) log) as [es|er] eqn:Ee; [|done].
  apply entries_from_segment in Ee as [->|(Hge & k & ->)]; [intros E; cbn in E; by simplify_eq| |done].
  destruct (segment_slice log (next - 1) k Hok Hge) as [Hn Hin].
  destruct (take k _) as [|p es]; intros E; cbn in E; simplify_eq; [done|]. split; [done|].
  exists p. destruct Hn as [Hp _]. rewrite <-Hp. split; [|done]. apply Hin. by left.
Qed.

Lemma steady_given {B} b N (m : PyM (t A C X F) (effect A C R F) B) s :
  (nodes s = N -> num_ok (raftLog s) -> does_at (steady b N) m s) -> does_at (steady b N) m s.
Proof. intros Hm HN Hok. by apply Hm. Qed.

Lemma steady_append N n (s : t A C X F) (m : message C) : n ∈ N ->
  append_term m = raftCurrentTerm s -> slice (raftLog s) m -> steady true N s [Send n m] s.
Proof.
  intros Hn Ht Hsl _ _. split_and!; [done..|]. intros to m' Hin%list_elem_of_singleton. by injection Hin as -> ->.
Qed.

(** The entries of a round, and the next index. *)
Definition round_entries (n : A) (next cur : Z) : PyM (t A C X F) (effect A C R F) (list (entry C)) :=
  if next <=? cur then
    let! es := getEntries (Some next) (Some (appendEntriesBatchSize conf)) in
    match last es with
    | None => py_raise IndexError
    | Some l => py_set (fun s => set_raftNextIndex (<[n := logID l + 1]> (raftNextIndex s)) s) ;;! py_return es
    end
  else py_return [].
Lemma round_entries_calm b N n next cur : calm b N (round_entries n next cur).
Proof. unfold round_entries. pose proof getEntries_calm. does_auto. by apply steady_quiet. Qed.
Lemma round_entries_result n next cur s es : result (round_entries n next cur s) = Ret es ->
  es = [] \/ entries_from (Some next) (Some (appendEntriesBatchSize conf)) (raftLog s) = Ret es.
Proof.
  unfold round_entries, getEntries, on_log, py_bind, py_call, py_return, py_raise, py_set, result.
  destruct (next <=? cur); [|intros E; left; cbn in E; congruence].
  destruct (entries_from _ _ _) as [l|]; cbn; [|done]. destruct (last l); cbn; [|done].
  intros E. right. congruence.
Qed.

Lemma send_round_calm N e n next b : n ∈ N -> calm true N (send_round conf e n next b).
Proof.
  intros Hn s. apply steady_given. intros HN Hok. unfold send_round.
  apply does_at_bind; [typeclasses eauto|apply on_log_calm|]. intros en _.
  replace (post _) with s by done. destruct (logID en <=? next).
  - apply does_at_bind; [typeclasses eauto|apply getPrev_calm|]. intros prev Hprev.
    destruct (getPrevLogIndexTerm next s) as [[s1 fx1] r1] eqn:Ep. cbn in Hprev. subst r1.
    assert (s1 = s) as ->.
    { revert Ep. unfold getPrevLogIndexTerm, getEntries, on_log, py_bind, py_call.
      destruct (entries_from _ _ _) as [[|]|]; intros E; cbn in E; by simplify_eq. }
    apply (getPrev_result _ _ _ _ _ _ eq_refl Hok) in Ep. cbn [post fst].
    apply does_at_bind; [typeclasses eauto|apply getCurrentLogIndex_calm|]. intros cur _.
    change (post _) with s. change (does_at (steady true N) (py_bind (round_entries n next cur) (fun entries =>
      let! s0 := py_get id in
      send n (append_entries (raftCurrentTerm s0) (raftCommitIndex s0) entries prev.1 prev.2) ;;! py_return b)) s).
    apply does_at_bind; [typeclasses eauto|apply round_entries_calm|]. intros es Hes%round_entries_result.
    destruct (round_entries_calm true N n next cur s HN Hok) as ((_ & Et & _ & _) & El & _).
    set (s2 := post (round_entries n next cur s)) in *.
    apply does_at_get; [typeclasses eauto|]. unfold id. apply does_at_bind; [typeclasses eauto| |].
    + match goal with |- does_at _ (send _ ?m) _ => change (steady true N s2 [Send n m] s2) end.
      apply steady_append; [done|done|]. rewrite El. apply (round_slice _ next (Some (appendEntriesBatchSize conf))); [done|done|].
      by destruct prev as [[i|] pt].
    + intros [] _. apply does_ret. typeclasses eauto.
  - match goal with |- does_at _ ?m ?x => apply (fun Hm : calm true N m => Hm x) end. unfold send.
    pose proof (on_log_calm true N (B := entry C)). does_auto.
    + match goal with |- context [Serializer.getTransmissionData ?a ?b ?c ?d] =>
        destruct (Serializer.getTransmissionData a b c d) end. by apply steady_quiet.
    + by apply steady_send.
    + by apply steady_quiet.
Qed.

Lemma send_rounds_calm N e n quota b1 b2 : n ∈ N -> calm true N (send_rounds conf e n quota b1 b2).
Proof.
  intros Hn. pose proof (fun next b => send_round_calm N e n next b Hn). pose proof (getCurrentLogIndex_calm true N).
  revert b1 b2. induction quota as [|quota IH]; intros b1 b2; simpl; does_auto.
Qed.
Lemma send_nodes_calm N e quota ns : ns ⊆ N -> calm true N (send_nodes conf e quota ns).
Proof.
  intros Hns. revert quota. induction ns as [|n ns IH]; intros quota; simpl; [does_auto|].
  assert (n ∈ N) as Hn by set_solver. pose proof (fun q b1 b2 => send_rounds_calm N e n q b1 b2 Hn).
  assert (forall q, calm true N (send_nodes conf e q ns)) by (intros q; apply IH; set_solver).
  does_auto. by apply steady_quiet.
Qed.
Lemma sendAppendEntries_calm N e : calm true N (sendAppendEntries conf e).
Proof.
  unfold sendAppendEntries. apply does_seq; [typeclasses eauto|by apply does_set; intros; apply steady_quiet|].
  intros [] s. apply steady_given. intros HN _. apply does_at_get; [typeclasses eauto|].
  apply send_nodes_calm. by rewrite HN.
Qed.

(** ** Methods that leave the log *)
Lemma onLeaderChanged_calm b N : calm b N onLeaderChanged.
Proof.
  unfold onLeaderChanged. does_auto; [|by apply steady_quiet].
  apply for_each_does; [typeclasses eauto|]. intros f _. does_auto. quiet.
Qed.
Lemma call_back_calm b N cb er : calm b N (call_back cb er).
Proof. unfold call_back. does_auto. quiet. Qed.
Lemma applyCommand_calm b N c o : calm b N (applyCommand conf c o).
Proof. unfold applyCommand. pose proof call_back_calm. does_auto. quiet. Qed.
Lemma subscribe_commit_calm b N i x : calm b N (subscribe_commit i x).
Proof. unfold subscribe_commit. does_auto. quiet. Qed.
Lemma pop_reply_calm b N i : calm b N (pop_reply i).
Proof. unfold pop_reply. does_auto. quiet. Qed.
Lemma commit_loop_calm b N fuel : calm b N (commit_loop fuel).
Proof. pose proof getCurrentLogIndex_calm. induction fuel; simpl; does_auto; quiet. Qed.
Lemma apply_entry_calm b N en : calm b N (apply_entry en).
Proof.
  unfold apply_entry, doApplyCommand. does_auto; quiet.
  - destruct (doApply _ _). quiet.
  - apply for_each_does; [typeclasses eauto|]. intros x _. does_auto. destruct (x.1 =? _); quiet.
Qed.
Lemma tick_apply_calm b N : calm b N tick_apply.
Proof.
  unfold tick_apply. pose proof getEntries_calm. pose proof apply_entry_calm. does_auto.
  apply for_each_does; [typeclasses eauto|]. auto.
Qed.
Lemma sendNextNodeIdx_calm b N n r : calm b N (sendNextNodeIdx n r).
Proof.
  unfold sendNextNodeIdx. pose proof getCurrentLogIndex_calm.
  apply does_seq; [typeclasses eauto|auto|]. intros i. by apply send_to_calm.
Qed.
End sends.
