(* ===== verification/SyncObjWorks.v ===== *)
(** * How a node's log grows

    [works]: the log grows at its end by entries of the own term, only while the
    node leads, and is cut at its beginning; every append_entries is a slice of
    the log.  [acts]: a change of the role or the term, then work. *)
From stdpp Require Import base gmap sets list.
From Stdlib Require Import ZArith QArith Lia.
From S2P Require Import Prelude PyList Serializer SyncObj SyncObjLog SyncObjMoves SyncObjTheorems SyncObjSends.
Local Open Scope Z_scope.

Section works.
Context {A C R X F : Type} `{Countable A} `{Machine C R X} `{Codec (dump C X)}.
Context (conf : SyncObjConf).
Implicit Types s : t A C X F.
Implicit Types e : env A.
Implicit Types fx : list (effect A C R F).
Implicit Types log es : list (entry C).

Definition new_entries s (es : list (entry C)) : Prop :=
  es = [] \/ (raftState s = LEADER /\ raftLog s <> [] /\ numbered (last_index (raftLog s) + 1) es /\
              Forall (fun en => term en = raftCurrentTerm s) es).

Definition works (N : list A) s fx s' : Prop :=
  nodes s = N -> num_ok (raftLog s) ->
  same_role s s' /\ num_ok (raftLog s') /\
  exists k es, (k <= length (raftLog s ++ es))%nat /\ raftLog s' = drop k (raftLog s ++ es) /\ new_entries s es /\
    forall to m, Send to m ∈ fx -> to ∈ N /\
      (is_append m = true -> raftState s = LEADER /\ append_term m = raftCurrentTerm s /\ slice (raftLog s ++ es) m).

Lemma num_ok_drop k log : num_ok log -> num_ok (drop k log).
Proof.
  intros Hok. destruct (numbered_drop _ _ k Hok) as [Hd|Hd]; [by eapply numbered_num_ok|by rewrite Hd].
Qed.
Lemma num_ok_app log es : num_ok log -> log <> [] -> numbered (last_index log + 1) es -> num_ok (log ++ es).
Proof. intros Hok Hne Hes. apply log_ok_numbered, log_ok_app; [|done]. by destruct log. Qed.
Lemma last_index_drop k log : num_ok log -> drop k log <> [] -> last_index (drop k log) = last_index log.
Proof.
  intros Hok Hne. destruct (numbered_drop _ _ k Hok) as [Hd|Hd]; [|done].
  destruct (drop k log) as [|en l] eqn:E; [done|]. destruct Hd as [Hen _]. unfold last_index. cbn [first_index].
  rewrite Hen. apply (f_equal length) in E. rewrite length_drop in E. unfold py_len. cbn in *. lia.
Qed.
Lemma log_at_app log es i en : log_at log i = Some en -> log_at (log ++ es) i = Some en.
Proof.
  unfold log_at. destruct log as [|e0 log]; [by destruct (_ <? _)|]. cbn [first_index app].
  destruct (i <? logID e0); [done|]. intros Hi. change (e0 :: log ++ es) with ((e0 :: log) ++ es).
  by apply lookup_app_l_Some.
Qed.
Lemma log_at_drop k log i en : num_ok log -> log_at (drop k log) i = Some en -> log_at log i = Some en.
Proof.
  intros Hok. unfold log_at at 1. destruct (Z.ltb_spec i (first_index (drop k log))) as [|Hge]; [done|].
  rewrite lookup_drop. intros Hi. pose proof (numbered_lookup _ _ _ _ Hok Hi) as Hid.
  destruct (numbered_drop _ _ k Hok) as [Hd|Hd]; cycle 1.
  { exfalso. assert (drop k log !! Z.to_nat (i - first_index (drop k log)) = Some en) as E by by rewrite lookup_drop.
    by rewrite Hd in E. }
  destruct (drop k log) as [|e0 l] eqn:E.
  { exfalso. assert (drop k log !! Z.to_nat (i - first_index (drop k log)) = Some en) as E' by (by rewrite lookup_drop, E).
    by rewrite E in E'. }
  destruct Hd as [He0 _]. cbn [first_index] in *. unfold log_at. rewrite (proj2 (Z.ltb_ge _ _)) by lia.
  rewrite <-Hi. f_equal. lia.
Qed.
Lemma slice_mono log log' m : (forall i en, log_at log i = Some en -> log_at log' i = Some en) ->
  slice log m -> slice log' m.
Proof.
  intros Hl. destruct m; try done. intros (Hn & Hin & Hp). split_and!; [done|by auto|].
  destruct prevLogIdx as [i|]; [|done]. destruct Hp as (Hn' & p & Hp & Ht). eauto 10.
Qed.

Lemma works_join s s1 (es es' : list (entry C)) k :
  num_ok (raftLog s) -> num_ok (raftLog s ++ es) -> (k <= length (raftLog s ++ es))%nat ->
  raftLog s1 = drop k (raftLog s ++ es) -> new_entries s es -> same_role s s1 -> new_entries s1 es' ->
  new_entries s (es ++ es') /\ num_ok (raftLog s ++ es ++ es').
Proof.
  intros Hok Hok1 Hk El Hnew (Er & Et & _) [->|(Hl & Hne & Hnum & Hterm)]; [by rewrite app_nil_r|].
  rewrite El in Hne, Hnum. rewrite last_index_drop in Hnum by done.
  assert (raftLog s ++ es <> []) as Hne' by (intros E; rewrite E, drop_nil in Hne; done).
  split; [|rewrite app_assoc; by apply num_ok_app]. right. destruct Hnew as [->|(Hl' & Hne0 & Hnum' & Hterm')].
  - rewrite app_nil_r in *. cbn. rewrite Er, Et in *. done.
  - split_and!; [done|done| |].
    + apply numbered_app. split; [done|]. rewrite last_index_app in Hnum by (by destruct (raftLog s)).
      by replace (last_index (raftLog s) + 1 + py_len es) with (last_index (raftLog s) + py_len es + 1) by lia.
    + apply Forall_app. split; [done|]. by rewrite Et in Hterm.
Qed.

Lemma new_entries_num_ok s es : num_ok (raftLog s) -> new_entries s es -> num_ok (raftLog s ++ es).
Proof. intros Hok [->|(_ & Hne & Hnum & _)]; [by rewrite app_nil_r|by apply num_ok_app]. Qed.

#[export] Instance works_trace N : TraceOrder (works N).
Proof.
  split.
  - intros s HN Hok. split_and!; [done..|]. exists 0%nat, []. rewrite app_nil_r.
    split_and!; [lia|done|by left|]. by intros to m ?%elem_of_nil.
  - intros s fx s' fx' s'' W1 W2 HN Hok.
    destruct (W1 HN Hok) as (Hr & Hok' & k & es & Hk & El & Hnew & Hfx).
    pose proof Hr as (Er & Et & En & Ea).
    destruct (W2 ltac:(congruence) Hok') as (Hr' & Hok'' & k' & es' & Hk' & El' & Hnew' & Hfx').
    destruct (works_join s s' es es' k) as [Hnews Hoks]; try done; [by apply new_entries_num_ok|].
    assert (raftLog s' ++ es' = drop k (raftLog s ++ es ++ es')) as Ej.
    { rewrite El, app_assoc, (drop_app_le (raftLog s ++ es)) by done. done. }
    split; [by eapply same_role_trans|]. split; [done|]. exists (k + k')%nat, (es ++ es'). split_and!.
    + rewrite Ej, length_drop in Hk'. rewrite !length_app in *. lia.
    + rewrite El', Ej, drop_drop. done.
    + done.
    + intros to m [Hin|Hin]%elem_of_app.
      * destruct (Hfx to m Hin) as [? Ha]. split; [done|]. intros (? & ? & Hsl)%Ha. split_and!; [done..|].
        eapply slice_mono, Hsl. intros i en Hi. rewrite app_assoc. by apply log_at_app.
      * destruct (Hfx' to m Hin) as [? Ha]. split; [done|]. intros (? & ? & Hsl)%Ha.
        split_and!; [congruence..|]. eapply slice_mono, Hsl. rewrite Ej. intros i en. by apply log_at_drop.
Qed.

Abbreviation toils N m := (does (E := effect A C R F) (works N) m).

Lemma steady_works b N s fx s' : steady b N s fx s' -> (b = true -> raftState s = LEADER) -> works N s fx s'.
Proof.
  intros Hs Hb HN Hok. destruct (Hs HN Hok) as (Hr & El & Hfx). split; [done|]. split; [by rewrite El|].
  exists 0%nat, []. rewrite app_nil_r. split_and!; [lia|done|by left|]. intros to m Hin.
  destruct (Hfx to m Hin) as [? Ha]. split; [done|]. intros (? & ? & ?)%Ha. by split_and!; auto.
Qed.
Lemma works_quiet N s s' : same_role s s' -> raftLog s' = raftLog s -> works N s [] s'.
Proof. intros Hr El. eapply (steady_works false); [by apply steady_quiet|done]. Qed.
Lemma calm_works {B} N (m : PyM (t A C X F) (effect A C R F) B) : does (steady false N) m -> toils N m.
Proof. intros Hm s. by eapply steady_works; [apply Hm|]. Qed.
Lemma leading_works {B} N (m : PyM (t A C X F) (effect A C R F) B) s :
  does (steady true N) m -> raftState s = LEADER -> does_at (works N) m s.
Proof. intros Hm Hs. by eapply steady_works; [apply Hm|]. Qed.

(** Cutting the log at its beginning. *)
Lemma works_drop N s s' k : same_role s s' -> (k <= length (raftLog s))%nat ->
  raftLog s' = drop k (raftLog s) -> works N s [] s'.
Proof.
  intros Hr Hk El HN Hok. split; [done|]. split; [rewrite El; by apply num_ok_drop|].
  exists k, []. rewrite app_nil_r. split_and!; [done..|by left|]. by intros to m ?%elem_of_nil.
Qed.
Lemma log_since_drop log i log' : log_since i log = Ret log' -> exists k, (k <= length log)%nat /\ log' = drop k log.
Proof.
  unfold log_since. destruct (first_entry log) as [en|]; simpl; [|done]. intros E. injection E as <-.
  destruct (Z.ltb_spec (i - logID en) 0); [by exists 0%nat; split; [lia|]|]. rewrite py_slice_from_nonneg by done.
  destruct (decide (Z.to_nat (i - logID en) <= length log)%nat) as [|Hgt]; [by eexists|].
  exists (length log). split; [done|]. rewrite !drop_ge by lia. done.
Qed.
Lemma deleteEntriesTo_works N i : toils N (deleteEntriesTo i).
Proof.
  intros s. unfold deleteEntriesTo. apply does_at_bind; [typeclasses eauto|by apply calm_works, on_log_calm|].
  unfold on_log, py_call, result, post. cbn. intros log' (k & Hk & ->)%log_since_drop.
  by apply (works_drop N s _ k).
Qed.

Lemma tryLogCompaction_works N e : toils N (tryLogCompaction conf e).
Proof.
  pose proof (deleteEntriesTo_works N). unfold tryLogCompaction. apply does_seq; [typeclasses eauto| |].
  { apply calm_works, does_update. intros s. destruct (Serializer.checkSerializing _ _). by apply steady_quiet. }
  intros st. apply does_seq; [typeclasses eauto| |intros _; apply calm_works].
  - unfold compaction_done. destruct st as [[] [i|]]; does_auto. by apply works_quiet.
  - pose proof (getEntries_calm (A := A) (C := C) (R := R) (X := X) (F := F) false N). unfold compaction_starts.
    does_auto; by apply steady_quiet.
Qed.

(** A leader appends one entry. *)
Lemma works_append N s (en : entry C) : raftState s = LEADER -> term en = raftCurrentTerm s ->
  current_index (raftLog s) = Ret (logID en - 1) -> works N s [] (set_raftLog (raftLog s ++ [en]) s).
Proof.
  intros Hl Ht Hi HN Hok. assert (raftLog s <> []) as Hne by (intros E; by rewrite E in Hi).
  assert (log_ok (raftLog s)) as Hlog by (by destruct (raftLog s)).
  rewrite current_index_ok in Hi by done. injection Hi as Hi.
  assert (numbered (last_index (raftLog s) + 1) [en]) as Hnum by (split; [lia|done]).
  split; [done|]. split; [by apply num_ok_app|]. exists 0%nat, [en]. split_and!; [lia|done| |].
  - right. split_and!; [done..|by repeat constructor].
  - by intros to m ?%elem_of_nil.
Qed.

Lemma process_command_works N e c o : toils N (process_command conf e c o).
Proof.
  pose proof (fun i x => calm_works N _ (subscribe_commit_calm (A := A) (C := C) (R := R) false N i x)).
  pose proof (fun n m H => calm_works N _ (send_to_calm (A := A) (C := C) (R := R) (X := X) (F := F) false N n m H)).
  pose proof (fun cb er => calm_works N _ (call_back_calm (A := A) (C := C) (R := R) (X := X) false N cb er)).
  intros s. unfold process_command. apply does_at_get; [typeclasses eauto|]. unfold id.
  destruct (raftState s) eqn:Es; cycle 2.
  - apply does_at_bind; [typeclasses eauto|by apply calm_works, getCurrentLogIndex_calm|].
    unfold getCurrentLogIndex, on_log, py_call, result. cbn. intros cur Hcur.
    apply does_at_bind; [typeclasses eauto| |].
    + apply works_append; [done|done|]. by rewrite Hcur; do 2 f_equal; cbn; lia.
    + intros [] _. apply leading_works; [|done]. pose proof (subscribe_commit_calm (A := A) (C := C) (R := R) (X := X) (F := F) true N).
      pose proof (send_to_calm (A := A) (C := C) (R := R) (X := X) (F := F) true N). pose proof (sendAppendEntries_calm conf (A := A) (C := C) (R := R) (X := X) (F := F) N).
      does_auto.
  - match goal with |- does_at _ ?m ?x => apply (fun Hm : toils N m => Hm x) end.
    does_auto; by apply works_quiet.
  - match goal with |- does_at _ ?m ?x => apply (fun Hm : toils N m => Hm x) end.
    does_auto; by apply works_quiet.
Qed.
Lemma checkCommands_works N e i : toils N (checkCommands conf e i).
Proof.
  pose proof (process_command_works N). induction i as [|i IH]; simpl; does_auto.
  by apply works_quiet.
Qed.
Lemma tick_leader_works N e : toils N (tick_leader conf e).
Proof.
  intros s. unfold tick_leader. apply does_at_get; [typeclasses eauto|]. unfold id.
  destruct (raftState s) eqn:Es; [apply does_ret; typeclasses eauto..|]. apply leading_works; [|done].
  pose proof (commit_loop_calm (A := A) (C := C) (R := R) (X := X) (F := F) true N).
  pose proof (getCurrentLogIndex_calm (A := A) (C := C) (R := R) (X := X) (F := F) true N).
  pose proof (sendAppendEntries_calm conf (A := A) (C := C) (R := R) (X := X) (F := F) N). does_auto.
Qed.

(** ** A change of role, then work *)
Definition turn s s' : Prop :=
  raftLog s' = raftLog s /\ nodes s' = nodes s /\ selfNodeAddr s' = selfNodeAddr s /\
  ((raftState s' = raftState s /\ raftCurrentTerm s' = raftCurrentTerm s) \/
   (raftCurrentTerm s < raftCurrentTerm s' /\ raftState s' <> LEADER) \/
   (raftCurrentTerm s' = raftCurrentTerm s /\ raftState s = CANDIDATE /\ raftState s' = LEADER)).
Definition no_entries (N : list A) fx : Prop := forall to m, Send to m ∈ fx -> to ∈ N /\ is_append m = false.

Definition turns (N : list A) s fx s' : Prop := nodes s = N -> num_ok (raftLog s) -> turn s s' /\ no_entries N fx.
Definition acts (N : list A) s fx s' : Prop := nodes s = N -> num_ok (raftLog s) ->
  exists s1 fx1 fx2, fx = fx1 ++ fx2 /\ turn s s1 /\ no_entries N fx1 /\ works N s1 fx2 s'.

Lemma turn_refl s : turn s s.
Proof. split_and!; [done..|by left]. Qed.
Lemma turns_quiet N s s' : turn s s' -> turns N s [] s'.
Proof. intros Ht _ _. split; [done|]. by intros to m ?%elem_of_nil. Qed.

Lemma turns_steady N s fx s' fx' s'' : turns N s fx s' -> steady false N s' fx' s'' -> turns N s (fx ++ fx') s''.
Proof.
  intros Ht Hs HN Hok. destruct (Ht HN Hok) as [Ht' Hfx]. destruct Ht' as (El & En & Ea & Hrole).
  destruct (Hs ltac:(congruence) ltac:(by rewrite El)) as ((Er & Et & En' & Ea') & El' & Hfx').
  split; [split_and!; [congruence..|by rewrite Er, Et]|]. intros to m [Hin|Hin]%elem_of_app; [by apply Hfx|].
  destruct (Hfx' to m Hin) as [? Ha]. split; [done|]. destruct (is_append m); [by destruct (Ha eq_refl)|done].
Qed.

Lemma steady_turns N s fx s' : steady false N s fx s' -> turns N s fx s'.
Proof. intros Hs. apply (turns_steady N s [] s fx s'); [apply turns_quiet, turn_refl|done]. Qed.

Lemma turns_bind {B D} N (c : PyM (t A C X F) (effect A C R F) B) (k : B -> PyM _ _ D) s :
  does_at (turns N) c s -> (forall b, does (steady false N) (k b)) -> does_at (turns N) (py_bind c k) s.
Proof.
  unfold does_at, py_bind, post, effects. destruct (c s) as [[s1 fx] [b|er]]; simpl; [|done].
  intros Hc Hk. specialize (Hk b s1). unfold does_at, post, effects in Hk.
  destruct (k b s1) as [[s2 fx'] r]. simpl in *. by eapply turns_steady.
Qed.

Lemma turns_acts N s fx s' : turns N s fx s' -> acts N s fx s'.
Proof.
  intros Ht HN Hok. destruct (Ht HN Hok) as [Ht' Hfx]. exists s', fx, []. rewrite app_nil_r.
  split_and!; [done..|apply trace_refl].
Qed.
Lemma works_acts N s fx s' : works N s fx s' -> acts N s fx s'.
Proof. intros Hw HN Hok. exists s, [], fx. split_and!; [done|apply turn_refl|by intros to m ?%elem_of_nil|done]. Qed.

Lemma acts_bind {B D} N (c : PyM (t A C X F) (effect A C R F) B) (k : B -> PyM _ _ D) s :
  does_at (turns N) c s -> (forall b, result (c s) = Ret b -> does_at (works N) (k b) (post (c s))) ->
  does_at (acts N) (py_bind c k) s.
Proof.
  unfold does_at, py_bind, post, effects, result. destruct (c s) as [[s1 fx] [b|er]]; simpl; cycle 1.
  { intros Hc _. by apply turns_acts. }
  intros Hc Hk. specialize (Hk b eq_refl). destruct (k b s1) as [[s2 fx'] r]. simpl in *.
  intros HN Hok. destruct (Hc HN Hok) as [Ht Hfx]. by exists s1, fx, fx'.
Qed.

(** Assignments are executed, the effects are those from [s0] on. *)
Lemma from_set {D} (P : list (effect A C R F) -> t A C X F -> Prop) f
    (k : unit -> PyM (t A C X F) (effect A C R F) D) s :
  does_at (fun _ => P) (k tt) (f s) -> does_at (fun _ => P) (py_bind (py_set f) k) s.
Proof. unfold does_at, py_bind, py_set, post, effects. by destruct (k tt (f s)) as [[s' fx] r]. Qed.
Lemma from_turn {D} N s s1 (m : PyM (t A C X F) (effect A C R F) D) :
  turn s s1 -> does (steady false N) m -> does_at (fun _ => turns N s) m s1.
Proof. intros Ht Hm. unfold does_at. eapply (turns_steady N s [] s1); [by apply turns_quiet|apply Hm]. Qed.
Lemma from_leader {D} N s s1 (m : PyM (t A C X F) (effect A C R F) D) :
  turn s s1 -> does_at (works N) m s1 -> does_at (fun _ => acts N s) m s1.
Proof.
  intros Ht Hm. unfold does_at. intros HN Hok. exists s1, [], (effects (m s1)).
  split_and!; [done..|by intros to ? ?%elem_of_nil|done].
Qed.

Lemma from_get {B D} (P : list (effect A C R F) -> t A C X F -> Prop) (f : t A C X F -> B)
    (k : B -> PyM (t A C X F) (effect A C R F) D) s :
  does_at (fun _ => P) (k (f s)) s -> does_at (fun _ => P) (py_bind (py_get f) k) s.
Proof. unfold does_at, py_bind, py_get, post, effects. by destruct (k (f s) s) as [[s' fx] r]. Qed.
Lemma turns_given {D} N (m : PyM (t A C X F) (effect A C R F) D) s :
  (nodes s = N -> does_at (fun _ => turns N s) m s) -> does_at (turns N) m s.
Proof. intros Hm HN. by apply Hm. Qed.

(** An election: a new term as a candidate, and requests for votes. *)
Lemma tick_election_turns N e : does (turns N) (tick_election (R := R) (X := X) (F := F) conf e).
Proof.
  intros s. apply turns_given. intros HN. unfold tick_election. apply from_get. unfold id.
  destruct (bool_decide _ && _); [|by apply steady_turns, steady_quiet].
  do 5 apply from_set. apply from_turn.
  - split_and!; [done..|]. right. left. cbn. split; [lia|done].
  - pose proof (onLeaderChanged_calm (A := A) (C := C) (R := R) (X := X) (F := F) false N). does_auto.
    apply for_each_does; [typeclasses eauto|]. intros n Hn. rewrite HN in Hn.
    pose proof (getCurrentLogIndex_calm (A := A) (C := C) (R := R) (X := X) (F := F) false N).
    pose proof (on_log_calm (A := A) (C := C) (R := R) (X := X) (F := F) (B := Z) false N current_term).
    unfold send, getCurrentLogTerm. does_auto. by apply steady_send.
Qed.

(** A vote. *)
Lemma on_request_vote_turns N e n trm i l :
  does (turns N) (on_request_vote (R := R) (X := X) (F := F) conf e n trm i l).
Proof.
  intros s. apply turns_given. intros HN. unfold on_request_vote. apply from_get. unfold id at 1.
  apply (turns_bind N).
  - destruct (Z.ltb_spec (raftCurrentTerm s) trm); [|by apply steady_turns, steady_quiet].
    apply turns_quiet. split_and!; [done..|]. right. left. done.
  - intros []. pose proof (getCurrentLogIndex_calm (A := A) (C := C) (R := R) (X := X) (F := F) false N).
    pose proof (on_log_calm (A := A) (C := C) (R := R) (X := X) (F := F) (B := Z) false N current_term).
    pose proof (send_to_calm (A := A) (C := C) (R := R) (X := X) (F := F) false N).
    unfold getCurrentLogTerm. does_auto. by apply steady_quiet.
Qed.

(** The candidate that is elected. *)
Lemma onBecomeLeader_acts N e s : raftState s = CANDIDATE ->
  does_at (acts N) (onBecomeLeader (R := R) conf e) s.
Proof.
  intros Hs. change (does_at (fun _ => acts N s) (onBecomeLeader (R := R) conf e) s). unfold onBecomeLeader.
  do 2 apply from_set. apply from_leader.
  { split_and!; [done..|]. right. right. done. }
  apply leading_works; [|done]. pose proof (sendAppendEntries_calm conf (A := A) (C := C) (R := R) (X := X) (F := F) N).
  pose proof (getCurrentLogIndex_calm (A := A) (C := C) (R := R) (X := X) (F := F) true N).
  does_auto. apply for_each_does; [typeclasses eauto|]. intros n _. does_auto; by apply steady_quiet.
Qed.
Lemma on_response_vote_acts N e n trm :
  does (acts N) (onMessageReceived (R := R) (X := X) (F := F) conf e n (response_vote trm)).
Proof.
  intros s. change (does_at (fun _ => acts N s) (onMessageReceived (R := R) conf e n (response_vote trm)) s).
  simpl. apply from_get. unfold id. destruct (bool_decide _ && _) eqn:E; [|by apply turns_acts, turns_quiet, turn_refl].
  apply andb_true_iff in E as [Ec%bool_decide_eq_true _]. apply from_set.
  destruct (half s <? _); [|apply turns_acts, turns_quiet; split_and!; [done..|by left]].
  intros HN Hok. destruct (onBecomeLeader_acts N e (set_votesCount (votesCount s + 1) s) Ec HN Hok)
    as (s1 & fx1 & fx2 & Efx & Ht & Hfx). exists s1, fx1, fx2. split; [exact Efx|]. by split.
Qed.

(** A tick without a dump file. *)
Lemma tick_works N e : toils N (tick_leader conf e ;;! tick_apply ;;! checkCommandsToApply conf e ;;! tryLogCompaction conf e).
Proof.
  pose proof (tick_leader_works N). pose proof (checkCommands_works N). pose proof (tryLogCompaction_works N).
  pose proof (calm_works N _ (tick_apply_calm (A := A) (C := C) (R := R) (X := X) (F := F) false N)).
  unfold checkCommandsToApply. does_auto.
Qed.
Lemma from_reset {D} (P : list (effect A C R F) -> t A C X F -> Prop) (b : bool) f
    (k : unit -> PyM (t A C X F) (effect A C R F) D) s :
  does_at (fun _ => P) (k tt) s -> does_at (fun _ => P) (k tt) (f s) ->
  does_at (fun _ => P) (py_bind (if b then py_return tt ;;! py_set f else py_return tt) k) s.
Proof.
  intros Hs Hf. destruct b; unfold does_at, py_bind, py_set, py_return, post, effects in *.
  - by destruct (k tt (f s)) as [[s' fx] r].
  - by destruct (k tt s) as [[s' fx] r].
Qed.
Lemma onTick_acts N e : fullDumpFile conf = None -> does (acts N) (onTick (R := R) (X := X) (F := F) conf e).
Proof.
  intros Hfile s. change (does_at (fun _ => acts N s) (onTick (R := R) conf e) s). unfold onTick. apply from_get.
  unfold id. rewrite Hfile, bool_decide_false by (by intros []). cbn [andb].
  assert (forall s1, does_at (acts N) (tick_election conf e ;;! tick_leader conf e ;;!
    tick_apply ;;! checkCommandsToApply conf e ;;! tryLogCompaction conf e) s1) as Hrest.
  { intros s1. apply acts_bind; [apply tick_election_turns|]. intros [] _. apply tick_works. }
  apply from_reset; [apply Hrest|].
  intros HN Hok. destruct (Hrest (set_needLoadDumpFile false s) HN Hok)
    as (s1 & fx1 & fx2 & Efx & Ht & Hfx). exists s1, fx1, fx2. split; [exact Efx|]. by split.
Qed.

(** The messages but for the entries and the snapshots. *)
Lemma onMessageReceived_acts N e n m : is_append m = false -> (forall trm ci c, m <> append_serialized trm ci c) ->
  does (acts N) (onMessageReceived (R := R) (X := X) (F := F) conf e n m).
Proof.
  intros Hm Hs. pose proof (pop_reply_calm (A := A) (C := C) (R := R) (X := X) (F := F) false N).
  assert (forall m' : PyM (t A C X F) (effect A C R F) unit, does (steady false N) m' -> does (acts N) m') as Hcalm
    by (intros m' Hm' s; by apply works_acts, calm_works).
  destruct m as [trm i l|trm|trm ci es prev ptrm|trm ci c|c [rid|]|rid er|rid i trm|i b]; try done.
  - intros s. apply turns_acts, on_request_vote_turns.
  - apply on_response_vote_acts.
  - by destruct (Hs trm ci c).
  - apply Hcalm, applyCommand_calm.
  - apply Hcalm, applyCommand_calm.
  - apply Hcalm. simpl. does_auto. apply steady_callbacks. intros to m. rewrite list_elem_of_singleton. done.
  - apply Hcalm. pose proof (subscribe_commit_calm (A := A) (C := C) (R := R) (X := X) (F := F) false N). simpl. does_auto.
  - apply Hcalm. simpl. does_auto; by apply steady_quiet.
Qed.

(** ** A follower's log *)

(** Beside the refusal of an old term: the log is kept up to some entry, or up
    to the previous entry, where the terms agree, and extended by the new ones. *)
Definition accepted log es (prev ptrm : option Z) log' : Prop :=
  (exists k, log' = take k log) \/
  exists i p, prev = Some i /\ log_at log i = Some p /\ ptrm = Some (term p) /\ log' = log_upto log i ++ es.

Lemma on_append_entries_follows s e n trm ci es prev ptrm :
  num_ok (raftLog s) -> n ∈ nodes s -> (forall i, prev = Some i -> numbered (i + 1) es) ->
  let x := on_append_entries (R := R) conf e n trm ci es prev ptrm s in
  no_entries (nodes s) (effects x) /\
  if raftCurrentTerm s <=? trm then
    raftState (post x) = FOLLOWER /\ raftCurrentTerm (post x) = trm /\ nodes (post x) = nodes s /\
    selfNodeAddr (post x) = selfNodeAddr s /\ accepted (raftLog s) es prev ptrm (raftLog (post x))
  else x = (s, [], Ret tt).
Proof.
  intros Hok Hn Hes x. assert (no_entries (nodes s) (leader_lost n s)) as Hlost.
  { intros to m. unfold leader_lost. destruct (decide _); [by intros ?%elem_of_nil|].
    by intros (f & [=] & _)%list_elem_of_fmap. }
  assert (forall i b, no_entries (nodes s) (leader_lost n s ++ [Send n (next_node_idx i b)])) as Hnext.
  { intros i b to m [Hin|Hin%list_elem_of_singleton]%elem_of_app; [by apply Hlost|]. by injection Hin as -> ->. }
  destruct (Z.leb_spec (raftCurrentTerm s) trm) as [Hle|Hlt]; cycle 1.
  { assert (x = (s, [], Ret tt)) as ->; [|split; [by intros to m ?%elem_of_nil|done]].
    subst x. unfold on_append_entries, py_bind, py_get. by rewrite (proj2 (Z.leb_gt _ _)) by lia. }
  destruct (raftLog s) as [|e0 l] eqn:El.
  - subst x. unfold on_append_entries, py_bind, py_get. rewrite (proj2 (Z.leb_le _ _)) by done.
    rewrite accept_leader_eq. unfold store_entries, getEntries, on_log, py_bind, py_call.
    cbn [following raftLog set_raftState set_raftCurrentTerm set_raftLeader set_commandsWaitingReply set_raftElectionDeadline].
    rewrite El. change (entries_from prev None []) with (@Raise (list (entry C)) IndexError). cbn.
    rewrite app_nil_r, El. split; [done|]. split_and!; [done..|]. left. by exists 0%nat.
  - rewrite <-El in *. assert (log_ok (raftLog s)) as Hlog by (by rewrite El in *).
    subst x. rewrite on_append_entries_eq by done. unfold append_outcome.
    destruct (prev_entry (raftLog s) prev) as [p|] eqn:Ep; cycle 1.
    { split; [apply Hlost || apply Hnext|]. split_and!; [done..|]. left. exists (length (raftLog s)). by rewrite take_ge. }
    destruct prev as [i|]; [|done]. cbn [prev_entry mbind option_bind] in Ep. cbn [default from_option id].
    case_bool_decide as Ht; [|destruct (i =? _)].
    + split; [apply Hlost || apply Hnext|]. split_and!; [done..|]. right. by exists i, p.
    + split; [apply Hlost || apply Hnext|]. split_and!; [done..|]. left. by exists 0%nat.
    + split; [apply Hlost || apply Hnext|]. split_and!; [done..|]. left. by eexists.
Qed.
End works.
