(* ===== verification/SyncObjLeader.v ===== *)
(** * Committing, applying and sending

    The leader's commit rule, the application of committed entries with the
    answers to their callers, and a leader's sending loop run against a
    follower. *)
From stdpp Require Import base gmap sets list strings.
From Stdlib Require Import ZArith QArith Lia.
From S2P Require Import Prelude PyList Serializer SyncObj SyncObjLog SyncObjMoves SyncObjTheorems.
Local Open Scope Z_scope.

Section leader.
Context {A C R X F : Type} `{Countable A} `{Machine C R X} `{Codec (dump C X)}.
Context (conf : SyncObjConf).
Implicit Types s : t A C X F.
Implicit Types e : env A.
Implicit Types en : entry C.

(** ** The commit rule *)

(** How many nodes hold entry [i], as far as the leader knows, itself included. *)
Definition holders (i : Z) s : Z :=
  1 + py_len (filter (fun n => i <= default 0 (raftMatchIndex s !! n)) (nodes s)).

(** More than half of the cluster. *)
Definition on_majority (i : Z) s : Prop := py_len (nodes s) + 1 < 2 * holders i s.

(** The leader has a match index for every node. *)
Definition matches_known s : Prop := forall n, n ∈ nodes s -> is_Some (raftMatchIndex s !! n).

Lemma replicas_eq i s : matches_known s -> replicas i s = Ret (holders i s).
Proof.
  unfold matches_known, replicas, holders. intros Hk.
  assert (forall ns k, (forall n, n ∈ ns -> is_Some (raftMatchIndex s !! n)) ->
    foldl (fun acc n => match acc with
      | Raise er => Raise er
      | Ret count => match raftMatchIndex s !! n with
                     | None => Raise KeyError
                     | Some m => Ret (if i <=? m then count + 1 else count)
                     end
      end) (Ret k) ns
    = Ret (k + py_len (filter (fun n => i <= default 0 (raftMatchIndex s !! n)) ns))) as Hgen;
    [|by apply Hgen].
  induction ns as [|n ns IH]; intros k Hns; simpl; [by rewrite Z.add_0_r|].
  destruct (Hns n) as [m Hm]; [by left|]. rewrite Hm. simpl.
  rewrite IH by (intros x Hx; apply Hns; by right). f_equal.
  destruct (Z.leb_spec i m).
  - rewrite filter_cons_True by (by rewrite Hm). unfold py_len. simpl. lia.
  - rewrite filter_cons_False by (rewrite Hm; simpl; lia). done.
Qed.

Lemma half_majority i s : (half s <? holders i s) = true <-> on_majority i s.
Proof.
  unfold half, on_majority. rewrite Z.ltb_lt.
  pose proof (Z.div_mod (py_len (nodes s) + 1) 2 ltac:(lia)).
  pose proof (Z.mod_pos_bound (py_len (nodes s) + 1) 2 ltac:(lia)). lia.
Qed.

Lemma commit_loop_spec fuel s :
  log_ok (raftLog s) -> matches_known s ->
  exists c, commit_loop fuel s = (set_raftCommitIndex c s, [], Ret tt)
              :> _ * list (effect A C R F) * _ /\
    raftCommitIndex s <= c <= Z.max (raftCommitIndex s) (last_index (raftLog s)) /\
    (forall i, raftCommitIndex s < i <= c -> on_majority i s) /\
    (last_index (raftLog s) - raftCommitIndex s <= Z.of_nat fuel ->
     c < last_index (raftLog s) -> ~ on_majority (c + 1) s).
Proof.
  revert s. induction fuel as [|fuel IH]; intros s Hok Hk.
  { exists (raftCommitIndex s). split; [by destruct s|]. split; [lia|]. split; lia. }
  simpl. unfold py_bind, py_get, id. rewrite getCurrentLogIndex_eq by done. simpl.
  destruct (Z.ltb_spec (raftCommitIndex s) (last_index (raftLog s))) as [Hlt|Hge]; cycle 1.
  { exists (raftCommitIndex s). split; [by destruct s|]. split; [lia|]. split; lia. }
  unfold py_call. rewrite replicas_eq by done. simpl.
  destruct (half s <? holders (raftCommitIndex s + 1) s) eqn:Eh; cycle 1.
  { exists (raftCommitIndex s). split; [by destruct s|]. split; [lia|]. split; [lia|].
    intros _ _ Hm%half_majority. congruence. }
  apply half_majority in Eh. unfold py_set. simpl.
  destruct (IH (set_raftCommitIndex (raftCommitIndex s + 1) s)) as (c & Hrun & Hc & Hall & Hend);
    [done|done|].
  simpl in *. rewrite Hrun. exists c. split; [done|]. split; [lia|]. split.
  - intros i Hi. destruct (decide (i = raftCommitIndex s + 1)) as [->|]; [done|].
    apply (Hall i). lia.
  - intros Hf Hlast. apply Hend; lia.
Qed.

(** C8: the leader raises its commit index exactly to the last entry below
    which every newly committed one is stored on a majority of the cluster, and
    the loop ends there: nothing is committed without a majority, and nothing
    that a majority stores next in line is left out. *)
Theorem leader_commit_rule s :
  log_ok (raftLog s) -> matches_known s -> raftCommitIndex s <= last_index (raftLog s) ->
  exists c,
    commit_loop (Z.to_nat (last_index (raftLog s) - raftCommitIndex s)) s
      = (set_raftCommitIndex c s, [], Ret tt) :> _ * list (effect A C R F) * _ /\
    raftCommitIndex s <= c <= last_index (raftLog s) /\
    (forall i, raftCommitIndex s < i <= c -> on_majority i s) /\
    (c < last_index (raftLog s) -> ~ on_majority (c + 1) s).
Proof.
  intros Hok Hk Hle.
  destruct (commit_loop_spec (Z.to_nat (last_index (raftLog s) - raftCommitIndex s)) s Hok Hk)
    as (c & Hrun & Hc & Hall & Hend).
  exists c. split; [done|]. split; [lia|]. split; [done|]. intros Hlt. apply Hend; lia.
Qed.

(** ** Applying *)

(** The answers to the callers of one command. *)
Definition answers (r : R) en (subscribers : list (Z * F)) : list (effect A C R F) :=
  (fun x => if x.1 =? term en then Callback x.2 (Some r) SUCCESS else Callback x.2 None DISCARDED)
    <$> subscribers.

(** The object and the answers after the commands of [es]. *)
Fixpoint apply_commands (waiting : gmap Z (list (Z * F))) (es : list (entry C)) (x : X)
  : X * list (effect A C R F) :=
  match es with
  | [] => (x, [])
  | en :: es =>
      match command en with
      | None => (x, [])
      | Some c =>
          let '(x, r) := doApply c x in
          let '(x', effs) := apply_commands waiting es x in
          (x', answers r en (default [] (waiting !! logID en)) ++ effs)
      end
  end.

Definition has_command en : Prop := is_Some (command en).

Lemma apply_entry_eq en c s :
  command en = Some c ->
  let '(x, r) := doApply c (object s) in
  apply_entry en s =
    (set_raftLastApplied (raftLastApplied s + 1)
       (set_object x (set_commandsWaitingCommit (delete (logID en) (commandsWaitingCommit s)) s)),
     answers r en (default [] (commandsWaitingCommit s !! logID en)), Ret tt).
Proof.
  intros Hc. destruct (doApply c (object s)) as [x r] eqn:Ex.
  unfold apply_entry, py_bind, py_get, py_set, doApplyCommand, py_call. simpl. rewrite Hc. simpl. rewrite Ex.
  rewrite for_each_emit. simpl. by rewrite app_nil_r.
Qed.

Lemma apply_entries_eq es n s :
  numbered n es -> Forall has_command es ->
  exists waiting,
    for_each es apply_entry s =
      (set_raftLastApplied (raftLastApplied s + py_len es)
         (set_object (apply_commands (commandsWaitingCommit s) es (object s)).1
            (set_commandsWaitingCommit waiting s)),
       (apply_commands (commandsWaitingCommit s) es (object s)).2, Ret tt) /\
    forall i, waiting !! i = if decide (n <= i < n + py_len es) then None
                             else commandsWaitingCommit s !! i.
Proof.
  revert n s. induction es as [|en es IH]; intros n s Hn Hc.
  { exists (commandsWaitingCommit s). simpl. rewrite Z.add_0_r. split; [by destruct s|].
    intros i. rewrite decide_False by (unfold py_len; simpl; lia). done. }
  apply Forall_cons in Hc as [[c Hc] Hcs]. destruct Hn as [He Hn]. simpl.
  pose proof (apply_entry_eq en c s Hc) as Hen.
  rewrite Hc. destruct (doApply c (object s)) as [x r]. unfold py_bind. rewrite Hen.
  match goal with |- context [for_each es apply_entry ?y] =>
    destruct (IH (n + 1) y Hn Hcs) as (waiting & -> & Hw) end.
  simpl in *.
  assert (Hskip : forall es' k y, numbered k es' -> n < k ->
    apply_commands (delete (logID en) (commandsWaitingCommit s)) es' y
      = apply_commands (commandsWaitingCommit s) es' y).
  { induction es' as [|en' es' IH']; intros k y Hk Hlt; [done|]. simpl. destruct Hk as [Hk Hk'].
    destruct (command en'); [|done]. destruct (doApply _ _).
    rewrite (IH' (k + 1)) by (done || lia). rewrite lookup_delete_ne by lia. done. }
  rewrite !(Hskip es (n + 1)) by (done || lia).
  exists waiting. destruct (apply_commands (commandsWaitingCommit s) es x) as [x' effs] eqn:Ex. simpl.
  split.
  - replace (raftLastApplied s + py_len (en :: es)) with (raftLastApplied s + 1 + py_len es)
      by (unfold py_len; simpl; lia). done.
  - intros i. rewrite Hw. assert (py_len (en :: es) = 1 + py_len es) as Hl by (unfold py_len; simpl; lia).
    rewrite Hl. pose proof (py_len_nonneg es).
    destruct (decide (n + 1 <= i < n + 1 + py_len es)), (decide (n <= i < n + (1 + py_len es)));
      try lia; try done.
    + assert (i = logID en) as -> by lia. by rewrite lookup_delete_eq.
    + rewrite lookup_delete_ne by lia. done.
Qed.

(** C12: a tick applies the committed entries that are not applied yet to the
    object, each once and in the order of the log; every caller that waits for
    one of them is answered exactly once, with the result when the entry has
    the term the caller was promised and with DISCARDED when another leader's
    entry took its place; afterwards the applied index is the commit index. *)
Theorem apply_committed s :
  log_ok (raftLog s) -> first_index (raftLog s) <= raftLastApplied s + 1 ->
  raftLastApplied s < raftCommitIndex s <= last_index (raftLog s) ->
  let es := filter (fun en => raftLastApplied s + 1 <= logID en < raftCommitIndex s + 1) (raftLog s) in
  Forall has_command es ->
  exists waiting,
    tick_apply s =
      (set_raftLastApplied (raftCommitIndex s)
         (set_object (apply_commands (commandsWaitingCommit s) es (object s)).1
            (set_commandsWaitingCommit waiting s)),
       (apply_commands (commandsWaitingCommit s) es (object s)).2, Ret tt) /\
    forall i, waiting !! i = if decide (raftLastApplied s < i <= raftCommitIndex s) then None
                             else commandsWaitingCommit s !! i.
Proof.
  intros Hok Hfirst Hcom es Hes. unfold tick_apply, py_bind, py_get, id. simpl.
  rewrite (proj2 (Z.ltb_lt _ _)) by lia.
  set (k := Z.to_nat (raftLastApplied s + 1 - first_index (raftLog s))).
  set (c := raftCommitIndex s - raftLastApplied s).
  pose proof (log_ok_numbered _ Hok) as Hn.
  assert (entries_from (Some (raftLastApplied s + 1)) (Some c) (raftLog s) = Ret es /\
    numbered (raftLastApplied s + 1) es /\ py_len es = c) as (Hent & Hnum & Hlen).
  { rewrite entries_from_ok by done. rewrite (proj2 (Z.ltb_ge _ _)), (proj2 (Z.leb_le _ _)) by lia.
    fold k. assert (raftLastApplied s + 1 = first_index (raftLog s) + Z.of_nat k) as Hk by lia.
    assert (es = take (Z.to_nat c) (drop k (raftLog s))) as ->; [|split_and!; [done|..]].
    - unfold es. rewrite Hk.
      trans (filter (fun en => logID en < first_index (raftLog s) + Z.of_nat k + c)
          (filter (fun en => first_index (raftLog s) + Z.of_nat k <= logID en) (raftLog s)));
        [rewrite list_filter_filter; apply list_filter_iff; intros; unfold c; lia|].
      rewrite filter_from by done.
      destruct (numbered_drop _ _ k Hn) as [Hd| ->]; [|by rewrite take_nil].
      rewrite <-(filter_below _ _ (Z.to_nat c) Hd). apply list_filter_iff. intros; lia.
    - rewrite Hk. destruct (numbered_drop _ _ k Hn) as [Hd| ->]; [by apply numbered_take|].
      by rewrite take_nil.
    - unfold last_index, py_len in *. rewrite length_take, length_drop. unfold c, k. lia. }
  rewrite Hent.
  destruct (apply_entries_eq es _ s Hnum Hes) as (waiting & -> & Hw). rewrite Hlen.
  exists waiting. unfold c. split.
  - by replace (raftLastApplied s + (raftCommitIndex s - raftLastApplied s)) with (raftCommitIndex s) by lia.
  - intros i. rewrite Hw, Hlen. unfold c.
    destruct (decide (raftLastApplied s + 1 <= i < _)), (decide (raftLastApplied s < i <= _));
      lia || done.
Qed.

(** ** Replication *)

(** What a follower makes of a message whose previous entry it has. *)
Lemma follower_accepts (f : t A C X F) e l trm ci es i p :
  log_ok (raftLog f) -> l ∈ nodes f -> raftCurrentTerm f <= trm ->
  log_at (raftLog f) i = Some p -> numbered (i + 1) es ->
  let f' := post (onMessageReceived (R := R) conf e l
                    (append_entries trm ci es (Some i) (Some (term p))) f) in
  raftLog f' = log_upto (raftLog f) i ++ es /\ raftCommitIndex f' = Z.min ci (i + py_len es) /\
  nodes f' = nodes f /\ raftCurrentTerm f' = trm /\ log_ok (raftLog f').
Proof.
  intros Hok Hl Hle Hp Hes f'. subst f'.
  simpl onMessageReceived. rewrite on_append_entries_eq by (done || (by intros ? [= <-])).
  unfold append_outcome, prev_entry. simpl. rewrite Hp, bool_decide_true by done. simpl. split_and!; try done.
  apply log_at_Some in Hp. destruct (last_index_upto (raftLog f) i Hok Hp) as (_ & Hlast & Hoku).
  apply log_ok_app; [done|]. by rewrite Hlast.
Qed.

(** The previous entry that a leader announces. *)
Lemma getPrevLogIndexTerm_eq next s p :
  log_ok (raftLog s) -> log_at (raftLog s) (next - 1) = Some p ->
  getPrevLogIndexTerm next s = (s, [], Ret (Some (next - 1), Some (term p)))
    :> _ * list (effect A C R F) * _.
Proof.
  intros Hok Hp. unfold getPrevLogIndexTerm, py_bind.
  unfold log_at in Hp. destruct (Z.ltb_spec (next - 1) (first_index (raftLog s))) as [|Hge]; [done|].
  rewrite (getEntries_eq _ _ s [p]); [done|].
  rewrite entries_from_ok by done. rewrite (proj2 (Z.ltb_ge _ _)) by lia. simpl.
  by rewrite (drop_S _ _ _ Hp).
Qed.

(** One round with entries left to send, and the round of an empty message. *)
Lemma send_round_eq e n next b s p :
  log_ok (raftLog s) -> log_at (raftLog s) (next - 1) = Some p ->
  0 < appendEntriesBatchSize conf ->
  let es := take (Z.to_nat (appendEntriesBatchSize conf))
              (drop (Z.to_nat (next - first_index (raftLog s))) (raftLog s)) in
  let next' := next + py_len es in
  exists s',
    send_round conf e n next b s
      = (s', [Send n (append_entries (raftCurrentTerm s) (raftCommitIndex s) es
                        (Some (next - 1)) (Some (term p)))], Ret b)
        :> _ * list (effect A C R F) * _ /\
    raftLog s' = raftLog s /\ raftCurrentTerm s' = raftCurrentTerm s /\
    raftCommitIndex s' = raftCommitIndex s /\
    (raftNextIndex s !! n = Some next -> raftNextIndex s' !! n = Some next') /\
    numbered next es /\ (next <= last_index (raftLog s) -> 0 < py_len es).
Proof.
  intros Hok Hp Hb es next'. pose proof (log_at_Some _ _ _ Hp) as Hrange.
  pose proof (log_ok_numbered _ Hok) as Hnum.
  assert (numbered next es) as Hes.
  { unfold es. destruct (numbered_drop _ _ (Z.to_nat (next - first_index (raftLog s))) Hnum)
      as [Hd| ->]; [|by rewrite take_nil].
    replace (first_index _ + _) with next in Hd by lia. by apply numbered_take. }
  assert (py_len es = Z.min (appendEntriesBatchSize conf) (last_index (raftLog s) + 1 - next)) as Hlen.
  { unfold es, py_len, last_index, py_len in *. rewrite length_take, length_drop. lia. }
  unfold send_round, py_bind at 1, on_log, py_call.
  destruct (first_entry_ok _ Hok) as (en & -> & Hen). rewrite Hen.
  rewrite (proj2 (Z.leb_le _ _)) by lia. unfold py_bind at 1.
  rewrite (getPrevLogIndexTerm_eq next s p) by done. unfold py_bind at 1.
  rewrite getCurrentLogIndex_eq by done. unfold py_bind at 1.
  destruct (Z.leb_spec next (last_index (raftLog s))) as [Hle|Hgt].
  - unfold py_bind at 1. rewrite (getEntries_eq _ _ s es); cycle 1.
    { rewrite entries_from_ok by done. rewrite (proj2 (Z.ltb_ge _ _)), (proj2 (Z.leb_le _ _)) by lia.
      done. }
    destruct (last es) as [l|] eqn:El; [|apply last_None in El; rewrite El in Hlen; unfold py_len in Hlen; simpl in Hlen; lia].
    unfold py_bind, py_set, py_return, py_get, id, send, py_emit. simpl.
    eexists. split; [reflexivity|]. simpl. split_and!; try done; [|lia].
    intros _. rewrite lookup_insert_eq. rewrite (numbered_last _ _ _ Hes El). unfold next'. f_equal. lia.
  - assert (es = []) as Ees.
    { apply length_zero_iff_nil. unfold py_len in Hlen. lia. }
    unfold py_bind, py_return, py_get, id, send, py_emit. simpl. rewrite Ees.
    exists s. split_and!; try done; [|lia].
    unfold next'. rewrite Ees. unfold py_len. simpl. by rewrite Z.add_0_r.
Qed.

(** A follower that receives the messages one after the other. *)
Definition receive_all e (l : A) (ms : list (message C)) (f : t A C X F) : t A C X F :=
  foldl (fun f m => post (onMessageReceived (R := R) conf e l m f)) f ms.

Definition agree_at (i : Z) s (f : t A C X F) : Prop :=
  exists p q, log_at (raftLog s) i = Some p /\ log_at (raftLog f) i = Some q /\ term p = term q.

Lemma log_upto_all (log : list (entry C)) i : last_index log <= i -> log_upto log i = log.
Proof. intros Hi. unfold log_upto, last_index, py_len in *. apply take_ge. lia. Qed.

Lemma log_at_app_last (log es : list (entry C)) l :
  log_ok log -> numbered (last_index log + 1) es -> last es = Some l ->
  log_at (log ++ es) (last_index log + py_len es) = Some l.
Proof.
  intros Hok Hes Hl. unfold log_at.
  assert (first_index (log ++ es) = first_index log) as -> by (by destruct log).
  assert (0 < py_len es) by (destruct es; [done|unfold py_len; simpl; lia]).
  pose proof (log_ok_len _ Hok). unfold last_index.
  rewrite (proj2 (Z.ltb_ge _ _)) by lia.
  rewrite lookup_app_r by (unfold py_len in *; lia).
  rewrite last_lookup in Hl. rewrite <-Hl. f_equal. unfold py_len in *. lia.
Qed.

Lemma log_at_last_sent next s l es :
  log_ok (raftLog s) -> first_index (raftLog s) <= next ->
  es = take (length es) (drop (Z.to_nat (next - first_index (raftLog s))) (raftLog s)) ->
  last es = Some l -> log_at (raftLog s) (next + py_len es - 1) = Some l.
Proof.
  intros Hok Hfirst Hes Hl. rewrite last_lookup in Hl.
  assert (length es <> 0)%nat by (intros E; apply length_zero_iff_nil in E; by subst).
  unfold log_at. rewrite (proj2 (Z.ltb_ge _ _)) by (unfold py_len; lia).
  rewrite Hes, lookup_take_lt, lookup_drop in Hl by (rewrite <-Hes; lia).
  rewrite <-Hes in Hl. rewrite <-Hl. f_equal. unfold py_len. lia.
Qed.

Lemma log_at_upto (log : list (entry C)) i : log_ok log -> first_index log <= i ->
  log_at (log_upto log i) i = log_at log i.
Proof.
  intros Hok Hi. unfold log_at, log_upto.
  assert (first_index (take (Z.to_nat (i - first_index log + 1)) log) = first_index log) as ->.
  { destruct log; [done|]. by replace (Z.to_nat (i - first_index (e :: log) + 1))
      with (S (Z.to_nat (i - first_index (e :: log)))) by lia. }
  rewrite (proj2 (Z.ltb_ge _ _)) by lia. rewrite lookup_take_lt by lia. done.
Qed.

Lemma take_length_take {B} k (l : list B) : take k l = take (length (take k l)) l.
Proof.
  rewrite length_take. destruct (decide (k <= length l)%nat).
  - by rewrite Nat.min_l by lia.
  - rewrite Nat.min_r by lia. by rewrite !take_ge by lia.
Qed.

(** The follower after one message of the loop. *)
Lemma follower_round next s (f : t A C X F) e l es (p q : entry C) :
  log_ok (raftLog f) -> l ∈ nodes f -> raftCurrentTerm f <= raftCurrentTerm s ->
  log_at (raftLog f) (next - 1) = Some q -> term p = term q -> numbered next es ->
  let f1 := post (onMessageReceived (R := R) conf e l
    (append_entries (raftCurrentTerm s) (raftCommitIndex s) es (Some (next - 1)) (Some (term p))) f) in
  raftLog f1 = log_upto (raftLog f) (next - 1) ++ es /\
  raftCommitIndex f1 = Z.min (raftCommitIndex s) (next + py_len es - 1) /\
  nodes f1 = nodes f /\ raftCurrentTerm f1 = raftCurrentTerm s /\ log_ok (raftLog f1) /\
  last_index (raftLog f1) = next + py_len es - 1.
Proof.
  intros Hok Hl Hterm Hq Hpq Hes f1.
  assert (numbered (next - 1 + 1) es) as Hes' by (by replace (next - 1 + 1) with next by lia).
  destruct (follower_accepts f e l (raftCurrentTerm s) (raftCommitIndex s) es (next - 1) q)
    as (E1 & E2 & E3 & E4 & E5); [done..|].
  rewrite <-Hpq in E1, E2, E3, E4, E5. fold f1 in E1, E2, E3, E4, E5.
  destruct (last_index_upto (raftLog f) (next - 1) Hok) as (_ & Hlast & Hoku);
    [by apply log_at_Some in Hq|].
  split_and!; [done|rewrite E2; f_equal; lia|done..|].
  rewrite E1, last_index_app, Hlast by done. lia.
Qed.

(** After a round both sides agree on the last entry sent. *)
Lemma agree_after_round next s (f : t A C X F) k :
  let es := take k (drop (Z.to_nat (next - first_index (raftLog s))) (raftLog s)) in
  log_ok (raftLog s) -> log_ok (raftLog f) -> numbered next es -> agree_at (next - 1) s f ->
  exists x y, log_at (raftLog s) (next + py_len es - 1) = Some x /\
    log_at (log_upto (raftLog f) (next - 1) ++ es) (next + py_len es - 1) = Some y /\ term x = term y.
Proof.
  intros es Hok Hokf Hes (p & q & Hp & Hq & Hpq).
  pose proof (log_at_Some _ _ _ Hp) as Hrange. pose proof (log_at_Some _ _ _ Hq) as Hrangef.
  destruct (last es) as [x|] eqn:Elast.
  - exists x, x. split_and!; [|replace (next + py_len es - 1) with (next - 1 + py_len es) by lia|done].
    + apply log_at_last_sent; [done|lia|apply take_length_take|done].
    + destruct (last_index_upto (raftLog f) (next - 1) Hokf Hrangef) as (_ & Hlast & Hoku).
      rewrite <-Hlast at 2. apply log_at_app_last; [done| |done].
      rewrite Hlast. by replace (next - 1 + 1) with next by lia.
  - apply last_None in Elast. rewrite Elast, app_nil_r. unfold py_len; simpl.
    rewrite Z.add_0_r. exists p, q. split_and!; [done| |done].
    rewrite log_at_upto by (done || lia). done.
Qed.

(** One round, and what the follower makes of its message. *)
Lemma replicate_round next s (f : t A C X F) e e' n l :
  log_ok (raftLog s) -> raftNextIndex s !! n = Some next -> 0 < appendEntriesBatchSize conf ->
  log_ok (raftLog f) -> l ∈ nodes f -> raftCurrentTerm f <= raftCurrentTerm s ->
  agree_at (next - 1) s f ->
  let es := take (Z.to_nat (appendEntriesBatchSize conf))
              (drop (Z.to_nat (next - first_index (raftLog s))) (raftLog s)) in
  exists s' m,
    send_round conf e n next false s = (s', [Send n m], Ret false) :> _ * list (effect A C R F) * _ /\
    raftLog s' = raftLog s /\ raftCurrentTerm s' = raftCurrentTerm s /\
    raftCommitIndex s' = raftCommitIndex s /\ raftNextIndex s' !! n = Some (next + py_len es) /\
    let f1 := post (onMessageReceived (R := R) conf e' l m f) in
    raftLog f1 = log_upto (raftLog f) (next - 1) ++ es /\
    raftCommitIndex f1 = Z.min (raftCommitIndex s) (next + py_len es - 1) /\
    nodes f1 = nodes f /\ raftCurrentTerm f1 = raftCurrentTerm s /\ log_ok (raftLog f1) /\
    last_index (raftLog f1) = next + py_len es - 1 /\ agree_at (next + py_len es - 1) s' f1.
Proof.
  intros Hok Hnext Hb Hokf Hl Hterm Hagree es. pose proof Hagree as (p & q & Hp & Hq & Hpq).
  destruct (send_round_eq e n next false s p Hok Hp Hb)
    as (s' & Hrun & El & Et & Ec & En & Hes & _). specialize (En Hnext).
  eexists s', _. split; [exact Hrun|]. split_and!; [done..|]. intros f1.
  destruct (follower_round next s f e' l es p q Hokf Hl Hterm Hq Hpq Hes)
    as (Ef & Efc & Efn & Eft & Efo & Efl). 
  split_and!; [done..|]. unfold agree_at. subst f1. fold es. rewrite El, Ef. by apply agree_after_round.
Qed.

(** The entries of a round and those of the rounds after it. *)
Lemma rounds_join (log : list (entry C)) next k :
  first_index log <= next ->
  let rest := drop (Z.to_nat (next - first_index log)) log in
  take k rest ++ drop (Z.to_nat (next + py_len (take k rest) - first_index log)) log = rest.
Proof.
  intros Hn rest.
  replace (Z.to_nat (next + py_len (take k rest) - first_index log))
    with (Z.to_nat (next - first_index log) + length (take k rest))%nat by (unfold py_len; lia).
  rewrite <-drop_drop. fold rest. rewrite take_length_take at 1. apply take_drop.
Qed.

(** The loop is over when the node has the whole log. *)
Lemma send_rounds_over quota s n e next :
  log_ok (raftLog s) -> raftNextIndex s !! n = Some next -> last_index (raftLog s) < next ->
  exists rest, send_rounds conf e n quota false false s = (s, [], Ret rest) :> _ * list (effect A C R F) * _.
Proof.
  intros Hok Hnext Hlt. destruct quota; eexists; simpl; unfold py_bind at 1, py_get at 1, id;
    rewrite Hnext; unfold py_bind at 1; rewrite getCurrentLogIndex_eq by done;
    rewrite (proj2 (Z.leb_gt _ _)) by lia; reflexivity.
Qed.

(** A round that is due, and the rest of the loop. *)
Lemma send_rounds_step quota (single : bool) s n e next s' m :
  log_ok (raftLog s) -> raftNextIndex s !! n = Some next ->
  single = true \/ next <= last_index (raftLog s) ->
  send_round conf e n next false s = (s', [Send n m], Ret false) :> _ * list (effect A C R F) * _ ->
  send_rounds conf e n quota single false s =
    match quota with
    | O => (s', [Send n m], Ret O)
    | S quota =>
        let '(s2, es, r) := send_rounds (R := R) conf e n quota false false s' in
        (s2, Send n m :: es, r)
    end.
Proof.
  intros Hok Hnext Hdue Hrun.
  assert ((next <=? last_index (raftLog s)) || single || false = true) as Hc.
  { destruct Hdue as [->|Hle%Z.leb_le]; [by rewrite orb_true_r|by rewrite Hle]. }
  destruct quota as [|quota]; simpl; unfold py_bind at 1, py_get at 1, id; rewrite Hnext;
    unfold py_bind at 1; rewrite getCurrentLogIndex_eq by done; rewrite Hc;
    unfold py_bind; rewrite Hrun; [done|].
  by destruct (send_rounds conf e n quota false false s') as [[s2 es] r].
Qed.

Lemma send_rounds_replicate quota next (single : bool) s (f : t A C X F) e e' n l :
  log_ok (raftLog s) -> raftNextIndex s !! n = Some next ->
  next <= last_index (raftLog s) + 1 -> 0 < appendEntriesBatchSize conf ->
  last_index (raftLog s) + 1 - next <= appendEntriesBatchSize conf * (Z.of_nat quota + 1) ->
  log_ok (raftLog f) -> l ∈ nodes f -> raftCurrentTerm f <= raftCurrentTerm s ->
  agree_at (next - 1) s f ->
  (single = false -> last_index (raftLog f) = next - 1 /\
     raftCommitIndex f = Z.min (raftCommitIndex s) (next - 1)) ->
  exists s' ms rest,
    send_rounds conf e n quota single false s = (s', Send n <$> ms, Ret rest)
      :> _ * list (effect A C R F) * _ /\
    raftLog s' = raftLog s /\ raftNextIndex s' !! n = Some (last_index (raftLog s) + 1) /\
    raftLog (receive_all e' l ms f)
      = log_upto (raftLog f) (next - 1)
        ++ drop (Z.to_nat (next - first_index (raftLog s))) (raftLog s) /\
    raftCommitIndex (receive_all e' l ms f)
      = Z.min (raftCommitIndex s) (last_index (raftLog s)).
Proof.
  revert next single s f. induction quota as [|quota IH];
    intros next single s f Hok Hnext Hle Hb Hquota Hokf Hl Hterm Hagree Hsingle;
    pose proof Hagree as (p & q & Hp%log_at_Some & _).
  all: destruct (decide (single = true \/ next <= last_index (raftLog s))) as [Hdue|Hover]; cycle 1.
  1,3: assert (next = last_index (raftLog s) + 1) as -> by lia;
    destruct (Hsingle ltac:(destruct single; naive_solver)) as [Hlast Hci];
    match goal with |- context [send_rounds _ _ _ ?k _ _] =>
      destruct (send_rounds_over k s n e _ Hok Hnext) as [rest' Hrun']; [lia|] end;
    destruct single; [naive_solver|]; exists s, [], rest'; split; [exact Hrun'|]; simpl;
    rewrite drop_ge by (unfold last_index, py_len in *; lia);
    rewrite app_nil_r, log_upto_all by lia; split_and!; [done..|]; rewrite Hci; f_equal; lia.
  all: destruct (replicate_round next s f e e' n l Hok Hnext Hb Hokf Hl Hterm Hagree)
      as (s' & m & Hrun & El & Et & Ec & En & Ef & Efc & Efn & Eft & Efo & Efl & Hagree');
    rewrite (send_rounds_step _ single s n e next s' m Hok Hnext Hdue Hrun);
    set (rest := drop (Z.to_nat (next - first_index (raftLog s))) (raftLog s)) in *;
    set (es := take (Z.to_nat (appendEntriesBatchSize conf)) rest) in *;
    assert (py_len rest = last_index (raftLog s) + 1 - next) as Hrest
      by (unfold rest, py_len, last_index, py_len in *; rewrite length_drop; lia);
    set (f1 := post (onMessageReceived _ _ _ m f)) in *;
    assert (py_len es = Z.min (appendEntriesBatchSize conf) (py_len rest)) as Hes
      by (unfold es, py_len; rewrite length_take; lia).
  all: swap 1 2.
  - assert (es = rest) as Hall by (unfold es; apply take_ge; unfold py_len in Hrest; lia).
    exists s', [m], O. split; [reflexivity|]. unfold receive_all. cbn [foldl]. fold f1.
    rewrite Ef, Efc, En, Hall, Hrest. split_and!; try done; f_equal; lia.
  - destruct (IH (next + py_len es) false s' f1) as (s2 & ms & left & Hrun' & Hr1 & Hr2 & Hr3 & Hr4);
      rewrite ?El, ?Efn, ?Eft, ?Et; try done; try lia.
    rewrite Hrun'. exists s2, (m :: ms), left. rewrite El in *. split_and!; [done..| |].
    + change (receive_all e' l (m :: ms) f) with (receive_all e' l ms f1).
      rewrite Hr3, log_upto_all by lia. rewrite Ef, <-app_assoc. f_equal. apply rounds_join. lia.
    + change (receive_all e' l (m :: ms) f) with (receive_all e' l ms f1). by rewrite Hr4, Ec.
Qed.

Lemma log_at_join (lf ls : list (entry C)) next i :
  log_ok lf -> log_ok ls -> first_index lf <= next - 1 <= last_index lf ->
  first_index ls <= next ->
  log_at (log_upto lf (next - 1) ++ drop (Z.to_nat (next - first_index ls)) ls) i
    = if i <? next then log_at lf i else log_at ls i.
Proof.
  intros Hf Hs Hi Hn. destruct (last_index_upto lf (next - 1) Hf Hi) as (Hfirst & Hlast & Hok).
  unfold log_at at 1.
  assert (first_index (log_upto lf (next - 1) ++ drop (Z.to_nat (next - first_index ls)) ls)
    = first_index lf) as -> by (rewrite <-Hfirst; by destruct (log_upto lf (next - 1))).
  assert (length (log_upto lf (next - 1)) = Z.to_nat (next - first_index lf)) as Hlen.
  { unfold last_index, py_len in Hlast. rewrite Hfirst in Hlast. lia. }
  destruct (Z.ltb_spec i (first_index lf)), (Z.ltb_spec i next); try lia.
  - unfold log_at. by rewrite (proj2 (Z.ltb_lt _ _)) by lia.
  - rewrite lookup_app_l by lia. unfold log_at, log_upto. rewrite (proj2 (Z.ltb_ge _ _)) by lia.
    by rewrite lookup_take_lt by lia.
  - rewrite lookup_app_r by lia. rewrite lookup_drop. unfold log_at.
    rewrite (proj2 (Z.ltb_ge _ _)) by lia. f_equal. lia.
Qed.


End leader.
