(* ===== verification/SyncObjCluster.v ===== *)
(** * A PySyncObj cluster

    Nodes that run SyncObj over an asynchronous network.  A node answers every
    vote request of its term that comes with an up-to-date log, without
    remembering an earlier vote; a concrete run shows where that leads. *)
From stdpp Require Import base gmap sets list strings relations.
From Stdlib Require Import ZArith QArith Lia.
From S2P Require Import Prelude PyList Serializer SyncObj SyncObjLog SyncObjMoves SyncObjTheorems SyncObjLeader.
Local Open Scope Z_scope.

Section cluster.
Context {A C R X F : Type} `{Countable A} `{Machine C R X} `{Codec (dump C X)}.
Context (conf : SyncObjConf).

Record world : Type := MkWorld {
  members : gmap A (t A C X F);
  net : list (A * A * message C);
}.

(** The messages among the effects of node [u], sender first. *)
Definition messages (u : A) (es : list (effect A C R F)) : list (A * A * message C) :=
  omap (fun ef => match ef with Send to m => Some (u, to, m) | Callback _ _ _ => None end) es.

(** [Deliver k]: the [k]-th message ever sent arrives, once more. *)
Inductive action : Type :=
| Deliver (k : nat) (e : env A)
| Tick (u : A) (e : env A)
| Submit (u : A) (c : C) (callback : origin A F).

Definition on_member (u : A) (m : PyM (t A C X F) (effect A C R F) unit) (w : world) : option world :=
  s ← members w !! u;
  Some (MkWorld (<[u := post (m s)]> (members w)) (net w ++ messages u (effects (m s)))).

Definition do_action (a : action) (w : world) : option world :=
  match a with
  | Deliver k e =>
      '(src, dst, m) ← net w !! k; on_member dst (onMessageReceived conf e src m) w
  | Tick u e => on_member u (onTick conf e) w
  | Submit u c callback => on_member u (applyCommand conf c callback) w
  end.

(** Every node has a clock and a random number of its own. *)
Definition start (ids : list A) (x : X) (e : A -> env A) : world :=
  MkWorld (list_to_map ((fun u => (u, init conf u (filter (fun v => v <> u) ids) x None (e u))) <$> ids)) [].

Definition step (w w' : world) : Prop := exists a, do_action a w = Some w'.

Definition run (acts : list action) (w : world) : option world :=
  foldl (fun ow a => w ← ow; do_action a w) (Some w) acts.

Lemma run_steps acts w w' : run acts w = Some w' -> rtc step w w'.
Proof.
  unfold run. revert w. induction acts as [|a acts IH]; intros w; simpl.
  { intros [= ->]. apply rtc_refl. }
  destruct (do_action a w) as [w1|] eqn:E; simpl.
  - intros Hrun. apply rtc_l with w1; [by exists a|]. by apply IH.
  - assert (foldl (fun ow a => w ← ow; do_action a w) None acts = None) as ->; [|done].
    clear. by induction acts.
Qed.

(** ** Votes *)
Implicit Types s : t A C X F.

(** A request of a later term makes the node a follower of that term; then it
    may vote unless it is the leader of this very term. *)
Lemma request_adopts_term s trm : exists s1,
  (if raftCurrentTerm s <? trm
   then py_set (set_raftCurrentTerm trm) ;;! py_set (set_raftState FOLLOWER)
   else py_return tt) s = (s1, [], Ret tt) :> _ * list (effect A C R F) * _ /\
  raftLog s1 = raftLog s /\ nodes s1 = nodes s /\
  (bool_decide (raftState s1 <> LEADER) && (raftCurrentTerm s1 <=? trm) = true <->
     (raftCurrentTerm s < trm \/ (raftCurrentTerm s = trm /\ raftState s <> LEADER))).
Proof.
  destruct (Z.ltb_spec (raftCurrentTerm s) trm) as [Hlt|Hge].
  - eexists. split; [reflexivity|]. split_and!; [done|done|]. simpl.
    rewrite Z.leb_refl. split; [by left|done].
  - exists s. split_and!; [done..|].
    rewrite andb_true_iff, bool_decide_eq_true, Z.leb_le. split.
    + intros [? ?]. right. split; [lia|done].
    + intros [?|[? ?]]; [lia|]. split; [done|lia].
Qed.

(** The comparison of the logs. *)
Lemma behind_false lastTerm lastIdx pt pi :
  (lastTerm <? pt) || ((lastTerm =? pt) && (lastIdx <? pi)) = false <->
  pt < lastTerm \/ (pt = lastTerm /\ pi <= lastIdx).
Proof.
  destruct (Z.ltb_spec lastTerm pt), (Z.eqb_spec lastTerm pt), (Z.ltb_spec lastIdx pi); cbn; split; (done || lia).
Qed.

(** Whom a node votes for: the vote goes out exactly when the request is of
    the node's term or later, the node is not the leader of that very term, and
    the candidate's log is not behind in last term, then length. Nothing else
    counts, in particular no earlier vote: a second request of the same term
    from another candidate is answered like the first. *)
Theorem vote_rule s e n trm lastIdx lastTerm p :
  log_ok (raftLog s) -> n ∈ nodes s -> last (raftLog s) = Some p ->
  let x := onMessageReceived (R := R) conf e n (request_vote trm lastIdx lastTerm) s in
  result x = Ret tt /\
  (effects x = [Send n (response_vote trm)] \/ effects x = []) /\
  (effects x = [Send n (response_vote trm)] <->
     (raftCurrentTerm s < trm \/ (raftCurrentTerm s = trm /\ raftState s <> LEADER)) /\
     (term p < lastTerm \/ (term p = lastTerm /\ last_index (raftLog s) <= lastIdx))).
Proof.
  intros Hok Hn Hp x.
  enough (exists s' es, x = (s', es, Ret tt) /\
    (es = [Send n (response_vote trm)] \/ es = []) /\
    (es = [Send n (response_vote trm)] <->
     (raftCurrentTerm s < trm \/ (raftCurrentTerm s = trm /\ raftState s <> LEADER)) /\
     (term p < lastTerm \/ (term p = lastTerm /\ last_index (raftLog s) <= lastIdx))))
    as (s' & es & -> & Hes) by done.
  subst x. simpl. unfold on_request_vote. rewrite bind_get. unfold id.
  destruct (request_adopts_term s trm) as (s1 & Hs1 & El & En & Hcond).
  assert (current_term (raftLog s1) = Ret (term p)) as Hterm
    by (unfold current_term, last_entry; by rewrite El, py_item_last, Hp).
  assert (current_index (raftLog s1) = Ret (last_index (raftLog s))) as Hidx
    by (rewrite El; by apply current_index_ok).
  rewrite (bind_pure _ _ _ _ _ Hs1), bind_get. unfold id. setoid_rewrite <-Hcond. setoid_rewrite <-behind_false.
  destruct (bool_decide (raftState s1 <> LEADER) && (raftCurrentTerm s1 <=? trm)); cycle 1.
  { eexists _, _. split; [reflexivity|]. split; [by right|]. split; [done|]. by intros []. }
  unfold getCurrentLogTerm, getCurrentLogIndex, on_log, py_bind, py_call, py_set, py_get, send_to.
  rewrite Hterm, Hidx.
  destruct ((lastTerm <? term p) || (lastTerm =? term p) && (lastIdx <? last_index (raftLog s))).
  - eexists _, _. split; [reflexivity|]. split; [by right|]. split; [done|]. by intros [].
  - assert (n ∈ nodes (set_raftElectionDeadline (now e + generateRaftTimeout conf e) s1)) as Hn1
      by (simpl; by rewrite En).
    unfold py_bind, py_get. rewrite decide_True by done.
    eexists _, _. split; [reflexivity|]. by split; [left|].
Qed.

(** ** Answers that are exceptions *)

(** While a dump is being made there is no chunk to send: a leader whose
    node needs entries from before the log sends it a message without a
    snapshot, again and again until the period is over; the node takes it for
    a message with entries and fails on the missing field. *)
Theorem snapshot_not_ready s (f : t A C X F) e e' n l next b :
  log_ok (raftLog s) -> next < first_index (raftLog s) -> Serializer.pid (serializer s) <> 0 ->
  raftCurrentTerm f <= raftCurrentTerm s ->
  let m := append_serialized (raftCurrentTerm s) (raftCommitIndex s) Serializer.NoChunk in
  send_round conf e n next b s = (s, [Send n m], Ret false) :> _ * list (effect A C R F) * _ /\
  result (onMessageReceived (R := R) conf e' l m f) = Raise KeyError.
Proof.
  intros Hok Hnext Hpid Hterm m. split.
  - unfold send_round, py_bind at 1, on_log, py_call.
    destruct (first_entry_ok _ Hok) as (en & -> & Hen). rewrite Hen.
    rewrite (proj2 (Z.leb_gt _ _)) by lia. unfold py_bind, py_get, id, send, py_emit, py_return.
    unfold Serializer.getTransmissionData. rewrite (proj2 (Z.eqb_neq _ _) Hpid). simpl.
    by destruct s.
  - simpl. unfold on_append_serialized, py_bind, py_get. rewrite (proj2 (Z.leb_le _ _) Hterm).
    by rewrite accept_leader_eq.
Qed.

(** A full command queue: a local caller is told QUEUE_FULL and the queue
    stays as it is, but for a command forwarded by another node the handler
    itself fails, since the origin of a forwarded command cannot be called. *)
Theorem full_queue s e n c :
  queue_full conf (commandsQueue s) = true ->
  (forall f : F, applyCommand conf c (Local f) s
     = (s, [Callback f None QUEUE_FULL], Ret tt) :> _ * list (effect A C R F) * _) /\
  (forall rid, onMessageReceived conf e n (apply_command c rid) s
     = (s, [], Raise TypeError) :> _ * list (effect A C R F) * _).
Proof.
  intros Hfull. split.
  - intros f. unfold applyCommand, py_bind, py_get. by rewrite Hfull.
  - intros [rid|]; simpl; unfold applyCommand, py_bind, py_get; by rewrite Hfull.
Qed.

End cluster.
