(* ===== verification/SyncObjMatching.v ===== *)
(** * Log matching

    Runs in which every term has one leader, named by [lead]: two nodes whose
    logs have an entry of the same term at the same index have the same log up
    to there.  The invariant keeps every log there has been ([hist]). *)
From stdpp Require Import base gmap sets list strings relations.
From Stdlib Require Import ZArith QArith Lia.
From S2P Require Import Prelude PyList Serializer SyncObj SyncObjLog SyncObjMoves SyncObjTheorems SyncObjSends SyncObjWorks.
From S2P Require Import SyncObjLeader SyncObjCluster.
Local Open Scope Z_scope.

(** ** Logs that match *)
Section logs.
Context {C : Type}.
Implicit Types L K : list (entry C).

(** Equal terms at an index, equal entries up to there. *)
Definition matches L K : Prop :=
  forall i a b, log_at L i = Some a -> log_at K i = Some b -> term a = term b ->
  forall j c d, j <= i -> log_at L j = Some c -> log_at K j = Some d -> c = d.

(** A log that holds nothing but entries of [L]. *)
Definition piece L' L : Prop := forall j a, log_at L' j = Some a -> log_at L j = Some a.

Lemma matches_refl L : matches L L.
Proof. intros i a b _ _ _ j c d _. congruence. Qed.
Lemma matches_sym L K : matches L K -> matches K L.
Proof. intros Hm i a b Ha Hb Ht j c d Hj Hc Hd. by rewrite (Hm i b a Hb Ha (eq_sym Ht) j d c Hj Hd Hc). Qed.
Lemma matches_piece L' K' L K : matches L K -> piece L' L -> piece K' K -> matches L' K'.
Proof. intros Hm HL HK i a b Ha Hb Ht j c d Hj Hc Hd. eapply (Hm i a b); eauto. Qed.

Lemma piece_refl L : piece L L.
Proof. by intros j a. Qed.
Lemma piece_drop k L : num_ok L -> piece (drop k L) L.
Proof. intros Hok j a. by apply log_at_drop. Qed.
Lemma piece_take k L : piece (take k L) L.
Proof.
  intros j a. unfold log_at. destruct L as [|e0 L]; [by rewrite take_nil|].
  destruct k as [|k]; [by destruct (_ <? _)|]. cbn [take first_index]. destruct (j <? logID e0); [done|].
  change (e0 :: take k L) with (take (S k) (e0 :: L)). by intros [? _]%lookup_take_Some.
Qed.

Lemma log_at_nonempty L i a : log_at L i = Some a -> L <> [].
Proof. intros Ha ->. unfold log_at in Ha. by destruct (_ <? _). Qed.
Lemma num_ok_log L i a : num_ok L -> log_at L i = Some a -> log_ok L.
Proof. intros Hok Ha%log_at_nonempty. by destruct L. Qed.

(** No gaps between two entries. *)
Lemma log_at_between L i j m a b : num_ok L -> log_at L j = Some a -> log_at L m = Some b ->
  j <= i <= m -> is_Some (log_at L i).
Proof.
  intros Hok Ha Hb Hi. apply log_at_in; [by eapply num_ok_log|].
  apply log_at_Some in Ha, Hb. lia.
Qed.

(** The two parts of an extended log. *)
Lemma log_at_upto_app L i es j a : log_ok L -> first_index L <= i <= last_index L -> numbered (i + 1) es ->
  log_at (log_upto L i ++ es) j = Some a ->
  (j <= i /\ log_at L j = Some a) \/ (i < j /\ a ∈ es /\ logID a = j).
Proof.
  intros Hok Hi Hes. destruct (last_index_upto L i Hok Hi) as (Hf & Hl & Hoku). unfold log_at at 1.
  assert (first_index (log_upto L i ++ es) = first_index L) as -> by (rewrite <-Hf; by destruct (log_upto L i)).
  destruct (Z.ltb_spec j (first_index L)) as [|Hj]; [done|].
  assert (py_len (log_upto L i) = i - first_index L + 1) as Hlen by (unfold last_index in Hl; lia).
  unfold py_len in Hlen. intros [Ha|[Hge Ha]]%lookup_app_Some.
  - left. pose proof (lookup_lt_Some _ _ _ Ha). split; [lia|]. unfold log_at.
    rewrite (proj2 (Z.ltb_ge _ _)) by lia. by apply lookup_take_Some in Ha as [? _].
  - right. split; [lia|]. split; [by eapply list_elem_of_lookup_2|].
    rewrite (numbered_lookup _ _ _ _ Hes Ha). lia.
Qed.

(** Entries of [L'] after an entry on which [L] and [L'] agree. *)
Lemma matches_extend L L' K i es p p' : num_ok K -> num_ok L -> num_ok L' ->
  log_at L i = Some p -> log_at L' i = Some p' -> term p = term p' ->
  numbered (i + 1) es -> (forall en, en ∈ es -> log_at L' (logID en) = Some en) ->
  matches L K -> matches L' K -> matches (log_upto L i ++ es) K.
Proof.
  intros HokK HokL HokL' Hp Hp' Hpp Hes Hin Hm Hm' m a b Ha Hb Hab j c d Hj Hc Hd.
  assert (log_ok L) as HL by (by eapply num_ok_log). pose proof (log_at_Some _ _ _ Hp) as Hi.
  apply log_at_upto_app in Ha as [[Hmi Ha]|(Hmi & Hae & Ham)]; [| |done..].
  - apply log_at_upto_app in Hc as [[_ Hc]|(? & _)]; [|lia|done..]. by eapply (Hm m a b).
  - assert (log_at L' m = Some a) as Ha' by (rewrite <-Ham; by apply Hin).
    apply log_at_upto_app in Hc as [[Hji Hc]|(Hji & Hce & Hcj)]; [| |done..].
    + destruct (log_at_between K i j m d b) as [q Hq]; [done..|lia|].
      assert (p' = q) as <- by (apply (Hm' m a b Ha' Hb Hab i); [lia|done|done]).
      by eapply (Hm i p p').
    + apply (Hm' m a b Ha' Hb Hab j); [exact Hj| |exact Hd]. rewrite <-Hcj. by apply Hin.
Qed.
End logs.

Section matching.
Context {A C R X F : Type} `{Countable A} `{Machine C R X} `{Codec (dump C X)}.
Context (conf : SyncObjConf) (lead : Z -> A).
Implicit Types s : t A C X F.
Implicit Types w : world (A := A) (C := C) (X := X) (F := F).
Implicit Types L K : list (entry C).

(** ** Runs with one leader per term *)

(** Who leads a term is who [lead] says. *)
Definition leaders_led w : Prop :=
  forall u s, members w !! u = Some s -> raftState s = LEADER -> lead (raftCurrentTerm s) = u.

(** The action does not bring a snapshot. *)
Definition no_snapshot (a : action (A := A) (C := C) (F := F)) w : Prop :=
  match a with
  | Deliver k _ => forall src dst trm ci c, net w !! k <> Some (src, dst, append_serialized trm ci c)
  | _ => True
  end.
Definition led_step w w' : Prop :=
  exists a, do_action (R := R) conf a w = Some w' /\ no_snapshot a w /\ leaders_led w'.

(** Executed with its checks. *)
#[export] Instance leaders_led_dec w : Decision (leaders_led w).
Proof.
  refine (cast_if (decide (map_Forall (fun u s => raftState s = LEADER -> lead (raftCurrentTerm s) = u) (members w))));
    unfold leaders_led, map_Forall in *; naive_solver.
Defined.
Definition brings_snapshot (a : action (A := A) (C := C) (F := F)) w : bool :=
  match a with
  | Deliver k _ => match net w !! k with Some (_, _, append_serialized _ _ _) => true | _ => false end
  | _ => false
  end.
Definition do_led (a : action) w : option world :=
  w' ← do_action (R := R) conf a w;
  if brings_snapshot a w then None else if decide (leaders_led w') then Some w' else None.
Definition run_led (acts : list action) w : option world :=
  foldl (fun ow a => w ← ow; do_led a w) (Some w) acts.

Lemma do_led_Some a w w' : do_led a w = Some w' -> do_action (R := R) conf a w = Some w' /\ no_snapshot a w /\ leaders_led w'.
Proof.
  unfold do_led. intros (w1 & Ha & Hw)%bind_Some. destruct (brings_snapshot a w) eqn:Eb; [done|].
  destruct (decide (leaders_led w1)); [|done]. injection Hw as <-. split_and!; [done| |done].
  destruct a; try done. cbn in *. intros src dst trm ci c E. by rewrite E in Eb.
Qed.
Lemma do_led_step a w w' : do_led a w = Some w' -> led_step w w'.
Proof. intros Ha%do_led_Some. by exists a. Qed.
Lemma run_led_steps acts w w' : run_led acts w = Some w' -> rtc led_step w w'.
Proof.
  unfold run_led. revert w. induction acts as [|a acts IH]; intros w; cbn [foldl].
  { intros [= ->]. apply rtc_refl. }
  cbn [mbind option_bind]. destruct (do_led a w) as [w1|] eqn:E.
  - intros Hrun. apply rtc_l with w1; [by eapply do_led_step|]. by apply IH.
  - assert (foldl (fun ow a => w ← ow; do_led a w) None acts = None) as ->; [|done]. clear. by induction acts.
Qed.

(** ** The invariant *)

(** Who may have written entry [i] of term [trm]: a node that has left the term,
    or that leads it and holds the entry, or has cut it. *)
Definition created s (i trm : Z) : Prop :=
  trm < raftCurrentTerm s \/
  (raftCurrentTerm s = trm /\ raftState s = LEADER /\ (i <= last_index (raftLog s) \/ raftLog s = [])).

Record inv (ids : list A) (hist : list (entry C) -> Prop) w : Prop := {
  inv_nodes u s : members w !! u = Some s -> u ∈ ids /\ nodes s = filter (fun v => v <> u) ids;
  inv_term u s : members w !! u = Some s ->
    0 <= raftCurrentTerm s /\ (raftState s <> FOLLOWER -> 1 <= raftCurrentTerm s);
  inv_hist u s : members w !! u = Some s -> hist (raftLog s);
  inv_num_ok L : hist L -> num_ok L;
  inv_net src dst m : (src, dst, m) ∈ net w -> src ∈ ids /\ dst ∈ ids /\ src <> dst /\
    (is_append m = true -> lead (append_term m) = src /\ exists L, hist L /\ slice L m);
  inv_source L i en : hist L -> log_at L i = Some en -> 1 <= term en ->
    exists s, members w !! lead (term en) = Some s /\ created s i (term en);
  inv_match L K : hist L -> hist K -> matches L K;
}.

(** More logs than before. *)
Definition grown (ids : list A) (hist : list (entry C) -> Prop) w : Prop :=
  exists hist', (forall L, hist L -> hist' L) /\ inv ids hist' w.

(** One more log, and what is cut from it. *)
Definition with_log (hist : list (entry C) -> Prop) L : list (entry C) -> Prop :=
  fun L' => hist L' \/ (num_ok L' /\ piece L' L).

(** The node [u] goes to [s'] and sends [fx]; its log comes from [L]. *)
Lemma inv_update ids hist w u s s' (fx : list (effect A C R F)) L :
  inv ids hist w -> members w !! u = Some s -> nodes s' = nodes s ->
  0 <= raftCurrentTerm s' /\ (raftState s' <> FOLLOWER -> 1 <= raftCurrentTerm s') ->
  num_ok L -> num_ok (raftLog s') -> piece (raftLog s') L ->
  (forall i trm, lead trm = u -> created s i trm -> created s' i trm) ->
  (forall i en, log_at L i = Some en -> 1 <= term en ->
     (exists K, hist K /\ log_at K i = Some en) \/ (lead (term en) = u /\ created s' i (term en))) ->
  (forall K, hist K -> matches L K) ->
  (forall to m, Send to m ∈ fx -> to ∈ nodes s /\
     (is_append m = true -> lead (append_term m) = u /\ exists K, (hist K \/ K = L) /\ slice K m)) ->
  inv ids (with_log hist L) (MkWorld (<[u := s']> (members w)) (net w ++ messages u fx)).
Proof.
  intros Hinv Hu Hn Ht HL Hs' HpL Hcr Hsrc Hm Hfx. destruct (inv_nodes _ _ _ Hinv u s Hu) as [Hid Hnodes].
  assert (forall v sv, <[u := s']> (members w) !! v = Some sv -> (v = u /\ sv = s') \/ members w !! v = Some sv) as Hmem.
  { intros v sv [[-> ->]|[_ Hv]]%lookup_insert_Some; [by left|by right]. }
  split; cbn [members net].
  - intros v sv [[-> ->]|Hv]%Hmem; [|by apply (inv_nodes _ _ _ Hinv)]. by rewrite Hn.
  - intros v sv [[-> ->]|Hv]%Hmem; [done|by apply (inv_term _ _ _ Hinv v)].
  - intros v sv [[-> ->]|Hv]%Hmem; [by right|left; by apply (inv_hist _ _ _ Hinv v)].
  - intros K [HK|[HK _]]; [by apply (inv_num_ok _ _ _ Hinv)|done].
  - intros src dst m [Hin|Hin]%elem_of_app.
    + destruct (inv_net _ _ _ Hinv src dst m Hin) as (? & ? & ? & Ha). split_and!; [done..|].
      intros (? & K & ? & ?)%Ha. split; [done|]. exists K. split; [by left|done].
    + apply list_elem_of_omap in Hin as ([to m'|] & Hin & [= <- <- <-]).
      destruct (Hfx to m' Hin) as [Hto Ha]. rewrite Hnodes in Hto.
      apply list_elem_of_filter in Hto as [Hne Hto]. split_and!; [done..|by intros ->|].
      intros (? & K & [HK| ->] & Hsl)%Ha; (split; [done|]); [exists K; split; [by left|done]|].
      exists L. split; [right; split; [done|apply piece_refl]|done].
  - intros K i en HK Hen Hen1.
    assert ((exists K, hist K /\ log_at K i = Some en) \/ (lead (term en) = u /\ created s' i (term en))) as Hor.
    { destruct HK as [HK|[_ HK]]; [left; eauto|]. by apply Hsrc; [apply HK|]. }
    destruct Hor as [(K' & HK' & Hen')|[Hl Hc]]; cycle 1.
    { exists s'. by rewrite Hl, lookup_insert_eq. }
    destruct (inv_source _ _ _ Hinv K' i en HK' Hen' Hen1) as (sv & Hv & Hc).
    destruct (decide (lead (term en) = u)) as [Hl|Hl].
    + exists s'. rewrite Hl, lookup_insert_eq. split; [done|]. apply Hcr; [done|]. by simplify_eq.
    + exists sv. by rewrite lookup_insert_ne.
  - assert (matches L L) as HLL by apply matches_refl.
    intros K K' [HK|[_ HK]] [HK'|[_ HK']].
    + by apply (inv_match _ _ _ Hinv).
    + apply matches_sym. eapply matches_piece; [by apply Hm|done|apply piece_refl].
    + eapply matches_piece; [by apply Hm|done|apply piece_refl].
    + by eapply matches_piece.
Qed.

(** ** Steps of a node *)
Lemma created_turn s s1 i trm : turn s s1 -> created s i trm -> created s1 i trm.
Proof.
  intros (El & _ & _ & Hr) [Hc|(Et & Es & Hi)].
  - left. destruct Hr as [[_ ->]|[[? _]|(-> & _)]]; lia.
  - destruct Hr as [[Er Et']|[[? _]|(_ & Er & _)]]; [|left; lia|congruence].
    right. by rewrite El, Er, Et'.
Qed.

Lemma created_works s s' es k i trm : num_ok (raftLog s) -> same_role s s' -> new_entries s es ->
  raftLog s' = drop k (raftLog s ++ es) -> created s i trm -> created s' i trm.
Proof.
  intros Hok (Er & Et & _) Hnew El [Hc|(Et' & Es & Hi)]; [left; lia|right]. split_and!; [lia|congruence|].
  destruct (raftLog s') as [|e0 l] eqn:E; [by right|left]. rewrite El.
  rewrite last_index_drop by first [by apply new_entries_num_ok|by rewrite <-El].
  destruct Hnew as [->|(_ & Hne & _)].
  - rewrite app_nil_r in *. destruct Hi as [|Hi]; [done|]. by rewrite Hi, drop_nil in El.
  - destruct Hi as [Hi|]; [|done]. rewrite last_index_app by (by destruct (raftLog s)). unfold py_len. lia.
Qed.

(** The entries of a log that was extended at its end. *)
Lemma log_at_app_inv L es i en : log_ok L -> numbered (last_index L + 1) es -> log_at (L ++ es) i = Some en ->
  log_at L i = Some en \/ (en ∈ es /\ last_index L < i <= last_index (L ++ es)).
Proof.
  intros Hok Hes Hen. pose proof (log_at_Some _ _ _ Hen) as Hi.
  assert (log_upto L (last_index L) = L) as Hall by (unfold log_upto, last_index, py_len; apply take_ge; lia).
  pose proof (log_ok_len _ Hok). rewrite <-Hall in Hen.
  apply log_at_upto_app in Hen as [[_ ?]|(? & ? & _)]; [by left|right; split; [done|lia]|done|unfold last_index; lia|done].
Qed.

(** What a leader appends has no rival. *)
Lemma new_entry_fresh ids hist w u s s1 K i en :
  inv ids hist w -> members w !! u = Some s -> turn s s1 -> raftState s1 = LEADER -> lead (raftCurrentTerm s1) = u ->
  1 <= raftCurrentTerm s1 -> raftLog s1 <> [] -> last_index (raftLog s1) < i ->
  hist K -> log_at K i = Some en -> term en = raftCurrentTerm s1 -> False.
Proof.
  intros Hinv Hu Ht Hl Hlead Hone Hne Hi HK Hen Hterm.
  destruct (inv_source _ _ _ Hinv K i en HK Hen) as (sv & Hv & Hc); [lia|].
  rewrite Hterm, Hlead, Hu in Hv. injection Hv as <-. apply (created_turn s s1) in Hc; [|done].
  rewrite Hterm in Hc. destruct Hc as [|(_ & _ & [|])]; [lia|lia|done].
Qed.

Lemma turn_term s s1 : turn s s1 -> 0 <= raftCurrentTerm s /\ (raftState s <> FOLLOWER -> 1 <= raftCurrentTerm s) ->
  0 <= raftCurrentTerm s1 /\ (raftState s1 <> FOLLOWER -> 1 <= raftCurrentTerm s1).
Proof.
  intros (_ & _ & _ & [[-> ->]|[[? _]|(-> & Hc & _)]]) [H0' H1']; [done|lia|].
  rewrite Hc in H1'. split; [done|]. intros _. by apply H1'.
Qed.

(** A log with new entries matches the others. *)
Lemma new_entries_match ids hist w u s s1 es K :
  inv ids hist w -> members w !! u = Some s -> turn s s1 -> (raftState s1 = LEADER -> lead (raftCurrentTerm s1) = u) ->
  new_entries s1 es -> hist K -> matches (raftLog s1 ++ es) K.
Proof.
  intros Hinv Hu Ht Hlead Hnew HK. pose proof (turn_term _ _ Ht (inv_term _ _ _ Hinv u s Hu)) as [_ Hterm].
  assert (hist (raftLog s1)) as Hs1 by (rewrite (proj1 Ht); by apply (inv_hist _ _ _ Hinv u)).
  pose proof (inv_match _ _ _ Hinv _ _ Hs1 HK) as HmK.
  destruct Hnew as [->|(Hl & Hne & Hnum & Hes)]; [by rewrite app_nil_r|]. rewrite Forall_forall in Hes.
  assert (log_ok (raftLog s1)) as Hlog.
  { pose proof (inv_num_ok _ _ _ Hinv _ Hs1). by destruct (raftLog s1). }
  intros m a b Ha Hb Hab j c d Hj Hc Hd. apply log_at_app_inv in Ha as [Ha|[Hin Hi]]; [| |done..].
  - apply log_at_app_inv in Hc as [Hc|[_ Hi]]; [|apply log_at_Some in Ha; lia|done..].
    by apply (HmK m a b Ha Hb Hab j).
  - exfalso. eapply (new_entry_fresh ids hist w u s s1 K m b); try done; [by apply Hlead| |lia|].
    + apply Hterm. by rewrite Hl.
    + rewrite <-Hab. by apply Hes.
Qed.

(** Whose entries a node's log has. *)
Lemma new_entries_source (s1 s' : t A C X F) u es k i en :
  num_ok (raftLog s1) -> new_entries s1 es -> same_role s1 s' -> raftLog s' = drop k (raftLog s1 ++ es) ->
  (raftState s' = LEADER -> lead (raftCurrentTerm s') = u) ->
  log_at (raftLog s1 ++ es) i = Some en ->
  log_at (raftLog s1) i = Some en \/ (lead (term en) = u /\ created s' i (term en)).
Proof.
  intros Hok Hnew (Er & Et & _) El' Hlead Hen. pose proof (new_entries_num_ok _ _ Hok Hnew) as HokL.
  destruct Hnew as [->|(Hl & Hne & Hnum & Hes)]; [rewrite app_nil_r in Hen; by left|].
  apply log_at_app_inv in Hen as [Hen|[Hin Hi]]; [by left| |by destruct (raftLog s1)|done].
  right. rewrite Forall_forall in Hes. rewrite (Hes en Hin), <-Et. split; [apply Hlead; congruence|].
  right. split_and!; [done|congruence|]. destruct (raftLog s') as [|e0 l] eqn:E; [by right|left].
  rewrite El', last_index_drop; [lia|done|by rewrite <-El'].
Qed.

Lemma inv_acts ids hist w u s s' fx :
  inv ids hist w -> members w !! u = Some s -> acts (R := R) (nodes s) s fx s' ->
  (raftState s' = LEADER -> lead (raftCurrentTerm s') = u) ->
  grown ids hist (MkWorld (<[u := s']> (members w)) (net w ++ messages u fx)).
Proof.
  intros Hinv Hu Hacts Hlead. pose proof (inv_hist _ _ _ Hinv u s Hu) as Hs.
  pose proof (inv_num_ok _ _ _ Hinv _ Hs) as Hok.
  destruct (Hacts eq_refl Hok) as (s1 & fx1 & fx2 & -> & Ht & Hfx1 & Hw). pose proof Ht as (El & En & _ & _).
  pose proof (turn_term _ _ Ht (inv_term _ _ _ Hinv u s Hu)) as Hterm. rewrite <-El in Hok, Hs.
  destruct (Hw En Hok) as (Hr & Hok' & k & es & Hk & El' & Hnew & Hfx2).
  pose proof Hr as (Er & Et & En' & _).
  exists (with_log hist (raftLog s1 ++ es)). split; [by left|].
  assert (num_ok (raftLog s1 ++ es)) as HokL by (by apply new_entries_num_ok).
  apply (inv_update ids hist w u s s'); try done.
  - congruence.
  - by rewrite Er, Et.
  - rewrite El'. by apply piece_drop.
  - intros i trm _ Hc%(created_turn s s1); [|done]. by apply (created_works s1 s' es k).
  - intros i en Hen _. destruct (new_entries_source s1 s' u es k i en) as [Hen'|]; [done..|left; by exists (raftLog s1)|by right].
  - intros K HK. apply (new_entries_match ids hist w u s); try done. by rewrite <-Er, <-Et.
  - intros to m [Hin|Hin]%elem_of_app.
    + destruct (Hfx1 to m Hin) as [? Hna]. split; [done|]. by rewrite Hna.
    + destruct (Hfx2 to m Hin) as [? Hap]. split; [done|]. intros (Hl & Htm & Hsl)%Hap.
      split; [rewrite Htm, <-Et; apply Hlead; congruence|]. eauto.
Qed.

(** What a node accepts comes from two logs that agree where they are joined. *)
Lemma accepted_log ids hist w L l l' trm ci es prev ptrm :
  inv ids hist w -> hist l -> hist L -> slice L (append_entries trm ci es prev ptrm) ->
  accepted l es prev ptrm l' ->
  exists N, num_ok N /\ num_ok l' /\ piece l' N /\
    (forall i en, log_at N i = Some en -> exists K, hist K /\ log_at K i = Some en) /\
    (forall K, hist K -> matches N K).
Proof.
  intros Hinv Hl HL (_ & Hin & Hprev) Hacc. pose proof (inv_num_ok _ _ _ Hinv) as Hok.
  pose proof (inv_match _ _ _ Hinv) as Hm. destruct Hacc as [[k ->]|(i & p & -> & Hp & -> & ->)].
  - exists l. split_and!; [by apply Hok|by eapply numbered_num_ok, numbered_take, Hok|apply piece_take|eauto|auto].
  - destruct Hprev as (Hes & p' & Hp' & [= Hpp]). pose proof (log_at_Some _ _ _ Hp) as Hi.
    assert (log_ok l) as Hlog by (eapply num_ok_log; [by apply Hok|done]).
    destruct (last_index_upto l i Hlog Hi) as (_ & Hlast & Hoku).
    assert (num_ok (log_upto l i ++ es)) as HokN.
    { apply log_ok_numbered, log_ok_app; [done|]. by rewrite Hlast. }
    exists (log_upto l i ++ es). split_and!; [done|done|apply piece_refl| |].
    + intros j en [[_ Hen]|(_ & Hen & <-)]%log_at_upto_app; eauto.
    + intros K HK. apply (matches_extend l L K i es p p'); auto.
Qed.

(** A leader's entries at a node. *)
Lemma inv_follows ids hist w u s s' (fx : list (effect A C R F)) src trm ci es prev ptrm :
  inv ids hist w -> members w !! u = Some s -> (src, u, append_entries trm ci es prev ptrm) ∈ net w ->
  no_entries (nodes s) fx -> raftCurrentTerm s <= trm ->
  raftState s' = FOLLOWER -> raftCurrentTerm s' = trm -> nodes s' = nodes s ->
  accepted (raftLog s) es prev ptrm (raftLog s') ->
  grown ids hist (MkWorld (<[u := s']> (members w)) (net w ++ messages u fx)).
Proof.
  intros Hinv Hu Hmsg Hfx Hle Es' Et' En' Hacc. pose proof (inv_hist _ _ _ Hinv u s Hu) as Hs.
  destruct (inv_net _ _ _ Hinv _ _ _ Hmsg) as (_ & _ & Hne & Hlead). destruct (Hlead eq_refl) as (Hsrc & L & HL & Hsl).
  cbn in Hsrc. pose proof (inv_term _ _ _ Hinv u s Hu) as [Ht0 _].
  assert (exists N, num_ok N /\ num_ok (raftLog s') /\ piece (raftLog s') N /\
    (forall i en, log_at N i = Some en -> exists K, hist K /\ log_at K i = Some en) /\
    (forall K, hist K -> matches N K)) as (N & HN & Hok' & Hp & Hfrom & Hm).
  { by apply (accepted_log ids hist w L (raftLog s) _ trm ci es prev ptrm). }
  exists (with_log hist N). split; [by left|]. apply (inv_update ids hist w u s s'); try done.
  - rewrite Es', Et'. split; [lia|done].
  - intros i t Hl [Hc|(Hc & _)]; left; [lia|]. assert (raftCurrentTerm s <> trm) by congruence. lia.
  - intros i en Hen _. left. by apply Hfrom.
  - intros to m Hin. destruct (Hfx to m Hin) as [? Hna]. split; [done|]. by rewrite Hna.
Qed.

Lemma on_member_Some u (m : PyM (t A C X F) (effect A C R F) unit) w w' : on_member u m w = Some w' ->
  exists s, members w !! u = Some s /\
    w' = MkWorld (<[u := post (m s)]> (members w)) (net w ++ messages u (effects (m s))).
Proof. unfold on_member. destruct (members w !! u) as [s|]; [|done]. intros [= <-]. by exists s. Qed.

Lemma inv_on_member ids hist w w' u (m : PyM (t A C X F) (effect A C R F) unit) :
  inv ids hist w -> leaders_led w' -> on_member u m w = Some w' ->
  does (acts (filter (fun v => v <> u) ids)) m -> grown ids hist w'.
Proof.
  intros Hinv Hled (s & Hu & ->)%on_member_Some Hacts. apply (inv_acts ids hist w u s _ _ Hinv Hu).
  - destruct (inv_nodes _ _ _ Hinv u s Hu) as [_ En]. rewrite En. apply Hacts.
  - intros Hl. apply (Hled u (post (m s))); [|done]. apply lookup_insert_eq.
Qed.

Lemma inv_append ids hist w w' u src e trm ci es prev ptrm :
  inv ids hist w -> (src, u, append_entries trm ci es prev ptrm) ∈ net w ->
  on_member u (onMessageReceived (R := R) conf e src (append_entries trm ci es prev ptrm)) w = Some w' ->
  grown ids hist w'.
Proof.
  intros Hinv Hin (s & Hu & ->)%on_member_Some. destruct (inv_net _ _ _ Hinv _ _ _ Hin) as (Hs & _ & Hne & Hl).
  destruct (Hl eq_refl) as (_ & L & HL & _ & _ & Hprev). destruct (inv_nodes _ _ _ Hinv u s Hu) as [_ En].
  destruct (on_append_entries_follows (R := R) conf s e src trm ci es prev ptrm) as [Hfx Hpost].
  - eapply inv_num_ok, inv_hist; done.
  - rewrite En. apply list_elem_of_filter. done.
  - intros i ->. by destruct Hprev.
  - destruct (Z.leb_spec (raftCurrentTerm s) trm) as [Hle|_]; cycle 1.
    { cbn [onMessageReceived]. rewrite Hpost. cbn. exists hist. split; [done|]. rewrite app_nil_r, insert_id by done. by destruct w. }
    destruct Hpost as (Er & Et & En' & _ & Hacc). by eapply inv_follows.
Qed.

Hypothesis Hfile : fullDumpFile conf = None.

Lemma inv_led_step ids hist w w' : inv ids hist w -> led_step w w' -> grown ids hist w'.
Proof.
  intros Hinv (a & Ha & Hsnap & Hled). destruct a as [k e|u e|u c callback]; cbn in Ha.
  - destruct (net w !! k) as [[[src dst] m]|] eqn:Ek; [|done]. cbn in Ha.
    assert ((src, dst, m) ∈ net w) as Hin by (by eapply list_elem_of_lookup_2).
    destruct (is_append m) eqn:Em; [destruct m; try done; by eapply inv_append|].
    eapply inv_on_member; [done..|]. apply onMessageReceived_acts; [done|]. intros trm ci c ->. by eapply Hsnap.
  - eapply inv_on_member; [done..|]. by apply onTick_acts.
  - eapply inv_on_member; [done..|]. intros s. apply works_acts, calm_works, applyCommand_calm.
Qed.

Lemma inv_start ids x e : inv ids (fun L => L = [MkEntry None 1 0]) (start (F := F) conf ids x e).
Proof.
  assert (forall u s, members (start (F := F) conf ids x e) !! u = Some s ->
    u ∈ ids /\ s = init conf u (filter (fun v => v <> u) ids) x None (e u)) as Hs.
  { intros u s Hu. apply elem_of_list_to_map_2, list_elem_of_fmap in Hu as (v & [= -> ->] & Hv). done. }
  split.
  - intros u s [? ->]%Hs. done.
  - intros u s [? ->]%Hs. done.
  - intros u s [? ->]%Hs. done.
  - intros L ->. done.
  - by intros src dst m ?%elem_of_nil.
  - intros L i en -> Hen Ht. exfalso. unfold log_at in Hen. destruct (_ <? _); [done|].
    apply list_elem_of_lookup_2, list_elem_of_singleton in Hen. by subst.
  - intros L K -> ->. apply matches_refl.
Qed.

(** C5: in every run in which each term has at most one leader ([lead] names it),
    no node loads a dump file and no snapshot arrives, the logs match: when two
    nodes have an entry of the same term at the same index, they have the same
    entries up to there, wherever both logs reach, under any loss, repetition
    and reordering of messages, elections, compaction and exceptions in the
    handlers. *)
Theorem log_matching ids x e w : rtc led_step (start conf ids x e) w ->
  forall u v s s', members w !! u = Some s -> members w !! v = Some s' ->
  forall i a b, log_at (raftLog s) i = Some a -> log_at (raftLog s') i = Some b -> term a = term b ->
  forall j c d, j <= i -> log_at (raftLog s) j = Some c -> log_at (raftLog s') j = Some d -> c = d.
Proof.
  intros Hrun u v s s' Hu Hv. assert (exists hist, inv ids hist w) as [hist Hinv].
  { pose proof (inv_start ids x e) as Hinv. revert Hinv. generalize (fun L : list (entry C) => L = [MkEntry None 1 0]) as hist.
    induction Hrun as [|w0 w1 w2 Hstep _ IH]; intros hist Hinv; [eauto|].
    destruct (inv_led_step _ _ _ _ Hinv Hstep) as (hist' & _ & Hinv'). by eapply IH. }
  apply (inv_match _ _ _ Hinv); [by eapply (inv_hist _ _ _ Hinv u)|by eapply (inv_hist _ _ _ Hinv v)].
Qed.
End matching.
