(* ===== verification/SyncObjBounds.v ===== *)
(** * What a cluster holds, and its logs

    The queue of commands and the entries of a message stay within the limits of
    the configuration, and logs and messages are numbered without gaps, in every
    run of a cluster. *)
From stdpp Require Import base gmap sets list strings relations.
From Stdlib Require Import ZArith QArith Lia.
From S2P Require Import Prelude PyList Serializer SyncObj SyncObjLog SyncObjMoves SyncObjTheorems SyncObjSends SyncObjWorks.
From S2P Require Import SyncObjLeader SyncObjCluster SyncObjMatching.
Local Open Scope Z_scope.

Section bounds.
Context {A C R X F : Type} `{Countable A} `{Machine C R X} `{Codec (dump C X)}.
Context (conf : SyncObjConf).
Implicit Types s : t A C X F.
Implicit Types e : env A.

(** ** The limits of the configuration *)
Definition queue_within s : Prop := py_len (commandsQueue s) <= commandsQueueSize conf.
Definition batch_within (m : message C) : Prop :=
  match m with append_entries _ _ es _ _ => py_len es <= appendEntriesBatchSize conf | _ => True end.
Definition within s (fx : list (effect A C R F)) s' : Prop :=
  (queue_within s -> queue_within s') /\ forall to m, Send to m ∈ fx -> batch_within m.

#[export] Instance within_trace : TraceOrder within.
Proof.
  split.
  - intros s. split; [done|]. by intros to m ?%elem_of_nil.
  - intros s fx s' fx' s'' [Hq Hm] [Hq' Hm']. split; [by auto|].
    intros to m [Hin|Hin]%elem_of_app; [by apply Hm in Hin|by apply Hm' in Hin].
Qed.

Lemma within_quiet s s' : commandsQueue s' = commandsQueue s -> within s [] s'.
Proof. intros Eq. split; [by unfold queue_within; rewrite Eq|]. by intros to m ?%elem_of_nil. Qed.
Lemma within_send s to m : batch_within m -> within s [Send to m] s.
Proof. intros Hm. split; [done|]. intros to' m' Hin%list_elem_of_singleton. by injection Hin as -> ->. Qed.
Lemma within_callback s f r er : within s [Callback f r er] s.
Proof. split; [done|]. by intros to m ?%list_elem_of_singleton. Qed.

Abbreviation bounded m := (does (E := effect A C R F) within m).
Ltac small := first [by apply within_quiet|by apply within_send|by apply within_callback|done].
Ltac bound := does_auto; try small.

Lemma on_log_bounded {B} (f : list (entry C) -> outcome B) : bounded (on_log f).
Proof. apply does_update. intros s. by apply within_quiet. Qed.
Hypothesis Hbatch : 0 <= appendEntriesBatchSize conf.

Lemma entries_from_bounded (log : list (entry C)) from count es : 0 <= count ->
  entries_from (Some from) (Some count) log = Ret es -> py_len es <= count.
Proof.
  intros Hc. unfold entries_from. destruct (first_entry log) as [first|] eqn:Ef; [|done].
  destruct (Z.ltb_spec from (logID (C := C) first)); intros E; injection E as <-; [done|].
  rewrite py_slice_nonneg by lia. unfold py_len. rewrite length_take. lia.
Qed.

(** ** Sending *)
Lemma getEntries_bounded i c : bounded (getEntries i c).
Proof. apply on_log_bounded. Qed.
Lemma getCurrentLogIndex_bounded : bounded getCurrentLogIndex.
Proof. apply on_log_bounded. Qed.
Lemma getCurrentLogTerm_bounded : bounded getCurrentLogTerm.
Proof. apply on_log_bounded. Qed.
Lemma getPrev_bounded i : bounded (getPrevLogIndexTerm i).
Proof. unfold getPrevLogIndexTerm. pose proof getEntries_bounded. bound. Qed.
Lemma send_to_bounded n m : batch_within m -> bounded (send_to n m).
Proof. intros Hm. unfold send_to, send. bound. Qed.
Ltac bound ::= does_auto; try first [by apply send_to_bounded|small].
Lemma round_entries_bounded n next cur : bounded (round_entries conf n next cur).
Proof. unfold round_entries. pose proof getEntries_bounded. bound. Qed.

Lemma send_round_bounded e n next b : bounded (send_round conf e n next b).
Proof.
  pose proof getCurrentLogIndex_bounded. pose proof (on_log_bounded (B := entry C)).
  unfold send_round. apply does_seq; [typeclasses eauto|auto|]. intros en. destruct (logID en <=? next).
  - apply does_seq; [typeclasses eauto|apply getPrev_bounded|]. intros prev.
    apply does_seq; [typeclasses eauto|auto|]. intros cur s.
    change (does_at within (py_bind (round_entries conf n next cur) (fun entries =>
      let! s0 := py_get id in
      send n (append_entries (raftCurrentTerm s0) (raftCommitIndex s0) entries prev.1 prev.2) ;;! py_return b)) s).
    apply does_at_bind; [typeclasses eauto|apply round_entries_bounded|]. intros es Hes%round_entries_result.
    assert (py_len es <= appendEntriesBatchSize conf) as Hlen.
    { destruct Hes as [->|Hes]; [done|]. by eapply entries_from_bounded. }
    match goal with |- does_at _ ?m ?x => apply (fun Hm : bounded m => Hm x) end. unfold send. bound.
  - unfold send. bound.
    match goal with |- context [Serializer.getTransmissionData ?a ?b ?c ?d] =>
      destruct (Serializer.getTransmissionData a b c d) end. small.
Qed.
Lemma send_rounds_bounded e n quota b1 b2 : bounded (send_rounds conf e n quota b1 b2).
Proof.
  pose proof send_round_bounded. pose proof getCurrentLogIndex_bounded.
  revert b1 b2. induction quota as [|quota IH]; intros b1 b2; simpl; bound.
Qed.
Lemma send_nodes_bounded e quota ns : bounded (send_nodes conf e quota ns).
Proof. pose proof send_rounds_bounded. revert quota. induction ns as [|n ns IH]; intros quota; simpl; bound. Qed.
Lemma sendAppendEntries_bounded e : bounded (sendAppendEntries conf e).
Proof. pose proof send_nodes_bounded. unfold sendAppendEntries. bound. Qed.
Lemma sendNextNodeIdx_bounded n r : bounded (sendNextNodeIdx n r).
Proof.
  pose proof getCurrentLogIndex_bounded. pose proof send_to_bounded. unfold sendNextNodeIdx. bound.
Qed.
Lemma onBecomeLeader_bounded e : bounded (onBecomeLeader conf e).
Proof.
  pose proof sendAppendEntries_bounded. pose proof getCurrentLogIndex_bounded. unfold onBecomeLeader. bound.
  apply for_each_does; [typeclasses eauto|]. intros n _. bound.
Qed.

(** ** The tick *)
Lemma onLeaderChanged_bounded : bounded onLeaderChanged.
Proof. unfold onLeaderChanged. bound. apply for_each_does; [typeclasses eauto|]. intros f _. bound. Qed.
Lemma subscribe_commit_bounded i x : bounded (subscribe_commit i x).
Proof. unfold subscribe_commit. bound. Qed.
Lemma pop_reply_bounded i : bounded (pop_reply i).
Proof. unfold pop_reply. bound. Qed.
Lemma tick_election_bounded e : bounded (tick_election conf e).
Proof.
  pose proof getCurrentLogIndex_bounded. pose proof getCurrentLogTerm_bounded. pose proof onLeaderChanged_bounded.
  unfold tick_election, send. bound. apply for_each_does; [typeclasses eauto|]. intros n _. bound.
Qed.
Lemma commit_loop_bounded fuel : bounded (commit_loop fuel).
Proof. pose proof getCurrentLogIndex_bounded. induction fuel; simpl; bound. Qed.
Lemma tick_leader_bounded e : bounded (tick_leader conf e).
Proof.
  pose proof getCurrentLogIndex_bounded. pose proof commit_loop_bounded. pose proof sendAppendEntries_bounded.
  unfold tick_leader. bound.
Qed.
Lemma apply_entry_bounded en : bounded (apply_entry en).
Proof.
  unfold apply_entry, doApplyCommand. bound; [by destruct (doApply _ _); small|].
  apply for_each_does; [typeclasses eauto|]. intros x _. bound. destruct (x.1 =? _); small.
Qed.
Lemma tick_apply_bounded : bounded tick_apply.
Proof.
  pose proof getEntries_bounded. pose proof apply_entry_bounded. unfold tick_apply. bound.
  apply for_each_does; [typeclasses eauto|]. auto.
Qed.
Lemma process_command_bounded e c o : bounded (process_command conf e c o).
Proof.
  pose proof getCurrentLogIndex_bounded. pose proof subscribe_commit_bounded. pose proof send_to_bounded.
  pose proof sendAppendEntries_bounded. unfold process_command, call_back. bound.
Qed.
Lemma checkCommands_bounded e i : bounded (checkCommands conf e i).
Proof.
  pose proof process_command_bounded. induction i as [|i IH]; simpl; [bound|]. intros s.
  apply does_at_get; [typeclasses eauto|]. unfold id. destruct (_ && _); [apply does_ret; typeclasses eauto|].
  destruct (commandsQueue s) as [|[c o] q] eqn:Eq; [apply does_ret; typeclasses eauto|].
  apply does_at_bind; [typeclasses eauto| |].
  - split; [|by intros to m ?%elem_of_nil]. unfold queue_within. rewrite Eq. unfold py_len. simpl. lia.
  - intros [] _. match goal with |- does_at _ ?m ?x => apply (fun Hm : bounded m => Hm x) end. bound.
Qed.
Lemma deleteEntriesTo_bounded i : bounded (deleteEntriesTo i).
Proof. pose proof (on_log_bounded (B := list (entry C))). unfold deleteEntriesTo. bound. Qed.
Lemma deleteEntriesFrom_bounded i : bounded (deleteEntriesFrom i).
Proof. pose proof (on_log_bounded (B := list (entry C))). unfold deleteEntriesFrom. bound. Qed.
Lemma tryLogCompaction_bounded e : bounded (tryLogCompaction conf e).
Proof.
  pose proof deleteEntriesTo_bounded. pose proof getEntries_bounded.
  unfold tryLogCompaction, compaction_done, compaction_starts. bound. destruct (Serializer.checkSerializing _ _). small.
Qed.
Lemma loadDumpFile_bounded : bounded loadDumpFile.
Proof. unfold loadDumpFile. bound. Qed.
Lemma onTick_bounded e : bounded (onTick conf e).
Proof.
  pose proof loadDumpFile_bounded. pose proof tick_election_bounded. pose proof tick_leader_bounded.
  pose proof tick_apply_bounded. pose proof checkCommands_bounded. pose proof tryLogCompaction_bounded.
  unfold onTick, checkCommandsToApply. bound.
Qed.

(** ** Messages *)
Lemma applyCommand_bounded c o : 0 < commandsQueueSize conf -> bounded (applyCommand conf c o).
Proof.
  intros Hpos s. unfold applyCommand. apply does_at_get; [typeclasses eauto|].
  destruct (queue_full conf (commandsQueue s)) eqn:Ef.
  - match goal with |- does_at _ ?m ?x => apply (fun Hm : bounded m => Hm x) end. unfold call_back. bound.
  - split; [intros _|by intros to m ?%elem_of_nil]. unfold queue_within. cbn. rewrite py_len_app.
    unfold queue_full in Ef. apply andb_false_iff in Ef as [Ef%Z.ltb_ge|Ef%Z.leb_gt]; [lia|]. unfold py_len in *. cbn. lia.
Qed.
Lemma on_append_entries_bounded e n trm ci es prev ptrm : bounded (on_append_entries conf e n trm ci es prev ptrm).
Proof.
  pose proof getEntries_bounded. pose proof getCurrentLogIndex_bounded. pose proof onLeaderChanged_bounded.
  pose proof sendNextNodeIdx_bounded. pose proof deleteEntriesFrom_bounded.
  unfold on_append_entries, accept_leader, store_entries, follow_commit. bound.
Qed.
Lemma on_append_serialized_bounded e n trm ci c : bounded (on_append_serialized conf e n trm ci c).
Proof.
  pose proof getCurrentLogIndex_bounded. pose proof onLeaderChanged_bounded.
  pose proof sendNextNodeIdx_bounded. pose proof loadDumpFile_bounded.
  unfold on_append_serialized, accept_leader, follow_commit. bound.
  destruct (Serializer.setTransmissionData _ _ _ _ _). small.
Qed.
Lemma onMessageReceived_bounded e n m : 0 < commandsQueueSize conf -> bounded (onMessageReceived conf e n m).
Proof.
  intros Hpos. pose proof (fun c o => applyCommand_bounded c o Hpos). pose proof onBecomeLeader_bounded.
  pose proof getCurrentLogIndex_bounded. pose proof getCurrentLogTerm_bounded.
  pose proof pop_reply_bounded. pose proof subscribe_commit_bounded.
  destruct m as [trm i l|trm|trm ci es prev ptrm|trm ci c|c [rid|]|rid er|rid i trm|i b]; cbn [onMessageReceived].
  - unfold on_request_vote. bound.
  - bound.
  - apply on_append_entries_bounded.
  - apply on_append_serialized_bounded.
  - auto.
  - auto.
  - bound.
  - bound.
  - bound.
Qed.

(** ** Every run *)
Definition cluster_within (w : world (A := A) (C := C) (X := X) (F := F)) : Prop :=
  (forall u s, members w !! u = Some s -> queue_within s) /\
  (forall src dst m, (src, dst, m) ∈ net w -> batch_within m).

Lemma on_member_within u (m : PyM (t A C X F) (effect A C R F) unit) w w' :
  cluster_within w -> bounded m -> on_member u m w = Some w' -> cluster_within w'.
Proof.
  intros [Hq Hn] Hm (s & Hu & ->)%on_member_Some. destruct (Hm s) as [Hs Hfx]. split; cbn [members net].
  - intros v sv [[<- <-]|[_ Hv]]%lookup_insert_Some; [by apply Hs, (Hq u)|by apply (Hq v)].
  - intros src dst m' [Hin|Hin]%elem_of_app; [by eapply Hn|].
    apply list_elem_of_omap in Hin as ([to m0|] & Hin & [= <- <- <-]). by apply (Hfx to).
Qed.

(** C34: in every run of a cluster (elections, lost and repeated messages, snapshots
    and exceptions included) the queue of commands of a node never exceeds
    commandsQueueSize, where that is positive, and no append_entries message
    carries more than appendEntriesBatchSize entries. *)
Theorem cluster_bounded ids x envs w : 0 < commandsQueueSize conf ->
  rtc (step (R := R) conf) (start (F := F) conf ids x envs) w ->
  (forall u s, members w !! u = Some s -> py_len (commandsQueue s) <= commandsQueueSize conf) /\
  (forall src dst trm ci es prev ptrm, (src, dst, append_entries trm ci es prev ptrm) ∈ net w ->
     py_len es <= appendEntriesBatchSize conf).
Proof.
  intros Hpos Hrun. cut (cluster_within w).
  { intros [Hq Hn]. split; [exact Hq|]. intros src dst trm ci es prev ptrm Hin. by apply Hn in Hin. }
  assert (cluster_within (start conf ids x envs)) as Hstart.
  { split; [|by intros src dst m ?%elem_of_nil]. intros u s Hu.
    apply elem_of_list_to_map_2, list_elem_of_fmap in Hu as (v & [= -> ->] & _). unfold queue_within, py_len. cbn. lia. }
  revert Hstart. induction Hrun as [w|w1 w2 w3 [a Ha] _ IH]; [done|]. intros Hw. apply IH. clear IH.
  destruct a as [k e'|u e'|u c o]; cbn in Ha.
  - destruct (net w1 !! k) as [[[src dst] m]|]; [|done]. cbn in Ha.
    eapply on_member_within; [done| |done]. by apply onMessageReceived_bounded.
  - eapply on_member_within; [done| |done]. apply onTick_bounded.
  - eapply on_member_within; [done| |done]. by apply applyCommand_bounded.
Qed.
End bounds.

(** ** The numbering of the logs *)
Section numbering.
Context {A C R X F : Type} `{Countable A} `{Machine C R X} `{Codec (dump C X)}.
Context (conf : SyncObjConf).
Implicit Types s : t A C X F.
Implicit Types w : world (A := A) (C := C) (X := X) (F := F).

Definition numbered_message (m : message C) : Prop :=
  match m with
  | append_entries _ _ es prev _ => num_ok es /\ forall i, prev = Some i -> numbered (i + 1) es
  | _ => True
  end.
Record numbered_world (ids : list A) w : Prop := {
  nw_nodes u s : members w !! u = Some s -> u ∈ ids /\ nodes s = filter (fun v => v <> u) ids;
  nw_logs u s : members w !! u = Some s -> num_ok (raftLog s);
  nw_net src dst m : (src, dst, m) ∈ net w -> src ∈ ids /\ dst ∈ ids /\ src <> dst /\ numbered_message m;
}.

Definition safe_step w w' : Prop := exists a, do_action (R := R) conf a w = Some w' /\ no_snapshot a w.

Lemma slice_numbered (L : list (entry C)) m : slice L m -> numbered_message m.
Proof.
  destruct m as [| |trm ci es [i|] ptrm| | | | |]; try done; intros (? & _ & Hp); (split; [done|]); [|done].
  intros j [= <-]. apply Hp.
Qed.
Lemma other_numbered (m : message C) : is_append m = false -> numbered_message m.
Proof. by destruct m. Qed.

Lemma acts_numbered N s (fx : list (effect A C R F)) s' : acts N s fx s' -> nodes s = N -> num_ok (raftLog s) ->
  num_ok (raftLog s') /\ nodes s' = nodes s /\ forall to m, Send to m ∈ fx -> to ∈ N /\ numbered_message m.
Proof.
  intros Ha HN Hok. destruct (Ha HN Hok) as (s1 & fx1 & fx2 & -> & (El & En & _) & Hfx1 & Hw).
  destruct (Hw ltac:(congruence) ltac:(by rewrite El)) as ((_ & _ & En' & _) & Hok' & k & es & _ & _ & _ & Hfx2).
  split_and!; [done|congruence|]. intros to m [Hin|Hin]%elem_of_app.
  - destruct (Hfx1 to m Hin) as [? Hm]. split; [done|]. by apply other_numbered.
  - destruct (Hfx2 to m Hin) as [? Hm]. split; [done|]. destruct (is_append m) eqn:E; [|by apply other_numbered].
    destruct (Hm eq_refl) as (_ & _ & Hsl). by eapply slice_numbered.
Qed.

Lemma numbered_update ids w u s s' (fx : list (effect A C R F)) :
  numbered_world ids w -> members w !! u = Some s -> num_ok (raftLog s') -> nodes s' = nodes s ->
  (forall to m, Send to m ∈ fx -> to ∈ nodes s /\ numbered_message m) ->
  numbered_world ids (MkWorld (<[u := s']> (members w)) (net w ++ messages u fx)).
Proof.
  intros Hw Hu Hok En Hfx. destruct (nw_nodes _ _ Hw u s Hu) as [Hid Hn]. split; cbn [members net].
  - intros v sv [[<- <-]|[_ Hv]]%lookup_insert_Some; [by rewrite En|by apply (nw_nodes _ _ Hw)].
  - intros v sv [[<- <-]|[_ Hv]]%lookup_insert_Some; [done|by apply (nw_logs _ _ Hw v)].
  - intros src dst m [Hin|Hin]%elem_of_app; [by apply (nw_net _ _ Hw)|].
    apply list_elem_of_omap in Hin as ([to m0|] & Hin & [= <- <- <-]). destruct (Hfx to m0 Hin) as [Hto Hm].
    rewrite Hn in Hto. apply list_elem_of_filter in Hto as [? ?]. split_and!; [done..|by intros ->|done].
Qed.

Lemma numbered_acts ids w w' u (m : PyM (t A C X F) (effect A C R F) unit) :
  numbered_world ids w -> (forall N, does (acts N) m) -> on_member u m w = Some w' -> numbered_world ids w'.
Proof.
  intros Hw Hm (s & Hu & ->)%on_member_Some.
  destruct (acts_numbered (nodes s) s (effects (m s)) (post (m s))) as (? & ? & ?);
    [apply Hm|done|by apply (nw_logs _ _ Hw u)|]. by eapply numbered_update.
Qed.

Lemma numbered_append ids w w' u src e trm ci es prev ptrm :
  numbered_world ids w -> (src, u, append_entries trm ci es prev ptrm) ∈ net w ->
  on_member u (onMessageReceived (R := R) conf e src (append_entries trm ci es prev ptrm)) w = Some w' ->
  numbered_world ids w'.
Proof.
  intros Hw Hin (s & Hu & ->)%on_member_Some. destruct (nw_net _ _ Hw _ _ _ Hin) as (Hs & _ & Hne & Hes).
  destruct (nw_nodes _ _ Hw u s Hu) as [_ En]. pose proof (nw_logs _ _ Hw u s Hu) as Hok.
  assert (src ∈ nodes s) as Hsrc by (rewrite En; by apply list_elem_of_filter).
  destruct (on_append_entries_follows (R := R) conf s e src trm ci es prev ptrm Hok Hsrc) as [Hfx Hpost].
  { intros i ->. by apply Hes. }
  cbn [onMessageReceived]. destruct (_ <=? _); cycle 1.
  { rewrite Hpost. cbn. rewrite app_nil_r, insert_id by done. by destruct w. }
  destruct Hpost as (_ & _ & En' & _ & Hacc). apply (numbered_update ids w u s); try done.
  - destruct Hacc as [[k ->]|(i & p & -> & Hp & _ & ->)]; [by eapply numbered_num_ok, numbered_take|].
    destruct Hes as [_ Hes]. specialize (Hes i eq_refl).
    assert (log_ok (raftLog s)) as Hlog by (by eapply num_ok_log). pose proof (log_at_Some _ _ _ Hp) as Hi.
    destruct (last_index_upto (raftLog s) i Hlog Hi) as (_ & Hlast & Hoku).
    apply log_ok_numbered, log_ok_app; [done|]. by rewrite Hlast.
  - intros to m Hto. destruct (Hfx to m Hto) as [? ?]. split; [done|]. by apply other_numbered.
Qed.

(** C35: in every run without dump files and delivered snapshots, however the
    terms are led, the log of every node is numbered from its first entry on
    without a gap, and so are the entries of every append_entries message, which
    follow on the previous index where the message has one. *)
Theorem logs_numbered ids x envs w : fullDumpFile conf = None ->
  rtc safe_step (start (F := F) conf ids x envs) w ->
  (forall u s, members w !! u = Some s -> numbered (first_index (raftLog s)) (raftLog s)) /\
  (forall src dst trm ci es prev ptrm, (src, dst, append_entries trm ci es prev ptrm) ∈ net w ->
     numbered (first_index es) es /\ forall i, prev = Some i -> numbered (i + 1) es).
Proof.
  intros Hfile Hrun. cut (numbered_world ids w).
  { intros Hw. split; [apply (nw_logs _ _ Hw)|]. intros src dst trm ci es prev ptrm Hin. by apply (nw_net _ _ Hw) in Hin as (_ & _ & _ & ?). }
  assert (numbered_world ids (start (F := F) conf ids x envs)) as Hstart.
  { split; [..|by intros src dst m ?%elem_of_nil];
      intros u s Hu; apply elem_of_list_to_map_2, list_elem_of_fmap in Hu as (v & [= -> ->] & ?); done. }
  revert Hstart. induction Hrun as [w|w1 w2 w3 (a & Ha & Hsnap) _ IH]; [done|]. intros Hw. apply IH. clear IH.
  destruct a as [k e'|u e'|u c o]; cbn in Ha.
  - destruct (net w1 !! k) as [[[src dst] m]|] eqn:Ek; [|done]. cbn in Ha.
    assert ((src, dst, m) ∈ net w1) as Hin by (by eapply list_elem_of_lookup_2).
    destruct (is_append m) eqn:Em; [destruct m; try done; by eapply numbered_append|].
    eapply numbered_acts; [done| |done]. intros N. apply onMessageReceived_acts; [done|]. intros trm ci c ->. by eapply Hsnap.
  - eapply numbered_acts; [done| |done]. intros N. by apply onTick_acts.
  - eapply numbered_acts; [done| |done]. intros N s. apply works_acts, calm_works, applyCommand_calm.
Qed.
End numbering.
