(* ===== verification/SyncObjAgreement.v ===== *)
(** * Replicas under one reign

    Runs in which one node leads, in one term: every node's object is what a
    prefix of one sequence of commands makes of the first object.  ([applied]:
    what a tick applies comes from the node's log, in order; [idle]: everything
    else leaves the object alone.) *)
From stdpp Require Import base gmap sets list strings relations.
From Stdlib Require Import ZArith QArith Lia.
From S2P Require Import Prelude PyList Serializer SyncObj SyncObjLog SyncObjMoves SyncObjTheorems SyncObjSends SyncObjWorks.
From S2P Require Import SyncObjLeader SyncObjCluster SyncObjMatching.
Local Open Scope Z_scope.

Section applied.
Context {A C R X F : Type} `{Countable A} `{Machine C R X} `{Codec (dump C X)}.
Context (conf : SyncObjConf).
Implicit Types s : t A C X F.
Implicit Types e : env A.
Implicit Types es : list (entry C).

(** ** Methods that do not apply *)
Definition idle s s' : Prop := raftLastApplied s' = raftLastApplied s /\ object s' = object s.

#[export] Instance idle_preorder : PreOrder idle.
Proof. split; [by intros s|]. intros s1 s2 s3 [] []. split; congruence. Qed.

Abbreviation idles m := (moves (S := t A C X F) (E := effect A C R F) idle m).

Lemma for_each_idle {B} (l : list B) (body : B -> PyM (t A C X F) (effect A C R F) unit) :
  (forall b, idles (body b)) -> idles (for_each l body).
Proof. intros Hb. induction l as [|b l IH]; simpl; moves_auto; auto. Qed.
Lemma on_log_idle {B} (f : list (entry C) -> outcome B) : idles (on_log f).
Proof. apply moves_call. intros s. done. Qed.
Lemma send_to_idle n m : idles (send_to (R := R) (X := X) (F := F) n m).
Proof. unfold send_to, send. moves_auto. Qed.
#[local] Hint Resolve idle_preorder for_each_idle on_log_idle send_to_idle : moves.

Lemma getEntries_idle from count : idles (getEntries from count).
Proof. apply on_log_idle. Qed.
Lemma getCurrentLogIndex_idle : idles getCurrentLogIndex.
Proof. apply on_log_idle. Qed.
Lemma getCurrentLogTerm_idle : idles getCurrentLogTerm.
Proof. apply on_log_idle. Qed.
#[local] Hint Resolve getEntries_idle getCurrentLogIndex_idle getCurrentLogTerm_idle : moves.
Lemma getPrev_idle i : idles (getPrevLogIndexTerm i).
Proof. unfold getPrevLogIndexTerm. moves_auto. Qed.
Lemma sendNextNodeIdx_idle n b : idles (sendNextNodeIdx n b).
Proof. unfold sendNextNodeIdx. moves_auto. Qed.
Lemma onLeaderChanged_idle : idles onLeaderChanged.
Proof. unfold onLeaderChanged. moves_auto; apply for_each_idle; intros; moves_auto. Qed.
Lemma applyCommand_idle c o : idles (applyCommand conf c o).
Proof. unfold applyCommand, call_back. moves_auto. Qed.
Lemma subscribe_commit_idle i x : idles (subscribe_commit i x).
Proof. unfold subscribe_commit. moves_auto. Qed.
Lemma pop_reply_idle i : idles (pop_reply i).
Proof. unfold pop_reply. moves_auto. Qed.
#[local] Hint Resolve getPrev_idle sendNextNodeIdx_idle onLeaderChanged_idle subscribe_commit_idle pop_reply_idle : moves.

Lemma send_round_idle e n next b : idles (send_round conf e n next b).
Proof.
  unfold send_round, send. moves_auto.
  match goal with |- context [Serializer.getTransmissionData ?a ?b ?c ?d] =>
    by destruct (Serializer.getTransmissionData a b c d) end.
Qed.
#[local] Hint Resolve send_round_idle : moves.
Lemma send_rounds_idle e n quota b1 b2 : idles (send_rounds conf e n quota b1 b2).
Proof. revert b1 b2. induction quota as [|quota IH]; intros b1 b2; simpl; moves_auto. Qed.
#[local] Hint Resolve send_rounds_idle : moves.
Lemma send_nodes_idle e quota ns : idles (send_nodes conf e quota ns).
Proof. revert quota. induction ns as [|n ns IH]; intros quota; simpl; moves_auto. Qed.
Lemma sendAppendEntries_idle e : idles (sendAppendEntries conf e).
Proof. pose proof send_nodes_idle. unfold sendAppendEntries. moves_auto. Qed.
#[local] Hint Resolve sendAppendEntries_idle : moves.
Lemma onBecomeLeader_idle e : idles (onBecomeLeader conf e).
Proof. unfold onBecomeLeader. moves_auto; apply for_each_idle; intros; moves_auto. Qed.
Lemma commit_loop_idle fuel : idles (commit_loop fuel).
Proof. induction fuel; simpl; moves_auto. done. Qed.
Lemma tick_leader_idle e : idles (tick_leader conf e).
Proof. pose proof commit_loop_idle. unfold tick_leader. moves_auto. Qed.
Lemma tick_election_idle e : idles (tick_election conf e).
Proof.
  unfold tick_election. unfold send. moves_auto; apply for_each_idle; intros; moves_auto.
Qed.
Lemma process_command_idle e c o : idles (process_command conf e c o).
Proof. unfold process_command, call_back. moves_auto. Qed.
Lemma checkCommands_idle e i : idles (checkCommands conf e i).
Proof. pose proof process_command_idle. induction i as [|i IH]; simpl; moves_auto. Qed.
Lemma tryLogCompaction_idle e : idles (tryLogCompaction conf e).
Proof.
  unfold tryLogCompaction, compaction_done, compaction_starts, deleteEntriesTo. moves_auto.
  by destruct (Serializer.checkSerializing _ _).
Qed.

(** Every message but the chunks of a snapshot. *)
Lemma onMessageReceived_idle e n m : (forall trm ci c, m <> append_serialized trm ci c) ->
  idles (onMessageReceived conf e n m).
Proof.
  intros Hm. pose proof onBecomeLeader_idle. pose proof applyCommand_idle.
  destruct m as [trm i l|trm|trm ci es prev ptrm|trm ci c|c [rid|]|rid er|rid i trm|i b]; simpl;
    [..|by destruct (Hm trm ci c)| | | | |].
  - unfold on_request_vote. moves_auto.
  - moves_auto.
  - unfold on_append_entries, accept_leader, store_entries, follow_commit, deleteEntriesFrom. moves_auto.
  - auto.
  - auto.
  - moves_auto.
  - moves_auto.
  - moves_auto.
Qed.

(** ** What a tick applies *)
Definition object_after (cs : list C) (x : X) : X := foldl (fun x c => (doApply c x).1) x cs.
Definition commands es : list C := omap command es.

(** The entries [es] of the log, the next to apply, have been applied. *)
Definition applied_by es s s' : Prop :=
  numbered (raftLastApplied s + 1) es /\ Forall has_command es /\
  (forall en, en ∈ es -> log_at (raftLog s) (logID en) = Some en) /\
  raftLastApplied s' = raftLastApplied s + py_len es /\ object s' = object_after (commands es) (object s).
Definition applied s s' : Prop := exists es, applied_by es s s'.

Lemma idle_applied s s' : idle s s' -> applied s s'.
Proof.
  intros [El Eo]. exists []. split_and!; [done|done|by intros en ?%elem_of_nil| |done]. rewrite El. unfold py_len. cbn. lia.
Qed.
Lemma still_applied s s1 s' : idle s s1 -> raftLog s1 = raftLog s -> applied s1 s' -> applied s s'.
Proof.
  intros [El Eo] Elog (es & Hn & Hc & Hin & Hl & Ho). exists es. by split_and!; rewrite <-?El, <-?Eo, <-?Elog.
Qed.
Lemma applied_idle s s1 s' : applied s s1 -> idle s1 s' -> applied s s'.
Proof. intros (es & Hn & Hc & Hin & Hl & Ho) [El Eo]. exists es. by split_and!; rewrite ?El, ?Eo. Qed.

(** Sequences, also when the first part raises. *)
Lemma still_then {B D} (c : PyM (t A C X F) (effect A C R F) B) (k : B -> PyM _ _ D) s :
  idle s (post (c s)) -> raftLog (post (c s)) = raftLog s ->
  (forall b, applied (post (c s)) (post (k b (post (c s))))) -> applied s (post (py_bind c k s)).
Proof.
  unfold py_bind, post. destruct (c s) as [[s1 fx] [b|er]]; cbn [fst snd]; intros Hi El Hk; [|by apply idle_applied].
  specialize (Hk b). destruct (k b s1) as [[s2 fx'] r]. by eapply still_applied.
Qed.
Lemma then_idle {B D} (c : PyM (t A C X F) (effect A C R F) B) (k : B -> PyM _ _ D) s :
  applied s (post (c s)) -> (forall b, idles (k b)) -> applied s (post (py_bind c k s)).
Proof.
  unfold py_bind, post. destruct (c s) as [[s1 fx] [b|er]]; cbn [fst snd]; intros Ha Hk; [|done].
  specialize (Hk b s1). unfold moves_at, post in Hk. destruct (k b s1) as [[s2 fx'] r]. by eapply applied_idle.
Qed.

(** The entry without a command raises, and the rest is not applied. *)
Lemma apply_entries_applied es s : numbered (raftLastApplied s + 1) es ->
  (forall en, en ∈ es -> log_at (raftLog s) (logID en) = Some en) ->
  applied s (post (for_each es (apply_entry (R := R)) s)).
Proof.
  revert s. induction es as [|en es IH]; intros s Hn Hin; [by apply idle_applied|]. destruct Hn as [Hid Hn].
  cbn [for_each]. destruct (command en) as [c|] eqn:Ec; cycle 1.
  { apply idle_applied. unfold apply_entry, doApplyCommand, py_bind, py_get, py_set, post. by rewrite Ec. }
  pose proof (apply_entry_eq (R := R) en c s Ec) as Hen. destruct (doApply c (object s)) as [x r] eqn:Ex.
  unfold py_bind, post. rewrite Hen. match goal with |- context [for_each es apply_entry ?s0] => set (s1 := s0) end.
  destruct (IH s1) as (ds & Dn & Dc & Din & Dl & Do); [exact Hn|intros; apply Hin; by right|].
  unfold post in Dl, Do. destruct (for_each es apply_entry s1) as [[s2 fx] r']. cbn [fst snd] in *.
  exists (en :: ds). split_and!; [done|by constructor; [exists c|]| | |].
  - intros d [->|Hd]%elem_of_cons; [apply Hin; by left|by apply Din].
  - rewrite Dl. cbn [s1 raftLastApplied set_raftLastApplied]. unfold py_len. cbn [length]. lia.
  - rewrite Do. unfold commands. cbn [omap list_omap]. rewrite Ec. unfold object_after. cbn [foldl]. by rewrite Ex.
Qed.

Lemma tick_apply_applied s : num_ok (raftLog s) -> applied s (post (tick_apply (R := R) s)).
Proof.
  intros Hok. unfold tick_apply. rewrite post_get. unfold id.
  destruct (_ <? _); [|by apply idle_applied]. unfold getEntries, on_log, py_bind, py_call, post.
  destruct (entries_from _ _ _) as [es|er] eqn:Ee; [|by apply idle_applied]. cbn [fst snd].
  assert (numbered (raftLastApplied s + 1) es /\ forall en, en ∈ es -> log_at (raftLog s) (logID en) = Some en) as [Hn Hin].
  { apply entries_from_segment in Ee as [->|(Hge & k & ->)]; [split; [done|by intros en ?%elem_of_nil]| |done].
    by apply segment_slice. }
  pose proof (apply_entries_applied es s Hn Hin) as Ha. unfold post in Ha.
  by destruct (for_each es apply_entry s) as [[s' fx] r].
Qed.

Lemma onTick_applied e s : fullDumpFile conf = None -> num_ok (raftLog s) -> applied s (post (onTick (R := R) conf e s)).
Proof.
  intros Hfile Hok. unfold onTick. rewrite post_get. unfold id. rewrite Hfile, bool_decide_false by (by intros []). cbn [andb].
  apply still_then; [by destruct (needLoadDumpFile s)|by destruct (needLoadDumpFile s)|]. intros [].
  set (s1 := post _). assert (raftLog s1 = raftLog s) as El by (subst s1; by destruct (needLoadDumpFile s)).
  rewrite <-El in Hok. clearbody s1. clear El s.
  destruct (tick_election_turns (R := R) conf (nodes s1) e s1 eq_refl Hok) as [(El1 & _) _].
  apply still_then; [apply tick_election_idle|exact El1|]. intros []. set (s2 := post _) in *.
  destruct (tick_leader_keeps (R := R) conf e s2) as (_ & El2 & _).
  apply still_then; [apply tick_leader_idle|exact El2|]. intros []. set (s3 := post _) in *.
  apply then_idle; [apply tick_apply_applied; congruence|]. intros [].
  pose proof checkCommands_idle. pose proof tryLogCompaction_idle. unfold checkCommandsToApply. moves_auto.
Qed.
End applied.

(** ** One leader, one term *)
Section reign.
Context {A C R X F : Type} `{Countable A} `{Machine C R X} `{Codec (dump C X)}.
Context (conf : SyncObjConf) (l : A) (T : Z).
Hypothesis Hfile : fullDumpFile conf = None.
Implicit Types s : t A C X F.
Implicit Types w : world (A := A) (C := C) (X := X) (F := F).
Implicit Types es : list (entry C).

Definition one_term w : Prop :=
  forall u s, members w !! u = Some s -> raftState s = LEADER -> raftCurrentTerm s = T.
Definition reign_step w w' : Prop := led_step (R := R) conf (fun _ => l) w w' /\ one_term w'.

(** Executed with its checks. *)
#[export] Instance one_term_dec w : Decision (one_term w).
Proof.
  refine (cast_if (decide (map_Forall (fun _ s => raftState s = LEADER -> raftCurrentTerm s = T) (members w))));
    unfold one_term, map_Forall in *; naive_solver.
Defined.
Definition do_reign (a : action) w : option world :=
  w' ← do_led (R := R) conf (fun _ => l) a w; if decide (one_term w') then Some w' else None.
Definition run_reign (acts : list action) w : option world :=
  foldl (fun ow a => w ← ow; do_reign a w) (Some w) acts.

Lemma run_reign_steps acts w w' : run_reign acts w = Some w' -> rtc reign_step w w'.
Proof.
  unfold run_reign. revert w. induction acts as [|a acts IH]; intros w; cbn [foldl].
  { intros [= ->]. apply rtc_refl. }
  cbn [mbind option_bind]. destruct (do_reign a w) as [w1|] eqn:E.
  - intros Hrun. apply rtc_l with w1; [|by apply IH]. unfold do_reign in E.
    apply bind_Some in E as (w2 & Hd%do_led_step & Hw). destruct (decide (one_term w2)); [|done]. injection Hw as <-. by split.
  - assert (foldl (fun ow a => w ← ow; do_reign a w) None acts = None) as ->; [|done]. clear. by induction acts.
Qed.

(** Entries of the reign, after the first. *)
Definition fine (en : entry C) : Prop := 2 <= logID en -> term en = T.
Definition message_entries (m : message C) : list (entry C) :=
  match m with append_entries _ _ es _ _ => es | _ => [] end.

Definition object_ok (hist : list (entry C) -> Prop) (x : X) s : Prop := exists es,
  numbered 2 es /\ Forall has_command es /\ raftLastApplied s = 1 + py_len es /\ object s = object_after (commands es) x /\
  forall en, en ∈ es -> term en = T /\ exists K, hist K /\ log_at K (logID en) = Some en.

Record reigns (ids : list A) (x : X) (hist : list (entry C) -> Prop) w : Prop := {
  reigns_inv : inv (fun _ => l) ids hist w;
  reigns_log u s : members w !! u = Some s -> Forall fine (raftLog s);
  reigns_net src dst m : (src, dst, m) ∈ net w -> Forall fine (message_entries m);
  reigns_object u s : members w !! u = Some s -> object_ok hist x s;
}.

Lemma log_at_elem (L : list (entry C)) i en : log_at L i = Some en -> en ∈ L.
Proof. unfold log_at. destruct (_ <? _); [done|]. apply list_elem_of_lookup_2. Qed.

Lemma object_applied hist hist' x s s' : (forall L, hist L -> hist' L) -> hist (raftLog s) -> Forall fine (raftLog s) ->
  object_ok hist x s -> applied (R := R) s s' -> object_ok hist' x s'.
Proof.
  intros Hh Hs Hf (es & En & Ec & El & Eo & Ein) (ds & Dn & Dc & Din & Dl & Do). exists (es ++ ds). split_and!.
  - apply numbered_app. split; [done|]. by replace (2 + py_len es) with (raftLastApplied s + 1) by lia.
  - by apply Forall_app.
  - rewrite Dl, El, py_len_app. lia.
  - rewrite Do, Eo. unfold commands, object_after. by rewrite omap_app, foldl_app.
  - intros en [Hen|Hen]%elem_of_app; [destruct (Ein en Hen) as (? & K & ? & ?); eauto|]. split.
    + rewrite Forall_forall in Hf. apply Hf; [by eapply log_at_elem, Din|].
      pose proof (numbered_elem _ _ _ Dn Hen). unfold py_len in *. lia.
    + exists (raftLog s). auto.
Qed.
Lemma object_mono hist hist' x s : (forall L, hist L -> hist' L) -> object_ok hist x s -> object_ok hist' x s.
Proof.
  intros Hh (es & En & Ec & El & Eo & Ein). exists es. split_and!; [done..|]. intros en Hen.
  destruct (Ein en Hen) as (? & K & ? & ?). eauto.
Qed.

Lemma reigns_update ids x hist hist' w u s s' (fx : list (effect A C R F)) :
  reigns ids x hist w -> members w !! u = Some s -> (forall L, hist L -> hist' L) ->
  inv (fun _ => l) ids hist' (MkWorld (<[u := s']> (members w)) (net w ++ messages u fx)) ->
  Forall fine (raftLog s') -> (forall to m, Send to m ∈ fx -> Forall fine (message_entries m)) ->
  applied (R := R) s s' -> reigns ids x hist' (MkWorld (<[u := s']> (members w)) (net w ++ messages u fx)).
Proof.
  intros [Hi Hl Hn Ho] Hu Hh Hi' Hl' Hfx Ha. split; cbn [members net]; [done|..].
  - intros v sv [[_ <-]|[_ Hv]]%lookup_insert_Some; [done|by eapply Hl].
  - intros src dst m [Hin|Hin]%elem_of_app; [by eapply Hn|].
    apply list_elem_of_omap in Hin as ([to m'|] & Hin & [= <- <- <-]). by eapply Hfx.
  - intros v sv [[_ <-]|[_ Hv]]%lookup_insert_Some; [|by eapply object_mono, Ho].
    eapply object_applied; [done|by eapply inv_hist|by eapply Hl|by eapply Ho|done].
Qed.

(** What a node writes and sends in the reign. *)
Lemma acts_fine N s (fx : list (effect A C R F)) s' : nodes s = N -> num_ok (raftLog s) -> acts N s fx s' ->
  (raftState s' = LEADER -> raftCurrentTerm s' = T) -> Forall fine (raftLog s) ->
  Forall fine (raftLog s') /\ forall to m, Send to m ∈ fx -> Forall fine (message_entries m).
Proof.
  intros HN Hok Hacts HT Hf. destruct (Hacts HN Hok) as (s1 & fx1 & fx2 & -> & (El & En & _ & _) & Hfx1 & Hw).
  destruct (Hw ltac:(congruence) ltac:(by rewrite El)) as ((Er & Et & _) & _ & k & es & _ & El' & Hnew & Hfx2).
  assert (Forall fine (raftLog s1 ++ es)) as Hall.
  { rewrite El. apply Forall_app. split; [done|]. destruct Hnew as [->|(Hlead & _ & _ & Hterm)]; [done|].
    eapply Forall_impl; [exact Hterm|]. intros en Hen _. rewrite Hen, <-Et. apply HT. congruence. }
  split; [rewrite El'; by apply Forall_drop|]. intros to m [Hin|Hin]%elem_of_app.
  - destruct (Hfx1 to m Hin) as [_ Hm]. by destruct m.
  - destruct (Hfx2 to m Hin) as [_ Hm]. destruct m as [| |trm ci ms prev ptrm| | | | |]; try (by constructor).
    destruct (Hm eq_refl) as (_ & _ & _ & Hsl & _). apply Forall_forall. intros en Hen.
    rewrite Forall_forall in Hall. by eapply Hall, log_at_elem, Hsl.
Qed.

Lemma accepted_fine log es prev ptrm log' : accepted log es prev ptrm log' -> Forall fine log -> Forall fine es ->
  Forall fine log'.
Proof.
  intros [[k ->]|(i & p & _ & _ & _ & ->)] Hl He; [by apply Forall_take|].
  apply Forall_app. split; [by apply Forall_take|done].
Qed.

Lemma reigns_member ids x hist hist' w w' u (m : PyM (t A C X F) (effect A C R F) unit) :
  reigns ids x hist w -> (forall L, hist L -> hist' L) -> inv (fun _ => l) ids hist' w' -> one_term w' ->
  on_member u m w = Some w' -> does (acts (filter (fun v => v <> u) ids)) m ->
  (forall s, num_ok (raftLog s) -> applied (R := R) s (post (m s))) -> reigns ids x hist' w'.
Proof.
  intros Hr Hh Hi HT (s & Hu & ->)%on_member_Some Hacts Happ.
  destruct (inv_nodes _ _ _ _ (reigns_inv _ _ _ _ Hr) u s Hu) as [_ HN].
  assert (num_ok (raftLog s)) as Hok by (eapply inv_num_ok, inv_hist; [apply Hr|apply Hr|exact Hu]).
  destruct (acts_fine _ s _ _ HN Hok (Hacts s)) as [Hl Hfx]; [|by eapply reigns_log|].
  { apply (HT u). apply lookup_insert_eq. }
  eapply (reigns_update ids x hist hist' w u s); eauto.
Qed.

Lemma reigns_append ids x hist hist' w w' u src e trm ci es prev ptrm :
  reigns ids x hist w -> (forall L, hist L -> hist' L) -> inv (fun _ => l) ids hist' w' ->
  (src, u, append_entries trm ci es prev ptrm) ∈ net w ->
  on_member u (onMessageReceived (R := R) conf e src (append_entries trm ci es prev ptrm)) w = Some w' ->
  reigns ids x hist' w'.
Proof.
  intros Hr Hh Hi Hin (s & Hu & ->)%on_member_Some. pose proof (reigns_inv _ _ _ _ Hr) as Hinv.
  destruct (inv_net _ _ _ _ Hinv _ _ _ Hin) as (Hs & _ & Hne & Hl). destruct (Hl eq_refl) as (_ & L & HL & _ & _ & Hprev).
  destruct (inv_nodes _ _ _ _ Hinv u s Hu) as [_ En]. pose proof (reigns_log _ _ _ _ Hr u s Hu) as Hf.
  destruct (on_append_entries_follows (R := R) conf s e src trm ci es prev ptrm) as [Hfx Hpost].
  - eapply inv_num_ok, inv_hist; done.
  - rewrite En. apply list_elem_of_filter. done.
  - intros i ->. by destruct Hprev.
  - eapply (reigns_update ids x hist hist' w u s); [done..| | |].
    + cbn [onMessageReceived]. destruct (_ <=? _); [|by rewrite Hpost]. destruct Hpost as (_ & _ & _ & _ & Hacc).
      eapply accepted_fine; [exact Hacc|done|]. apply (reigns_net _ _ _ _ Hr _ _ _ Hin).
    + intros to m Hm. destruct (Hfx to m Hm) as [_ Hna]. by destruct m.
    + apply idle_applied, onMessageReceived_idle. by intros.
Qed.

Lemma reign_step_reigns ids x hist w w' : reigns ids x hist w -> reign_step w w' -> exists hist', reigns ids x hist' w'.
Proof.
  intros Hr [Hled HT]. destruct (inv_led_step conf _ Hfile ids hist w w' (reigns_inv _ _ _ _ Hr) Hled) as (hist' & Hh & Hi).
  exists hist'. destruct Hled as (a & Ha & Hsnap & _). destruct a as [k e|u e|u c callback]; cbn in Ha.
  - destruct (net w !! k) as [[[src dst] m]|] eqn:Ek; [|done]. cbn in Ha.
    assert ((src, dst, m) ∈ net w) as Hin by (by eapply list_elem_of_lookup_2).
    assert (forall trm ci c, m <> append_serialized trm ci c) as Hm by (intros trm ci c ->; by eapply Hsnap).
    destruct (is_append m) eqn:Em; [destruct m; try done; by eapply reigns_append|].
    eapply reigns_member; [done..| |]; [by apply onMessageReceived_acts|].
    intros s _. by apply idle_applied, onMessageReceived_idle.
  - eapply reigns_member; [done..| |]; [by apply onTick_acts|]. intros s Hok. by apply onTick_applied.
  - eapply reigns_member; [done..| |]; [intros s; apply works_acts, calm_works, applyCommand_calm|].
    intros s _. by apply idle_applied, applyCommand_idle.
Qed.

Lemma reigns_start ids x e : reigns ids x (fun L => L = [MkEntry None 1 0]) (start (F := F) conf ids x e).
Proof.
  pose proof (inv_start (C := C) (X := X) (F := F) conf (fun _ => l) ids x e) as Hi.
  assert (forall u s, members (start (F := F) conf ids x e) !! u = Some s ->
    s = init conf u (filter (fun v => v <> u) ids) x None (e u)) as Hs.
  { intros u s Hu. apply elem_of_list_to_map_2, list_elem_of_fmap in Hu as (v & [= -> ->] & Hv). done. }
  split; [done|..].
  - intros u s ->%Hs. cbn. repeat constructor. by intros ?.
  - by intros src dst m ?%elem_of_nil.
  - intros u s ->%Hs. exists []. split_and!; [done..|]. by intros en ?%elem_of_nil.
Qed.

(** ** One sequence of commands *)

(** Two nodes have applied the same entries as far as both have. *)
Lemma objects_comparable ids hist w (es ds : list (entry C)) : inv (fun _ => l) ids hist w ->
  numbered 2 es -> numbered 2 ds ->
  (forall en, en ∈ es -> term en = T /\ exists K, hist K /\ log_at K (logID en) = Some en) ->
  (forall en, en ∈ ds -> term en = T /\ exists K, hist K /\ log_at K (logID en) = Some en) ->
  py_len es <= py_len ds -> es `prefix_of` ds.
Proof.
  intros Hi En Dn Ein Din Hlen. unfold py_len in Hlen. exists (drop (length es) ds).
  rewrite <-(take_drop (length es) ds) at 1. f_equal. apply list_eq. intros i.
  destruct (decide (i < length es)%nat) as [Hlt|Hge]; cycle 1.
  { rewrite !lookup_ge_None_2; [done|lia|rewrite length_take; lia]. }
  rewrite lookup_take_lt by done.
  destruct (lookup_lt_is_Some_2 es i Hlt) as [a Ha]. destruct (lookup_lt_is_Some_2 ds i ltac:(lia)) as [b Hb].
  rewrite Ha, Hb. f_equal. pose proof (numbered_lookup _ _ _ _ En Ha) as Hai. pose proof (numbered_lookup _ _ _ _ Dn Hb) as Hbi.
  destruct (Ein a) as (Ta & K & HK & HaK); [by eapply list_elem_of_lookup_2|].
  destruct (Din b) as (Tb & K' & HK' & HbK); [by eapply list_elem_of_lookup_2|].
  rewrite Hai in HaK. rewrite Hbi in HbK. symmetry.
  eapply (inv_match _ _ _ _ Hi K K' HK HK' _ a b HaK HbK); [congruence|reflexivity|exact HaK|exact HbK].
Qed.

Definition from_reign (hist : list (entry C) -> Prop) es : Prop :=
  numbered 2 es /\ Forall has_command es /\
  forall en, en ∈ es -> term en = T /\ exists K, hist K /\ log_at K (logID en) = Some en.

(** A longest one. *)
Lemma longest ids x hist w (ss : list (t A C X F)) : inv (fun _ => l) ids hist w -> Forall (object_ok hist x) ss ->
  exists G, from_reign hist G /\ forall s, s ∈ ss -> exists es, es `prefix_of` G /\
    raftLastApplied s = 1 + py_len es /\ object s = object_after (commands es) x.
Proof.
  intros Hi. induction 1 as [|s ss (es & En & Ec & El & Eo & Ein) _ (G & (Gn & Gc & Gin) & IH)].
  { exists []. split; [split_and!; [done|done|by intros en ?%elem_of_nil]|by intros s ?%elem_of_nil]. }
  destruct (Z.le_ge_cases (py_len es) (py_len G)) as [Hle|Hge].
  - exists G. split; [done|]. intros s' [->|Hs]%elem_of_cons; [|by apply IH].
    exists es. split; [by eapply objects_comparable|done].
  - exists es. split; [done|]. assert (G `prefix_of` es) as Hp by (by eapply objects_comparable).
    intros s' [->|Hs]%elem_of_cons; [by exists es|]. destruct (IH s' Hs) as (ds & Hd & ? & ?).
    exists ds. split; [by etrans|done].
Qed.

Lemma commands_app es ds : commands (es ++ ds) = commands es ++ commands ds.
Proof. apply omap_app. Qed.
Lemma commands_length es : Forall has_command es -> length (commands es) = length es.
Proof. induction 1 as [|en es [c Hc] _ IH]; [done|]. unfold commands in *. cbn. rewrite Hc. cbn. by rewrite IH. Qed.

(** C6: under one leader in one term (no second node ever leads, nor this one in
    another term; no dump file, no snapshot) the replicas agree: there is one
    sequence of commands such that the object of every node is what the first
    [raftLastApplied - 1] of them make of the initial object, under any loss,
    repetition and reordering of messages, whatever logs are cut or sent again,
    and although handlers may raise. *)
Theorem replicas_agree ids x e w : rtc reign_step (start conf ids x e) w ->
  exists cs : list C, forall u s, members w !! u = Some s ->
    1 <= raftLastApplied s <= 1 + py_len cs /\
    object s = object_after (take (Z.to_nat (raftLastApplied s - 1)) cs) x.
Proof.
  intros Hrun. assert (exists hist, reigns ids x hist w) as [hist Hr].
  { pose proof (reigns_start ids x e) as Hr. revert Hr. generalize (fun L : list (entry C) => L = [MkEntry None 1 0]) as hist.
    induction Hrun as [|w0 w1 w2 Hstep _ IH]; intros hist Hr; [eauto|].
    destruct (reign_step_reigns _ _ _ _ _ Hr Hstep) as [hist' Hr']. by eapply IH. }
  destruct (longest ids x hist w (map_to_list (members w)).*2) as (G & (_ & Gc & _) & HG); [apply Hr| |].
  { apply Forall_forall. intros s ([u s'] & -> & Hu)%list_elem_of_fmap. eapply reigns_object; [exact Hr|].
    by apply elem_of_map_to_list. }
  exists (commands G). intros u s Hu. destruct (HG s) as (es & [ds ->] & El & Eo).
  { apply list_elem_of_fmap. exists (u, s). split; [done|]. by apply elem_of_map_to_list. }
  apply Forall_app in Gc as [Ec Dc]. rewrite El, Eo, commands_app.
  replace (Z.to_nat (1 + py_len es - 1)) with (length (commands es)) by (rewrite (commands_length _ Ec); unfold py_len; lia).
  rewrite take_app_length. split; [|done]. unfold py_len. rewrite length_app, (commands_length _ Ec). lia.
Qed.
End reign.
