(* ===== verification/SyncObjDemo.v ===== *)
(** * Concrete clusters of PySyncObj nodes

    A replicated list of strings on integer addresses: the witnesses of the
    theorems, and a run in which two nodes lead the same term. *)
From stdpp Require Import base gmap sets list strings relations.
From Stdlib Require Import ZArith QArith Lia.
From S2P Require Import Prelude PyList Serializer SyncObj SyncObjLog SyncObjMoves SyncObjTheorems SyncObjLeader SyncObjCluster SyncObjMatching SyncObjBounds SyncObjAgreement.
Local Open Scope Z_scope.

Module Demo.

(** [append_entry(x)] returns the length before. *)
#[export] Instance append_machine : Machine string Z (list string) :=
  fun c x => ((x ++ [c])%list, py_len x).

(** No dump is read in these runs. *)
#[export] Instance no_codec : Codec (dump string (list string)) :=
  {| mem_dump _ := []; mem_load _ := Raise UnpicklingError;
     gz_dump _ := []; gz_load _ := Raise UnpicklingError |}.

Definition at_time (t : Q) : env Z :=
  MkEnv t 0 (fun _ => true) 10 false 99 true true true true.

Abbreviation state := (SyncObj.t Z string (list string) Z).

Definition world0 : world (A := Z) (C := string) (X := list string) (F := Z) := start (F := Z) default_conf [1; 2; 3] [] (fun _ => at_time 0).

(** Nodes 1 and 2 stand for election at once; node 3 votes for both. *)
Definition elections : list (action (A := Z) (C := string) (F := Z)) :=
  [ Tick 1 (at_time 10);                    (* 0: 1->2, 1: 1->3 request_vote *)
    Tick 2 (at_time 10);                    (* 2: 2->1, 3: 2->3 request_vote *)
    Deliver 1 (at_time 10);                 (* 4: 3->1 response_vote *)
    Deliver 3 (at_time 10);                 (* 5: 3->2 response_vote *)
    Deliver 4 (at_time 10);                 (* 6: 1->2, 7: 1->3 append_entries *)
    Deliver 5 (at_time 10) ].               (* 8: 2->1, 9: 2->3 append_entries *)

(** Each leader commits and applies a command of its own at index 2. *)
Definition commands : list (action (A := Z) (C := string) (F := Z)) :=
  [ Submit 1 "a"%string NoCallback;
    Tick 1 (at_time 11);                    (* appends; 10, 11: heartbeats *)
    Tick 1 (at_time 12);                    (* 12: 1->2, 13: 1->3 with the entry *)
    Deliver 13 (at_time 12);                (* 14: 3->1 next_node_idx *)
    Deliver 14 (at_time 12);
    Tick 1 (at_time (121 # 10));            (* commits and applies *)
    Submit 2 "b"%string NoCallback;
    Tick 2 (at_time 11);                    (* 15, 16: heartbeats *)
    Tick 2 (at_time 12);                    (* 17: 2->1, 18: 2->3 with the entry *)
    Deliver 18 (at_time 12);                (* 19: 3->2 next_node_idx *)
    Deliver 19 (at_time 12);
    Tick 2 (at_time (121 # 10)) ].

Definition outcome_run : option (world (A := Z) (C := string) (X := list string) (F := Z)) := run (R := Z) default_conf (elections ++ commands) world0.

(** What is compared of the nodes. *)
Definition view (s : state) : RAFT_STATE * Z * Z * list string :=
  (raftState s, raftCurrentTerm s, raftLastApplied s, object s).

Lemma views_after :
  option_map (fun w => view <$> members w) outcome_run =
  Some {[1 := (LEADER, 1, 2, ["a"%string]); 2 := (LEADER, 1, 2, ["b"%string]);
         3 := (FOLLOWER, 1, 1, [])]}.
Proof. vm_compute. reflexivity. Qed.

End Demo.
#[local] Existing Instances Demo.append_machine Demo.no_codec.

(** C18: two nodes can lead the same term, because a vote is not remembered, and
    then commit and apply different commands at the same index: the replicated
    objects differ although both nodes applied what they call committed. *)
Theorem election_unsafe :
  exists (w : world (A := Z) (C := string) (X := list string) (F := Z)) (s1 s2 : Demo.state),
    rtc (step (R := Z) default_conf) Demo.world0 w /\
    members w !! 1 = Some s1 /\ members w !! 2 = Some s2 /\
    raftState s1 = LEADER /\ raftState s2 = LEADER /\ raftCurrentTerm s1 = raftCurrentTerm s2 /\
    raftLastApplied s1 = 2 /\ raftLastApplied s2 = 2 /\ object s1 <> object s2.
Proof.
  pose proof Demo.views_after as Hv.
  destruct Demo.outcome_run as [w|] eqn:Erun; [|done]. simpl in Hv. apply (inj Some) in Hv.
  assert (Hat : forall u x, ({[1 := (LEADER, 1, 2, ["a"%string]); 2 := (LEADER, 1, 2, ["b"%string]);
         3 := (FOLLOWER, 1, 1, [])]} : gmap Z (RAFT_STATE * Z * Z * list string)) !! u = Some x ->
    exists s, members w !! u = Some s /\ Demo.view s = x).
  { intros u x. rewrite <-Hv, lookup_fmap. intros (s & Hs & ->)%fmap_Some. eauto. }
  destruct (Hat 1 (LEADER, 1, 2, ["a"%string]) eq_refl) as (s1 & Hs1 & [= E1 E2 E3 E4]).
  destruct (Hat 2 (LEADER, 1, 2, ["b"%string]) eq_refl) as (s2 & Hs2 & [= F1 F2 F3 F4]).
  assert (Hrun : rtc (step (R := Z) default_conf) Demo.world0 w)
    by exact (run_steps default_conf _ _ _ Erun).
  clear Hat Hv Erun. exists w, s1, s2.
  repeat (split; [assumption || congruence|]). by rewrite E4, F4.
Qed.

(** ** Witnesses *)
Module Nodes.
Import Demo.

(** A queue of one command and batches of two entries. *)
Definition conf2 : SyncObjConf := {|
  autoTick := false; autoTickPeriod := 5 # 100;
  commandsQueueSize := 1; maxCommandsPerTick := 100;
  raftMinTimeout := 1; raftMaxTimeout := 3; appendEntriesPeriod := 3 # 10;
  connectionTimeout := 35 # 10; connectionRetryTime := 5;
  appendEntriesBatchSize := 2; appendEntriesUseBatch := true;
  sendBufferSize := 2 ^ 13; recvBufferSize := 2 ^ 13;
  dnsCacheTime := 600; dnsFailCacheTime := 30;
  logCompactionMinEntries := 5000; logCompactionMinTime := 60; logCompactionBatchSize := 2 ^ 13;
  commandsWaitLeader := true; fullDumpFile := None; bindRetryTime := 1;
|}.

Definition log3 : list (entry string) :=
  [MkEntry None 1 0; MkEntry (Some "a"%string) 2 1; MkEntry (Some "b"%string) 3 1;
   MkEntry (Some "c"%string) 4 2].

Definition fresh (u : Z) : state :=
  init conf2 u (filter (fun v => v <> u) [1; 2; 3]) [] None (at_time 0).

(** A leader of term 2 whose nodes 2 and 3 hold the log up to 3 and 4. *)
Definition leading : state :=
  set_raftState LEADER (set_raftCurrentTerm 2 (set_raftLog log3
    (set_raftMatchIndex {[2 := 3; 3 := 1]} (set_raftNextIndex {[2 := 2; 3 := 2]} (fresh 1))))).

(** A follower with entries up to 4 of which three are committed. *)
Definition holding : state :=
  set_raftLog log3 (set_raftCommitIndex 3 (set_commandsWaitingCommit {[2 := [(1, 7)]; 3 := [(0, 8)]]}
    (set_raftCurrentTerm 2 (fresh 2)))).

(** A leader whose log starts at 3, in the middle of a dump. *)
Definition dumping_leader : state :=
  set_raftLog (drop 2 log3) (set_serializer (Serializer.serialize 99 ([], MkEntry None 2 0,
    MkEntry None 1 0) 3 (serializer leading)) leading).

End Nodes.

Lemma log_slices_witness :
  entries_from (Some 3) None Nodes.log3 = Ret (drop 2 Nodes.log3) /\
  entries_from (Some 3) (Some 1) Nodes.log3 = Ret [MkEntry (Some "b"%string) 3 1] /\
  log_until 3 Nodes.log3 = Ret (take 2 Nodes.log3) /\
  log_since 3 Nodes.log3 = Ret (drop 2 Nodes.log3).
Proof. refine (log_slices Nodes.log3 3 1 _ _); [repeat split|discriminate]. Defined.

Lemma append_entries_spec_witness :
  let s := Nodes.fresh 2 in
  let e := Demo.at_time 5 in
  let es := [MkEntry (Some "a"%string) 2 1] in
  onMessageReceived Nodes.conf2 e 1 (append_entries 1 7 es (Some 1) (Some 0)) s =
    (set_raftCommitIndex 2 (set_raftLog (MkEntry None 1 0 :: es) (following Nodes.conf2 e 1 1 s)),
     [Send 1 (next_node_idx 3 false)], Ret tt) :> Demo.state * list (effect Z string Z Z) * outcome unit.
Proof.
  refine (append_entries_spec Nodes.conf2 (Nodes.fresh 2) (Demo.at_time 5) 1 1 7
    [MkEntry (Some "a"%string) 2 1] (Some 1) (Some 0) _ _ _ _).
  - repeat split.
  - apply (bool_decide_unpack _). vm_compute. exact I.
  - discriminate.
  - intros i [= <-]. repeat split.
Defined.

Lemma messages_keep_log_witness :
  log_ok (raftLog (post (onMessageReceived (R := Z) Nodes.conf2 (Demo.at_time 5) 1
    (append_entries 2 7 [MkEntry (Some "d"%string) 3 2] (Some 2) (Some 1)) Nodes.holding))).
Proof.
  apply (messages_keep_log Nodes.conf2 Nodes.holding (Demo.at_time 5) 1).
  - repeat split.
  - apply (bool_decide_unpack _). vm_compute. exact I.
  - split; [intros i [= <-]; repeat split|]. intros p [=].
Defined.

Lemma tick_keeps_log_witness :
  let s := set_needLoadDumpFile false Nodes.leading in
  let s' := post (onTick (R := Z) Nodes.conf2 (Demo.at_time 5) s) in
  log_ok (raftLog s') /\ Serializer.currentID (serializer s') <= last_index (raftLog s').
Proof.
  apply (tick_keeps_log Nodes.conf2 (set_needLoadDumpFile false Nodes.leading) (Demo.at_time 5));
    [reflexivity|repeat split|discriminate].
Defined.

Lemma leader_commit_rule_witness :
  exists c,
    commit_loop (R := Z) (Z.to_nat (4 - 1)) Nodes.leading
      = (set_raftCommitIndex c Nodes.leading, [], Ret tt) /\
    1 <= c <= 4 /\
    (forall i, 1 < i <= c -> on_majority i Nodes.leading) /\
    (c < 4 -> ~ on_majority (c + 1) Nodes.leading).
Proof.
  refine (leader_commit_rule Nodes.leading _ _ _); [repeat split| |discriminate].
  intros n Hn. repeat (apply elem_of_cons in Hn as [->|Hn]; [by eexists|]).
  by apply elem_of_nil in Hn.
Defined.

Lemma apply_committed_witness :
  exists waiting,
    tick_apply Nodes.holding =
      (set_raftLastApplied 3 (set_object ["a"; "b"]%string
         (set_commandsWaitingCommit waiting Nodes.holding)),
       [Callback 7 (Some 0) SyncObj.SUCCESS; Callback 8 None DISCARDED], Ret tt) /\
    forall i, waiting !! i = if decide (1 < i <= 3) then None
                             else commandsWaitingCommit Nodes.holding !! i.
Proof.
  refine (apply_committed Nodes.holding _ _ _ _); [repeat split|discriminate|split; [reflexivity|discriminate]|].
  vm_compute. repeat constructor; by eexists.
Defined.


Lemma vote_rule_witness :
  let x := onMessageReceived (R := Z) Nodes.conf2 (Demo.at_time 5) 1 (request_vote 3 4 2) Nodes.holding in
  result x = Ret tt /\
  (effects x = [Send 1 (response_vote 3)] \/ effects x = []) /\
  (effects x = [Send 1 (response_vote 3)] <->
     (2 < 3 \/ (2 = 3 /\ raftState Nodes.holding <> LEADER)) /\
     (2 < 2 \/ (2 = 2 /\ 4 <= 4))).
Proof.
  refine (vote_rule Nodes.conf2 Nodes.holding (Demo.at_time 5) 1 3 4 2 (MkEntry (Some "c"%string) 4 2) _ _ _).
  - repeat split.
  - apply (bool_decide_unpack _). vm_compute. exact I.
  - reflexivity.
Defined.

Lemma snapshot_not_ready_witness :
  send_round Nodes.conf2 (Demo.at_time 5) 2 2 false Nodes.dumping_leader
    = (Nodes.dumping_leader, [Send 2 (append_serialized 2 1 Serializer.NoChunk)], Ret false)
      :> Demo.state * list (effect Z string Z Z) * outcome bool /\
  result (onMessageReceived (R := Z) Nodes.conf2 (Demo.at_time 5) 1
    (append_serialized 2 1 Serializer.NoChunk) (Nodes.fresh 2)) = Raise KeyError.
Proof.
  refine (snapshot_not_ready Nodes.conf2 Nodes.dumping_leader (Nodes.fresh 2) (Demo.at_time 5)
    (Demo.at_time 5) 2 1 2 false _ _ _ _); [repeat split|reflexivity|discriminate|discriminate].
Defined.

Lemma full_queue_witness :
  let s := set_commandsQueue [("a"%string, NoCallback)] Nodes.leading in
  (forall f : Z, applyCommand Nodes.conf2 "b"%string (Local f) s
     = (s, [Callback f None QUEUE_FULL], Ret tt) :> Demo.state * list (effect Z string Z Z) * _) /\
  (forall rid, onMessageReceived Nodes.conf2 (Demo.at_time 5) 2 (apply_command "b"%string rid) s
     = (s, [], Raise TypeError) :> Demo.state * list (effect Z string Z Z) * _).
Proof.
  apply (full_queue Nodes.conf2 (set_commandsQueue [("a"%string, NoCallback)] Nodes.leading)
    (Demo.at_time 5) 2 "b"%string). reflexivity.
Defined.

(** One node leads and replicates a command to another. *)
Module OneLeader.
Import Demo.

Definition actions : list (action (A := Z) (C := string) (F := Z)) :=
  [ Tick 1 (at_time 10);                    (* 0: 1->2, 1: 1->3 request_vote *)
    Deliver 1 (at_time 10);                 (* 2: 3->1 response_vote *)
    Deliver 2 (at_time 10);                 (* 3: 1->2, 4: 1->3 append_entries *)
    Submit 1 "a"%string NoCallback;
    Tick 1 (at_time 11);                    (* appends; 5, 6: heartbeats *)
    Tick 1 (at_time 12);                    (* 7: 1->2, 8: 1->3 with the entry *)
    Deliver 8 (at_time 12) ].
Definition outcome_run : option (world (A := Z) (C := string) (X := list string) (F := Z)) :=
  run_led (R := Z) default_conf (fun _ => 1) actions world0.
Definition logs_of (w : world (A := Z) (C := string) (X := list string) (F := Z)) : list (option (list (entry string))) :=
  (fun u => raftLog <$> members w !! u) <$> [1; 3].

Lemma logs_after : option_map logs_of outcome_run =
  Some [Some [MkEntry None 1 0; MkEntry (Some "a"%string) 2 1]; Some [MkEntry None 1 0; MkEntry (Some "a"%string) 2 1]].
Proof. vm_compute. reflexivity. Qed.
End OneLeader.

Lemma log_matching_witness :
  exists (w : world (A := Z) (C := string) (X := list string) (F := Z)) (s s' : Demo.state),
    members w !! 1 = Some s /\ members w !! 3 = Some s' /\ last_index (raftLog s) = 2 /\
    forall j c d, j <= 2 -> log_at (raftLog s) j = Some c -> log_at (raftLog s') j = Some d -> c = d.
Proof.
  pose proof OneLeader.logs_after as Hl. destruct OneLeader.outcome_run as [w|] eqn:Erun; [|discriminate].
  apply (inj Some) in Hl. injection Hl as H1 H3.
  apply fmap_Some in H1 as (s & Hs & El), H3 as (s' & Hs' & El'). exists w, s, s'.
  split; [exact Hs|]. split; [exact Hs'|]. split; [rewrite <-El; reflexivity|]. intros j c d Hj.
  refine (log_matching default_conf (fun _ => 1) eq_refl [1; 2; 3] [] (fun _ => Demo.at_time 0) w
    (run_led_steps _ _ _ _ _ Erun) 1 3 s s' Hs Hs' 2 (MkEntry (Some "a"%string) 2 1) (MkEntry (Some "a"%string) 2 1) _ _ eq_refl j c d Hj);
    [rewrite <-El|rewrite <-El']; reflexivity.
Defined.

Lemma cluster_bounded_witness :
  exists w : world (A := Z) (C := string) (X := list string) (F := Z),
    Demo.outcome_run = Some w /\
    (forall u s, members w !! u = Some s -> py_len (commandsQueue s) <= 1000) /\
    (forall src dst trm ci es prev ptrm, (src, dst, append_entries trm ci es prev ptrm) ∈ net w -> py_len es <= 1000).
Proof.
  pose proof Demo.views_after as Hv. destruct Demo.outcome_run as [w|] eqn:Erun; [|discriminate]. clear Hv.
  exists w. split; [reflexivity|].
  refine (cluster_bounded (R := Z) default_conf _ [1; 2; 3] [] (fun _ => Demo.at_time 0) w _ (run_steps default_conf _ _ _ Erun));
    [discriminate|reflexivity].
Defined.

Lemma logs_numbered_witness :
  exists w : world (A := Z) (C := string) (X := list string) (F := Z),
    OneLeader.outcome_run = Some w /\
    (forall u s, members w !! u = Some s -> numbered (first_index (raftLog s)) (raftLog s)) /\
    (forall src dst trm ci es prev ptrm, (src, dst, append_entries trm ci es prev ptrm) ∈ net w ->
       numbered (first_index es) es /\ forall i, prev = Some i -> numbered (i + 1) es).
Proof.
  pose proof OneLeader.logs_after as Hl. destruct OneLeader.outcome_run as [w|] eqn:Erun; [|discriminate]. clear Hl.
  exists w. split; [reflexivity|].
  refine (logs_numbered (R := Z) default_conf [1; 2; 3] [] (fun _ => Demo.at_time 0) w eq_refl _).
  refine (rtc_subrel _ _ _ _ _ (run_led_steps _ _ _ _ _ Erun)). intros w1 w2 (a & Ha & Hs & _). exists a. split; assumption.
Defined.

(** The leader commits the command; it and another node apply it. *)
Module OneReign.
Import Demo.

Definition actions : list (action (A := Z) (C := string) (F := Z)) := OneLeader.actions ++
  [ Deliver 9 (at_time 12);                 (* 3->1 next_node_idx *)
    Tick 1 (at_time 13);                    (* commits and applies; 10: 1->2, 11: 1->3 *)
    Deliver 11 (at_time 13);
    Tick 3 (at_time 13) ].
Definition outcome_run : option (world (A := Z) (C := string) (X := list string) (F := Z)) :=
  run_reign (R := Z) default_conf 1 1 actions world0.

Lemma objects_after :
  option_map (fun w => (fun s => (object s, raftLastApplied s)) <$> (map_to_list (members w)).*2) outcome_run =
  Some [(["a"%string], 2); ([], 1); (["a"%string], 2)].
Proof. vm_compute. reflexivity. Qed.
End OneReign.

Lemma replicas_agree_witness :
  exists (w : world (A := Z) (C := string) (X := list string) (F := Z)) (cs : list string),
    OneReign.outcome_run = Some w /\
    forall u s, members w !! u = Some s -> 1 <= raftLastApplied s <= 1 + py_len cs /\
      object s = object_after (R := Z) (take (Z.to_nat (raftLastApplied s - 1)) cs) [].
Proof.
  pose proof OneReign.objects_after as Ho. destruct OneReign.outcome_run as [w|] eqn:Erun; [|discriminate]. clear Ho.
  exists w. destruct (replicas_agree (R := Z) default_conf 1 1 eq_refl [1; 2; 3] [] (fun _ => Demo.at_time 0) w
    (run_reign_steps _ _ _ _ _ _ Erun)) as [cs Hcs].
  exists cs. split; [reflexivity|exact Hcs].
Defined.

(** ** A committed command that is lost

    One leader per term is not enough for the commit rule of syncobj.py: a run
    of five nodes in which a command of an earlier term is counted, applied, and
    then replaced. *)
Module Overwritten.
Import Demo.
Abbreviation five := (world (A := Z) (C := string) (X := list string) (F := Z)).

(** Node 1 leads the terms 1 and 3, node 5 the terms 2 and 4. *)
Definition lead (trm : Z) : Z := if decide (trm = 1 \/ trm = 3) then 1 else 5.
Definition start5 : five := start (F := Z) default_conf [1; 2; 3; 4; 5] [] (fun _ => at_time 0).

Definition term1 : list (action (A := Z) (C := string) (F := Z)) :=
  [ Tick 1 (at_time 10); Deliver 0 (at_time 10); Deliver 1 (at_time 10);    (* 2 and 3 vote for 1 *)
    Deliver 4 (at_time 10); Deliver 5 (at_time 10);
    Submit 1 "a"%string NoCallback; Tick 1 (at_time 11); Tick 1 (at_time 12);
    Deliver 14 (at_time 12) ].                                              (* only 2 gets the entry *)
Definition term2 : list (action (A := Z) (C := string) (F := Z)) :=
  [ Tick 5 (at_time 20); Tick 5 (at_time 30);
    Deliver 25 (at_time 30); Deliver 26 (at_time 30); Deliver 23 (at_time 30); (* 3 and 4 vote for 5, 1 follows *)
    Deliver 27 (at_time 30); Deliver 28 (at_time 30);
    Submit 5 "b"%string NoCallback; Tick 5 (at_time 31) ].                  (* the entry stays at 5 *)
Definition term3 : list (action (A := Z) (C := string) (F := Z)) :=
  [ Tick 1 (at_time 40); Deliver 37 (at_time 40); Deliver 38 (at_time 40); Deliver 40 (at_time 40);
    Deliver 41 (at_time 40); Deliver 42 (at_time 40);                       (* 2 and 3 vote for 1 *)
    Deliver 43 (at_time 40); Deliver 44 (at_time 40); Deliver 47 (at_time 40); Deliver 48 (at_time 40);
    Tick 1 (at_time 41); Deliver 50 (at_time 41); Deliver 53 (at_time 41);  (* 3 gets the entry of term 1 *)
    Tick 1 (at_time 42) ].                                                  (* 1 commits and applies it *)
Definition term4 : list (action (A := Z) (C := string) (F := Z)) :=
  [ Tick 5 (at_time 50); Deliver 60 (at_time 50); Deliver 61 (at_time 50);
    Deliver 62 (at_time 50); Deliver 63 (at_time 50);                       (* 3 and 4 vote for 5 *)
    Deliver 66 (at_time 50); Deliver 67 (at_time 50); Deliver 68 (at_time 50); Deliver 69 (at_time 50);
    Tick 5 (at_time 51); Deliver 72 (at_time 51); Deliver 73 (at_time 51);  (* 3 drops "a" and takes "b" *)
    Deliver 74 (at_time 51); Deliver 75 (at_time 51); Tick 5 (at_time 52) ].

Definition outcome_run : option five :=
  run_led (R := Z) default_conf lead (term1 ++ term2 ++ term3 ++ term4) start5.
Definition applied (w : five) : list (option (Z * list string)) :=
  (fun u => (fun s => (raftLastApplied s, object s)) <$> members w !! u) <$> [1; 5].

Lemma applied_after : option_map applied outcome_run = Some [Some (2, ["a"%string]); Some (2, ["b"%string])].
Proof. vm_compute. reflexivity. Qed.
End Overwritten.

(** C19: even if every term has one leader, no message is repeated or reordered
    between two nodes and no snapshot is sent, two nodes can commit and apply
    different commands at the same index: a leader commits an entry of an
    earlier term as soon as a majority stores it, and a later leader, elected
    with a log that is shorter in such entries but ends in a later term,
    replaces it. *)
Theorem committed_entry_lost :
  exists (w : Overwritten.five) (s1 s5 : Demo.state),
    rtc (led_step (R := Z) default_conf Overwritten.lead) Overwritten.start5 w /\
    members w !! 1 = Some s1 /\ members w !! 5 = Some s5 /\
    raftLastApplied s1 = 2 /\ raftLastApplied s5 = 2 /\ object s1 = ["a"%string] /\ object s5 = ["b"%string].
Proof.
  pose proof Overwritten.applied_after as Hv. destruct Overwritten.outcome_run as [w|] eqn:Erun; [|discriminate].
  apply (inj Some) in Hv. injection Hv as Hv1 Hv5.
  apply fmap_Some in Hv1 as (s1 & Hs1 & [= E1 E2]), Hv5 as (s5 & Hs5 & [= E3 E4]). exists w, s1, s5.
  split; [exact (run_led_steps _ _ _ _ _ Erun)|]. by split_and!.
Qed.
