(* ===== verification/Replicated.v ===== *)
(** * The decorator [replicated] of syncobj.py

    A call of a replicated method becomes a command (its number, and its
    arguments when there are any), and the command applied on every node is the
    call of the original function.  Python values are the parameter [Val]. *)
From stdpp Require Import base gmap list strings.
From Stdlib Require Import ZArith Lia.
From S2P Require Import Prelude.
Local Open Scope Z_scope.

Module Replicated.

(** Keyword arguments. *)
Abbreviation kwargs Val := (gmap string Val).

(** A command of the log: a number, or a tuple of two or three. *)
Inductive command (Val : Type) : Type :=
| Bare (funcID : Z)
| WithArgs (funcID : Z) (args : list Val)
| WithKwargs (funcID : Z) (args : list Val) (kw : kwargs Val).
Arguments Bare {Val} _.
Arguments WithArgs {Val} _ _.
Arguments WithKwargs {Val} _ _ _.

(** What a call of the wrapped method comes to: the function itself, or a
    command handed to [_applyCommand] with a callback. *)
Inductive called (Val : Type) : Type :=
| Function (name : string) (args : list Val) (kw : kwargs Val)
| ApplyCommand (cmd : command Val) (callback : option Val).
Arguments Function {Val} _ _ _.
Arguments ApplyCommand {Val} _ _.

Section replicated.
Context {Val : Type} (true_val : Val) (truthy : Val -> bool).

(** [methods]: the sorted names of the callable attributes. *)
Context (methods : list string).

(** [enumerate(methods)] *)
Definition methodToID (name : string) : option Z :=
  Z.of_nat <$> (fst <$> list_find (fun m => m = name) methods).
Definition idToMethod (funcID : Z) : option string :=
  if funcID <? 0 then None else methods !! Z.to_nat funcID.

(** [kwargs.pop('_doApply', False)] *)
Definition pop_true (key : string) (kw : kwargs Val) : bool :=
  match kw !! key with Some v => truthy v | None => false end.

Definition newFunc (name : string) (args : list Val) (kw : kwargs Val) : outcome (called Val) :=
  let doApply := pop_true "_doApply" kw in
  let kw := delete "_doApply"%string kw in
  if doApply then Ret (Function name args kw)
  else
    let callback := kw !! "callback"%string in
    let kw := delete "callback"%string kw in
    match methodToID name with
    | None => Raise KeyError
    | Some funcID =>
        let cmd :=
          if bool_decide (kw <> ∅) then WithKwargs funcID args kw
          else match args with [] => Bare funcID | _ => WithArgs funcID args end in
        Ret (ApplyCommand cmd callback)
    end.

(** [__doApplyCommand]: the bound method is the wrapped one. *)
Definition doApplyCommand (cmd : command Val) : outcome (called Val) :=
  let kw := {["_doApply"%string := true_val]} in
  let '(funcID, args, kw) :=
    match cmd with
    | Bare funcID => (funcID, [], kw)
    | WithArgs funcID args => (funcID, args, kw)
    | WithKwargs funcID args newKwArgs => (funcID, args, newKwArgs ∪ kw)
    end in
  match idToMethod funcID with
  | None => Raise KeyError
  | Some name => newFunc name args kw
  end.

Lemma idToMethod_ID name i : methodToID name = Some i -> idToMethod i = Some name.
Proof.
  unfold methodToID, idToMethod. intros (j & (x & Hf & ->)%fmap_Some & ->)%fmap_Some.
  destruct x as [j m]. apply list_find_Some in Hf as (Hl & Hx & _). simpl in *. subst m.
  rewrite (proj2 (Z.ltb_ge _ _)) by lia. by rewrite Nat2Z.id.
Qed.

Lemma methodToID_in name : name ∈ methods -> is_Some (methodToID name).
Proof.
  intros Hin. unfold methodToID. destruct (list_find_elem_of (fun m => m = name) methods name Hin eq_refl)
    as [x ->]. by eexists.
Qed.

(** A call of a replicated method with any positional and keyword arguments
    becomes a command, and applying the command on a node calls the original
    function of the same name with the same arguments, without the private
    '_doApply' and 'callback' ones; the callback is handed on next to the
    command. *)
Theorem replicated_roundtrip name args (kw : kwargs Val) :
  truthy true_val = true -> name ∈ methods -> pop_true "_doApply" kw = false ->
  exists cmd,
    newFunc name args kw = Ret (ApplyCommand cmd (kw !! "callback"%string)) /\
    doApplyCommand cmd
      = Ret (Function name args (delete "callback"%string (delete "_doApply"%string kw))).
Proof.
  intros Htrue Hin Hkw. unfold newFunc at 1. rewrite Hkw.
  destruct (methodToID_in name Hin) as [i Hi]. rewrite Hi.
  pose proof (idToMethod_ID _ _ Hi) as Hid.
  rewrite lookup_delete_ne by done. eexists. split; [reflexivity|].
  set (kw' := delete "callback"%string (delete "_doApply"%string kw)).
  assert (Hfun : forall args', newFunc name args' {["_doApply"%string := true_val]}
    = Ret (Function name args' ∅)).
  { intros args'. unfold newFunc, pop_true. rewrite lookup_singleton_eq, Htrue.
    by rewrite delete_singleton_eq. }
  unfold doApplyCommand. case_bool_decide as Hne.
  - rewrite Hid. unfold newFunc, pop_true.
    assert (kw' !! "_doApply"%string = None) as Hno.
    { unfold kw'. rewrite lookup_delete_ne by done. apply lookup_delete_eq. }
    rewrite lookup_union_r by done. rewrite lookup_singleton_eq, Htrue. f_equal. f_equal.
    rewrite delete_union, delete_singleton_eq, (right_id_L ∅ (∪)). by apply delete_id.
  - assert (kw' = ∅) as -> by (by destruct (decide (kw' = ∅))).
    destruct args as [|a args]; rewrite Hid; apply Hfun.
Qed.

End replicated.

Lemma replicated_roundtrip_witness :
  let kw : kwargs Z := {["callback"%string := 7; "b"%string := 4]} in
  exists cmd,
    newFunc (fun v => negb (v =? 0)) ["addValue"%string; "append_entry"%string] "append_entry" [1; 2] kw
      = Ret (ApplyCommand cmd (Some 7)) /\
    doApplyCommand 1 (fun v => negb (v =? 0)) ["addValue"%string; "append_entry"%string] cmd
      = Ret (Function "append_entry"%string [1; 2]
               (delete "callback"%string (delete "_doApply"%string kw))).
Proof.
  refine (replicated_roundtrip 1 (fun v => negb (v =? 0)) ["addValue"%string; "append_entry"%string]
    "append_entry" [1; 2] {["callback"%string := 7; "b"%string := 4]} _ _ _).
  - reflexivity.
  - apply (bool_decide_unpack _). vm_compute. exact I.
  - vm_compute. reflexivity.
Defined.

End Replicated.
