(* ===== verification/PyStr.v ===== *)
(** * Python strings: split and int *)
From stdpp Require Import base list strings.
From Stdlib Require Import ZArith Lia.
From Stdlib Require Import Strings.Ascii.
From S2P Require Import Prelude PyList.
Local Open Scope Z_scope.

(** [s.split(c)] for a separator of one character. *)
Fixpoint py_split (c : Ascii.ascii) (s : string) : list string :=
  match s with
  | EmptyString => [EmptyString]
  | String a s =>
      match py_split c s with
      | [] => []                       (* never: there is always a piece *)
      | p :: ps => if Ascii.eqb a c then EmptyString :: p :: ps else String a p :: ps
      end
  end.

(** [c.join(pieces)] *)
Fixpoint py_join (c : Ascii.ascii) (ps : list string) : string :=
  match ps with
  | [] => EmptyString
  | [p] => p
  | p :: ps => (p +:+ String c (py_join c ps))%string
  end.

Lemma py_split_cons c s : exists p ps, py_split c s = p :: ps.
Proof.
  induction s as [|a s (p & ps & IH)]; simpl; [eauto|]. rewrite IH.
  destruct (Ascii.eqb a c); eauto.
Qed.

(** The character does not occur. *)
Fixpoint free_of (c : Ascii.ascii) (s : string) : bool :=
  match s with
  | EmptyString => true
  | String a s => negb (Ascii.eqb a c) && free_of c s
  end.

Lemma py_split_free c s : free_of c s = true -> py_split c s = [s].
Proof.
  induction s as [|a s IH]; [done|]. simpl. rewrite andb_true_iff, negb_true_iff.
  intros [-> Hs]. by rewrite IH.
Qed.

Lemma py_split_app c s t :
  free_of c s = true -> py_split c (s +:+ String c t) = s :: py_split c t.
Proof.
  induction s as [|a s IH]; simpl.
  - intros _. rewrite Ascii.eqb_refl. by destruct (py_split_cons c t) as (p & ps & ->).
  - rewrite andb_true_iff, negb_true_iff. intros [-> Hs]. by rewrite IH.
Qed.

(** [split] undoes [join]. *)
Lemma py_split_join c ps :
  ps <> [] -> Forall (fun p => free_of c p = true) ps -> py_split c (py_join c ps) = ps.
Proof.
  intros Hne Hps. induction Hps as [|p ps Hp Hps IH]; [done|].
  destruct ps as [|q ps]; [by apply py_split_free|].
  change (py_split c (p +:+ String c (py_join c (q :: ps))) = p :: q :: ps).
  rewrite py_split_app by done. by rewrite IH.
Qed.

(** ** int *)
Definition digit (a : Ascii.ascii) : option Z :=
  let n := Z.of_N (Ascii.N_of_ascii a) - 48 in
  if (0 <=? n) && (n <? 10) then Some n else None.

Definition is_space (a : Ascii.ascii) : bool :=
  let n := Ascii.N_of_ascii a in ((9 <=? n) && (n <=? 13) || (n =? 32))%N.

(** The value of a non-empty string of digits read after [acc]. *)
Fixpoint digits_from (acc : Z) (s : string) : option Z :=
  match s with
  | EmptyString => Some acc
  | String a s => d ← digit a; digits_from (10 * acc + d) s
  end.
Definition digits (s : string) : option Z :=
  match s with EmptyString => None | _ => digits_from 0 s end.

Fixpoint lstrip (s : string) : string :=
  match s with
  | String a s' => if is_space a then lstrip s' else s
  | EmptyString => EmptyString
  end.
Fixpoint rstrip (s : string) : string :=
  match s with
  | String a s' =>
      match rstrip s' with
      | EmptyString => if is_space a then EmptyString else String a EmptyString
      | r => String a r
      end
  | EmptyString => EmptyString
  end.

(** [int(s)]: [None] is a ValueError. *)
Definition py_int (s : string) : option Z :=
  match rstrip (lstrip s) with
  | String "-"%char s => Z.opp <$> digits s
  | String "+"%char s => digits s
  | s => digits s
  end.
