(* ===== verification/PyExcept.v ===== *)
(** * Control flow and triples for the methods of Python objects

    [py_try m h]: [try: m except: h]; what [m] did before it raised stays.
    [py_for]: [for].  [triple Pre m Post Exn]: from a state in [Pre], method [m]
    ends in [Post] with its result, or raises in a state in [Exn]. *)
From stdpp Require Import base list.
From S2P Require Import Prelude.

Section control.
Context {S E : Type}.

Definition py_try {A} (m h : PyM S E A) : PyM S E A :=
  fun s =>
    match m s with
    | (s', es, Raise _) => let '(s'', es', r) := h s' in (s'', es ++ es', r)
    | r => r
    end.

(** [for x in l: body(x)] *)
Fixpoint py_for {B} (l : list B) (body : B -> PyM S E unit) : PyM S E unit :=
  match l with
  | [] => py_return tt
  | x :: l => body x ;;! py_for l body
  end.

Lemma bind_return {A B} (a : A) (k : A -> PyM S E B) s : py_bind (py_return a) k s = k a s.
Proof. by apply bind_pure. Qed.

Lemma bind_raise {A B} e (k : A -> PyM S E B) s : py_bind (py_raise e) k s = py_raise e s.
Proof. done. Qed.

Lemma py_bind_assoc {A B D} (c : PyM S E A) (k : A -> PyM S E B) (l : B -> PyM S E D) s :
  py_bind (py_bind c k) l s = (let! x := c in py_bind (k x) l) s.
Proof.
  unfold py_bind. destruct (c s) as [[s1 e1] [a|e]]; [|done].
  destruct (k a s1) as [[s2 e2] [b|e]]; [|done].
  destruct (l b s2) as [[s3 e3] r]. by rewrite app_assoc.
Qed.

Lemma py_bind_ext {A B} (c : PyM S E A) (k l : A -> PyM S E B) s :
  (forall a s', k a s' = l a s') -> py_bind c k s = py_bind c l s.
Proof.
  intros H. unfold py_bind. destruct (c s) as [[s1 e1] [a|e]]; [|done]. by rewrite H.
Qed.

Lemma py_for_app {B} (l l' : list B) (body : B -> PyM S E unit) s :
  py_for (l ++ l') body s = (py_for l body ;;! py_for l' body) s.
Proof.
  revert s. induction l as [|x l IH]; intros s; cbn [app py_for].
  - by rewrite bind_return.
  - rewrite py_bind_assoc. by apply py_bind_ext.
Qed.

End control.

Section triples.
Context {S E : Type}.

Definition triple {B} (Pre : S -> Prop) (m : PyM S E B) (Post : B -> S -> Prop)
    (Exn : S -> Prop) : Prop :=
  forall s, Pre s ->
    match result (m s) with
    | Ret b => Post b (post (m s))
    | Raise _ => Exn (post (m s))
    end.

Context (Exn : S -> Prop).

Lemma triple_return {B} (b : B) Pre (Post : B -> S -> Prop) :
  (forall s, Pre s -> Post b s) -> triple Pre (py_return b) Post Exn.
Proof. intros Hp s Hs. by apply Hp. Qed.

Lemma triple_raise {B} e (Pre : S -> Prop) (Post : B -> S -> Prop) :
  (forall s, Pre s -> Exn s) -> triple Pre (py_raise e) Post Exn.
Proof. intros Hp s Hs. by apply Hp. Qed.

Lemma triple_get {B} (f : S -> B) Pre (Post : B -> S -> Prop) :
  (forall s, Pre s -> Post (f s) s) -> triple Pre (py_get f) Post Exn.
Proof. intros Hp s Hs. by apply Hp. Qed.

Lemma triple_set (f : S -> S) Pre (Post : unit -> S -> Prop) :
  (forall s, Pre s -> Post tt (f s)) -> triple Pre (py_set f) Post Exn.
Proof. intros Hp s Hs. by apply Hp. Qed.

Lemma triple_emit es Pre (Post : unit -> S -> Prop) :
  (forall s, Pre s -> Post tt s) -> triple Pre (py_emit es) Post Exn.
Proof. intros Hp s Hs. by apply Hp. Qed.

Lemma triple_call {B} (f : S -> S * outcome B) Pre (Post : B -> S -> Prop) :
  (forall s, Pre s -> match f s with (s', Ret b) => Post b s' | (s', Raise _) => Exn s' end) ->
  triple Pre (py_call f) Post Exn.
Proof.
  intros Hf s Hs. specialize (Hf s Hs). unfold py_call, result, post.
  by destruct (f s) as [s' [b|e]].
Qed.

Lemma triple_bind {B D} (c : PyM S E B) (k : B -> PyM S E D) Pre (Mid : B -> S -> Prop)
    (Post : D -> S -> Prop) :
  triple Pre c Mid Exn -> (forall b, triple (Mid b) (k b) Post Exn) ->
  triple Pre (py_bind c k) Post Exn.
Proof.
  intros Hc Hk s Hs. specialize (Hc s Hs). unfold py_bind, result, post in *.
  destruct (c s) as [[s' es] [b|e]]; simpl in *; [|done]. specialize (Hk b s' Hc).
  unfold result, post in Hk. by destruct (k b s') as [[s'' es'] r].
Qed.

Lemma triple_pre {B} (m : PyM S E B) (Pre Pre' : S -> Prop) (Post : B -> S -> Prop) :
  (forall s, Pre' s -> Pre s) -> triple Pre m Post Exn -> triple Pre' m Post Exn.
Proof. intros Hp Hm s Hs. by apply Hm, Hp. Qed.

Lemma triple_post {B} (m : PyM S E B) (Pre : S -> Prop) (Post Post' : B -> S -> Prop) :
  (forall b s, Post b s -> Post' b s) -> triple Pre m Post Exn -> triple Pre m Post' Exn.
Proof.
  intros Hp Hm s Hs. specialize (Hm s Hs). destruct (result (m s)); [by apply Hp|done].
Qed.

Lemma triple_exists {T B} (m : PyM S E B) (Pre : T -> S -> Prop) (Post : B -> S -> Prop) :
  (forall x, triple (Pre x) m Post Exn) -> triple (fun s => exists x, Pre x s) m Post Exn.
Proof. intros Hm s [x Hs]. by apply (Hm x). Qed.

(** The postcondition of [m] whatever it does. *)
Lemma triple_post_any {B} (m : PyM S E B) (Pre I : S -> Prop) s :
  triple Pre m (fun _ => I) I -> Pre s -> I (post (m s)).
Proof. intros Hm Hs. specialize (Hm s Hs). by destruct (result (m s)). Qed.

Lemma triple_intro {B} (m : PyM S E B) (Pre I : S -> Prop) :
  (forall s, Pre s -> I (post (m s))) -> (forall s, I s -> Exn s) -> triple Pre m (fun _ => I) Exn.
Proof. intros Hm Hx s Hs. destruct (result (m s)); auto. Qed.

(** What [m] did before it raised stays, so the handler starts in [Exn]. *)
Lemma triple_try {B} (m h : PyM S E B) Pre (Post : B -> S -> Prop) :
  triple Pre m Post Exn -> triple Exn h Post Exn -> triple Pre (py_try m h) Post Exn.
Proof.
  intros Hm Hh s Hs. specialize (Hm s Hs). unfold py_try, result, post in *.
  destruct (m s) as [[s' es] [b|e]]; [done|]. specialize (Hh s' Hm). unfold result, post in Hh.
  by destruct (h s') as [[s'' es'] r].
Qed.

Lemma triple_for {T} (l : list T) (body : T -> PyM S E unit) (I : S -> Prop) :
  (forall x, triple I (body x) (fun _ => I) Exn) -> triple I (py_for l body) (fun _ => I) Exn.
Proof.
  intros Hb. induction l as [|x l IH]; cbn [py_for]; [by apply triple_return|].
  eapply triple_bind; [apply Hb|]. intros []. exact IH.
Qed.

End triples.
