(* ===== verification/Poller.v ===== *)
(** * poller.py: two ways to wait for descriptors

    [SelectPoller] and [PollPoller] (src/pysyncobj/poller.py) behind one
    interface, the class [Poller]: a table of callbacks and the events each
    descriptor is watched for.  What the kernel reports is an argument. *)
From stdpp Require Import base gmap sets list.
From Stdlib Require Import ZArith Lia.
From S2P Require Import Prelude.
Local Open Scope Z_scope.

Module POLL_EVENT_TYPE.
Definition READ : Z := 1.
Definition WRITE : Z := 2.
Definition ERROR : Z := 4.
End POLL_EVENT_TYPE.
Import POLL_EVENT_TYPE.

(** [mask & bit] used as a condition. *)
Definition has (mask bit : Z) : bool := negb (Z.land mask bit =? 0).

(** An event of the three kinds. *)
Definition event_mask (r w x : bool) : Z :=
  Z.lor (Z.lor (if r then READ else 0) (if w then WRITE else 0)) (if x then ERROR else 0).

(** [select.POLLIN] and so on, with their values on Linux. *)
Definition POLLIN : Z := 1.
Definition POLLOUT : Z := 4.
Definition POLLERR : Z := 8.
Definition POLLHUP : Z := 16.

(** ** The interface *)
Class Poller (P CB : Type) : Type := {
  subscribe : Z -> CB -> Z -> P -> P;
  unsubscribe : Z -> P -> P;
  callback : P -> Z -> option CB;
  watches : P -> Z -> Z -> bool;      (* descriptor, kind of event *)
}.

(** What the clients of a poller rely on. *)
Class PollerLaws (P CB : Type) `{Poller P CB} : Prop := {
  callback_subscribe d cb m p d' :
    callback (subscribe d cb m p) d' = if decide (d = d') then Some cb else callback p d';
  watches_subscribe d cb m p b :
    b ∈ [READ; WRITE; ERROR] -> has m b = true -> watches (subscribe d cb m p) d b = true;
  watches_subscribe_ne d cb m p d' b :
    d <> d' -> watches (subscribe d cb m p) d' b = watches p d' b;
  watches_unsubscribe d p d' b :
    watches (unsubscribe d p) d' b = if decide (d = d') then false else watches p d' b;
  callback_unsubscribe_ne d p d' :
    d <> d' -> callback (unsubscribe d p) d' = callback p d';
}.

(** ** Running the callbacks *)
Section dispatch.
Context {W E CB : Type}.
Context (callbacks : W -> Z -> option CB) (call : CB -> Z -> Z -> PyM W E unit).

(** [self.__descrToCallbacks[descr](descr, event)] for each event in turn, the
    table as the callbacks before have left it. *)
Fixpoint dispatch (events : list (Z * Z)) : PyM W E unit :=
  match events with
  | [] => py_return tt
  | (d, ev) :: events =>
      let! cb := py_get (fun w => callbacks w d) in
      match cb with
      | None => py_raise KeyError
      | Some cb => call cb d ev ;;! dispatch events
      end
  end.
End dispatch.

(** ** select *)
Module SelectPoller.
Section select.
Context {CB : Type}.

Record t : Type := MkSelectPoller {
  descrsRead : gset Z;
  descrsWrite : gset Z;
  descrsError : gset Z;
  descrToCallbacks : gmap Z CB;
}.

Definition init : t := MkSelectPoller ∅ ∅ ∅ ∅.

Definition add_if (b : bool) (d : Z) (ds : gset Z) : gset Z := if b then {[d]} ∪ ds else ds.

Definition subscribe (descr : Z) (callback : CB) (eventMask : Z) (s : t) : t :=
  MkSelectPoller
    (add_if (has eventMask READ) descr (descrsRead s))
    (add_if (has eventMask WRITE) descr (descrsWrite s))
    (add_if (has eventMask ERROR) descr (descrsError s))
    (<[descr := callback]> (descrToCallbacks s)).

Definition unsubscribe (descr : Z) (s : t) : t :=
  MkSelectPoller (descrsRead s ∖ {[descr]}) (descrsWrite s ∖ {[descr]}) (descrsError s ∖ {[descr]})
    (delete descr (descrToCallbacks s)).

Definition watches (s : t) (d kind : Z) : bool :=
  (bool_decide (kind = READ) && bool_decide (d ∈ descrsRead s)) ||
  (bool_decide (kind = WRITE) && bool_decide (d ∈ descrsWrite s)) ||
  (bool_decide (kind = ERROR) && bool_decide (d ∈ descrsError s)).

(** The events of [poll]: [select]'s answer, the descriptors in the order
    [iter] in which Python goes through a set. *)
Definition events (iter : gset Z -> list Z) (rlist wlist xlist : list Z) : list (Z * Z) :=
  (fun d => (d, event_mask (bool_decide (d ∈ rlist)) (bool_decide (d ∈ wlist))
                  (bool_decide (d ∈ xlist))))
    <$> iter (list_to_set (rlist ++ wlist ++ xlist)).

End select.
Arguments t CB : clear implicits.
End SelectPoller.

(** ** poll *)
Module PollPoller.
Section poll.
Context {CB : Type}.

Record t : Type := MkPollPoller {
  registered : gmap Z Z;              (* the kernel's table of masks *)
  descrToCallbacks : gmap Z CB;
}.

Definition init : t := MkPollPoller ∅ ∅.

Definition pollEventMask (eventMask : Z) : Z :=
  Z.lor (Z.lor (if has eventMask READ then POLLIN else 0)
    (if has eventMask WRITE then POLLOUT else 0)) (if has eventMask ERROR then POLLERR else 0).

Definition subscribe (descr : Z) (callback : CB) (eventMask : Z) (s : t) : t :=
  MkPollPoller (<[descr := pollEventMask eventMask]> (registered s))
    (<[descr := callback]> (descrToCallbacks s)).

(** The [KeyError] of a descriptor that is not registered is caught; the
    callback stays in the table. *)
Definition unsubscribe (descr : Z) (s : t) : t :=
  MkPollPoller (delete descr (registered s)) (descrToCallbacks s).

Definition poll_bit (kind : Z) : Z :=
  if kind =? READ then POLLIN else if kind =? WRITE then POLLOUT
  else if kind =? ERROR then POLLERR else 0.

Definition watches (s : t) (d kind : Z) : bool :=
  match registered s !! d with Some m => has m (poll_bit kind) | None => false end.

Definition eventMask (event : Z) : Z :=
  event_mask (has event POLLIN) (has event POLLOUT) (has event POLLERR || has event POLLHUP).

(** The events of [poll], in the kernel's order. *)
Definition events (reported : list (Z * Z)) : list (Z * Z) :=
  (fun x => (x.1, eventMask x.2)) <$> reported.

End poll.
Arguments t CB : clear implicits.
End PollPoller.

(** [createPoller]: [has_poll] is [hasattr(select, 'poll')]. *)
Definition createPoller {CB} (has_poll : bool) : PollPoller.t CB + SelectPoller.t CB :=
  if has_poll then inl PollPoller.init else inr SelectPoller.init.

#[export] Instance select_poller CB : Poller (SelectPoller.t CB) CB := {|
  subscribe := SelectPoller.subscribe;
  unsubscribe := SelectPoller.unsubscribe;
  callback s d := SelectPoller.descrToCallbacks s !! d;
  watches := SelectPoller.watches;
|}.

#[export] Instance poll_poller CB : Poller (PollPoller.t CB) CB := {|
  subscribe := PollPoller.subscribe;
  unsubscribe := PollPoller.unsubscribe;
  callback s d := PollPoller.descrToCallbacks s !! d;
  watches := PollPoller.watches;
|}.

(** ** The laws *)
Lemma kinds b : b ∈ [READ; WRITE; ERROR] -> b = READ \/ b = WRITE \/ b = ERROR.
Proof. rewrite !elem_of_cons, elem_of_nil. naive_solver. Qed.

(** What select watches is what it watched or what is asked for. *)
Lemma select_watches_subscribe {CB} d (cb : CB) m s b :
  b ∈ [READ; WRITE; ERROR] ->
  SelectPoller.watches (SelectPoller.subscribe d cb m s) d b
    = SelectPoller.watches s d b || has m b.
Proof.
  intros Hb%kinds. unfold SelectPoller.watches, SelectPoller.subscribe, SelectPoller.add_if.
  destruct Hb as [-> | [-> | ->]]; simpl; rewrite ?orb_false_r;
    match goal with |- context [has m ?k] => destruct (has m k) end;
    rewrite ?orb_false_r, ?orb_true_r; try done; apply bool_decide_eq_true; set_solver.
Qed.

(** What poll watches is what was asked for last. *)
Lemma poll_watches_subscribe {CB} d (cb : CB) m s b :
  b ∈ [READ; WRITE; ERROR] ->
  PollPoller.watches (PollPoller.subscribe d cb m s) d b = has m b.
Proof.
  intros Hb%kinds. unfold PollPoller.watches, PollPoller.subscribe; simpl.
  rewrite lookup_insert_eq. unfold PollPoller.pollEventMask.
  destruct Hb as [-> | [-> | ->]];
    destruct (has m READ) eqn:?, (has m WRITE) eqn:?, (has m ERROR) eqn:?; congruence || done.
Qed.

Lemma has_lor a b k : has (Z.lor a b) k = has a k || has b k.
Proof.
  unfold has. rewrite Z.land_lor_distr_l.
  destruct (Z.eqb_spec (Z.lor (Z.land a k) (Z.land b k)) 0) as [E|E].
  - apply Z.lor_eq_0_iff in E as [-> ->]. done.
  - destruct (Z.land a k =? 0) eqn:Ea, (Z.land b k =? 0) eqn:Eb; try done.
    apply Z.eqb_eq in Ea, Eb. by rewrite Ea, Eb in E.
Qed.

#[export] Instance select_laws CB : PollerLaws (SelectPoller.t CB) CB.
Proof.
  split.
  - intros d cb m p d'. simpl. by rewrite lookup_insert.
  - intros d cb m p b Hb Hm. simpl. rewrite select_watches_subscribe by done.
    rewrite Hm. apply orb_true_r.
  - intros d cb m p d' b Hne. simpl.
    unfold SelectPoller.watches, SelectPoller.subscribe, SelectPoller.add_if; simpl.
    f_equal; [f_equal|]; f_equal; case_match; try done; apply bool_decide_ext; set_solver.
  - intros d p d' b. simpl. unfold SelectPoller.watches, SelectPoller.unsubscribe; simpl.
    case_decide as Hd; [subst|].
    + rewrite !(bool_decide_eq_false_2 (d' ∈ _ ∖ _)) by set_solver. by rewrite !andb_false_r.
    + f_equal; [f_equal|]; f_equal; apply bool_decide_ext; set_solver.
  - intros d p d' Hne. simpl. by apply lookup_delete_ne.
Qed.

#[export] Instance poll_laws CB : PollerLaws (PollPoller.t CB) CB.
Proof.
  split.
  - intros d cb m p d'. simpl. by rewrite lookup_insert.
  - intros d cb m p b Hb Hm. simpl. by rewrite poll_watches_subscribe.
  - intros d cb m p d' b Hne. simpl. unfold PollPoller.watches, PollPoller.subscribe; simpl.
    by rewrite lookup_insert_ne.
  - intros d p d' b. simpl. unfold PollPoller.watches, PollPoller.unsubscribe; simpl.
    rewrite lookup_delete. by case_decide.
  - done.
Qed.

(** ** What is watched after any calls *)
Section history.
Context {CB : Type}.

Inductive request : Type :=
| Subscribe (descr : Z) (cb : CB) (eventMask : Z)
| Unsubscribe (descr : Z).

Definition serve {P} `{Poller P CB} (p : P) (r : request) : P :=
  match r with
  | Subscribe d cb m => subscribe d cb m p
  | Unsubscribe d => unsubscribe d p
  end.

(** The mask of the last subscription of [d], and all masks since its last
    unsubscription together; [0] without a subscription. The requests are
    listed latest first. *)
Fixpoint last_mask (d : Z) (rs : list request) : Z :=
  match rs with
  | [] => 0
  | Subscribe d' _ m :: rs => if decide (d' = d) then m else last_mask d rs
  | Unsubscribe d' :: rs => if decide (d' = d) then 0 else last_mask d rs
  end.
Fixpoint all_masks (d : Z) (rs : list request) : Z :=
  match rs with
  | [] => 0
  | Subscribe d' _ m :: rs => if decide (d' = d) then Z.lor (all_masks d rs) m else all_masks d rs
  | Unsubscribe d' :: rs => if decide (d' = d) then 0 else all_masks d rs
  end.
(** The callback of the last subscription. *)
Fixpoint last_callback (d : Z) (rs : list request) : option CB :=
  match rs with
  | [] => None
  | Subscribe d' cb _ :: rs => if decide (d' = d) then Some cb else last_callback d rs
  | Unsubscribe _ :: rs => last_callback d rs
  end.

Definition served {P} `{Poller P CB} (p : P) (rs : list request) : P :=
  foldr (fun r p => serve p r) p rs.

(** The two pollers after any calls: a poll object watches a descriptor for
    the events of its last subscription, a select poller for those of all
    subscriptions since it was unsubscribed last, so that taking an event back
    has no effect there; whenever a descriptor is watched its callback is the
    one subscribed last. *)
Theorem pollers_watch rs d b :
  b ∈ [READ; WRITE; ERROR] ->
  let poll := served (PollPoller.init (CB := CB)) rs in
  let select := served (SelectPoller.init (CB := CB)) rs in
  watches poll d b = has (last_mask d rs) b /\
  watches select d b = has (all_masks d rs) b /\
  (watches poll d b = true -> callback poll d = last_callback d rs) /\
  (watches select d b = true -> callback select d = last_callback d rs).
Proof.
  intros Hb poll select.
  assert (has 0 b = false) as H0 by (unfold has; by rewrite Z.land_0_l).
  induction rs as [|[d' cb m|d'] rs IH].
  - subst poll select. simpl. rewrite H0. apply kinds in Hb.
    split_and!; try done; by destruct Hb as [-> | [-> | ->]].
  - subst poll select. simpl in *. destruct IH as (IHp & IHs & IHcp & IHcs).
    rewrite !lookup_insert. destruct (decide (d' = d)) as [->|Hne].
    + rewrite poll_watches_subscribe, select_watches_subscribe by done.
      rewrite IHs, has_lor. done.
    + pose proof (watches_subscribe_ne (P := PollPoller.t CB) d' cb m) as Hp. simpl in Hp.
      pose proof (watches_subscribe_ne (P := SelectPoller.t CB) d' cb m) as Hs. simpl in Hs.
      rewrite Hp, Hs by done. done.
  - subst poll select. destruct IH as (IHp & IHs & IHcp & IHcs).
    change (served PollPoller.init (Unsubscribe d' :: rs))
      with (unsubscribe d' (served (PollPoller.init (CB := CB)) rs)).
    change (served SelectPoller.init (Unsubscribe d' :: rs))
      with (unsubscribe d' (served (SelectPoller.init (CB := CB)) rs)).
    rewrite !watches_unsubscribe. cbn [last_mask all_masks last_callback].
    destruct (decide (d' = d)) as [->|Hne]; [by rewrite H0|].
    rewrite !callback_unsubscribe_ne by done. done.
Qed.

End history.

Lemma pollers_watch_witness :
  let rs := [Subscribe 5 tt (Z.lor READ ERROR); Subscribe 5 tt (Z.lor (Z.lor READ WRITE) ERROR)] in
  let poll := served (PollPoller.init (CB := unit)) rs in
  let select := served (SelectPoller.init (CB := unit)) rs in
  watches poll 5 WRITE = false /\ watches select 5 WRITE = true /\
  (watches poll 5 WRITE = true -> callback poll 5 = Some tt) /\
  (watches select 5 WRITE = true -> callback select 5 = Some tt).
Proof. refine (pollers_watch _ 5 WRITE _). repeat constructor. Defined.
