(* ===== verification/Resolver.v ===== *)
(** * dns_resolver.py: a cache of host addresses

    [DnsCachingResolver] (src/pysyncobj/dns_resolver.py).  The answer of
    [socket.gethostbyname_ex], the clock and the random index are arguments;
    the theorem describes the cache by the lookups that were made. *)
From stdpp Require Import base gmap list strings.
From Stdlib Require Import ZArith QArith Lia.
From S2P Require Import Prelude.

Module Resolver.

Section resolver.
Context {IP : Type}.

Record t : Type := MkResolver {
  cache : gmap string (Q * list IP);
  cacheTime : Q;
  failCacheTime : Q;
}.

Definition init (cacheTime failCacheTime : Q) : t := MkResolver ∅ cacheTime failCacheTime.

(** [__doResolve]: [None] is a [gaierror]. *)
Definition doResolve (answer : option (list IP)) : list IP := default [] answer.

Definition greater (x y : Q) : bool := negb (Qle_bool x y).

(** Whether [resolve] asks the network for an entry made at [cachedTime]. *)
Definition asks (now cachedTime : Q) (ips : list IP) (s : t) : bool :=
  let timePassed := (now - cachedTime)%Q in
  greater timePassed (cacheTime s) ||
  (match ips with [] => true | _ => false end && greater timePassed (failCacheTime s)).

(** [random.choice] of a list that is not empty; [k] is the random number. *)
Definition choice (k : nat) (ips : list IP) : option IP :=
  match ips with [] => None | _ => ips !! (k mod length ips)%nat end.

Definition resolve (hostname : string) (now : Q) (answer : option (list IP)) (k : nat) (s : t)
  : t * option IP :=
  let '(cachedTime, ips) := default (0%Q, []) (cache s !! hostname) in
  if asks now cachedTime ips s then
    let prevIps := ips in
    let ips := doResolve answer in
    let ips := match ips with [] => prevIps | _ => ips end in
    (MkResolver (<[hostname := (now, ips)]> (cache s)) (cacheTime s) (failCacheTime s),
     choice k ips)
  else (s, choice k ips).

(** ** The cache as a history

    A lookup: the host, the time and the answer, the latest first. *)
Definition lookup : Type := string * Q * option (list IP).
Definition call : Type := string * Q * option (list IP) * nat.

(** When [h] was looked up last, and the last answer with an address. *)
Fixpoint asked_at (h : string) (ls : list lookup) : Q :=
  match ls with
  | [] => 0
  | (h', t, _) :: ls => if decide (h' = h) then t else asked_at h ls
  end.
Fixpoint known_ips (h : string) (ls : list lookup) : list IP :=
  match ls with
  | [] => []
  | (h', _, answer) :: ls =>
      match doResolve answer with
      | [] => known_ips h ls
      | ips => if decide (h' = h) then ips else known_ips h ls
      end
  end.

(** The lookups of a sequence of calls. *)
Fixpoint run (calls : list call) (s : t) (ls : list lookup) : t * list lookup :=
  match calls with
  | [] => (s, ls)
  | (h, now, answer, k) :: calls =>
      let '(cachedTime, ips) := default (0%Q, []) (cache s !! h) in
      run calls (resolve h now answer k s).1
        (if asks now cachedTime ips s then (h, now, answer) :: ls else ls)
  end.

Definition describes (s : t) (ls : list lookup) : Prop :=
  forall h, default (0%Q, []) (cache s !! h) = (asked_at h ls, known_ips h ls).

Lemma resolve_describes h now answer k s ls :
  describes s ls ->
  describes (resolve h now answer k s).1
    (if asks now (asked_at h ls) (known_ips h ls) s then (h, now, answer) :: ls else ls) /\
  cacheTime (resolve h now answer k s).1 = cacheTime s /\
  failCacheTime (resolve h now answer k s).1 = failCacheTime s.
Proof.
  intros Hs. unfold resolve. rewrite (Hs h).
  destruct (asks _ _ _ s); [|done]. split; [|done]. intros h'. simpl.
  destruct (decide (h = h')) as [<-|Hne].
  - rewrite lookup_insert_eq. simpl. by destruct (doResolve answer).
  - rewrite lookup_insert_ne by done. rewrite Hs. by destruct (doResolve answer).
Qed.

Lemma run_describes calls s ls :
  describes s ls ->
  describes (run calls s ls).1 (run calls s ls).2 /\
  cacheTime (run calls s ls).1 = cacheTime s /\
  failCacheTime (run calls s ls).1 = failCacheTime s.
Proof.
  revert s ls. induction calls as [|[[[h now] answer] k] calls IH]; intros s ls Hs; [done|].
  simpl. rewrite (Hs h).
  destruct (resolve_describes h now answer k s ls Hs) as (Hs' & Hc & Hf).
  destruct (IH _ _ Hs') as (Hr & -> & ->). done.
Qed.

(** The resolver after any calls: the network is asked again for a host
    only when its last lookup is older than the cache time, or than the shorter
    fail time while no address is known; the answer is an address of the last
    lookup that found one, also when the lookups after it failed. *)
Theorem resolver_history c f calls h now answer k :
  let '(s, ls) := run calls (init c f) [] in
  let again := greater (now - asked_at h ls) c
               || (bool_decide (known_ips h ls = []) && greater (now - asked_at h ls) f) in
  let '(s', ip) := resolve h now answer k s in
  ip = choice k (known_ips h (if again then (h, now, answer) :: ls else ls)) /\
  (again = false -> s' = s).
Proof.
  assert (describes (init c f) []) as Hinit by (intros ?; done).
  destruct (run_describes calls _ _ Hinit) as (Hs & Hc & Hf).
  destruct (run calls (init c f) []) as [s ls]. simpl in *.
  unfold resolve. rewrite (Hs h). unfold asks. rewrite Hc, Hf.
  assert ((match known_ips h ls with [] => true | _ => false end)
    = bool_decide (known_ips h ls = [])) as -> by (destruct (known_ips h ls); by case_bool_decide).
  destruct (greater _ c || _); [|done]. split; [|done]. simpl.
  destruct (doResolve answer); [done|]. by rewrite decide_True by done.
Qed.

End resolver.
End Resolver.
