(* ===== verification/Node.v ===== *)
(** * node.py and the sockets of syncobj.py

    [Node] (src/pysyncobj/node.py) is one end of the connection to a peer; the
    listening socket and the connections whose peer is not known yet belong to
    SyncObj (__onNewConnection, __processUnknownConnections in
    src/pysyncobj/syncobj.py).  They share the poller, so their methods act on
    one state, the [hub]; node [k] is the [k]-th [Node] that was made, and [listed]
    while it is in [__nodes].  Kernel answers are in [answers]; the poller is any [Poller], the core behind
    [_onMessageReceived] the argument [handle]. *)
From stdpp Require Import base gmap sets list strings.
From Stdlib Require Import ZArith QArith Lia.
From Stdlib Require Import Strings.Ascii.
From S2P Require Import Prelude PyList PyStr Connection Poller Resolver.
Local Open Scope Z_scope.
Import POLL_EVENT_TYPE.

Inductive NODE_STATUS : Type := DISCONNECTED | CONNECTING | CONNECTED.

#[export] Instance NODE_STATUS_eq_dec : EqDecision NODE_STATUS.
Proof. solve_decision. Defined.

(** What goes over a connection: first the address of the node that connects,
    then messages. *)
Inductive packet (Msg : Type) : Type := Address (a : string) | Message (m : Msg).
Arguments Address {Msg} _.
Arguments Message {Msg} _.

(** Bytes on the wire, a closed socket, and what the core does. *)
Inductive io (Eff : Type) : Type := Wire (descr : Z) (bs : bytes) | Closed (descr : Z) | App (ef : Eff).
Arguments Wire {Eff} _ _.
Arguments Closed {Eff} _.
Arguments App {Eff} _.

(** The callbacks that are subscribed. *)
Inductive subscriber : Type := OnNewConnection | OnUnknown | OnNode (k : nat).

(** The answers of the kernel during one event. *)
Record answers : Type := MkAnswers {
  now : Q;
  so_error : bool;                               (* getsockopt in __processConnection *)
  hello : nat -> Connection.send_result;         (* sending the own address *)
  rest : nat -> Connection.send_result;          (* trySendBuffer *)
  recv : Connection.recv_result;
  recv_so_error : bool;                          (* getsockopt in read *)
}.

Inductive accept_result : Type := Accepted (descr : Z) | AcceptEAGAIN | AcceptError.

Module Node.
Record t : Type := MkNode {
  nodeAddr : string;
  ip : option string;
  port : Z;
  conn : Connection.t;
  shouldConnect : bool;
  lastConnectAttemptTime : Q;
  lastPingTime : Q;
  status : NODE_STATUS;
  listed : bool;                              (* in __nodes of its SyncObj *)
}.

(** [Node(syncObj, nodeAddr)]: the resolver of the SyncObj looks the host up.
    The SyncObj puts the node into [__nodes] at once. *)
Definition init (selfNodeAddr nodeAddr : string) (timeout now : Q)
    (answer : option (list string)) (k : nat) (r : Resolver.t) : Resolver.t * outcome t :=
  match py_split ":" nodeAddr with
  | [] => (r, Raise IndexError)
  | host :: rest =>
      let '(r, ip) := Resolver.resolve host now answer k r in
      match rest with
      | [] => (r, Raise IndexError)
      | port :: _ =>
          match py_int port with
          | None => (r, Raise ValueError)
          | Some port =>
              (r, Ret (MkNode nodeAddr ip port (Connection.init None timeout now)
                         (py_gt selfNodeAddr nodeAddr) 0 0 DISCONNECTED true))
          end
      end
  end.

Definition set_conn (c : Connection.t) (n : t) : t :=
  MkNode (nodeAddr n) (ip n) (port n) c (shouldConnect n) (lastConnectAttemptTime n)
    (lastPingTime n) (status n) (listed n).
Definition set_status (st : NODE_STATUS) (n : t) : t :=
  MkNode (nodeAddr n) (ip n) (port n) (conn n) (shouldConnect n) (lastConnectAttemptTime n)
    (lastPingTime n) st (listed n).
Definition set_lastConnectAttemptTime (x : Q) (n : t) : t :=
  MkNode (nodeAddr n) (ip n) (port n) (conn n) (shouldConnect n) x (lastPingTime n) (status n)
    (listed n).
Definition unlist (n : t) : t :=
  MkNode (nodeAddr n) (ip n) (port n) (conn n) (shouldConnect n) (lastConnectAttemptTime n)
    (lastPingTime n) (status n) false.

Definition getStatus (n : t) : NODE_STATUS := status n.
Definition isConnected (n : t) : bool := bool_decide (status n = CONNECTED).
Definition getAddress (n : t) : string := nodeAddr n.
Definition getSendBufferSize (n : t) : Z := Connection.getSendBufferSize (conn n).
End Node.

Section hub.
Context {Msg P Obj Eff : Type} `{Pickle (packet Msg)} `{Poller P subscriber}.

Record hub : Type := MkHub {
  selfNodeAddr : string;
  connectionTimeout : Q;
  connectionRetryTime : Q;
  peers : list Node.t;                        (* __nodes are the listed ones *)
  unknown : gmap Z Connection.t;              (* __unknownConnections *)
  poller : P;
  isInitialized : bool;
  core : Obj;
}.

Definition set_peers (x : list Node.t) (w : hub) : hub :=
  MkHub (selfNodeAddr w) (connectionTimeout w) (connectionRetryTime w) x (unknown w) (poller w)
    (isInitialized w) (core w).
Definition set_unknown (x : gmap Z Connection.t) (w : hub) : hub :=
  MkHub (selfNodeAddr w) (connectionTimeout w) (connectionRetryTime w) (peers w) x (poller w)
    (isInitialized w) (core w).
Definition set_poller (x : P) (w : hub) : hub :=
  MkHub (selfNodeAddr w) (connectionTimeout w) (connectionRetryTime w) (peers w) (unknown w) x
    (isInitialized w) (core w).
Definition set_isInitialized (x : bool) (w : hub) : hub :=
  MkHub (selfNodeAddr w) (connectionTimeout w) (connectionRetryTime w) (peers w) (unknown w)
    (poller w) x (core w).

Definition set_core (x : Obj) (w : hub) : hub :=
  MkHub (selfNodeAddr w) (connectionTimeout w) (connectionRetryTime w) (peers w) (unknown w)
    (poller w) (isInitialized w) x.

Abbreviation M := (PyM hub (io Eff)).

(** [self] of a method of node [k]: there is no object without a node. *)
Definition self (k : nat) : M Node.t :=
  py_call (fun w => (w, match peers w !! k with Some n => Ret n | None => Raise AttributeError end)).
Definition set_self (k : nat) (f : Node.t -> Node.t) : M unit :=
  py_set (fun w => set_peers (alter f k (peers w)) w).
Definition set_status (k : nat) (st : NODE_STATUS) : M unit := set_self k (Node.set_status st).

Definition watch (descr : Z) (cb : subscriber) (eventMask : Z) : M unit :=
  py_set (fun w => set_poller (subscribe descr cb eventMask (poller w)) w).
Definition unwatch (descr : Z) : M unit :=
  py_set (fun w => set_poller (unsubscribe (CB := subscriber) descr (poller w)) w).

(** The descriptor of a connection; the poller refuses [None]. *)
Definition fileno (k : nat) : M Z :=
  let! n := self k in
  match Connection.fileno (Node.conn n) with
  | Some d => py_return d
  | None => py_raise TypeError
  end.

(** [self.__conn.send], [trySendBuffer], [read], [getMessage], [close] *)
Definition conn_send (k : nat) (kernel : nat -> Connection.send_result) (p : packet Msg) : M unit :=
  let! n := self k in
  let '(c, sent, r) := Connection.send kernel p (Node.conn n) in
  set_self k (Node.set_conn c) ;;!
  py_emit [Wire (default 0 (Connection.fileno c)) sent] ;;!
  py_call (fun w => (w, r)).
Definition conn_flush (k : nat) (kernel : nat -> Connection.send_result) : M unit :=
  let! n := self k in
  let '(c, sent) := Connection.flush kernel (Node.conn n) in
  set_self k (Node.set_conn c) ;;!
  py_emit [Wire (default 0 (Connection.fileno c)) sent].
Definition conn_read (e : answers) (k : nat) : M bool :=
  let! n := self k in
  let '(c, got) := Connection.read (recv e) (recv_so_error e) (now e) (Node.conn n) in
  set_self k (Node.set_conn c) ;;! py_return got.
Definition conn_getMessage (k : nat) : M (option (packet Msg)) :=
  let! n := self k in
  let '(c, r) := Connection.getMessage (Node.conn n) in
  set_self k (Node.set_conn c) ;;! py_call (fun w => (w, r)).
Definition conn_close (k : nat) : M unit :=
  let! d := fileno k in
  set_self k (fun n => Node.set_conn (Connection.close (Node.conn n)) n) ;;!
  py_emit [Closed d].

(** ** node.py *)
Definition all_events : Z := Z.lor (Z.lor READ WRITE) ERROR.

Definition onPartnerConnected (k : nat) (c : Connection.t) : M unit :=
  set_self k (Node.set_conn c) ;;!
  set_status k CONNECTED ;;!
  let! d := fileno k in
  watch d (OnNode k) all_events.

Definition send (k : nat) (kernel : nat -> Connection.send_result) (now : Q) (message : packet Msg)
  : M bool :=
  let! n := self k in
  match Node.status n with
  | CONNECTED =>
      conn_send k kernel message ;;!
      let! n := self k in
      if Connection.isDisconnected now (Node.conn n) then
        set_status k DISCONNECTED ;;!
        let! d := fileno k in
        unwatch d ;;!
        conn_close k ;;!
        py_return false
      else py_return true
  | _ => py_return false
  end.

(** [connected], [descr]: whether the socket connects, and its descriptor. *)
Definition connectIfRequired (k : nat) (connected : bool) (descr : Z) (now : Q) : M unit :=
  let! n := self k in
  let! retry := py_get connectionRetryTime in
  if negb (Node.shouldConnect n) then py_return tt
  else if bool_decide (Node.status n <> DISCONNECTED) then py_return tt
  else if negb (Qle_bool retry (now - Node.lastConnectAttemptTime n)) then py_return tt
  else
    set_status k CONNECTING ;;!
    set_self k (Node.set_lastConnectAttemptTime now) ;;!
    let '(c, ok) := Connection.connect connected descr now (Node.conn n) in
    set_self k (Node.set_conn c) ;;!
    (if (ok : bool) then
       let! d := fileno k in watch d (OnNode k) all_events
     else set_status k DISCONNECTED).

(** The node introduces itself on a connection it has opened. *)
Definition introduce (e : answers) (k : nat) : M unit :=
  let! n := self k in
  match Node.status n with
  | CONNECTING =>
      let! a := py_get selfNodeAddr in
      conn_send k (hello e) (Address a) ;;! set_status k CONNECTED
  | _ => py_return tt
  end.

(** The read loop; the result is [false] when the fuel has run out. *)
Fixpoint receive_loop (handle : string -> packet Msg -> M unit) (k : nat) (fuel : nat) : M bool :=
  match fuel with
  | O => py_return false
  | S fuel =>
      let! message := conn_getMessage k in
      match message with
      | None => py_return true
      | Some p =>
          let! n := self k in
          handle (Node.nodeAddr n) p ;;!
          receive_loop handle k fuel
      end
  end.

(** Enough rounds: every message takes a byte. *)
Definition loop_fuel (n : Node.t) : nat := Connection.read_fuel (Node.conn n).

(** Lines 91-96. *)
Definition drop_connection (k : nat) (descr : Z) : M unit :=
  set_status k DISCONNECTED ;;! conn_close k ;;! unwatch descr.

(** Lines 98-107. *)
Definition on_writable (e : answers) (k : nat) (descr : Z) : M unit :=
  introduce e k ;;!
  conn_flush k (rest e) ;;!
  let! n := self k in
  let event := Z.lor READ ERROR in
  let event := if 0 <? Node.getSendBufferSize n then Z.lor event WRITE else event in
  if Connection.isDisconnected (now e) (Node.conn n) then py_return tt
  else watch descr (OnNode k) event.

(** Lines 109-118. *)
Definition on_readable (e : answers) (handle : string -> packet Msg -> M unit) (k : nat) : M unit :=
  let! got := conn_read e k in
  if (got : bool) then
    let! n := self k in
    let! _ := receive_loop handle k (loop_fuel n) in
    py_return tt
  else py_return tt.

Definition processConnection (e : answers) (handle : string -> packet Msg -> M unit)
    (k : nat) (descr eventType : Z) : M unit :=
  let! n := self k in
  if decide (Connection.fileno (Node.conn n) = Some descr) then
    let isError := has eventType ERROR in
    let! isError :=
      (if has eventType READ || has eventType WRITE then
         if so_error e then py_return true
         else introduce e k ;;! py_return isError
       else py_return isError) in
    let! n := self k in
    if isError || Connection.isDisconnected (now e) (Node.conn n) then drop_connection k descr
    else
      (if has eventType WRITE then on_writable e k descr else py_return tt) ;;!
      (if has eventType READ then on_readable e handle k else py_return tt)
  else unwatch descr.

(** ** The sockets of SyncObj *)
Definition onNewConnection (e : answers) (accept : accept_result) (event : Z) : M unit :=
  (if has event READ then
     match accept with
     | Accepted descr =>
         let! timeout := py_get connectionTimeout in
         py_set (fun w => set_unknown
           (<[descr := Connection.init (Some descr) timeout (now e)]> (unknown w)) w) ;;!
         watch descr OnUnknown (Z.lor READ ERROR)
     | AcceptEAGAIN => py_return tt
     | AcceptError => py_set (set_isInitialized false)
     end
   else py_return tt) ;;!
  (if has event ERROR then py_set (set_isInitialized false) else py_return tt).

(** The first of [__nodes] with an address. *)
Definition node_at (a : string) (ns : list Node.t) : option nat :=
  fst <$> list_find (fun n => Node.listed n = true /\ Node.nodeAddr n = a) ns.

Definition unknown_conn (descr : Z) : M Connection.t :=
  py_call (fun w => (w, match unknown w !! descr with Some c => Ret c | None => Raise KeyError end)).
Definition set_unknown_conn (descr : Z) (c : Connection.t) : M unit :=
  py_set (fun w => set_unknown (<[descr := c]> (unknown w)) w).
Definition forget_unknown (descr : Z) : M unit :=
  py_set (fun w => set_unknown (delete descr (unknown w)) w).

(** Lines 557-566: the partner node, and whether the connection is removed. *)
Definition identify (e : answers) (descr : Z) : M (option nat * bool) :=
  let! c := unknown_conn descr in
  let '(c, _) := Connection.read (recv e) (recv_so_error e) (now e) c in
  let '(c, r) := Connection.getMessage c in
  set_unknown_conn descr c ;;!
  let! nodeAddr := py_call (fun w => (w, r)) in
  match nodeAddr with
  | None => py_return (None, false)
  | Some (Message _) => py_return (None, true)
  | Some (Address a) =>
      let! ns := py_get peers in
      match node_at a ns with
      | Some k => py_return (Some k, false)
      | None => py_return (None, true)
      end
  end.

Definition processUnknownConnections (e : answers) (descr event : Z) : M unit :=
  unknown_conn descr ;;!
  let! x := (if has event READ then identify e descr else py_return (None, false)) in
  let '(partnerNode, remove) := x in
  let remove := remove || has event ERROR in
  let! c := unknown_conn descr in
  if remove || Connection.isDisconnected (now e) c then
    forget_unknown descr ;;! unwatch descr ;;! py_emit [Closed descr]
  else
    match partnerNode with
    | None => py_return tt
    | Some k =>
        forget_unknown descr ;;!
        if bool_decide (Connection.fileno c = None) then py_raise AssertionError
        else onPartnerConnected k c
    end.

(** ** The event loop *)
Definition on_event (e : Z -> answers) (accept : accept_result)
    (handle : string -> packet Msg -> M unit) (cb : subscriber) (descr event : Z) : M unit :=
  match cb with
  | OnNewConnection => onNewConnection (e descr) accept event
  | OnUnknown => processUnknownConnections (e descr) descr event
  | OnNode k => processConnection (e descr) handle k descr event
  end.

(** [self.__poller.poll(timeToWait)] *)
Definition poll (e : Z -> answers) (accept : accept_result)
    (handle : string -> packet Msg -> M unit) (events : list (Z * Z)) : M unit :=
  dispatch (fun w => callback (poller w)) (on_event e accept handle) events.

End hub.
Arguments hub P Obj : clear implicits.
