(* ===== verification/NodeTheorems.v ===== *)
(** * Connections between nodes: the transport invariant and the handshake *)
From stdpp Require Import base gmap sets list strings relations.
From Stdlib Require Import ZArith QArith Lia.
From Stdlib Require Import Strings.Ascii.
From Stdlib Require Strings.Byte.
From S2P Require Import Prelude PyExcept PyList PyStr Connection Poller Resolver Node.
Local Open Scope Z_scope.
Import POLL_EVENT_TYPE.

Section transport.
Context {Msg P Obj Eff : Type} `{Pickle (packet Msg)} `{PollerLaws P subscriber}.
Implicit Types w : hub P Obj.
Abbreviation M := (PyM (hub P Obj) (io Eff)).

(** ** What the poller and the connections have to agree on *)
Definition links w : list (NODE_STATUS * option Z) :=
  (fun n => (Node.status n, Connection.fileno (Node.conn n))) <$> peers w.
Definition strangers w : gmap Z (option Z) := Connection.fileno <$> unknown w.

Definition watched (p : P) (cb : subscriber) (d : Z) : Prop :=
  watches p d READ = true /\ watches p d ERROR = true /\ callback p d = Some cb.

(** A connected or connecting node has a descriptor that is watched for it, and
    so has a connection whose peer is not known yet. *)
Definition net_ok (ls : list (NODE_STATUS * option Z)) (us : gmap Z (option Z)) (p : P) : Prop :=
  (forall k st f, ls !! k = Some (st, f) -> st <> DISCONNECTED ->
     exists d, f = Some d /\ watched p (OnNode k) d) /\
  (forall d f, us !! d = Some f -> f = Some d /\ watched p OnUnknown d).

Definition hub_ok w : Prop := net_ok (links w) (strangers w) (poller w).

(** Nobody but node [k] uses descriptor [d]. *)
Definition reserved (ls : list (NODE_STATUS * option Z)) (us : gmap Z (option Z)) (k : nat) (d : Z)
  : Prop :=
  (forall j st, ls !! j = Some (st, Some d) -> st <> DISCONNECTED -> j = k) /\ us !! d = None.

Lemma net_ok_reserved ls us p k d :
  net_ok ls us p -> callback p d = Some (OnNode k) -> reserved ls us k d.
Proof.
  intros [Hl Hu] Hcb. split.
  - intros j st Hj Hst. destruct (Hl j st (Some d) Hj Hst) as (d' & [= <-] & _ & _ & Hcb').
    congruence.
  - destruct (us !! d) as [f|] eqn:E; [|done].
    destruct (Hu d f E) as (_ & _ & _ & Hcb'). congruence.
Qed.

Lemma watched_subscribe p d cb m :
  has m READ = true -> has m ERROR = true -> watched (subscribe d cb m p) cb d.
Proof.
  intros Hr He. unfold watched. rewrite callback_subscribe, decide_True by done.
  split_and!; [apply watches_subscribe..|done]; try done; repeat constructor.
Qed.

Lemma watched_subscribe_ne p d cb cb' m d' :
  d <> d' -> watched p cb' d' -> watched (subscribe d cb m p) cb' d'.
Proof.
  intros Hne (Hr & He & Hcb). unfold watched.
  rewrite callback_subscribe, decide_False, !watches_subscribe_ne by done. done.
Qed.

Lemma watched_unsubscribe p d cb d' :
  d <> d' -> watched p cb d' -> watched (unsubscribe d p) cb d'.
Proof.
  intros Hne (Hr & He & Hcb). unfold watched.
  rewrite !watches_unsubscribe, !decide_False, callback_unsubscribe_ne by done. done.
Qed.

(** A node that is disconnected, or connected with its descriptor watched. *)
Lemma net_ok_alter ls us p k g :
  net_ok ls us p ->
  (forall x, ls !! k = Some x -> (g x).1 = DISCONNECTED \/
     ((g x).2 = x.2 /\ x.1 <> DISCONNECTED)) ->
  net_ok (alter g k ls) us p.
Proof.
  intros [Hl Hu] Hg. split; [|done]. intros j st f Hj Hst.
  destruct (decide (k = j)) as [<-|Hne]; cycle 1.
  { rewrite list_lookup_alter_ne in Hj by done. eauto. }
  rewrite list_lookup_alter_eq in Hj. destruct (ls !! k) as [[st' f']|] eqn:E; [|done].
  simpl in Hj. injection Hj as Hj. destruct (Hg _ eq_refl) as [Hd|[Hf Hs]]; rewrite Hj in *; simpl in *.
  - congruence.
  - subst f. eauto.
Qed.

Lemma net_ok_unsubscribe ls us p k d :
  net_ok ls us p -> reserved ls us k d ->
  (forall st, ls !! k = Some (st, Some d) -> st = DISCONNECTED) ->
  net_ok ls us (unsubscribe d p).
Proof.
  intros [Hl Hu] [Hr Hn] Hk. split.
  - intros j st f Hj Hst. destruct (Hl j st f Hj Hst) as (d' & -> & Hw). exists d'. split; [done|].
    apply watched_unsubscribe; [|done]. intros <-.
    assert (j = k) as -> by eauto. eauto.
  - intros d' f Hd'. destruct (Hu d' f Hd') as [-> Hw]. split; [done|].
    apply watched_unsubscribe; [|done]. congruence.
Qed.

Lemma net_ok_subscribe ls us p k d m st :
  net_ok ls us p -> reserved ls us k d -> has m READ = true -> has m ERROR = true ->
  net_ok (alter (fun _ => (st, Some d)) k ls) us (subscribe d (OnNode k) m p).
Proof.
  intros [Hl Hu] [Hr Hn] Hmr Hme. split.
  - intros j st' f Hj Hst. destruct (decide (k = j)) as [<-|Hne].
    + rewrite list_lookup_alter_eq in Hj. destruct (ls !! k); [|done]. injection Hj as [= <- <-].
      exists d. split; [done|]. by apply watched_subscribe.
    + rewrite list_lookup_alter_ne in Hj by done.
      destruct (Hl j st' f Hj Hst) as (d' & -> & Hw). exists d'. split; [done|].
      apply watched_subscribe_ne; [|done]. intros <-. apply Hne. symmetry. eauto.
  - intros d' f Hd'. destruct (Hu d' f Hd') as [-> Hw]. split; [done|].
    apply watched_subscribe_ne; [|done]. congruence.
Qed.

Lemma net_ok_forget ls us p d : net_ok ls us p -> net_ok ls (delete d us) p.
Proof.
  intros [Hl Hu]. split; [done|]. intros d' f [_ Hd']%lookup_delete_Some. by apply Hu.
Qed.

Lemma net_ok_stranger ls us p d m :
  net_ok ls us p -> (forall j st, ls !! j = Some (st, Some d) -> st = DISCONNECTED) ->
  has m READ = true -> has m ERROR = true ->
  net_ok ls (<[d := Some d]> us) (subscribe d OnUnknown m p).
Proof.
  intros [Hl Hu] Hfree Hmr Hme. split.
  - intros j st f Hj Hst. destruct (Hl j st f Hj Hst) as (d' & -> & Hw). exists d'. split; [done|].
    apply watched_subscribe_ne; [|done]. intros <-. eauto.
  - intros d' f Hd'. destruct (decide (d = d')) as [<-|Hne].
    + rewrite lookup_insert_eq in Hd'. injection Hd' as [= <-]. split; [done|].
      by apply watched_subscribe.
    + rewrite lookup_insert_ne in Hd' by done. destruct (Hu d' f Hd') as [-> Hw]. split; [done|].
      by apply watched_subscribe_ne.
Qed.

(** A stranger's descriptor is free for the node it turns out to be. *)
Lemma net_ok_stranger_reserved ls us p k d f :
  net_ok ls us p -> us !! d = Some f -> reserved ls (delete d us) k d.
Proof.
  intros [Hl Hu] Hd. split; [|apply lookup_delete_eq]. intros j st Hj Hst.
  destruct (Hl j st (Some d) Hj Hst) as (d' & [= <-] & _ & _ & Hcb).
  destruct (Hu d f Hd) as (_ & _ & _ & Hcb'). congruence.
Qed.

(** ** Connections keep their descriptor *)
Definition identity (c : Connection.t) : option Z * Q * Q :=
  (Connection.fileno c, Connection.lastReadTime c, Connection.timeout c).

Lemma processSend_identity a c : identity (Connection.processSend a c).1.1 = identity c.
Proof. unfold Connection.processSend. by repeat case_match. Qed.

Lemma flush_identity kernel c : identity (Connection.flush kernel c).1 = identity c.
Proof.
  unfold Connection.flush. generalize (Connection.send_fuel c). intros fuel.
  enough (forall x, Connection.trySendBuffer fuel kernel c = Some x -> identity x.1 = identity c) as Hx.
  { destruct (Connection.trySendBuffer fuel kernel c) as [x|]; [|done]. by apply Hx. }
  revert kernel c. induction fuel as [|fuel IH]; intros kernel c x; [done|]. simpl.
  pose proof (processSend_identity (kernel 0%nat) c) as Hp.
  destruct (Connection.processSend (kernel 0%nat) c) as [[c1 sent] more]. simpl in Hp.
  destruct more; [|by intros [= <-]].
  destruct (Connection.trySendBuffer fuel _ c1) as [[c2 sent']|] eqn:E; [|done].
  simpl. intros [= <-]. simpl. by rewrite <-Hp, <-(IH _ _ _ E).
Qed.

Lemma send_identity kernel (m : packet Msg) c :
  identity (Connection.send kernel m c).1.1 = identity c.
Proof.
  unfold Connection.send. destruct (Connection.frame m) as [data|]; [|done].
  pose proof (flush_identity kernel (Connection.set_writeBuffer (Connection.writeBuffer c ++ data) c)) as Hf.
  by destruct (Connection.flush kernel _) as [c' sent].
Qed.

Lemma flush_fileno kernel c : Connection.fileno (Connection.flush kernel c).1 = Connection.fileno c.
Proof. by injection (flush_identity kernel c). Qed.

Lemma send_fileno kernel (m : packet Msg) c :
  Connection.fileno (Connection.send kernel m c).1.1 = Connection.fileno c.
Proof. by injection (send_identity kernel m c). Qed.

Lemma read_fileno a b t c : Connection.fileno (Connection.read a b t c).1 = Connection.fileno c.
Proof. unfold Connection.read. by repeat case_match. Qed.

Lemma getMessage_fileno c :
  Connection.fileno (Connection.getMessage (Msg := packet Msg) c).1 = Connection.fileno c.
Proof. unfold Connection.getMessage. by repeat case_match. Qed.

(** ** What the methods do to the view of the network *)
Definition view w := (links w, strangers w, poller w).

Lemma alter_same {T} (l : list T) k (f : T -> T) :
  (forall x, l !! k = Some x -> f x = x) -> alter f k l = l.
Proof.
  intros Hf. apply list_eq. intros j. rewrite list_lookup_alter.
  case_decide as Hj; [subst|done]. destruct (l !! j) eqn:E; [|done]. simpl. by rewrite Hf.
Qed.

Lemma links_status k st w :
  links (set_peers (alter (Node.set_status st) k (peers w)) w) = alter (fun x => (st, x.2)) k (links w).
Proof. unfold links. simpl. apply list_fmap_alter, Forall_true. done. Qed.

Lemma links_conn k c w :
  links (set_peers (alter (Node.set_conn c) k (peers w)) w)
    = alter (fun x => (x.1, Connection.fileno c)) k (links w).
Proof. unfold links. simpl. apply list_fmap_alter, Forall_true. done. Qed.

Lemma links_lookup k w n :
  peers w !! k = Some n -> links w !! k = Some (Node.status n, Connection.fileno (Node.conn n)).
Proof. intros Hn. unfold links. by rewrite list_lookup_fmap, Hn. Qed.

Lemma view_conn k c w n :
  peers w !! k = Some n -> Connection.fileno c = Connection.fileno (Node.conn n) ->
  view (set_peers (alter (Node.set_conn c) k (peers w)) w) = view w.
Proof.
  intros Hn Hc. unfold view. rewrite links_conn. f_equal. f_equal. apply alter_same.
  intros x. rewrite (links_lookup _ _ _ Hn). intros [= <-]. simpl. by rewrite Hc.
Qed.

(** A method of a connection seen from its node. *)
Ltac view_conn_tac :=
  match goal with |- context [peers ?w !! ?k] => destruct (peers w !! k) as [n|] eqn:Hpeer end; [|done];
  simpl.

Lemma conn_send_view k kernel p w : view (post (conn_send (Eff := Eff) k kernel p w)) = view w.
Proof.
  unfold conn_send, self, py_bind, py_call, post. view_conn_tac.
  pose proof (send_fileno kernel p (Node.conn n)) as Hf.
  destruct (Connection.send kernel p (Node.conn n)) as [[c sent] r]. simpl in *.
  by destruct r; simpl; apply (view_conn _ _ _ n).
Qed.

Lemma conn_flush_view k kernel w : view (post (conn_flush (Eff := Eff) k kernel w)) = view w.
Proof.
  unfold conn_flush, self, py_bind, py_call, post. view_conn_tac.
  pose proof (flush_fileno kernel (Node.conn n)) as Hf.
  destruct (Connection.flush kernel (Node.conn n)) as [c sent]. simpl in *.
  by apply (view_conn _ _ _ n).
Qed.

Lemma conn_read_view e k w : view (post (conn_read (Eff := Eff) e k w)) = view w.
Proof.
  unfold conn_read, self, py_bind, py_call, post. view_conn_tac.
  pose proof (read_fileno (recv e) (recv_so_error e) (now e) (Node.conn n)) as Hf.
  destruct (Connection.read _ _ _ (Node.conn n)) as [c got]. simpl in *.
  by apply (view_conn _ _ _ n).
Qed.

Lemma conn_getMessage_view k w : view (post (conn_getMessage (Eff := Eff) k w)) = view w.
Proof.
  unfold conn_getMessage, self, py_bind, py_call, post. view_conn_tac.
  pose proof (getMessage_fileno (Node.conn n)) as Hf.
  destruct (Connection.getMessage (Node.conn n)) as [c r]. simpl in *.
  by destruct r; simpl; apply (view_conn _ _ _ n).
Qed.

Lemma conn_close_view k w : view (post (conn_close (Eff := Eff) k w)) = view w.
Proof.
  unfold conn_close, fileno, self, py_bind, py_call, post. view_conn_tac.
  destruct (Connection.fileno (Node.conn n)) as [d|] eqn:Hd; [|done]. simpl.
  rewrite <-(view_conn k (Connection.close (Node.conn n)) w n) by done. unfold view, links. simpl.
  f_equal. f_equal. apply list_eq. intros j. rewrite !list_lookup_fmap, !list_lookup_alter.
  case_decide; [subst|done]. by rewrite Hpeer.
Qed.


(** ** Triples *)
Abbreviation keeps Inv m := (triple (E := io Eff) Inv m (fun _ => Inv) hub_ok).

Lemma hub_ok_view w w' : view w = view w' -> hub_ok w -> hub_ok w'.
Proof. unfold hub_ok. by intros [= -> -> ->]. Qed.

(** Node [k] works on a descriptor that nobody else uses. *)
Definition busy (k : nat) (d : Z) w : Prop :=
  hub_ok w /\ reserved (links w) (strangers w) k d /\ exists st, links w !! k = Some (st, Some d).
Definition live (k : nat) w : Prop := exists st f, links w !! k = Some (st, f) /\ st <> DISCONNECTED.

Lemma busy_view k d w w' : view w = view w' -> busy k d w -> busy k d w'.
Proof. unfold busy, hub_ok. by intros [= -> -> ->]. Qed.
Lemma live_view k w w' : view w = view w' -> live k w -> live k w'.
Proof. unfold live. by intros [= -> _ _]. Qed.
Lemma busy_ok k d w : busy k d w -> hub_ok w.
Proof. by intros (? & _). Qed.

Lemma keeps_view {B} (m : M B) (I : hub P Obj -> Prop) :
  (forall w, view (post (m w)) = view w) -> (forall w w', view w = view w' -> I w -> I w') ->
  (forall w, I w -> hub_ok w) -> keeps I m.
Proof.
  intros Hm HI Hok w Hw. pose proof (HI w _ (eq_sym (Hm w)) Hw). destruct (result (m w)); auto.
Qed.

Lemma triple_self k (I : hub P Obj -> Prop) :
  (forall w, I w -> hub_ok w) ->
  triple (E := io Eff) I (self k) (fun n w => I w /\ peers w !! k = Some n) hub_ok.
Proof. intros Hok. apply triple_call. intros w Hw. destruct (peers w !! k) eqn:E; auto. Qed.

(** Assigning a status that keeps the invariant. *)
Lemma busy_set_status k d st w :
  busy k d w -> st = DISCONNECTED \/ live k w ->
  busy k d (set_peers (alter (Node.set_status st) k (peers w)) w).
Proof.
  intros (Hok & [Hr Hu] & st0 & Hk) Hst. unfold busy, hub_ok, strangers. rewrite links_status. simpl.
  split_and!; [| |exists st; by rewrite list_lookup_alter_eq, Hk].
  - apply net_ok_alter; [done|]. intros x Hx. simpl. destruct Hst as [->|(st' & f & Hl & Hne)]; [auto|].
    right. split; [done|]. assert (x = (st', f)) as -> by congruence. done.
  - split; [|done]. intros j st' Hj. destruct (decide (k = j)) as [<-|Hne]; [done|].
    rewrite list_lookup_alter_ne in Hj by done. eauto.
Qed.

Lemma busy_watch k d m w :
  busy k d w -> has m READ = true -> has m ERROR = true ->
  busy k d (set_poller (subscribe d (OnNode k) m (poller w)) w).
Proof.
  intros (Hok & Hr & st & Hk) Hmr Hme. split_and!; [|done|eauto].
  pose proof (net_ok_subscribe _ _ _ k d m st Hok Hr Hmr Hme) as Hnet. unfold hub_ok.
  rewrite alter_same in Hnet by (intros x; rewrite Hk; by intros [= <-]). done.
Qed.

Ltac by_view lem := apply keeps_view; [apply lem|eauto using busy_view, live_view|eauto using busy_ok].

Lemma introduce_keeps e k d : keeps (busy k d) (introduce e k).
Proof.
  unfold introduce. eapply triple_bind; [apply triple_self; apply busy_ok|]. intros n. simpl.
  destruct (Node.status n) eqn:Hst; try (apply triple_return; by intros w [? _]).
  apply (triple_pre _ _ (fun w => busy k d w /\ live k w)).
  { intros w [Hb Hn]. split; [done|]. apply links_lookup in Hn. rewrite Hst in Hn. unfold live. eauto. }
  eapply triple_bind; [apply (triple_get _ _ _ (fun _ w => busy k d w /\ live k w)); auto|].
  intros a. simpl. eapply triple_bind.
  - apply (keeps_view _ (fun w => busy k d w /\ live k w)); [apply conn_send_view| |].
    + intros w w' Hv [Hb Hl]. eauto using busy_view, live_view.
    + intros w [Hb _]. by eapply busy_ok.
  - intros []. apply triple_set. intros w [Hb Hl]. apply busy_set_status; auto.
Qed.

Lemma drop_connection_keeps k d : triple (E := io Eff) (busy k d) (drop_connection k d) (fun _ => hub_ok) hub_ok.
Proof.
  unfold drop_connection. eapply triple_bind.
  { apply (triple_set _ _ _ (fun _ w => busy k d w /\ links w !! k = Some (DISCONNECTED, Some d))).
    intros w Hb. split; [apply busy_set_status; auto|]. destruct Hb as (_ & _ & st & Hk).
    rewrite links_status, list_lookup_alter_eq, Hk. done. }
  intros []. eapply triple_bind.
  { apply (keeps_view _ (fun w => busy k d w /\ links w !! k = Some (DISCONNECTED, Some d)));
      [apply conn_close_view| |].
    - intros w w' Hv [Hb Hl]. split; [eauto using busy_view|]. by injection Hv as [= <- _ _].
    - intros w [Hb _]. by eapply busy_ok. }
  intros []. apply triple_set. intros w ((Hok & Hr & _) & Hl).
  apply (net_ok_unsubscribe _ _ _ k d); [done..|]. intros st Hst.
  change (links w !! k = Some (st, Some d)) in Hst. congruence.
Qed.

Lemma on_writable_keeps e k d : keeps (busy k d) (on_writable e k d).
Proof.
  unfold on_writable. eapply triple_bind; [apply introduce_keeps|]. intros [].
  eapply triple_bind; [by_view conn_flush_view|]. intros [].
  eapply triple_bind; [apply triple_self; apply busy_ok|]. intros n. simpl.
  destruct (Connection.isDisconnected _ _); [apply triple_return; by intros w [? _]|].
  apply triple_set. intros w [Hb _]. apply busy_watch; [done|by destruct (0 <? _)..].
Qed.


(** ** The events *)
Section events.
Context (handle : string -> packet Msg -> M unit).
Context (handle_ok : forall a p, keeps hub_ok (handle a p)).

Lemma receive_loop_keeps k fuel : keeps hub_ok (receive_loop handle k fuel).
Proof.
  induction fuel as [|fuel IH]; simpl; [by apply triple_return|].
  eapply triple_bind; [apply keeps_view; [apply conn_getMessage_view|apply hub_ok_view|auto]|].
  intros [p|]; [|by apply triple_return].
  eapply triple_bind; [by apply triple_self|]. intros n. simpl.
  eapply triple_bind; [eapply triple_pre, handle_ok; by intros w [? _]|]. by intros [].
Qed.

Lemma on_readable_keeps e k : keeps hub_ok (on_readable e handle k).
Proof.
  unfold on_readable.
  eapply triple_bind; [apply keeps_view; [apply conn_read_view|apply hub_ok_view|auto]|].
  intros [|]; [|by apply triple_return].
  eapply triple_bind; [by apply triple_self|]. intros n. cbv beta.
  eapply triple_bind; [eapply triple_pre, receive_loop_keeps; by intros w [? _]|].
  intros b. by apply triple_return.
Qed.

Lemma processConnection_keeps e k d ev :
  triple (fun w => hub_ok w /\ callback (poller w) d = Some (OnNode k))
    (processConnection e handle k d ev) (fun _ => hub_ok) hub_ok.
Proof.
  unfold processConnection. eapply triple_bind; [apply triple_self; by intros w [? _]|].
  intros n. simpl. case_decide as Hd; cycle 1.
  { apply triple_set. intros w [[Hok Hcb] Hn%links_lookup]. unfold hub_ok.
    apply (net_ok_unsubscribe _ _ _ k d); [done|by eapply net_ok_reserved|].
    intros st Hst. change (links w !! k = Some (st, Some d)) in Hst. congruence. }
  apply (triple_pre _ _ (busy k d)).
  { intros w [[Hok Hcb] Hn%links_lookup]. rewrite Hd in Hn.
    split_and!; [done|by eapply net_ok_reserved|eauto]. }
  eapply (triple_bind _ _ _ _ (fun _ => busy k d)).
  { destruct (has ev READ || has ev WRITE); [|by apply triple_return].
    destruct (so_error e); [by apply triple_return|].
    eapply triple_bind; [apply introduce_keeps|]. intros []. by apply triple_return. }
  intros isError. eapply triple_bind; [apply triple_self, busy_ok|]. intros n'. simpl.
  apply (triple_pre _ _ (busy k d)); [by intros w [? _]|].
  destruct (isError || _); [apply drop_connection_keeps|].
  eapply (triple_bind _ _ _ _ (fun _ => busy k d)).
  { destruct (has ev WRITE); [apply on_writable_keeps|by apply triple_return]. }
  intros []. apply (triple_pre _ _ hub_ok); [apply busy_ok|].
  destruct (has ev READ); [apply on_readable_keeps|by apply triple_return].
Qed.

(** The conditions on a new descriptor: the kernel hands out numbers that are
    not open. *)
Definition fresh (d : Z) w : Prop :=
  strangers w !! d = None /\ forall j st, links w !! j = Some (st, Some d) -> st = DISCONNECTED.

Lemma onPartnerConnected_keeps k d c :
  Connection.fileno c = Some d ->
  triple (E := io Eff) (fun w => hub_ok w /\ reserved (links w) (strangers w) k d)
    (onPartnerConnected k c) (fun _ => hub_ok) hub_ok.
Proof.
  intros Hc w [Hok Hr]. unfold onPartnerConnected, fileno, watch, set_status, set_self, self.
  unfold py_bind, py_set, py_call, result, post. cbn [peers set_peers].
  rewrite !list_lookup_alter_eq. destruct (peers w !! k) as [n|] eqn:Hn; cbn.
  - rewrite Hc. cbn. unfold hub_ok. cbn [poller set_poller set_peers].
    match goal with |- net_ok ?ls _ _ => replace ls with (alter (fun _ => (CONNECTED, Some d)) k (links w)) end.
    + by apply net_ok_subscribe.
    + unfold links. cbn [peers set_poller set_peers]. apply list_eq. intros j.
      rewrite list_lookup_alter, !list_lookup_fmap, !list_lookup_alter.
      repeat case_decide; subst; try done; rewrite Hn; simpl; by rewrite Hc.
  - unfold hub_ok. cbn [poller set_poller set_peers].
    match goal with |- net_ok ?ls _ _ => replace ls with (links w); [done|] end.
    unfold links. cbn [peers set_peers]. apply list_eq. intros j.
    rewrite !list_lookup_fmap, !list_lookup_alter.
    repeat case_decide; subst; try done; by rewrite Hn.
Qed.


Lemma identify_view e d w : view (post (identify (Eff := Eff) e d w)) = view w.
Proof.
  unfold identify, unknown_conn, set_unknown_conn, py_bind, py_call, py_set, py_get, py_return, post.
  destruct (unknown w !! d) as [c|] eqn:Hc; [|done]. simpl.
  pose proof (read_fileno (recv e) (recv_so_error e) (now e) c) as Hf1.
  destruct (Connection.read _ _ _ c) as [c1 got]. simpl in Hf1.
  pose proof (getMessage_fileno c1) as Hf2.
  destruct (Connection.getMessage c1) as [c2 r]. simpl in *.
  assert (view (set_unknown (<[d := c2]> (unknown w)) w) = view w) as Hv.
  { unfold view, strangers, links. simpl. f_equal. f_equal. rewrite fmap_insert.
    apply insert_id. rewrite lookup_fmap, Hc. simpl. by rewrite Hf2, Hf1. }
  destruct r as [[[a|m]|]|er]; simpl; try exact Hv. destruct (node_at a _); exact Hv.
Qed.

Lemma processUnknown_keeps e d ev : keeps hub_ok (processUnknownConnections (Eff := Eff) e d ev).
Proof.
  unfold processUnknownConnections.
  eapply (triple_bind _ _ _ _ (fun _ => hub_ok)).
  { apply triple_call. intros w Hw. by destruct (unknown w !! d). }
  intros c0. eapply (triple_bind _ _ _ _ (fun _ => hub_ok)).
  { destruct (has ev READ); [|by apply triple_return].
    apply keeps_view; [apply identify_view|apply hub_ok_view|done]. }
  intros [partner remove]. eapply (triple_bind _ _ _ _ (fun c w => hub_ok w /\ unknown w !! d = Some c)).
  { apply triple_call. intros w Hw. by destruct (unknown w !! d) eqn:E. }
  intros c. cbv beta zeta.
  assert (Hstr : forall w, unknown w !! d = Some c -> strangers w !! d = Some (Connection.fileno c))
    by (intros w Hc; unfold strangers; by rewrite lookup_fmap, Hc).
  assert (Hdel : forall w, strangers (set_unknown (delete d (unknown w)) w) = delete d (strangers w))
    by (intros w; unfold strangers; simpl; by rewrite fmap_delete).
  destruct (_ || _).
  - eapply (triple_bind _ _ _ _ (fun _ w => hub_ok w /\ reserved (links w) (strangers w)
      (length (links w)) d)).
    { apply triple_set. intros w [Hok Hc%Hstr]. unfold hub_ok. rewrite Hdel.
      split; [by apply net_ok_forget|by eapply net_ok_stranger_reserved]. }
    intros []. eapply (triple_bind _ _ _ _ (fun _ => hub_ok)); [|intros []; by apply triple_emit].
    apply triple_set. intros w [Hok Hr].
    apply (net_ok_unsubscribe _ _ _ (length (links w)) d); [done..|].
    intros st Hl%lookup_lt_Some. unfold links in Hl. simpl in Hl. lia.
  - destruct partner as [k|]; [|apply triple_return; by intros w [? _]].
    eapply (triple_bind _ _ _ _ (fun _ w => (hub_ok w /\ reserved (links w) (strangers w) k d) /\
      Connection.fileno c = Some d)).
    { apply triple_set. intros w [Hok Hc%Hstr]. unfold hub_ok. rewrite Hdel.
      split_and!; [by apply net_ok_forget|by eapply net_ok_stranger_reserved|].
      destruct Hok as [_ Hu]. by apply Hu in Hc as [? _]. }
    intros []. case_bool_decide; [apply triple_raise; by intros w [[? _] _]|].
    intros w [Hw Hd]. by apply (onPartnerConnected_keeps k d c Hd w Hw).
Qed.

Lemma onNewConnection_keeps e accept ev :
  triple (E := io Eff) (fun w => hub_ok w /\ forall d, accept = Accepted d -> fresh d w)
    (onNewConnection e accept ev) (fun _ => hub_ok) hub_ok.
Proof.
  unfold onNewConnection. eapply (triple_bind _ _ _ _ (fun _ => hub_ok)).
  - destruct (has ev READ); [|apply triple_return; by intros w [? _]].
    destruct accept as [d| |]; [|apply triple_return; by intros w [? _]|].
    + intros w [Hok Hf]. destruct (Hf d eq_refl) as [Hs Hl].
      unfold py_bind, py_get, py_set, watch, result, post; simpl.
      unfold hub_ok, strangers; simpl. rewrite fmap_insert. by apply net_ok_stranger.
    + apply triple_set. by intros w [? _].
  - intros []. destruct (has ev ERROR); [by apply triple_set|by apply triple_return].
Qed.

Lemma send_keeps k kernel now p : keeps hub_ok (send (Eff := Eff) k kernel now p).
Proof.
  unfold send. eapply triple_bind; [by apply triple_self|]. intros n. cbv beta.
  destruct (Node.status n) eqn:Hst; try (apply triple_return; by intros w [? _]).
  apply (triple_pre _ _ (fun w => exists d, busy k d w)).
  { intros w [Hok Hn%links_lookup]. rewrite Hst in Hn.
    destruct Hok as [Hl Hu]. destruct (Hl k _ _ Hn) as (d & Hd & Hr & He & Hcb); [done|].
    rewrite Hd in Hn. exists d. split_and!; [done|by eapply net_ok_reserved|eauto]. }
  apply triple_exists. intros d. eapply triple_bind; [by_view conn_send_view|]. intros [].
  eapply triple_bind; [apply triple_self, busy_ok|]. intros n'. simpl.
  destruct (Connection.isDisconnected _ _); [|apply triple_return; intros w [? _]; by eapply busy_ok].
  eapply (triple_bind _ _ _ _
    (fun _ w => busy k d w /\ links w !! k = Some (DISCONNECTED, Some d))).
  { apply triple_set. intros w [Hb _]. split; [apply busy_set_status; auto|].
    destruct Hb as (_ & _ & st & Hk). by rewrite links_status, list_lookup_alter_eq, Hk. }
  intros []. eapply (triple_bind _ _ _ _
    (fun d' w => (busy k d w /\ links w !! k = Some (DISCONNECTED, Some d)) /\ d' = d)).
  { unfold fileno. intros w [Hb Hk]. unfold py_bind, self, py_call, result, post.
    destruct (peers w !! k) as [n2|] eqn:Hn2; [|by eapply busy_ok].
    apply links_lookup in Hn2. rewrite Hk in Hn2. injection Hn2 as [= _ <-]. done. }
  intros d'. eapply (triple_bind _ _ _ _ (fun _ => hub_ok)).
  { apply triple_set. intros w [[(Hok & Hr & _) Hk] ->].
    apply (net_ok_unsubscribe _ _ _ k d); [done..|]. intros st Hst'.
    change (links w !! k = Some (st, Some d)) in Hst'. congruence. }
  intros []. eapply triple_bind; [apply keeps_view; [apply conn_close_view|apply hub_ok_view|done]|].
  intros []. by apply triple_return.
Qed.

(** The links after assignments to node [k], which [Hn] looks up. *)
Ltac links_ext Hn :=
  unfold links; apply list_eq; intros ?j; cbn -[alter];
  rewrite list_lookup_alter, !list_lookup_fmap, !list_lookup_alter;
  repeat case_decide; subst; try done; by rewrite Hn.

Lemma connect_keeps k ok d now :
  triple (E := io Eff) (fun w => hub_ok w /\ fresh d w) (connectIfRequired k ok d now)
    (fun _ => hub_ok) hub_ok.
Proof.
  intros w [Hok [Hs Hl]]. unfold connectIfRequired.
  unfold py_bind, self, py_call, py_get, py_set, py_return, set_status, set_self, result, post.
  destruct (peers w !! k) as [n|] eqn:Hn; [|done]. cbn -[alter].
  destruct (negb (Node.shouldConnect n)); [done|]. case_bool_decide; [done|].
  destruct (negb _); [done|].
  set (w1 := set_peers _ (set_peers _ w)).
  unfold Connection.connect. destruct ok; cbn -[alter w1].
  - unfold fileno, self, py_bind, py_call, watch, py_set. cbn -[alter w1].
    rewrite list_lookup_alter_eq. destruct (peers w1 !! k) as [n1|] eqn:Hn1; cbn -[alter w1]; cycle 1.
    { exfalso. unfold w1 in Hn1. simpl in Hn1. rewrite !list_lookup_alter_eq, Hn in Hn1. done. }
    match goal with |- hub_ok ?x =>
      assert (links x = alter (fun _ => (CONNECTING, Some d)) k (links w)) as Hlinks end.
    { links_ext Hn. }
    unfold hub_ok. rewrite Hlinks. apply net_ok_subscribe; try done. split; [|done].
    intros j st Hj Hne. exfalso. eauto.
  - match goal with |- hub_ok ?x =>
      assert (links x = alter (fun _ => (DISCONNECTED, Connection.fileno (Node.conn n))) k (links w))
        as Hlinks end.
    { links_ext Hn. }
    unfold hub_ok. rewrite Hlinks. apply net_ok_alter; [done|]. auto.
Qed.

End events.

(** ** Runs of a hub

    The core sends and changes its own state; handling a message is made of
    such steps. *)
Inductive core_step : hub P Obj -> hub P Obj -> Prop :=
| core_sends k kernel now p w : core_step w (post (send (Eff := Eff) k kernel now p w))
| core_changes x w : core_step w (set_core x w).

Inductive hub_step (handle : string -> packet Msg -> M unit) : hub P Obj -> hub P Obj -> Prop :=
| step_core w w' : core_step w w' -> hub_step handle w w'
| step_event e accept cb d ev w :
    callback (poller w) d = Some cb -> (forall d', accept = Accepted d' -> fresh d' w) ->
    hub_step handle w (post (on_event e accept handle cb d ev w))
| step_connect k ok d now w :
    fresh d w -> hub_step handle w (post (connectIfRequired (Eff := Eff) k ok d now w)).

Lemma core_step_ok w w' : core_step w w' -> hub_ok w -> hub_ok w'.
Proof.
  intros [k kernel now p v|x v] Hok; [|exact Hok].
  by eapply (triple_post_any _ hub_ok hub_ok); [apply send_keeps|].
Qed.

Lemma core_steps_ok w w' : rtc core_step w w' -> hub_ok w -> hub_ok w'.
Proof. induction 1; eauto using core_step_ok. Qed.

Lemma hub_step_ok handle w w' :
  (forall a p v, rtc core_step v (post (handle a p v))) ->
  hub_step handle w w' -> hub_ok w -> hub_ok w'.
Proof.
  intros Hh [v v' Hc|e accept cb d ev v Hcb Hf|k ok d now v Hf] Hok.
  - by eapply core_step_ok.
  - assert (forall a p, keeps hub_ok (handle a p)) as Hk.
    { intros a p. apply triple_intro; [|done]. intros u Hu. exact (core_steps_ok u _ (Hh a p u) Hu). }
    destruct cb as [| |k]; simpl.
    + by eapply (triple_post_any _ _ hub_ok); [apply onNewConnection_keeps|].
    + by eapply (triple_post_any _ _ hub_ok); [apply processUnknown_keeps|].
    + by eapply (triple_post_any _ _ hub_ok); [by apply processConnection_keeps|].
  - by eapply (triple_post_any _ _ hub_ok); [apply connect_keeps|].
Qed.


End transport.

(** ** A hub of one peer on a poll object *)
Module Hub.

(** Packets are dumped with a one-byte tag. *)
#[export] Instance packets : Pickle (packet bytes) := {|
  encode p := match p with
              | Address a => Byte.x41 :: String.list_byte_of_string a
              | Message m => Byte.x4d :: m
              end;
  decode b := match b with
              | Byte.x41 :: a => Ret (Address (String.string_of_list_byte a))
              | Byte.x4d :: m => Ret (Message m)
              | _ => Raise UnpicklingError
              end;
|}.

Definition peer : Node.t :=
  Node.MkNode "10.0.0.1:4000" (Some "10.0.0.1") 4000 (Connection.init None 5 0) true 0 0 DISCONNECTED true.

Definition one_peer : hub (PollPoller.t subscriber) unit :=
  MkHub "10.0.0.2:4000" 5 1 [peer] ∅ PollPoller.init true tt.

Definition silent (a : string) (p : packet bytes) :
  PyM (hub (PollPoller.t subscriber) unit) (io unit) unit := py_return tt.

Definition writable (d : Z) : answers :=
  MkAnswers 3 false (fun _ => Connection.SendReturned 9) (fun _ => Connection.SendEAGAIN)
    Connection.RecvEAGAIN false.

Definition connecting : hub (PollPoller.t subscriber) unit :=
  post (connectIfRequired (Eff := unit) 0 true 7 2 one_peer).
Definition connected : hub (PollPoller.t subscriber) unit :=
  post (on_event writable AcceptEAGAIN silent (OnNode 0) 7 WRITE connecting).

#[export] Instance packets_laws : PickleLaws (packet bytes).
Proof.
  split; [|done]. intros [a|m]; simpl; [|done]. by rewrite String.string_of_list_byte_of_string.
Qed.

End Hub.
#[local] Existing Instances Hub.packets Hub.packets_laws.

