(* ===== verification/NodeHandshake.v ===== *)
(** * How two nodes get to know each other

    The node with the greater address opens the connection and introduces
    itself; the other one reads the address and hands the connection to the
    node it belongs to. *)
From stdpp Require Import base gmap sets list strings relations.
From Stdlib Require Import ZArith QArith Lia.
From S2P Require Import Prelude PyList Connection ConnectionTheorems Poller Resolver Node NodeTheorems.
Local Open Scope Z_scope.
Import POLL_EVENT_TYPE.

Section handshake.
Context {Msg P Obj Eff : Type} `{PickleLaws (packet Msg)} `{PollerLaws P subscriber}.
Implicit Types w : hub P Obj.
Abbreviation M := (PyM (hub P Obj) (io Eff)).

(** The bytes a node has put on the wire. *)
Definition wire (es : list (io Eff)) : bytes :=
  es ≫= fun x => match x with Wire _ bs => bs | _ => [] end.

(** The socket's answers to [send] are those of a socket without errors. *)
Definition quiet (e : answers) : Prop := healthy (hello e) /\ healthy (rest e).

Lemma flush_healthy kernel (c : Connection.t) :
  healthy kernel ->
  exists c' sent, Connection.flush kernel c = (c', sent) /\
    sent ++ Connection.writeBuffer c' = Connection.writeBuffer c /\
    Connection.disconnected c' = Connection.disconnected c /\
    Connection.readBuffer c' = Connection.readBuffer c.
Proof.
  intros Hk. destruct (trySendBuffer_healthy (Connection.send_fuel c) kernel c Hk)
    as (c' & sent & Hrun & Hs & Hr & Hd); [unfold Connection.send_fuel; lia|].
  unfold Connection.flush. rewrite Hrun. eauto 10.
Qed.

Lemma isDisconnected_same t (c c' : Connection.t) :
  identity c' = identity c -> Connection.disconnected c' = Connection.disconnected c ->
  Connection.isDisconnected t c' = Connection.isDisconnected t c.
Proof. intros [= _ Hr Ht] Hd. unfold Connection.isDisconnected. by rewrite Hr, Ht, Hd. Qed.

(** ** Running the methods of node [k] *)
Definition put (k : nat) (n : Node.t) w : hub P Obj := set_peers (<[k := n]> (peers w)) w.

Lemma put_self k n w : peers w !! k = Some n -> put k n w = w.
Proof. intros Hn. unfold put. rewrite list_insert_id by done. by destruct w. Qed.

Lemma put_put k n n' w : put k n (put k n' w) = put k n w.
Proof. unfold put, set_peers. simpl. by rewrite list_insert_insert_eq. Qed.

Lemma put_lookup k n w : (k < length (peers w))%nat -> peers (put k n w) !! k = Some n.
Proof. intros Hk. by apply list_lookup_insert_eq. Qed.

Lemma bind_run {S E B D} (c : PyM S E B) (f : B -> PyM S E D) s s' s'' es es' b r :
  c s = (s', es, Ret b) -> f b s' = (s'', es', r) -> py_bind c f s = (s'', es ++ es', r).
Proof. intros Hc Hf. unfold py_bind. by rewrite Hc, Hf. Qed.

Lemma bind_raises {S E B D} (c : PyM S E B) (f : B -> PyM S E D) s er :
  result (c s) = Raise er -> result (py_bind c f s) = Raise er.
Proof. unfold py_bind, result. destruct (c s) as [[s' es] [b|e]]; [done|]. by intros [= ->]. Qed.

Lemma bind_parts {S E B D} (c : PyM S E B) (f : B -> PyM S E D) s s' es b :
  c s = (s', es, Ret b) ->
  result (py_bind c f s) = result (f b s') /\ post (py_bind c f s) = post (f b s') /\
  effects (py_bind c f s) = es ++ effects (f b s').
Proof. intros Hc. unfold py_bind, result, post, effects. rewrite Hc. by destruct (f b s') as [[s'' es'] r]. Qed.

Section at_node.
Context (k : nat) (w : hub P Obj) (Hk : (k < length (peers w))%nat).

Lemma run_self n : self k (put k n w) = (put k n w, [], Ret n) :> _ * list (io Eff) * _.
Proof. unfold self, py_call. by rewrite put_lookup. Qed.

Lemma run_set_self f n :
  set_self k f (put k n w) = (put k (f n) w, [], Ret tt) :> _ * list (io Eff) * _.
Proof.
  unfold set_self, py_set. f_equal. f_equal. unfold put, set_peers. simpl. f_equal.
  apply list_eq. intros j. rewrite list_lookup_alter, !list_lookup_insert by done.
  case_decide as Hj; [subst j|].
  - by rewrite decide_True, !decide_True by done.
  - rewrite !decide_False; naive_solver.
Qed.

Lemma bind_self {B} (f : Node.t -> M B) n : py_bind (self k) f (put k n w) = f n (put k n w).
Proof. apply bind_pure, run_self. Qed.

Lemma bind_set_self {B} g (f : unit -> M B) n :
  py_bind (set_self k g) f (put k n w) = f tt (put k (g n) w).
Proof. apply bind_pure, run_set_self. Qed.

Lemma run_conn_send kernel p n d :
  Connection.fileno (Node.conn n) = Some d -> healthy kernel -> fits p ->
  exists c sent,
    conn_send k kernel p (put k n w) = (put k (Node.set_conn c n) w, [Wire d sent], Ret tt)
      :> _ * list (io Eff) * _ /\
    sent ++ Connection.writeBuffer c = Connection.writeBuffer (Node.conn n) ++ frame_bytes p /\
    identity c = identity (Node.conn n) /\
    Connection.disconnected c = Connection.disconnected (Node.conn n) /\
    Connection.readBuffer c = Connection.readBuffer (Node.conn n).
Proof.
  intros Hd Hker Hp. destruct (send_healthy kernel p (Node.conn n) Hker Hp) as (c & sent & Hs & Hw & Hr & Hdis).
  pose proof (send_identity kernel p (Node.conn n)) as Hid. rewrite Hs in Hid. simpl in Hid.
  exists c, sent. split_and!; [|done..]. unfold conn_send. rewrite bind_self, Hs, bind_set_self.
  unfold py_bind, py_emit, py_call. simpl. injection Hid as -> _ _. by rewrite Hd.
Qed.

Lemma run_conn_flush kernel n d :
  Connection.fileno (Node.conn n) = Some d -> healthy kernel ->
  exists c sent,
    conn_flush k kernel (put k n w) = (put k (Node.set_conn c n) w, [Wire d sent], Ret tt)
      :> _ * list (io Eff) * _ /\
    sent ++ Connection.writeBuffer c = Connection.writeBuffer (Node.conn n) /\
    identity c = identity (Node.conn n) /\
    Connection.disconnected c = Connection.disconnected (Node.conn n) /\
    Connection.readBuffer c = Connection.readBuffer (Node.conn n).
Proof.
  intros Hd Hker. destruct (flush_healthy kernel (Node.conn n) Hker) as (c & sent & Hs & Hw & Hdis & Hr).
  pose proof (flush_identity kernel (Node.conn n)) as Hid. rewrite Hs in Hid. simpl in Hid.
  exists c, sent. split_and!; [|done..]. unfold conn_flush. rewrite bind_self, Hs, bind_set_self.
  unfold py_emit. injection Hid as -> _ _. by rewrite Hd.
Qed.

Lemma run_introduce e n d :
  Node.status n = CONNECTING -> Connection.fileno (Node.conn n) = Some d -> healthy (hello e) ->
  fits (Address (Msg := Msg) (selfNodeAddr w)) ->
  exists c sent,
    introduce e k (put k n w)
      = (put k (Node.set_status CONNECTED (Node.set_conn c n)) w, [Wire d sent], Ret tt)
      :> _ * list (io Eff) * _ /\
    sent ++ Connection.writeBuffer c
      = Connection.writeBuffer (Node.conn n) ++ frame_bytes (Address (Msg := Msg) (selfNodeAddr w)) /\
    identity c = identity (Node.conn n) /\
    Connection.disconnected c = Connection.disconnected (Node.conn n).
Proof.
  intros Hst Hd Hker Hf.
  destruct (run_conn_send (hello e) (Address (selfNodeAddr w)) n d Hd Hker Hf)
    as (c & sent & Hrun & Hs & Hid & Hdis & _).
  exists c, sent. split; [|done]. unfold introduce. rewrite bind_self, Hst, bind_get.
  erewrite bind_run; [|exact Hrun|apply run_set_self]. by rewrite app_nil_r.
Qed.

(** A node that is connected has nothing to introduce. *)
Lemma run_on_writable e n d :
  Node.status n = CONNECTED -> Connection.fileno (Node.conn n) = Some d -> healthy (rest e) ->
  Connection.isDisconnected (now e) (Node.conn n) = false ->
  exists c sent,
    on_writable e k d (put k n w)
      = (set_poller (subscribe d (OnNode k)
           (if decide (Connection.writeBuffer c = []) then Z.lor READ ERROR else all_events) (poller w))
           (put k (Node.set_conn c n) w), [Wire d sent], Ret tt)
      :> _ * list (io Eff) * _ /\
    sent ++ Connection.writeBuffer c = Connection.writeBuffer (Node.conn n) /\
    identity c = identity (Node.conn n) /\
    Connection.disconnected c = Connection.disconnected (Node.conn n) /\
    Connection.readBuffer c = Connection.readBuffer (Node.conn n).
Proof.
  intros Hst Hd Hker Halive.
  destruct (run_conn_flush (rest e) n d Hd Hker) as (c & sent & Hrun & Hs & Hid & Hdis & Hr).
  exists c, sent. split; [|done]. unfold on_writable, introduce.
  assert (forall B (f : unit -> M B), py_bind (py_bind (self k) (fun n => match Node.status n with
    | CONNECTING => py_bind (py_get selfNodeAddr) (fun a =>
        conn_send k (hello e) (Address a) ;;! set_status k CONNECTED)
    | _ => py_return tt end)) f (put k n w) = f tt (put k n w)) as ->.
  { intros B f. apply bind_pure. by rewrite bind_self, Hst. }
  erewrite bind_run; [|exact Hrun|].
  2: { rewrite bind_self. cbv zeta. simpl Node.conn.
       rewrite (isDisconnected_same _ _ _ Hid Hdis), Halive. reflexivity. }
  rewrite app_nil_r. f_equal. f_equal. unfold Node.getSendBufferSize, Connection.getSendBufferSize.
  f_equal. f_equal. simpl. unfold py_len. case_decide as Hc; [by rewrite Hc|].
  by destruct (Connection.writeBuffer c).
Qed.

End at_node.

(** The node that has opened a connection introduces itself first: at the
    first event that says the socket can be written, the bytes handed to the
    socket and those still buffered are together exactly the frame of its own
    address, it counts as connected, and it goes on watching for writability
    exactly when bytes are left over. *)
Theorem opener_introduces handle w k n d e :
  peers w !! k = Some n -> Node.status n = CONNECTING ->
  Connection.fileno (Node.conn n) = Some d -> Connection.writeBuffer (Node.conn n) = [] ->
  Connection.isDisconnected (now e) (Node.conn n) = false ->
  so_error e = false -> quiet e -> fits (Address (Msg := Msg) (selfNodeAddr w)) ->
  exists w' es n',
    processConnection e handle k d WRITE w = (w', es, Ret tt) :> _ * list (io Eff) * _ /\
    peers w' !! k = Some n' /\ Node.status n' = CONNECTED /\
    wire es ++ Connection.writeBuffer (Node.conn n')
      = frame_bytes (Address (Msg := Msg) (selfNodeAddr w)) /\
    poller w' = subscribe d (OnNode k)
      (if decide (Connection.writeBuffer (Node.conn n') = []) then Z.lor READ ERROR else all_events)
      (poller w).
Proof.
  intros Hn Hst Hd Hbuf Halive Hso [Hhello Hrest] Hfits.
  assert (k < length (peers w))%nat as Hk by (by eapply lookup_lt_Some).
  destruct (run_introduce k w Hk e n d Hst Hd Hhello Hfits) as (c1 & s1 & Hrun1 & Hs1 & Hid1 & Hdis1).
  set (n1 := Node.set_status CONNECTED (Node.set_conn c1 n)).
  assert (Connection.isDisconnected (now e) c1 = false) as Halive1
    by (by rewrite (isDisconnected_same _ _ _ Hid1 Hdis1)).
  assert (Connection.fileno c1 = Some d) as Hd1 by (injection Hid1; congruence).
  destruct (run_on_writable k w Hk e n1 d eq_refl Hd1 Hrest Halive1) as (c2 & s2 & Hrun2 & Hs2 & _).
  eexists _, [Wire d s1; Wire d s2], (Node.set_conn c2 n1). split; [|split_and!].
  - unfold processConnection. rewrite <-(put_self k n w Hn) at 1.
    rewrite bind_self, decide_True by done.
    change [Wire d s1; Wire d s2] with ([Wire d s1] ++ [Wire d s2] : list (io Eff)).
    eapply bind_run.
    { change (has WRITE READ || has WRITE WRITE) with true. cbv iota. rewrite Hso.
      erewrite bind_run; [|exact Hrun1|reflexivity]. reflexivity. }
    rewrite bind_self by done. change (has WRITE ERROR) with false.
    change (Node.conn (Node.set_status CONNECTED (Node.set_conn c1 n))) with c1.
    rewrite Halive1. simpl. etrans; [eapply bind_run; [exact Hrun2|reflexivity]|reflexivity].
  - simpl. by apply list_lookup_insert_eq.
  - done.
  - simpl. rewrite app_nil_r, <-app_assoc. simpl in Hs2. by rewrite Hs2, Hs1, Hbuf.
  - done.
Qed.


(** ** The other end *)

(** The node an introduction belongs to; nothing else is an introduction. *)
Definition partner (p : packet Msg) w : option nat :=
  match p with Address a => node_at a (peers w) | Message _ => None end.

Lemma node_at_lookup a (ns : list Node.t) k : node_at a ns = Some k -> is_Some (ns !! k).
Proof.
  unfold node_at. intros ([j n] & Hf & ->)%fmap_Some. apply list_find_Some in Hf as (Hj & _). eauto.
Qed.

Lemma run_identify w d c p incoming rest e :
  unknown w !! d = Some c -> recv e = Connection.Received incoming -> incoming <> [] ->
  recv_so_error e = false -> fits p ->
  Connection.readBuffer c ++ incoming = frame_bytes p ++ rest ->
  identify e d w =
    (set_unknown (<[d := Connection.set_readBuffer rest (Connection.set_lastReadTime (now e) c)]>
       (unknown w)) w, [], Ret (partner p w, bool_decide (partner p w = None)))
    :> _ * list (io Eff) * _.
Proof.
  intros Hc Hrecv Hne Hso Hp Hbuf. unfold identify.
  erewrite bind_pure; [|unfold unknown_conn, py_call; by rewrite Hc].
  unfold Connection.read. rewrite Hrecv, Hso. destruct incoming as [|b incoming]; [done|].
  rewrite (getMessage_frame p rest) by done.
  unfold set_unknown_conn. rewrite bind_set. unfold py_bind, py_call. cbn.
  destruct p as [a|m]; simpl; [|done]. by destruct (node_at a (peers w)).
Qed.

(** What arrives first on an accepted connection decides whose it is: when
    the read completes the address of a configured node the connection becomes
    that node's, connected and watched for everything, with the bytes after the
    address still to be read; a complete packet that is anything else (an
    unknown address, or a message) closes the connection and unsubscribes it. *)
Theorem stranger_identified w d c p incoming rest e :
  unknown w !! d = Some c -> Connection.fileno c = Some d ->
  recv e = Connection.Received incoming -> incoming <> [] -> recv_so_error e = false ->
  Connection.disconnected c = false -> (0 <= Connection.timeout c)%Q -> fits p ->
  Connection.readBuffer c ++ incoming = frame_bytes p ++ rest ->
  let c' := Connection.set_readBuffer rest (Connection.set_lastReadTime (now e) c) in
  processUnknownConnections e d READ w =
    match partner p w with
    | Some k =>
        (set_poller (subscribe d (OnNode k) all_events (poller w))
           (set_unknown (delete d (unknown w))
              (set_peers (alter (fun n => Node.set_status CONNECTED (Node.set_conn c' n)) k (peers w)) w)),
         [], Ret tt)
    | None =>
        (set_poller (unsubscribe d (poller w)) (set_unknown (delete d (unknown w)) w),
         [Closed d], Ret tt)
    end :> _ * list (io Eff) * _.
Proof.
  intros Hc Hd Hrecv Hne Hso Hdis Htime Hp Hbuf c'.
  set (w1 := set_unknown (<[d := c']> (unknown w)) w).
  assert (unknown w1 !! d = Some c') as Hc1 by apply lookup_insert_eq.
  assert (set_unknown (delete d (unknown w1)) w1 = set_unknown (delete d (unknown w)) w) as Hforget
    by (unfold w1, set_unknown; simpl; by rewrite delete_insert_eq).
  assert (Connection.isDisconnected (now e) c' = false) as Halive.
  { unfold Connection.isDisconnected. simpl. rewrite Hdis. simpl. apply negb_false_iff, Qle_bool_iff.
    unfold Qminus. by rewrite Qplus_opp_r. }
  unfold processUnknownConnections.
  erewrite bind_pure; [|unfold unknown_conn, py_call; by rewrite Hc].
  change (has READ READ) with true. change (has READ ERROR) with false. cbv iota.
  erewrite bind_pure; [|by apply (run_identify w d c p incoming rest e)].
  fold c' w1. cbv beta iota.
  erewrite bind_pure; [|unfold unknown_conn, py_call; by rewrite Hc1].
  rewrite orb_false_r, Halive, orb_false_r. unfold forget_unknown.
  destruct (partner p w) as [k|] eqn:Ep; simpl.
  - rewrite bind_set, Hforget, Hd. simpl.
    assert (k < length (peers w))%nat as Hk.
    { destruct p as [a|m]; [|done]. by apply node_at_lookup in Ep as [n Hn%lookup_lt_Some]. }
    destruct (lookup_lt_is_Some_2 (peers w) k Hk) as [n Hn].
    unfold onPartnerConnected, set_self, set_status, watch, fileno, self.
    unfold set_self, py_bind, py_set, py_call. simpl.
    rewrite !list_lookup_alter_eq, Hn. simpl. rewrite Hd. simpl.
    replace (alter (fun n => Node.set_status CONNECTED (Node.set_conn c' n)) k (peers w))
      with (alter (Node.set_status CONNECTED) k (alter (Node.set_conn c') k (peers w))); [done|].
    apply list_eq. intros j. rewrite !list_lookup_alter. repeat case_decide; subst; try done.
    by rewrite Hn.
  - rewrite bind_set, Hforget. reflexivity.
Qed.


(** ** The rest of a connection's life *)

(** Of two nodes with different addresses exactly one opens the connection. *)
Lemma one_side_connects a b t t' now now' ans ans' j j' r r' n m :
  a <> b -> (Node.init a b t now ans j r).2 = Ret n -> (Node.init b a t' now' ans' j' r').2 = Ret m ->
  Node.shouldConnect n = negb (Node.shouldConnect m).
Proof.
  intros Hab Hn Hm.
  assert (forall a b t now ans j r n, (Node.init a b t now ans j r).2 = Ret n ->
    Node.shouldConnect n = py_ltb b a) as Hinit.
  { clear. intros a b t now ans j r n. unfold Node.init, py_gt.
    destruct (PyStr.py_split _ b) as [|host [|port ps]]; [done| |];
      destruct (Resolver.resolve _ _ _ _ _) as [r1 ip]; [done|].
    destruct (PyStr.py_int port); [|done]. simpl. by intros [= <-]. }
  rewrite (Hinit _ _ _ _ _ _ _ _ Hn), (Hinit _ _ _ _ _ _ _ _ Hm).
  destruct (py_ltb b a) eqn:E1, (py_ltb a b) eqn:E2; try done; exfalso.
  - pose proof (py_ltb_trans _ _ _ E1 E2) as E3. by rewrite py_ltb_irrefl in E3.
  - apply Hab. by apply py_ltb_total.
Qed.

(** [send] on a connected node without socket errors: what goes out, followed
    by what stays in the buffer, is what was buffered before and the frame of
    the message; and the poller is left as it is, also when it does not watch
    the descriptor for writing, so that the rest waits for another send. *)
Theorem send_leaves_poller w k n d kernel now p :
  peers w !! k = Some n -> Node.status n = CONNECTED -> Connection.fileno (Node.conn n) = Some d ->
  Connection.isDisconnected now (Node.conn n) = false -> healthy kernel -> fits p ->
  exists c sent,
    send k kernel now p w = (put k (Node.set_conn c n) w, [Wire d sent], Ret true)
      :> _ * list (io Eff) * _ /\
    sent ++ Connection.writeBuffer c = Connection.writeBuffer (Node.conn n) ++ frame_bytes p /\
    poller (put k (Node.set_conn c n) w) = poller w.
Proof.
  intros Hn Hst Hd Halive Hker Hp.
  assert (k < length (peers w))%nat as Hk by (by eapply lookup_lt_Some).
  destruct (run_conn_send k w Hk kernel p n d Hd Hker Hp) as (c & sent & Hrun & Hs & Hid & Hdis & _).
  exists c, sent. split; [|done]. unfold send. rewrite <-(put_self k n w Hn) at 1.
  rewrite bind_self, Hst by done. etrans; [eapply bind_run; [exact Hrun|]|].
  - rewrite bind_self by done. simpl. rewrite (isDisconnected_same _ _ _ Hid Hdis), Halive. reflexivity.
  - by rewrite app_nil_r.
Qed.

(** The bytes that node [k] has read and not decoded. *)
Definition unread (k : nat) w : nat :=
  match peers w !! k with Some n => length (Connection.readBuffer (Node.conn n)) | None => 0%nat end.

(** The read loop ends within its fuel unless the handler puts bytes into the
    read buffer. *)
Lemma receive_loop_ends handle k fuel w :
  (forall a p v, (unread k (post (handle a p v : _ * list (io Eff) * _)) <= unread k v)%nat) ->
  (unread k w < fuel)%nat -> result (receive_loop handle k fuel w) <> Ret false.
Proof.
  intros Hh. revert w. induction fuel as [|fuel IH]; intros w Hlt; [lia|].
  cbn [receive_loop]. unfold conn_getMessage, self, py_call. unfold py_bind at 1 2.
  destruct (peers w !! k) as [n|] eqn:Hn; [|done]. cbn beta iota.
  destruct (Connection.getMessage (Node.conn n)) as [c [[m|]|er]] eqn:E; [|done..].
  apply getMessage_shrinks in E.
  set (w1 := set_peers (alter (Node.set_conn c) k (peers w)) w).
  assert (peers w1 !! k = Some (Node.set_conn c n)) as Hn1
    by (unfold w1; simpl; by rewrite list_lookup_alter_eq, Hn).
  cbv [py_bind set_self py_set py_call self]. fold w1. cbn beta iota. rewrite Hn1. cbn beta iota.
  specialize (Hh (Node.nodeAddr n) m w1).
  change (Node.nodeAddr (Node.set_conn c n)) with (Node.nodeAddr n).
  destruct (handle (Node.nodeAddr n) m w1) as [[w2 es2] [[]|er2]] eqn:Eh; [|done].
  specialize (IH w2). unfold result in *.
  destruct (receive_loop handle k fuel w2) as [[w3 es3] r3]. simpl in *. apply IH.
  unfold unread, post in *. simpl in Hh. rewrite Hn in Hlt. rewrite Hn1 in Hh. simpl in Hh. lia.
Qed.

End handshake.

(** ** Witnesses *)
Import Hub.

Lemma opener_introduces_witness :
  exists w' es n',
    processConnection (writable 7) silent 0 7 WRITE connecting = (w', es, Ret tt) /\
    peers w' !! 0%nat = Some n' /\ Node.status n' = CONNECTED /\
    wire es ++ Connection.writeBuffer (Node.conn n')
      = frame_bytes (Address (Msg := bytes) (selfNodeAddr connecting)) /\
    poller w' = subscribe 7 (OnNode 0)
      (if decide (Connection.writeBuffer (Node.conn n') = []) then Z.lor READ ERROR else all_events)
      (poller connecting).
Proof.
  destruct (peers connecting !! 0%nat) as [n|] eqn:E; [|by vm_compute in E].
  apply (opener_introduces silent connecting 0 n 7 (writable 7) E);
    [vm_compute in E; injection E as <-; reflexivity..|reflexivity| |reflexivity].
  split; intros j; (split; [discriminate|]).
  - intros res [= <-]. discriminate.
  - intros res [=].
Defined.

(** A stranger of which two bytes of the introduction have arrived. *)
Definition introduction : bytes := frame_bytes (Address (Msg := bytes) "10.0.0.1:4000").
Definition half_known : hub (PollPoller.t subscriber) unit :=
  set_unknown {[9 := Connection.set_readBuffer (take 2 introduction) (Connection.init (Some 9) 5 0)]}
    one_peer.
Definition rest_arrives : answers :=
  MkAnswers 1 false (fun _ => Connection.SendEAGAIN) (fun _ => Connection.SendEAGAIN)
    (Connection.Received (drop 2 introduction ++ [Byte.x01])) false.

Lemma stranger_identified_witness :
  exists w' c', processUnknownConnections (Eff := unit) rest_arrives 9 READ half_known
    = (set_poller (subscribe 9 (OnNode 0) all_events (poller half_known)) w', [], Ret tt) /\
  unknown w' = ∅ /\ Node.conn <$> peers w' !! 0%nat = Some c' /\
  Connection.readBuffer c' = [Byte.x01].
Proof.
  eexists _, _. split.
  - refine (stranger_identified half_known 9 _ (Address "10.0.0.1:4000") (drop 2 introduction ++ [Byte.x01])
      [Byte.x01] rest_arrives _ _ _ _ _ _ _ _ _); try reflexivity; try discriminate.
    all: vm_compute; congruence.
  - split_and!; reflexivity.
Defined.

Lemma send_leaves_poller_witness :
  exists w' sent, send (Eff := unit) 0 (fun _ => Connection.SendEAGAIN) 3 (Message [Byte.x01]) connected
    = (w', [Wire 7 sent], Ret true) /\
  watches (poller connected) 7 WRITE = false /\ poller w' = poller connected.
Proof.
  destruct (peers connected !! 0%nat) as [n|] eqn:E; [|by vm_compute in E].
  destruct (send_leaves_poller (Eff := unit) connected 0 n 7 (fun _ => Connection.SendEAGAIN) 3
    (Message [Byte.x01]) E) as (c & sent & Hrun & _ & Hp);
    [vm_compute in E; injection E as <-; reflexivity..| |reflexivity|].
  - intros j. split; [discriminate|]. intros res [=].
  - exists (put 0 (Node.set_conn c n) connected), sent. split_and!; [exact Hrun|reflexivity|exact Hp].
Defined.
