(* ===== verification/PyText.v ===== *)
(** * Python 3 strings: the methods the platform uses

    Strings are sequences of ASCII characters.  [split] on blanks and on a
    substring, [replace], [rstrip], [in], [isdigit], [str] of an integer. *)
From stdpp Require Import base list strings pretty.
From Stdlib Require Import ZArith Lia.
From Stdlib Require Import Strings.Ascii.
From S2P Require Import Prelude PyList PyStr.
Local Open Scope Z_scope.

(** ** Errors as values *)
#[export] Instance outcome_bind : MBind outcome :=
  fun A B k c => match c with Ret a => k a | Raise e => Raise e end.

(** [l[i]] as an expression. *)
Definition py_index {A} (l : list A) (i : Z) : outcome A :=
  match py_item l i with Some a => Ret a | None => Raise IndexError end.

(** The position that [l[i]] denotes in a list of length [n]. *)
Definition py_pos (n : nat) (i : Z) : option nat :=
  let j := if i <? 0 then Z.of_nat n + i else i in
  if (0 <=? j) && (j <? Z.of_nat n) then Some (Z.to_nat j) else None.

(** [int(s)] as an expression. *)
Definition py_int3 (s : string) : outcome Z :=
  match py_int s with Some z => Ret z | None => Raise ValueError end.

(** ** Blanks

    [str.isspace] on ASCII: the blanks of [is_space] and the separators 28-31. *)
Definition blank (a : ascii) : bool :=
  is_space a || let n := N_of_ascii a in ((28 <=? n) && (n <=? 31))%N.

(** [s.rstrip()] *)
Fixpoint py_rstrip (s : string) : string :=
  match s with
  | EmptyString => EmptyString
  | String a s' =>
      match py_rstrip s' with
      | EmptyString => if blank a then EmptyString else String a EmptyString
      | r => String a r
      end
  end.

(** [s.split()] *)
Fixpoint py_words (s : string) : list string :=
  match s with
  | EmptyString => []
  | String a s' =>
      if blank a then py_words s' else
      match s' with
      | EmptyString => [String a EmptyString]
      | String b _ =>
          if blank b then String a EmptyString :: py_words s' else
          match py_words s' with
          | w :: ws => String a w :: ws
          | [] => []                       (* never: [s'] starts with a word *)
          end
      end
  end.

(** ** Substrings *)
Fixpoint py_startswith (p s : string) : bool :=
  match p, s with
  | EmptyString, _ => true
  | String a p, String b s => Ascii.eqb a b && py_startswith p s
  | _, EmptyString => false
  end.

(** [p in s] *)
Fixpoint py_in (p s : string) : bool :=
  py_startswith p s || match s with EmptyString => false | String _ s => py_in p s end.

(** [s.split(sep)] for a non-empty [sep]; [skip] characters of a separator just
    found are still to be passed over. *)
Fixpoint split_at (sep : string) (skip : nat) (s : string) : list string :=
  match s with
  | EmptyString => [EmptyString]
  | String a s' =>
      match skip with
      | S skip => split_at sep skip s'
      | O =>
          if py_startswith sep s then EmptyString :: split_at sep (String.length sep - 1) s'
          else match split_at sep 0 s' with
               | p :: ps => String a p :: ps
               | [] => []                  (* never: there is always a piece *)
               end
      end
  end.
Definition py_split_on (sep s : string) : list string := split_at sep 0 s.

(** [s.replace(old, new)] for a non-empty [old]. *)
Fixpoint replace_at (old new : string) (skip : nat) (s : string) : string :=
  match s with
  | EmptyString => EmptyString
  | String a s' =>
      match skip with
      | S skip => replace_at old new skip s'
      | O =>
          if py_startswith old s then new +:+ replace_at old new (String.length old - 1) s'
          else String a (replace_at old new 0 s')
      end
  end.
Definition py_replace (old new s : string) : string := replace_at old new 0 s.

(** ** Digits *)
Definition is_digit (a : ascii) : bool := match digit a with Some _ => true | None => false end.

Fixpoint py_all (p : ascii -> bool) (s : string) : bool :=
  match s with EmptyString => true | String a s => p a && py_all p s end.

(** [s.isdigit()] *)
Definition py_isdigit (s : string) : bool :=
  match s with EmptyString => false | _ => py_all is_digit s end.

(** [str(z)] *)
Definition py_str (z : Z) : string := pretty z.

(** [join] with a separator of one character is [py_join]; a newline: *)
Definition newline : string := String "010"%char EmptyString.

(** ** Facts *)
Lemma py_all_app p s t : py_all p (s +:+ t) = py_all p s && py_all p t.
Proof. induction s as [|a s IH]; simpl; [done|]. by rewrite IH, andb_assoc. Qed.

Lemma app_cons_s a (s t : string) : String a s +:+ t = String a (s +:+ t).
Proof. done. Qed.

Lemma app_empty_s (t : string) : EmptyString +:+ t = t.
Proof. done. Qed.

Lemma app_assoc_s (s t u : string) : (s +:+ t) +:+ u = s +:+ (t +:+ u).
Proof. induction s as [|a s IH]; [done|]. by rewrite !app_cons_s, IH. Qed.

Lemma app_nil_s (s : string) : s +:+ EmptyString = s.
Proof. induction s as [|a s IH]; [done|]. by rewrite !app_cons_s, IH. Qed.

Lemma py_pos_item {A} (l : list A) i :
  py_item l i = match py_pos (length l) i with Some n => l !! n | None => None end.
Proof.
  unfold py_item, py_pos, py_len. destruct (Z.ltb_spec i 0) as [Hi|Hi].
  - destruct (Z.ltb_spec (Z.of_nat (length l) + i) 0); destruct (Z.leb_spec 0 (Z.of_nat (length l) + i));
      simpl; try lia; [done|]. by rewrite (proj2 (Z.ltb_lt _ _)) by lia.
  - rewrite (proj2 (Z.leb_le 0 i)) by lia. simpl. destruct (Z.ltb_spec i (Z.of_nat (length l))); [done|].
    apply lookup_ge_None. lia.
Qed.

Lemma py_index_0 {A} (a : A) l : py_index (a :: l) 0 = Ret a.
Proof. done. Qed.
Lemma py_index_1 {A} (a b : A) l : py_index (a :: b :: l) 1 = Ret b.
Proof. done. Qed.

Lemma py_pos_nonneg n i : 0 <= i < Z.of_nat n -> py_pos n i = Some (Z.to_nat i).
Proof.
  intros Hi. unfold py_pos. rewrite (proj2 (Z.ltb_ge i 0)) by lia.
  by rewrite (proj2 (Z.leb_le _ _)), (proj2 (Z.ltb_lt _ _)) by lia.
Qed.

Lemma py_pos_lt n i k : py_pos n i = Some k -> (k < n)%nat.
Proof.
  unfold py_pos. set (j := if i <? 0 then _ else _).
  destruct (Z.leb_spec 0 j), (Z.ltb_spec j (Z.of_nat n)); simpl; [|done..].
  intros [= <-]. lia.
Qed.

(** *** Words *)
Definition is_word (s : string) : bool :=
  match s with EmptyString => false | _ => py_all (fun a => negb (blank a)) s end.

Lemma py_words_blank a s : blank a = true -> py_words (String a s) = py_words s.
Proof. intros H. cbn. by rewrite H. Qed.

Lemma py_words_word_cons w a t :
  is_word w = true -> blank a = true -> py_words (w +:+ String a t) = w :: py_words t.
Proof.
  intros Hw Ha. induction w as [|b w IH]; [done|].
  simpl in Hw. apply andb_true_iff in Hw as [Hb%negb_true_iff Hw].
  destruct w as [|c w].
  - rewrite app_cons_s, app_empty_s. cbn [py_words]. by rewrite Hb, Ha.
  - specialize (IH Hw). change (String b (String c w) +:+ String a t)
      with (String b (String c (w +:+ String a t))).
    pose proof Hw as Hc. simpl in Hc. apply andb_true_iff in Hc as [Hc%negb_true_iff _].
    cbn [py_words]. rewrite Hb, Hc. change (String c w +:+ String a t)
      with (String c (w +:+ String a t)) in IH. cbn [py_words] in IH. rewrite Hc in IH.
    by rewrite IH.
Qed.

Lemma py_words_word w : is_word w = true -> py_words w = [w].
Proof.
  intros Hw. induction w as [|b w IH]; [done|].
  simpl in Hw. apply andb_true_iff in Hw as [Hb%negb_true_iff Hw].
  destruct w as [|c w].
  - cbn. by rewrite Hb.
  - specialize (IH Hw). pose proof Hw as Hc. simpl in Hc.
    apply andb_true_iff in Hc as [Hc%negb_true_iff _].
    cbn [py_words] in *. rewrite Hb, Hc in *. by rewrite IH.
Qed.

(** *** Split, replace and substrings *)
Lemma split_at_skip sep n s t : String.length s = n -> split_at sep n (s +:+ t) = split_at sep 0 t.
Proof.
  revert n. induction s as [|a s IH]; intros [|n] Hn; try done.
  simpl. apply IH. by injection Hn.
Qed.

Lemma replace_at_skip old new n s t :
  String.length s = n -> replace_at old new n (s +:+ t) = replace_at old new 0 t.
Proof.
  revert n. induction s as [|a s IH]; intros [|n] Hn; try done.
  simpl. apply IH. by injection Hn.
Qed.

Lemma startswith_app p s : py_startswith p (p +:+ s) = true.
Proof. induction p as [|a p IH]; simpl; [done|]. by rewrite Ascii.eqb_refl. Qed.

Lemma split_on_sep a sep t : split_at (String a sep) 0 (String a sep +:+ t) =
  EmptyString :: split_at (String a sep) 0 t.
Proof.
  rewrite app_cons_s. cbn [split_at].
  rewrite <-app_cons_s, startswith_app. f_equal. simpl. rewrite Nat.sub_0_r. by apply split_at_skip.
Qed.

Lemma replace_at_sep a old new t : replace_at (String a old) new 0 (String a old +:+ t) =
  new +:+ replace_at (String a old) new 0 t.
Proof.
  rewrite app_cons_s. cbn [replace_at].
  rewrite <-app_cons_s, startswith_app. f_equal. simpl. rewrite Nat.sub_0_r. by apply replace_at_skip.
Qed.

(** A separator cannot start in [s], whatever follows. *)
Lemma split_on_free a sep s t p ps : free_of a s = true ->
  split_at (String a sep) 0 t = p :: ps -> split_at (String a sep) 0 (s +:+ t) = (s +:+ p) :: ps.
Proof.
  intros Hs Ht. induction s as [|b s IH]; [done|].
  cbn [free_of] in Hs. apply andb_true_iff in Hs as [Hb%negb_true_iff Hs].
  rewrite app_cons_s. cbn [split_at py_startswith].
  rewrite Ascii.eqb_sym, Hb. cbn [andb]. by rewrite IH.
Qed.

Lemma replace_free a old new s t : free_of a s = true ->
  replace_at (String a old) new 0 (s +:+ t) = s +:+ replace_at (String a old) new 0 t.
Proof.
  intros Hs. induction s as [|b s IH]; [done|].
  cbn [free_of] in Hs. apply andb_true_iff in Hs as [Hb%negb_true_iff Hs].
  rewrite !app_cons_s. cbn [replace_at py_startswith].
  rewrite Ascii.eqb_sym, Hb. cbn [andb]. by rewrite IH.
Qed.

Lemma split_on_absent sep s : sep <> EmptyString -> py_in sep s = false -> split_at sep 0 s = [s].
Proof.
  intros Hsep. induction s as [|a s IH]; [by intros _|].
  cbn [py_in]. rewrite orb_false_iff. intros [H1 H2].
  cbn [split_at]. by rewrite H1, IH.
Qed.

Lemma replace_absent old new s : py_in old s = false -> replace_at old new 0 s = s.
Proof.
  induction s as [|a s IH]; [done|].
  cbn [py_in]. rewrite orb_false_iff. intros [H1 H2].
  cbn [replace_at]. by rewrite H1, IH.
Qed.

Lemma py_in_free a p s : free_of a s = true -> py_in (String a p) s = false.
Proof.
  induction s as [|b s IH]; [done|]. cbn [free_of]. rewrite andb_true_iff, negb_true_iff.
  intros [Hb Hs]. cbn [py_in py_startswith]. rewrite Ascii.eqb_sym, Hb. by apply IH.
Qed.

Lemma free_of_app c s t : free_of c (s +:+ t) = free_of c s && free_of c t.
Proof. induction s as [|a s IH]; simpl; [done|]. by rewrite IH, andb_assoc. Qed.

(** Characters of a class are free of any character outside it. *)
Lemma py_all_free p c s : p c = false -> py_all p s = true -> free_of c s = true.
Proof.
  intros Hc. induction s as [|a s IH]; [done|]. simpl. rewrite !andb_true_iff, negb_true_iff.
  intros [Ha Hs]. split; [|by apply IH].
  destruct (Ascii.eqb_spec a c) as [->|]; [congruence|done].
Qed.

Lemma py_all_mono (p q : ascii -> bool) s :
  (forall a, p a = true -> q a = true) -> py_all p s = true -> py_all q s = true.
Proof.
  intros Hpq. induction s as [|a s IH]; [done|]. simpl. rewrite !andb_true_iff.
  intros [Ha Hs]. auto.
Qed.

(** *** Numbers *)
Lemma is_digit_not_blank a : is_digit a = true -> blank a = false.
Proof.
  unfold is_digit, digit, blank, is_space.
  destruct (_ && _) eqn:E; [|done]. intros _. apply andb_true_iff in E as [E1 E2].
  rewrite Z.leb_le in E1. rewrite Z.ltb_lt in E2.
  repeat match goal with |- context [(?x <=? ?y)%N] => destruct (N.leb_spec x y) end;
  repeat match goal with |- context [(?x =? ?y)%N] => destruct (N.eqb_spec x y) end; simpl; lia.
Qed.

Lemma isdigit_word s : py_isdigit s = true -> is_word s = true.
Proof.
  destruct s as [|a s]; [done|]. apply py_all_mono. intros b Hb.
  by rewrite is_digit_not_blank.
Qed.

Lemma pretty_digit x : (x < 10)%N -> digit (pretty_N_char x) = Some (Z.of_N x).
Proof.
  intros Hx. assert (x = 0 \/ x = 1 \/ x = 2 \/ x = 3 \/ x = 4 \/ x = 5 \/ x = 6 \/ x = 7
    \/ x = 8 \/ x = 9)%N as H by lia. by repeat (destruct H as [->|H]; [done|]); subst.
Qed.

(** Pushing the digits of [x] in front of [s]: all are digits, and read back
    they are [x]. *)
Lemma pretty_go_digits x s : py_all is_digit s = true -> py_all is_digit (pretty_N_go x s) = true.
Proof.
  revert s. induction (N.lt_wf_0 x) as [x _ IH]; intros s Hs.
  destruct (decide (x = 0)%N) as [->|Hx]; [by rewrite pretty_N_go_0|].
  rewrite pretty_N_go_step by lia. apply IH; [apply N.div_lt; lia|].
  cbn [py_all]. unfold is_digit. rewrite pretty_digit by (apply N.mod_lt; lia). done.
Qed.

Lemma pretty_go_value x s : digits_from 0 (pretty_N_go x s) = digits_from (Z.of_N x) s.
Proof.
  revert s. induction (N.lt_wf_0 x) as [x _ IH]; intros s.
  destruct (decide (x = 0)%N) as [->|Hx]; [by rewrite pretty_N_go_0|].
  rewrite pretty_N_go_step, IH by (try apply N.div_lt; lia). cbn [digits_from].
  rewrite pretty_digit by (apply N.mod_lt; lia). cbn [mbind option_bind]. f_equal.
  pose proof (N.div_mod x 10 ltac:(lia)). lia.
Qed.

Lemma pretty_go_nonempty x s : s <> EmptyString -> pretty_N_go x s <> EmptyString.
Proof.
  revert s. induction (N.lt_wf_0 x) as [x _ IH]; intros s Hs.
  destruct (decide (x = 0)%N) as [->|Hx]; [by rewrite pretty_N_go_0|].
  rewrite pretty_N_go_step by lia. apply IH; [apply N.div_lt; lia|done].
Qed.

Lemma pretty_N_isdigit (x : N) : py_isdigit (pretty x) = true.
Proof.
  unfold pretty, pretty_N. case_decide as Hx; [done|].
  assert (pretty_N_go x "" <> EmptyString) as Hne.
  { rewrite pretty_N_go_step by lia. by apply pretty_go_nonempty. }
  pose proof (pretty_go_digits x "" eq_refl) as Hd.
  by destruct (pretty_N_go x "").
Qed.

Lemma digits_pretty_N (x : N) : digits (pretty x) = Some (Z.of_N x).
Proof.
  pose proof (pretty_N_isdigit x) as Hd. unfold digits.
  destruct (pretty x) as [|a s] eqn:E; [done|]. rewrite <-E.
  unfold pretty, pretty_N. case_decide as Hx; [by subst|]. by rewrite pretty_go_value.
Qed.

Lemma py_str_nonneg z : 0 <= z -> py_str z = pretty (Z.to_N z).
Proof. by destruct z. Qed.

Lemma py_str_isdigit z : 0 <= z -> py_isdigit (py_str z) = true.
Proof. intros Hz. rewrite py_str_nonneg by done. apply pretty_N_isdigit. Qed.

Lemma py_str_inj x y : py_str x = py_str y -> x = y.
Proof. apply pretty_Z_inj. Qed.

(** A string of digits is its own number: nothing is stripped. *)
Lemma strip_digits s : py_all is_digit s = true -> rstrip (lstrip s) = s.
Proof.
  assert (Hsp : forall a, is_digit a = true -> is_space a = false).
  { intros a Ha%is_digit_not_blank. unfold blank in Ha. by apply orb_false_iff in Ha as [? _]. }
  intros Hs. assert (lstrip s = s) as ->.
  { destruct s as [|a s]; [done|]. cbn in *. apply andb_true_iff in Hs as [Ha _]. by rewrite Hsp. }
  induction s as [|a s IH]; [done|]. cbn in *. apply andb_true_iff in Hs as [Ha Hs].
  rewrite IH by done. destruct s; [by rewrite Hsp|done].
Qed.

Lemma py_int_digits s : py_isdigit s = true -> py_int s = digits s.
Proof.
  intros Hd. assert (Ha : py_all is_digit s = true) by (by destruct s).
  unfold py_int. rewrite strip_digits by done. destruct s as [|a s]; [done|].
  cbn in Ha. apply andb_true_iff in Ha as [Ha _].
  destruct a as [[] [] [] [] [] [] [] []]; try done; by vm_compute in Ha.
Qed.

(** [int(str(z)) == z] *)
Lemma py_int_str z : 0 <= z -> py_int (py_str z) = Some z.
Proof.
  intros Hz. rewrite py_int_digits by (by apply py_str_isdigit).
  rewrite py_str_nonneg by done. rewrite digits_pretty_N. f_equal. lia.
Qed.

(** The decimals of a number contain no other characters. *)
Lemma py_str_free c z : is_digit c = false -> Ascii.eqb "-"%char c = false -> free_of c (py_str z) = true.
Proof.
  intros Hc Hd. assert (Hn : forall x : N, free_of c (pretty x) = true).
  { intros x. apply (py_all_free is_digit); [done|]. pose proof (pretty_N_isdigit x) as H.
    by destruct (pretty x). }
  destruct z; [apply (Hn 0%N)|apply (Hn (N.pos p))|].
  change (py_str (Z.neg p)) with (String "-" (pretty (N.pos p))).
  cbn [free_of]. by rewrite Hd, Hn.
Qed.
