(* ===== verification/Regex.v ===== *)
(** * Python's re.match

    Regular expressions without groups read back, look-around or anchors, as
    the platform uses them.  [r.match(s)] succeeds when some prefix of [s] is in
    the language of [r]: [re_match], computed with derivatives, is proved
    correct against the language [r ∼ p]. *)
From stdpp Require Import base list strings.
From Stdlib Require Import Strings.Ascii.
From S2P Require Import Prelude.

Inductive re : Type :=
| Void                       (* nothing *)
| Eps                        (* the empty string *)
| Chr (p : ascii -> bool)    (* one character of a class *)
| Seq (r1 r2 : re)
| Alt (r1 r2 : re)
| Star (r : re).

Definition Plus (r : re) : re := Seq r (Star r).
Definition Opt (r : re) : re := Alt r Eps.
Definition Lit1 (a : ascii) : re := Chr (Ascii.eqb a).
Fixpoint Lit (s : string) : re :=
  match s with EmptyString => Eps | String a s => Seq (Lit1 a) (Lit s) end.

(** Classes of characters. *)
Definition between (a b c : ascii) : bool :=
  ((N_of_ascii a <=? N_of_ascii c) && (N_of_ascii c <=? N_of_ascii b))%N.
Definition Range (a b : ascii) : re := Chr (between a b).
(** [.] is any character but a newline. *)
Definition Dot : re := Chr (fun c => negb (Ascii.eqb c "010"%char)).

(** ** The language *)
Reserved Notation "r ∼ s" (at level 70).
Inductive in_re : re -> string -> Prop :=
| in_eps : Eps ∼ EmptyString
| in_chr p a : p a = true -> Chr p ∼ String a EmptyString
| in_seq r1 r2 s1 s2 : r1 ∼ s1 -> r2 ∼ s2 -> Seq r1 r2 ∼ (s1 +:+ s2)
| in_alt_l r1 r2 s : r1 ∼ s -> Alt r1 r2 ∼ s
| in_alt_r r1 r2 s : r2 ∼ s -> Alt r1 r2 ∼ s
| in_star_nil r : Star r ∼ EmptyString
| in_star_cons r s1 s2 : r ∼ s1 -> Star r ∼ s2 -> Star r ∼ (s1 +:+ s2)
where "r ∼ s" := (in_re r s).
Create HintDb regex.
#[export] Hint Constructors in_re : regex.

(** ** Matching *)
Fixpoint nullable (r : re) : bool :=
  match r with
  | Void | Chr _ => false
  | Eps | Star _ => true
  | Seq r1 r2 => nullable r1 && nullable r2
  | Alt r1 r2 => nullable r1 || nullable r2
  end.

(** Concatenation and union that keep derivatives small. *)
Definition seq' (r1 r2 : re) : re :=
  match r1 with Void => Void | Eps => r2 | _ => Seq r1 r2 end.
Definition alt' (r1 r2 : re) : re :=
  match r1, r2 with Void, _ => r2 | _, Void => r1 | _, _ => Alt r1 r2 end.

(** What may follow [a]. *)
Fixpoint deriv (a : ascii) (r : re) : re :=
  match r with
  | Void | Eps => Void
  | Chr p => if p a then Eps else Void
  | Seq r1 r2 =>
      if nullable r1 then alt' (seq' (deriv a r1) r2) (deriv a r2)
      else seq' (deriv a r1) r2
  | Alt r1 r2 => alt' (deriv a r1) (deriv a r2)
  | Star r => seq' (deriv a r) (Star r)
  end.

(** [bool(r.match(s))] *)
Fixpoint re_match (r : re) (s : string) : bool :=
  nullable r || match s with EmptyString => false | String a s => re_match (deriv a r) s end.

(** ** Correctness *)
Lemma nullable_spec r : nullable r = true <-> r ∼ EmptyString.
Proof.
  split.
  - induction r; simpl; try done; eauto with regex.
    + rewrite andb_true_iff. intros [H1 H2].
      apply (in_seq r1 r2 EmptyString EmptyString); auto.
    + rewrite orb_true_iff. intros [H1|H2]; eauto with regex.
  - intros H. remember EmptyString as s eqn:Es. induction H; simpl; try done.
    + destruct s1; [|done]. rewrite IHin_re1 by done. by apply IHin_re2.
    + by rewrite IHin_re.
    + rewrite IHin_re by done. by rewrite orb_true_r.
Qed.

Lemma seq'_spec r1 r2 s : seq' r1 r2 ∼ s <-> Seq r1 r2 ∼ s.
Proof.
  split; destruct r1; simpl; try done.
  - intros H. inversion H.
  - intros H. by apply (in_seq Eps r2 EmptyString s); [constructor|].
  - intros H. inversion H as [| |? ? ? ? H1| | | |]; subst. inversion H1.
  - intros H. inversion H as [| |? ? ? ? H1| | | |]; subst. by inversion H1.
Qed.

Lemma alt'_spec r1 r2 s : alt' r1 r2 ∼ s <-> Alt r1 r2 ∼ s.
Proof.
  assert (Hv : ~ Void ∼ s) by (intros H; inversion H).
  split.
  - destruct r1, r2; simpl; auto with regex.
  - intros H. inversion H as [| | |? ? ? H1|? ? ? H2| |]; subst;
      destruct r1, r2; simpl; try done; auto with regex.
Qed.

Lemma star_cons_inv r a s : Star r ∼ String a s ->
  exists s1 s2, s = s1 +:+ s2 /\ r ∼ String a s1 /\ Star r ∼ s2.
Proof.
  intros H. remember (Star r) as q eqn:Eq. remember (String a s) as t eqn:Et.
  revert s Et. induction H as [| | | | | |q s1 s2 H1 _ H2 IH]; try discriminate.
  intros s Et. injection Eq as ->. destruct s1 as [|b s1]; [by apply IH|].
  injection Et as -> <-. by exists s1, s2.
Qed.

Lemma seq_cons_inv r1 r2 a s : Seq r1 r2 ∼ String a s ->
  (exists s1 s2, s = s1 +:+ s2 /\ r1 ∼ String a s1 /\ r2 ∼ s2) \/
  (nullable r1 = true /\ r2 ∼ String a s).
Proof.
  intros H. inversion H as [| |? ? s1 s2 H1 H2 E1 Es| | | |]; subst.
  destruct s1 as [|b s1]; [right; by rewrite nullable_spec|left].
  injection Es as -> <-. by exists s1, s2.
Qed.

Lemma deriv_spec a r s : deriv a r ∼ s <-> r ∼ String a s.
Proof.
  revert s. induction r as [| |p|r1 IH1 r2 IH2|r1 IH1 r2 IH2|r IH]; intros s; simpl.
  - split; intros H; inversion H.
  - split; intros H; inversion H.
  - destruct (p a) eqn:Ep; split; intros H; inversion H; subst; auto with regex; congruence.
  - assert (Hs : Seq (deriv a r1) r2 ∼ s <->
      exists s1 s2, s = s1 +:+ s2 /\ r1 ∼ String a s1 /\ r2 ∼ s2).
    { split.
      - intros H. inversion H as [| |? ? s1 s2 H1 H2| | | |]; subst.
        exists s1, s2. by rewrite <-IH1.
      - intros (s1 & s2 & -> & H1 & H2). constructor; [by apply IH1|done]. }
    assert (Hd : (exists s1 s2, s = s1 +:+ s2 /\ r1 ∼ String a s1 /\ r2 ∼ s2) ->
      Seq r1 r2 ∼ String a s).
    { intros (s1 & s2 & -> & H1 & H2). by apply (in_seq r1 r2 (String a s1) s2). }
    destruct (nullable r1) eqn:En.
    + rewrite alt'_spec. split.
      * intros H. inversion H as [| | |? ? ? H1|? ? ? H2| |]; subst.
        -- apply Hd, Hs. by apply seq'_spec.
        -- apply (in_seq r1 r2 EmptyString); [by apply nullable_spec|by apply IH2].
      * intros [H|[_ H]]%seq_cons_inv; [apply in_alt_l|apply in_alt_r].
        -- by apply seq'_spec, Hs.
        -- by apply IH2.
    + rewrite seq'_spec. split; [by intros H; apply Hd, Hs|].
      intros [H|[H _]]%seq_cons_inv; [by apply Hs|congruence].
  - rewrite alt'_spec. split; intros H; inversion H; subst;
      (apply in_alt_l; by apply IH1) || (apply in_alt_r; by apply IH2).
  - rewrite seq'_spec. split.
    + intros H. inversion H as [| |? ? s1 s2 H1 H2| | | |]; subst.
      apply (in_star_cons r (String a s1) s2); [by apply IH|done].
    + intros (s1 & s2 & -> & H1 & H2)%star_cons_inv. constructor; [by apply IH|done].
Qed.

(** [match] finds a prefix of the language, and nothing else. *)
Lemma re_match_spec r s : re_match r s = true <-> exists p q, s = p +:+ q /\ r ∼ p.
Proof.
  revert r. induction s as [|a s IH]; intros r; simpl.
  - rewrite orb_false_r, nullable_spec. split.
    + intros H. by exists EmptyString, EmptyString.
    + intros (p & q & E & H). by destruct p.
  - rewrite orb_true_iff, nullable_spec, IH. split.
    + intros [H|(p & q & -> & H)]; [by exists EmptyString, (String a s)|].
      exists (String a p), q. split; [done|]. by apply deriv_spec.
    + intros (p & q & E & H). destruct p as [|b p]; [by left|right].
      injection E as -> ->. exists p, q. split; [done|]. by apply deriv_spec.
Qed.

(** ** Automation

    [re_match] of a string that starts with known characters is evaluated on
    them; what is left is a pattern and the unknown rest. *)
Lemma re_match_cons r a s :
  re_match r (String a s) = nullable r || re_match (deriv a r) s.
Proof. done. Qed.

Lemma re_match_void s : re_match Void s = false.
Proof. by induction s. Qed.

Lemma re_match_nullable r s : nullable r = true -> re_match r s = true.
Proof. intros H. destruct s; simpl; by rewrite H. Qed.

Lemma re_match_intro r p q : r ∼ p -> re_match r (p +:+ q) = true.
Proof. intros H. apply re_match_spec. eauto. Qed.

(** Matching a sequence piece by piece. *)
Lemma re_match_seq r1 r2 p q : r1 ∼ p -> re_match r2 q = true -> re_match (Seq r1 r2) (p +:+ q) = true.
Proof.
  intros Hp (q1 & q2 & -> & Hq)%re_match_spec. apply re_match_spec.
  exists (p +:+ q1), q2. split; [|by constructor].
  induction p as [|a p IH]; [done|]. change (String a (p +:+ (q1 +:+ q2)) = String a ((p +:+ q1) +:+ q2)).
  f_equal. clear. induction p as [|b p IH]; [done|].
  change (String b (p +:+ (q1 +:+ q2)) = String b ((p +:+ q1) +:+ q2)). by rewrite IH.
Qed.

Lemma in_lit s : Lit s ∼ s.
Proof.
  induction s as [|a s IH]; [constructor|].
  apply (in_seq (Lit1 a) (Lit s) (String a EmptyString) s); [|done].
  constructor. apply Ascii.eqb_refl.
Qed.

Lemma in_plus_one r s : r ∼ s -> Plus r ∼ s.
Proof.
  intros H. replace s with (s +:+ EmptyString).
  - apply in_seq; [done|constructor].
  - clear. induction s as [|a s IH]; [done|]. change (String a (s +:+ EmptyString) = String a s). by rewrite IH.
Qed.

Lemma in_plus_cons r s t : r ∼ s -> Plus r ∼ t -> Plus r ∼ (s +:+ t).
Proof.
  intros Hs Ht. apply in_seq; [done|]. inversion Ht as [| |? ? s1 s2 H1 H2| | | |]; subst.
  by constructor.
Qed.
