(* ===== verification/SyncObjCallbacks.v ===== *)
(** * What becomes of a callback

    A callback of a replicated call is in one of three places of the node: with
    its command in the queue, with the request that was forwarded to the leader,
    or with the index where its entry was appended ([held]).  [pays l m]: method
    [m], with the callbacks [l] in hand, accounts for every one of them: it calls
    it, or it holds it, or it loses it in an exception. *)
From stdpp Require Import base gmap sets list sorting.
From Stdlib Require Import ZArith QArith Lia.
From S2P Require Import Prelude PyList Serializer SyncObj SyncObjLog SyncObjMoves.
Local Open Scope Z_scope.

Section pays.
Context {A C R X F : Type} `{Countable A} `{Machine C R X} `{Codec (dump C X)}.
Context (conf : SyncObjConf).
Implicit Types s : t A C X F.
Implicit Types e : env A.
Implicit Types fx : list (effect A C R F).
Implicit Types l : list F.
Abbreviation method B := (PyM (t A C X F) (effect A C R F) B).

(** ** Where callbacks are *)
Definition local_callback (o : origin A F) : list F := match o with Local f => [f] | _ => [] end.
Definition queued (q : list (C * origin A F)) : list F := q ≫= (fun x => local_callback x.2).
Definition subscribed (m : gmap Z (list (Z * F))) : list F := map_to_list m ≫= (fun x => x.2.*2).
Definition awaiting (m : gmap Z F) : list F := (map_to_list m).*2.
Definition held s : list F :=
  queued (commandsQueue s) ++ subscribed (commandsWaitingCommit s) ++ awaiting (commandsWaitingReply s).
(** The calls among the effects. *)
Definition called fx : list F := omap (fun ef => match ef with Callback f _ _ => Some f | Send _ _ => None end) fx.

Lemma called_app fx fx' : called (fx ++ fx') = called fx ++ called fx'.
Proof. apply omap_app. Qed.

Lemma awaiting_insert m i f : m !! i = None -> awaiting (<[i := f]> m) ≡ₚ f :: awaiting m.
Proof. intros Hi. unfold awaiting. by rewrite map_to_list_insert. Qed.
Lemma awaiting_delete m i f : m !! i = Some f -> awaiting m ≡ₚ f :: awaiting (delete i m).
Proof. intros Hi. unfold awaiting. by rewrite <-(map_to_list_delete m i f Hi). Qed.
Lemma subscribed_delete m i : subscribed m ≡ₚ (default [] (m !! i)).*2 ++ subscribed (delete i m).
Proof.
  unfold subscribed. destruct (m !! i) as [xs|] eqn:Hi; [|by rewrite delete_id].
  by rewrite <-(map_to_list_delete m i xs Hi).
Qed.
Lemma subscribed_insert m i xs : subscribed (<[i := xs]> m) ≡ₚ xs.*2 ++ subscribed (delete i m).
Proof. by rewrite (subscribed_delete _ i), lookup_insert_eq, delete_insert_eq. Qed.

(** The order of the request ids changes nothing. *)
Lemma lookups_values (m : gmap Z F) : omap (fun i => m !! i) (elements (dom m)) ≡ₚ awaiting m.
Proof.
  assert (E : elements (dom m) ≡ₚ (map_to_list m).*1).
  { apply NoDup_Permutation; [apply NoDup_elements|apply NoDup_fst_map_to_list|]. intros i.
    rewrite elem_of_elements, elem_of_dom, list_elem_of_fmap. split.
    - intros [f Hf]. exists (i, f). by rewrite elem_of_map_to_list.
    - intros ([j f] & -> & Hf%elem_of_map_to_list). by exists f. }
  rewrite E. clear E. unfold awaiting.
  assert (Hin : forall i f, (i, f) ∈ map_to_list m -> m !! i = Some f) by (intros; by apply elem_of_map_to_list).
  induction (map_to_list m) as [|[i f] xs IH]; [done|]. cbn. rewrite (Hin i f) by (by left). constructor.
  apply IH. intros j g Hj. apply Hin. by right.
Qed.
Lemma replies_permutation (m : gmap Z F) : replies_in_order m ≡ₚ awaiting m.
Proof. unfold replies_in_order. by rewrite merge_sort_Permutation, lookups_values. Qed.

(** ** Accounts *)
(** Request ids in use were given out: the next one is new. *)
Definition ids_used s : Prop := forall i f, commandsWaitingReply s !! i = Some f -> i <= commandsLocalCounter s.

Definition returned {B} (r : outcome B) : Prop := exists b, r = Ret b.
Definition account {B} l s (x : t A C X F * list (effect A C R F) * outcome B) : Prop :=
  ids_used s -> ids_used (post x) /\ exists lost,
    called (effects x) ++ held (post x) ++ lost ≡ₚ l ++ held s /\ (returned (result x) -> lost = []).
Definition pays_at {B} l (m : method B) s : Prop := account l s (m s).
Definition pays {B} l (m : method B) : Prop := forall s, pays_at l m s.

Lemma pays_perm {B} l l' (m : method B) s : l ≡ₚ l' -> pays_at l m s -> pays_at l' m s.
Proof. intros Hl Hm Hi. destruct (Hm Hi) as (? & lost & E & ?). split; [done|]. exists lost. by rewrite <-Hl. Qed.

Lemma pays_bind {B D} l l' (c : method B) (k : B -> method D) s :
  pays_at l c s -> (forall b, result (c s) = Ret b -> pays_at l' (k b) (post (c s))) -> pays_at (l ++ l') (py_bind c k) s.
Proof.
  unfold pays_at, account, py_bind, post, effects, result. destruct (c s) as [[s1 fx] [b|er]]; simpl; intros Hc Hk Hi.
  - destruct (Hc Hi) as (Hi1 & lost & E & Hl). specialize (Hk b eq_refl Hi1). rewrite Hl in E by by exists b.
    destruct (k b s1) as [[s2 fx'] r]. simpl in *. destruct Hk as (Hi2 & lost' & E' & Hl'). split; [done|].
    exists lost'. split; [|done]. rewrite called_app. trans (called fx ++ (called fx' ++ held s2 ++ lost')); [solve_Permutation|].
    rewrite E'. trans (l' ++ (called fx ++ held s1 ++ [])); [solve_Permutation|]. rewrite E. solve_Permutation.
  - destruct (Hc Hi) as (Hi1 & lost & E & _). split; [done|]. exists (lost ++ l'). split; [|by intros [b ?]].
    trans (l' ++ (called fx ++ held s1 ++ lost)); [solve_Permutation|]. rewrite E. solve_Permutation.
Qed.

(** Methods that hold what they held. *)
Definition same_held s s' : Prop :=
  held s' = held s /\ commandsWaitingReply s' = commandsWaitingReply s /\ commandsLocalCounter s' = commandsLocalCounter s.
Lemma account_quiet {B} s (x : t A C X F * list (effect A C R F) * outcome B) :
  same_held s (post x) -> called (effects x) = [] -> account [] s x.
Proof.
  intros (Eh & Er & Ec) El Hi. split; [intros i f; rewrite Er, Ec; apply Hi|]. exists []. rewrite El, Eh. by rewrite app_nil_r.
Qed.
Lemma pays_quiet {B} (m : method B) : (forall s, same_held s (post (m s)) /\ called (effects (m s)) = []) -> pays [] m.
Proof. intros Hm s. by apply account_quiet; apply Hm. Qed.
Lemma pays_return {B} (b : B) : pays [] (py_return b).
Proof. by apply pays_quiet. Qed.
Lemma pays_get {B} (f : t A C X F -> B) : pays [] (py_get f).
Proof. by apply pays_quiet. Qed.
Lemma pays_send to m : pays [] (send to m).
Proof. by apply pays_quiet. Qed.
Lemma pays_on_log {B} (f : list (entry C) -> outcome B) : pays [] (on_log f).
Proof. by apply pays_quiet. Qed.
Lemma pays_set f : (forall s, same_held s (f s)) -> pays [] (py_set f).
Proof. intros Hf. by apply pays_quiet. Qed.
Lemma pays_call {B} (f : t A C X F -> t A C X F * outcome B) : (forall s, same_held s (f s).1) -> pays [] (py_call f).
Proof. intros Hf. apply pays_quiet. intros s. specialize (Hf s). unfold py_call. by destruct (f s). Qed.
(** An exception loses what is in hand. *)
Lemma pays_raise {B} l er : pays l (py_raise (A := B) er).
Proof. intros s Hi. split; [done|]. exists l. split; [cbn; solve_Permutation|]. by intros [b ?]. Qed.
(** A call spends the callback. *)
Lemma pays_emit f r er : pays [f] (py_emit [Callback f r er]).
Proof. intros s Hi. split; [done|]. exists []. split; [cbn; by rewrite app_nil_r|done]. Qed.

Lemma pays_seq {B D} l (c : method B) (k : B -> method D) : pays [] c -> (forall b, pays l (k b)) -> pays l (py_bind c k).
Proof. intros Hc Hk s. by apply (pays_bind [] l); [apply Hc|intros b _; apply Hk]. Qed.
Lemma pays_last {B D} l (c : method B) (k : B -> method D) : pays l c -> (forall b, pays [] (k b)) -> pays l (py_bind c k).
Proof. intros Hc Hk s. rewrite <-(app_nil_r l). by apply pays_bind; [apply Hc|intros b _; apply Hk]. Qed.
Lemma pays_at_get {B D} l (f : t A C X F -> B) (k : B -> method D) s : pays_at l (k (f s)) s -> pays_at l (py_bind (py_get f) k) s.
Proof. intros Hk. apply (pays_bind [] l); [apply pays_get|]. by intros b [= <-]. Qed.
(** An assignment that takes callbacks out of their place. *)
Lemma pays_take {D} l l' g (k : unit -> method D) s :
  held s ≡ₚ l' ++ held (g s) -> (ids_used s -> ids_used (g s)) -> pays_at (l' ++ l) (k tt) (g s) ->
  pays_at l (py_bind (py_set g) k) s.
Proof.
  intros Hh Hg Hk Hi. destruct (Hk (Hg Hi)) as (Hi' & lost & E & Hl). rewrite bind_set. split; [done|]. exists lost.
  split; [|done]. rewrite E, Hh. solve_Permutation.
Qed.
(** An assignment that puts callbacks away. *)
Lemma pays_put l g s : (ids_used s -> held (g s) ≡ₚ l ++ held s /\ ids_used (g s)) -> pays_at l (py_set g) s.
Proof. intros Hg Hi. destruct (Hg Hi) as [Hh Hi']. split; [done|]. exists []. split; [|done]. cbn. by rewrite app_nil_r. Qed.

(** The callbacks in hand are put away first. *)
Lemma account_put {B} l s s1 (m : method B) :
  (ids_used s -> held s1 ≡ₚ l ++ held s /\ ids_used s1) -> pays_at [] m s1 -> account l s (m s1).
Proof. intros Hs Hm Hi. destruct (Hs Hi) as [Hh Hi1]. destruct (Hm Hi1) as (? & lost & E & ?). split; [done|]. exists lost. by rewrite E, <-Hh. Qed.

Lemma pays_for_each {B} (xs : list B) (body : B -> method unit) (owed : B -> list F) :
  (forall x, pays (owed x) (body x)) -> pays (xs ≫= owed) (for_each xs body).
Proof.
  intros Hb. induction xs as [|x xs IH]; simpl; [apply pays_return|]. intros s. apply pays_bind; [apply Hb|]. intros _ _. apply IH.
Qed.
Lemma pays_each {B} (xs : list B) (body : B -> method unit) : (forall x, pays [] (body x)) -> pays [] (for_each xs body).
Proof.
  intros Hb. assert (E : xs ≫= (fun _ => []) = @nil F) by (by induction xs). rewrite <-E. by apply pays_for_each.
Qed.
End pays.

Create HintDb pays.
#[export] Hint Resolve pays_return pays_get pays_send pays_on_log pays_each : pays.
Ltac pays_step :=
  match goal with
  | |- pays _ (py_return _) => apply pays_return
  | |- pays _ (py_raise _) => apply pays_raise
  | |- pays _ (py_get _) => apply pays_get
  | |- pays _ (py_set _) => apply pays_set; intros ?; try done
  | |- pays _ (py_call _) => apply pays_call; intros ?; try done
  | |- pays _ (py_bind _ _) => apply pays_seq; [|intros ?]
  | |- pays _ (match ?x with _ => _ end) => destruct x
  | |- pays _ _ => solve [eauto with pays]
  end.
Ltac pays_auto := repeat pays_step.
(** In this state as in any. *)
Ltac anywhere := match goal with |- pays_at ?l ?m ?x => apply (fun Hm : pays l m => Hm x) end.

#[global] Arguments queued {A C F} q : simpl never.
#[global] Arguments subscribed {F} m : simpl never.
#[global] Arguments awaiting {F} m : simpl never.

Section methods.
Context {A C R X F : Type} `{Countable A} `{Machine C R X} `{Codec (dump C X)}.
Context (conf : SyncObjConf).
Implicit Types s : t A C X F.
Implicit Types e : env A.
Abbreviation method B := (PyM (t A C X F) (effect A C R F) B).
Abbreviation owes l m := (pays (A := A) (C := C) (R := R) (X := X) (F := F) l m).
Abbreviation settles m := (owes [] m).

(** ** The log and the messages *)
Lemma getEntries_pays i c : settles (getEntries i c).
Proof. apply pays_on_log. Qed.
Lemma getCurrentLogIndex_pays : settles getCurrentLogIndex.
Proof. apply pays_on_log. Qed.
Lemma getCurrentLogTerm_pays : settles getCurrentLogTerm.
Proof. apply pays_on_log. Qed.
#[local] Hint Resolve getEntries_pays getCurrentLogIndex_pays getCurrentLogTerm_pays : pays.
Lemma send_to_pays n m : settles (send_to n m).
Proof. unfold send_to. pays_auto. Qed.
#[local] Hint Resolve send_to_pays : pays.
Lemma deleteEntriesFrom_pays i : settles (deleteEntriesFrom i).
Proof. unfold deleteEntriesFrom. pays_auto. Qed.
Lemma deleteEntriesTo_pays i : settles (deleteEntriesTo i).
Proof. unfold deleteEntriesTo. pays_auto. Qed.
Lemma getPrev_pays i : settles (getPrevLogIndexTerm i).
Proof. unfold getPrevLogIndexTerm. pays_auto. Qed.
Lemma sendNextNodeIdx_pays n b : settles (sendNextNodeIdx n b).
Proof. unfold sendNextNodeIdx. pays_auto. Qed.
#[local] Hint Resolve deleteEntriesFrom_pays deleteEntriesTo_pays getPrev_pays sendNextNodeIdx_pays : pays.
Lemma send_round_pays e n next b : settles (send_round conf e n next b).
Proof.
  unfold send_round. pays_auto.
  match goal with |- context [Serializer.getTransmissionData ?a ?b ?c ?d] =>
    by destruct (Serializer.getTransmissionData a b c d) end.
Qed.
#[local] Hint Resolve send_round_pays : pays.
Lemma send_rounds_pays e n quota b1 b2 : settles (send_rounds conf e n quota b1 b2).
Proof. revert b1 b2. induction quota as [|quota IH]; intros b1 b2; simpl; pays_auto. Qed.
#[local] Hint Resolve send_rounds_pays : pays.
Lemma send_nodes_pays e quota ns : settles (send_nodes conf e quota ns).
Proof. revert quota. induction ns as [|n ns IH]; intros quota; simpl; pays_auto. Qed.
#[local] Hint Resolve send_nodes_pays : pays.
Lemma sendAppendEntries_pays e : settles (sendAppendEntries conf e).
Proof. unfold sendAppendEntries. pays_auto. Qed.
#[local] Hint Resolve sendAppendEntries_pays : pays.
Lemma onBecomeLeader_pays e : settles (onBecomeLeader conf e).
Proof. unfold onBecomeLeader. pays_auto. apply pays_each. intros n. pays_auto. Qed.
Lemma commit_loop_pays fuel : settles (commit_loop fuel).
Proof. induction fuel; simpl; pays_auto. Qed.
#[local] Hint Resolve onBecomeLeader_pays commit_loop_pays : pays.
Lemma tick_leader_pays e : settles (tick_leader conf e).
Proof. unfold tick_leader. pays_auto. Qed.
Lemma loadDumpFile_pays : settles loadDumpFile.
Proof. unfold loadDumpFile. pays_auto. Qed.
Lemma tryLogCompaction_pays e : settles (tryLogCompaction conf e).
Proof.
  unfold tryLogCompaction, compaction_done, compaction_starts. pays_auto. by destruct (Serializer.checkSerializing _ _).
Qed.
#[local] Hint Resolve tick_leader_pays loadDumpFile_pays tryLogCompaction_pays : pays.

(** ** The callbacks *)
Lemma onLeaderChanged_pays : settles onLeaderChanged.
Proof.
  intros s Hi. rewrite onLeaderChanged_eq. split; [by intros i f Hf; cbn in Hf; rewrite lookup_empty in Hf|]. exists []. split; [|done].
  unfold post, effects, called, held. cbn -[replies_in_order]. rewrite <-(replies_permutation (commandsWaitingReply s)).
  assert (E : forall xs : list F, omap (fun ef : effect A C R F => match ef with Callback f _ _ => Some f | Send _ _ => None end)
    ((fun cb => Callback cb None LEADER_CHANGED) <$> xs) = xs) by (induction xs as [|x xs IH]; cbn; congruence).
  change (awaiting ∅) with (@nil F). rewrite ?E. solve_Permutation.
Qed.
#[local] Hint Resolve onLeaderChanged_pays : pays.
Lemma tick_election_pays e : settles (tick_election conf e).
Proof. unfold tick_election. pays_auto. apply pays_each. intros n. pays_auto. Qed.

Lemma call_back_pays o er : owes (local_callback o) (call_back o er).
Proof. destruct o; cbn; [apply pays_raise|apply pays_emit|apply pays_raise]. Qed.

Lemma queued_app q c (o : origin A F) : queued (q ++ [(c, o)]) = queued (C := C) q ++ local_callback o.
Proof. unfold queued. rewrite bind_app. cbn. by rewrite app_nil_r. Qed.
Lemma applyCommand_pays c o : owes (local_callback o) (applyCommand conf c o).
Proof.
  intros s. apply pays_at_get. destruct (queue_full _ _); [apply call_back_pays|]. apply pays_put. intros Hi.
  split; [|done]. unfold held. cbn. rewrite queued_app. solve_Permutation.
Qed.
Lemma subscribe_commit_pays i trm f : owes [f] (subscribe_commit i (trm, f)).
Proof.
  intros s. apply pays_put. intros Hi. split; [|done]. unfold held. cbn.
  rewrite subscribed_insert, (subscribed_delete (commandsWaitingCommit s) i), fmap_app. cbn. solve_Permutation.
Qed.
#[local] Hint Resolve tick_election_pays : pays.

Lemma process_command_pays e c o : owes (local_callback o) (process_command conf e c o).
Proof.
  intros s. unfold process_command. apply pays_at_get. unfold id.
  assert (Hleader : forall leader, pays_at (A := A) (C := C) (R := R) (X := X) (F := F) (local_callback o) (match o with
      | NoCallback => send_to leader (apply_command c None)
      | Local f => py_set (set_commandsLocalCounter (commandsLocalCounter s + 1)) ;;!
          py_set (fun s' => set_commandsWaitingReply (<[commandsLocalCounter s + 1 := f]> (commandsWaitingReply s')) s') ;;!
          send_to leader (apply_command c (Some (commandsLocalCounter s + 1)))
      | Remote n rid => send_to n (apply_command_error rid NOT_LEADER)
      end) s).
  { intros leader. destruct o as [|f|n rid]; [apply send_to_pays| |apply send_to_pays].
    unfold pays_at. rewrite !bind_set. apply account_put; [|apply send_to_pays]. intros Hi. split.
    - unfold held. cbn. rewrite awaiting_insert; [solve_Permutation|].
      destruct (commandsWaitingReply s !! _) as [g|] eqn:E; [apply Hi in E; lia|done].
    - intros i g. cbn. destruct (decide (i = commandsLocalCounter s + 1)) as [->|Hne]; [intros _; lia|].
      rewrite lookup_insert_ne by done. intros Hg%Hi. lia. }
  assert (Hnone : pays_at (A := A) (C := C) (R := R) (X := X) (F := F) (local_callback o) (match o with
      | Remote n rid => send_to n (apply_command_error rid NOT_LEADER)
      | _ => call_back o MISSING_LEADER
      end) s) by (destruct o; [apply call_back_pays|apply call_back_pays|apply send_to_pays]).
  destruct (raftState s); [by destruct (raftLeader s)..|]. anywhere.
  apply pays_seq; [apply pays_on_log|intros cur]. apply pays_seq; [by apply pays_set|intros _]. apply pays_last; [|intros _; pays_auto].
  destruct o; [apply pays_return|apply subscribe_commit_pays|apply send_to_pays].
Qed.
Lemma checkCommands_pays e i : settles (checkCommands conf e i).
Proof.
  induction i as [|i IH]; [apply pays_return|]. intros s. cbn. apply pays_at_get. unfold id. destruct (_ && _); [by apply pays_return|].
  destruct (commandsQueue s) as [|[c o] q] eqn:Eq; [by apply pays_return|].
  apply (pays_take [] (local_callback o)); [|done|].
  - unfold held. rewrite Eq. cbn. solve_Permutation.
  - rewrite app_nil_r. apply pays_last; [apply process_command_pays|done].
Qed.

(** Who waits for an entry. *)
Lemma pop_subscribers s i :
  held s ≡ₚ (default [] (commandsWaitingCommit s !! i)).*2 ++
    held (set_commandsWaitingCommit (delete i (commandsWaitingCommit s)) s).
Proof. unfold held. cbn. rewrite (subscribed_delete (commandsWaitingCommit s) i). solve_Permutation. Qed.
Lemma apply_entry_pays en : settles (apply_entry en).
Proof.
  intros s. unfold apply_entry. apply pays_at_get. apply (pays_take [] (default [] (commandsWaitingCommit s !! logID en)).*2);
    [apply pop_subscribers|done|]. rewrite app_nil_r. generalize (default [] (commandsWaitingCommit s !! logID en)). intros subs.
  anywhere. unfold doApplyCommand. destruct (command en) as [c|].
  - apply pays_seq; [|intros r]; [pays_auto; by destruct (doApply _ _)|]. apply pays_last; [|intros _; by apply pays_set].
    assert (E : subs.*2 = subs ≫= (fun x => [x.2])) by (induction subs as [|x subs IH]; cbn; congruence).
    rewrite E. apply pays_for_each. intros x. destruct (_ =? _); apply pays_emit.
  - intros s1 Hi. split; [done|]. exists subs.*2. split; [cbn; solve_Permutation|by intros [b ?]].
Qed.
Lemma tick_apply_pays : settles tick_apply.
Proof. pose proof apply_entry_pays. unfold tick_apply. pays_auto. Qed.
#[local] Hint Resolve tick_apply_pays checkCommands_pays : pays.
Lemma onTick_pays e : settles (onTick conf e).
Proof. unfold onTick. pays_auto. Qed.

(** ** Messages *)
Lemma accept_leader_pays e n trm : settles (accept_leader conf e n trm).
Proof. unfold accept_leader. pays_auto. Qed.
Lemma store_entries_pays n es prev ptrm : settles (store_entries n es prev ptrm).
Proof. unfold store_entries. pays_auto. Qed.
Lemma follow_commit_pays i : settles (follow_commit i).
Proof. unfold follow_commit. pays_auto. Qed.
#[local] Hint Resolve accept_leader_pays store_entries_pays follow_commit_pays : pays.
Lemma on_append_serialized_pays e n trm ci ch : settles (on_append_serialized conf e n trm ci ch).
Proof.
  unfold on_append_serialized. pays_auto.
  match goal with |- context [Serializer.setTransmissionData ?a ?b ?c ?d ?z] =>
    by destruct (Serializer.setTransmissionData a b c d z) end.
Qed.

Lemma ids_used_delete s i : ids_used s -> ids_used (set_commandsWaitingReply (delete i (commandsWaitingReply s)) s).
Proof. intros Hi j g Hj. cbn in *. apply lookup_delete_Some in Hj as [_ Hj]. by apply Hi in Hj. Qed.
(** The answer to a forwarded command: its callback is taken out and passed on. *)
Lemma pop_reply_pays {B} i (k : option F -> method B) :
  (forall f, owes [f] (k (Some f))) -> settles (k None) -> settles (py_bind (pop_reply i) k).
Proof.
  intros Hf Hn s. unfold pop_reply, pays_at.
  assert (E : py_bind (let! cb := py_get (fun s => commandsWaitingReply s !! i) in
      py_set (fun s => set_commandsWaitingReply (delete i (commandsWaitingReply s)) s) ;;! py_return cb) k s =
    py_bind (py_set (fun s => set_commandsWaitingReply (delete i (commandsWaitingReply s)) s))
      (fun _ => k (commandsWaitingReply s !! i)) s :> _ * list (effect A C R F) * _).
  { unfold py_bind, py_get, py_set, py_return. cbn. by destruct (k _ _) as [[s' fx] r]. }
  rewrite E. clear E. destruct (commandsWaitingReply s !! i) as [f|] eqn:Ei.
  - apply (pays_take [] [f]); [| |apply Hf].
    + unfold held. cbn. rewrite (awaiting_delete _ _ _ Ei). solve_Permutation.
    + apply ids_used_delete.
  - apply (pays_take [] []); [by unfold held; cbn; rewrite delete_id|apply ids_used_delete|apply Hn].
Qed.

Lemma onMessageReceived_pays e n m : settles (onMessageReceived conf e n m).
Proof.
  destruct m as [trm i l|trm|trm ci es prev ptrm|trm ci ch|c [rid|]|rid er|rid i trm|i b]; simpl.
  - unfold on_request_vote. pays_auto.
  - pays_auto.
  - unfold on_append_entries. pays_auto.
  - apply on_append_serialized_pays.
  - apply (applyCommand_pays c (Remote n rid)).
  - apply (applyCommand_pays c NoCallback).
  - apply pop_reply_pays; [intros f; apply pays_emit|apply pays_return].
  - apply pop_reply_pays; [|apply pays_return]. intros f. apply pays_seq; [apply pays_get|intros applied].
    destruct (_ <? _); [apply subscribe_commit_pays|apply pays_raise].
  - pays_auto.
Qed.

(** ** The life of a node *)
Inductive event : Type :=
| Ticks (e : env A)
| Receives (e : env A) (n : A) (m : message C)
| Applies (c : C) (callback : origin A F).
Definition handle (ev : event) : method unit :=
  match ev with
  | Ticks e => onTick conf e
  | Receives e n m => onMessageReceived conf e n m
  | Applies c callback => applyCommand conf c callback
  end.
(** The events one after the other: the last state, what they did, and whether
    one of them raised an exception (the next is handled all the same). *)
Fixpoint life (evs : list event) s : t A C X F * list (effect A C R F) * bool :=
  match evs with
  | [] => (s, [], false)
  | ev :: evs =>
      let x := handle ev s in
      let '(s', fx, b) := life evs (post x) in
      (s', effects x ++ fx, match result x with Ret _ => b | Raise _ => true end)
  end.
(** The callbacks that the application handed in. *)
Definition submitted (evs : list event) : list F :=
  evs ≫= (fun ev => match ev with Applies _ callback => local_callback callback | _ => [] end).

Lemma handle_pays ev : owes (submitted [ev]) (handle ev).
Proof.
  destruct ev as [e|e n m|c o]; cbn; [apply onTick_pays|apply onMessageReceived_pays|]. rewrite app_nil_r. apply applyCommand_pays.
Qed.

Lemma ids_used_init self others x file e : ids_used (init conf self others x file e : t A C X F).
Proof. intros i f Hf. exfalso. exact (lookup_empty_Some i f Hf). Qed.

Lemma life_accounts evs s s' fx b : ids_used s -> life evs s = (s', fx, b) ->
  exists lost, called fx ++ held s' ++ lost ≡ₚ submitted evs ++ held s /\ (b = false -> lost = []).
Proof.
  revert s s' fx b. induction evs as [|ev evs IH]; intros s s' fx b Hi; cbn [life].
  { intros [= <- <- <-]. exists []. by rewrite app_nil_r. }
  destruct (handle_pays ev s Hi) as (Hi1 & lost & E & Hl). destruct (life evs (post (handle ev s))) as [[s2 fx2] b2] eqn:E2.
  intros [= <- <- <-]. destruct (IH _ _ _ _ Hi1 E2) as (lost2 & E' & Hl2). exists (lost ++ lost2). split.
  - rewrite called_app. trans (called (effects (handle ev s)) ++ (called fx2 ++ held s2 ++ lost2) ++ lost); [solve_Permutation|].
    rewrite E'. trans (submitted evs ++ (called (effects (handle ev s)) ++ held (post (handle ev s)) ++ lost)); [solve_Permutation|].
    rewrite E. unfold submitted. cbn. rewrite app_nil_r. solve_Permutation.
  - destruct (result (handle ev s)) as [[]|]; [|done]. intros Hb. by rewrite Hl by (by exists tt); rewrite Hl2.
Qed.

(** C11: callbacks are conserved: of the callbacks that were handed to a node, in
    whatever order it ticks, receives messages (lost, repeated, made up) and is
    handed commands, each one has been called once, or is held once for a later
    call, or went down with an exception; without an exception none is lost.  In
    particular none is called twice. *)
Theorem callbacks_conserved self others x file e evs s fx b :
  life evs (init conf self others x file e) = (s, fx, b) ->
  exists lost, submitted evs ≡ₚ called fx ++ held s ++ lost /\ (b = false -> lost = []).
Proof.
  intros E. destruct (life_accounts _ _ _ _ _ (ids_used_init self others x file e) E) as (lost & E' & Hl).
  exists lost. split; [|done]. rewrite E'. change (held _) with (@nil F). by rewrite app_nil_r.
Qed.
End methods.
