(* ===== verification/SyncObjResults.v ===== *)
(** * What a caller is answered

    A callback is handed in with its command ([command_of]).  The command waits
    in the queue, travels to the leader under a request id, becomes an entry
    of the log; the callback waits under the id, then under the entry's index and
    term ([promises]).  In the runs of SyncObjMatching.v index and term name one
    entry, so who is answered with SUCCESS gets the result of its own command. *)
From stdpp Require Import base gmap sets list strings relations.
From Stdlib Require Import ZArith QArith Lia.
From S2P Require Import Prelude PyList PyExcept Serializer SyncObj SyncObjLog SyncObjMoves SyncObjTheorems SyncObjSends SyncObjWorks.
From S2P Require Import SyncObjLeader SyncObjCluster SyncObjMatching SyncObjAgreement SyncObjCallbacks.
Local Open Scope Z_scope.

Section tacit.
Context {A C R X F : Type} `{Countable A} `{Machine C R X} `{Codec (dump C X)}.
Context (conf : SyncObjConf).
Implicit Types s : t A C X F.
Implicit Types e : env A.
Implicit Types fx : list (effect A C R F).

(** ** Methods that promise nothing *)
Definition subscribers s (i : Z) : list (Z * F) := default [] (commandsWaitingCommit s !! i).
Definition promising (m : message C) : bool :=
  match m with apply_command _ (Some _) | apply_command_response _ _ _ => true | _ => false end.
Definition answerless fx : Prop := forall f r er, Callback f r er ∈ fx -> r = None.

(** Nothing is promised, and with [b] nobody is answered with a result. *)
Record tacit (b : bool) s fx s' : Prop := {
  tacit_queue : commandsQueue s' = commandsQueue s;
  tacit_counter : commandsLocalCounter s' = commandsLocalCounter s;
  tacit_reply rid f : commandsWaitingReply s' !! rid = Some f -> commandsWaitingReply s !! rid = Some f;
  tacit_subs i x : x ∈ subscribers s' i -> x ∈ subscribers s i;
  tacit_sends to m : Send to m ∈ fx -> promising m = false;
  tacit_answers : b = true -> answerless fx;
}.

#[export] Instance tacit_trace b : TraceOrder (tacit b).
Proof.
  split.
  - intros s. split; try done; [by intros to m ?%elem_of_nil|by intros _ f r er ?%elem_of_nil].
  - intros s es s' es' s'' T T'. destruct T as [Q1 C1 R1 S1 M1 A1], T' as [Q2 C2 R2 S2 M2 A2].
    split; [congruence|congruence|auto|auto|intros to m [?|?]%elem_of_app; eauto|].
    intros Hb f r er [?|?]%elem_of_app; [by eapply A1|by eapply A2].
Qed.

Lemma tacit_quiet b s s' : commandsQueue s' = commandsQueue s -> commandsLocalCounter s' = commandsLocalCounter s ->
  commandsWaitingReply s' = commandsWaitingReply s -> commandsWaitingCommit s' = commandsWaitingCommit s ->
  tacit b s [] s'.
Proof.
  intros Hq Hc Hr Hs. split; [done|done|by rewrite Hr|unfold subscribers; by rewrite Hs|by intros to m ?%elem_of_nil|].
  by intros _ f r er ?%elem_of_nil.
Qed.
Lemma tacit_send b to m s : promising m = false -> tacit b s [Send to m] s.
Proof.
  intros Hm. split; try done; [intros to' m' Hin|intros _ f r er Hin];
    apply list_elem_of_singleton in Hin; [by simplify_eq|done].
Qed.
Lemma tacit_refuse b f er s : tacit b s [Callback f None er] s.
Proof.
  split; try done; [intros to' m' Hin|intros _ f' r' er' Hin]; apply list_elem_of_singleton in Hin; [done|by simplify_eq].
Qed.
Lemma tacit_answer f r er s : tacit false s [Callback f r er] s.
Proof. split; try done. intros to' m' Hin. by apply list_elem_of_singleton in Hin. Qed.

Abbreviation shy b m := (does (E := effect A C R F) (tacit b) m).
Lemma shy_weaken {B} b (m : PyM (t A C X F) (effect A C R F) B) : shy true m -> shy b m.
Proof. intros Hm s. destruct (Hm s) as [Q1 C1 R1 S1 M1 A1]. split; try done. intros _. by apply A1. Qed.

Ltac hush :=
  try match goal with
  | |- tacit _ _ [] _ => by apply tacit_quiet
  | |- tacit _ _ [Send _ _] _ => by apply tacit_send
  | |- tacit _ _ [Callback _ None _] _ => apply tacit_refuse
  end.
Lemma on_log_shy {B} b (f : list (entry C) -> outcome B) : shy b (on_log f).
Proof. apply does_update. intros s. hush. Qed.
Lemma getEntries_shy b i c : shy b (getEntries i c).
Proof. apply on_log_shy. Qed.
Lemma getCurrentLogIndex_shy b : shy b getCurrentLogIndex.
Proof. apply on_log_shy. Qed.
Lemma getCurrentLogTerm_shy b : shy b getCurrentLogTerm.
Proof. apply on_log_shy. Qed.
#[local] Hint Resolve on_log_shy getEntries_shy getCurrentLogIndex_shy getCurrentLogTerm_shy : does.
Lemma send_shy b n m : promising m = false -> shy b (send n m).
Proof. intros Hm. apply does_output. intros s. by apply tacit_send. Qed.
Lemma send_to_shy b n m : promising m = false -> shy b (send_to n m).
Proof. intros Hm. pose proof (send_shy b n m Hm). unfold send_to. does_auto. Qed.
Lemma each_shy {B} b (l : list B) (body : B -> PyM (t A C X F) (effect A C R F) unit) :
  (forall x, shy b (body x)) -> shy b (for_each l body).
Proof. intros Hb. apply for_each_does; [typeclasses eauto|auto]. Qed.
Lemma deleteEntriesFrom_shy b i : shy b (deleteEntriesFrom i).
Proof. unfold deleteEntriesFrom. does_auto. hush. Qed.
Lemma deleteEntriesTo_shy b i : shy b (deleteEntriesTo i).
Proof. unfold deleteEntriesTo. does_auto. hush. Qed.
Lemma getPrev_shy b i : shy b (getPrevLogIndexTerm i).
Proof. unfold getPrevLogIndexTerm. does_auto. Qed.
Lemma sendNextNodeIdx_shy b n r : shy b (sendNextNodeIdx n r).
Proof. unfold sendNextNodeIdx. apply does_seq; [typeclasses eauto|auto with does|]. intros i. by apply send_to_shy. Qed.
#[local] Hint Resolve send_to_shy deleteEntriesFrom_shy deleteEntriesTo_shy getPrev_shy sendNextNodeIdx_shy : does.
Lemma send_round_shy b e n next x : shy b (send_round conf e n next x).
Proof.
  unfold send_round, send. does_auto; hush.
  match goal with |- context [Serializer.getTransmissionData ?a ?b ?c ?d] =>
    destruct (Serializer.getTransmissionData a b c d) end. hush.
Qed.
#[local] Hint Resolve send_round_shy : does.
Lemma send_rounds_shy b e n quota b1 b2 : shy b (send_rounds conf e n quota b1 b2).
Proof. revert b1 b2. induction quota as [|quota IH]; intros b1 b2; simpl; does_auto. Qed.
#[local] Hint Resolve send_rounds_shy : does.
Lemma send_nodes_shy b e quota ns : shy b (send_nodes conf e quota ns).
Proof. revert quota. induction ns as [|n ns IH]; intros quota; simpl; does_auto; hush. Qed.
#[local] Hint Resolve send_nodes_shy : does.
Lemma sendAppendEntries_shy b e : shy b (sendAppendEntries conf e).
Proof. unfold sendAppendEntries. does_auto. hush. Qed.
#[local] Hint Resolve sendAppendEntries_shy : does.
Lemma onBecomeLeader_shy b e : shy b (onBecomeLeader conf e).
Proof. unfold onBecomeLeader. does_auto; hush. apply each_shy. intros n. does_auto; hush. Qed.
Lemma commit_loop_shy b fuel : shy b (commit_loop fuel).
Proof. induction fuel; simpl; does_auto; hush. Qed.
#[local] Hint Resolve onBecomeLeader_shy commit_loop_shy : does.
Lemma tick_leader_shy b e : shy b (tick_leader conf e).
Proof. unfold tick_leader. does_auto. Qed.
Lemma tryLogCompaction_shy b e : shy b (tryLogCompaction conf e).
Proof.
  unfold tryLogCompaction, compaction_done, compaction_starts. does_auto; hush.
  destruct (Serializer.checkSerializing _ _). hush.
Qed.

(** ** Callbacks without a result *)
Lemma onLeaderChanged_shy b : shy b onLeaderChanged.
Proof.
  intros s. unfold does_at. rewrite onLeaderChanged_eq. split; try done.
  - by intros to m (f & ? & _)%list_elem_of_fmap.
  - by intros _ f r er (g & [= -> -> ->] & _)%list_elem_of_fmap.
Qed.
Lemma call_back_shy b o er : shy b (call_back o er).
Proof. unfold call_back. does_auto. hush. Qed.
Lemma pop_reply_shy b i : shy b (pop_reply i).
Proof.
  unfold pop_reply. does_auto. split; try done.
  - intros rid f Hf. cbn in Hf. by apply lookup_delete_Some in Hf as [_ Hf].
  - by intros to m ?%elem_of_nil.
  - by intros _ f r er ?%elem_of_nil.
Qed.
#[local] Hint Resolve onLeaderChanged_shy : does.
Lemma tick_election_shy b e : shy b (tick_election conf e).
Proof. unfold tick_election. does_auto; hush. apply each_shy. intros n. unfold send. does_auto; hush. Qed.
Lemma accept_leader_shy b e n trm : shy b (accept_leader conf e n trm).
Proof. unfold accept_leader. does_auto; hush. Qed.
Lemma on_append_entries_shy b e n trm ci es prev ptrm : shy b (on_append_entries conf e n trm ci es prev ptrm).
Proof. pose proof (accept_leader_shy b). unfold on_append_entries, store_entries, follow_commit. does_auto; hush. Qed.
Lemma on_request_vote_shy b e n trm i l : shy b (on_request_vote conf e n trm i l).
Proof. unfold on_request_vote. does_auto; hush. Qed.

(** Applying forgets the subscribers, and answers them. *)
Lemma forget_tacit b s i : tacit b s [] (set_commandsWaitingCommit (delete i (commandsWaitingCommit s)) s).
Proof.
  split; try done.
  - intros j x. unfold subscribers. cbn. destruct (decide (i = j)) as [->|]; [rewrite lookup_delete_eq; by intros ?%elem_of_nil|by rewrite lookup_delete_ne].
  - by intros to m ?%elem_of_nil.
  - by intros _ f r er ?%elem_of_nil.
Qed.
Lemma apply_entry_shy en : shy false (apply_entry en).
Proof.
  unfold apply_entry, doApplyCommand. does_auto; try apply forget_tacit; hush.
  - destruct (doApply _ _). hush.
  - apply each_shy. intros x. destruct (_ =? _); apply does_output; intros s; apply tacit_answer.
Qed.
Lemma tick_apply_shy : shy false tick_apply.
Proof. pose proof apply_entry_shy. unfold tick_apply. does_auto. by apply each_shy. Qed.
End tacit.

(** ** Who is answered with a result *)
Section answers.
Context {A C R X F : Type} `{Countable A} `{Machine C R X} `{Codec (dump C X)}.
Context (conf : SyncObjConf).
Implicit Types s : t A C X F.
Implicit Types e : env A.
Implicit Types fx : list (effect A C R F).
Abbreviation method B := (PyM (t A C X F) (effect A C R F) B).

Definition mute s fx s' : Prop := answerless fx.
#[export] Instance mute_trace : TraceOrder mute.
Proof.
  split; [by intros s f r er ?%elem_of_nil|]. intros s es s' es' s'' Q1 Q2 f r er [?|?]%elem_of_app; [by eapply Q1|by eapply Q2].
Qed.
Lemma shy_mute {B} (m : method B) : does (tacit true) m -> does mute m.
Proof. intros Hm s. by apply (Hm s). Qed.
Lemma mute_send n m s : mute s [Send n m] s.
Proof. intros f r er Hin. by apply list_elem_of_singleton in Hin. Qed.
Lemma mute_nil s s' : mute s [] s'.
Proof. by intros f r er ?%elem_of_nil. Qed.
#[local] Hint Resolve mute_send mute_nil : does.
Lemma send_to_mute n m : does mute (send_to n m).
Proof. unfold send_to, send. does_auto; auto with does. Qed.
Lemma call_back_mute o er : does mute (call_back o er).
Proof. apply shy_mute, call_back_shy. Qed.
#[local] Hint Resolve send_to_mute call_back_mute : does.
Lemma applyCommand_mute c o : does mute (applyCommand conf c o).
Proof. unfold applyCommand. does_auto; auto with does. Qed.
Lemma subscribe_mute i x : does mute (subscribe_commit i x).
Proof. apply does_set. intros s. apply mute_nil. Qed.
#[local] Hint Resolve subscribe_mute applyCommand_mute : does.
Lemma checkCommands_mute e i : does mute (checkCommands conf e i).
Proof.
  pose proof (shy_mute _ (sendAppendEntries_shy (R := R) (X := X) (F := F) (C := C) conf true e)).
  pose proof (shy_mute _ (getCurrentLogIndex_shy (R := R) (X := X) (F := F) (C := C) (A := A) true)).
  induction i as [|i IH]; simpl; unfold process_command; does_auto; auto with does.
Qed.
Lemma onMessageReceived_mute e n m : (forall trm ci c, m <> append_serialized trm ci c) -> does mute (onMessageReceived conf e n m).
Proof.
  intros Hm. pose proof (fun i => shy_mute _ (pop_reply_shy (R := R) (X := X) (C := C) (A := A) (F := F) true i)).
  destruct m as [trm i l|trm|trm ci es prev ptrm|trm ci c|c [rid|]|rid er|rid i trm|i b]; simpl;
    [..|by destruct (Hm trm ci c)| | | | |].
  - apply shy_mute, on_request_vote_shy.
  - pose proof (shy_mute _ (onBecomeLeader_shy (R := R) (X := X) (F := F) (C := C) conf true e)). does_auto; auto with does.
  - apply shy_mute, on_append_entries_shy.
  - apply applyCommand_mute.
  - apply applyCommand_mute.
  - does_auto; auto with does. intros g r er' Hin. apply list_elem_of_singleton in Hin. congruence.
  - does_auto; auto with does.
  - does_auto; auto with does.
Qed.

(** [f] waits for an entry of the log that is applied now, after the entries
    [ds] of the log that are not applied yet, and is answered what the entry's
    command returns on the object as it is then. *)
Definition answered s (f : F) (r : R) (er : FAIL_REASON) : Prop :=
  er = SUCCESS /\ exists ds en c, numbered (raftLastApplied s + 1) (ds ++ [en]) /\
    (forall d, d ∈ ds ++ [en] -> log_at (raftLog s) (logID d) = Some d) /\ command en = Some c /\ (term en, f) ∈ subscribers s (logID en) /\
    r = (doApply c (object_after (commands ds) (object s))).2.

Lemma answered_back s s1 f r er : idle s s1 -> raftLog s1 = raftLog s ->
  (forall i x, x ∈ subscribers s1 i -> x ∈ subscribers s i) -> answered s1 f r er -> answered s f r er.
Proof.
  intros [El Eo] Eg Hs (-> & ds & en & c & Hn & Hin & Hc & Hf & ->). split; [done|]. exists ds, en, c.
  rewrite <-El, <-Eo, <-Eg. by split_and!; auto.
Qed.

Lemma apply_entries_answers es s f r er : numbered (raftLastApplied s + 1) es ->
  (forall en, en ∈ es -> log_at (raftLog s) (logID en) = Some en) ->
  Callback f (Some r) er ∈ effects (for_each es (apply_entry (R := R)) s) -> answered s f r er.
Proof.
  revert s. induction es as [|en es IH]; intros s Hn Hin; [by intros ?%elem_of_nil|]. destruct Hn as [Hid Hn].
  cbn [for_each]. destruct (command en) as [c|] eqn:Ec; cycle 1.
  { unfold apply_entry, doApplyCommand, py_bind, py_get, py_set, effects. rewrite Ec. by intros ?%elem_of_nil. }
  pose proof (apply_entry_eq (R := R) en c s Ec) as Hen. destruct (doApply c (object s)) as [x r0] eqn:Ex.
  unfold py_bind, effects. rewrite Hen. match goal with |- context [for_each es apply_entry ?s0] => set (s1 := s0) end.
  specialize (IH s1 Hn (fun d Hd => Hin d ltac:(by right))). unfold effects in IH.
  destruct (for_each es apply_entry s1) as [[s2 fx] r']. cbn [fst snd] in *. intros [Hf|Hf]%elem_of_app.
  - unfold answers in Hf. apply list_elem_of_fmap in Hf as ([trm g] & Ef & Hg). cbn [fst snd] in Ef.
    destruct (Z.eqb_spec trm (term en)) as [->|]; [|done]. injection Ef as -> -> ->. split; [done|]. exists [], en, c.
    split_and!; [done|intros d ->%list_elem_of_singleton; apply Hin; by left|done|done|]. cbn. by rewrite Ex.
  - destruct (IH Hf) as (-> & ds & d & c' & Dn & Din & Dc & Df & ->). split; [done|]. exists (en :: ds), d, c'.
    split_and!; [done| |done| |].
    + intros d' [->|Hd]%elem_of_cons; [apply Hin; by left|by apply Din].
    + apply (tacit_subs _ _ _ _ (forget_tacit (R := R) true s (logID en))). exact Df.
    + unfold commands. cbn [omap list_omap]. rewrite Ec. unfold object_after. cbn [foldl]. by rewrite Ex.
Qed.

Lemma tick_apply_answers s f r er : num_ok (raftLog s) -> Callback f (Some r) er ∈ effects (tick_apply (R := R) s) ->
  answered s f r er.
Proof.
  intros Hok. unfold tick_apply. rewrite bind_get. unfold id. destruct (_ <? _); [|by intros ?%elem_of_nil].
  unfold getEntries, on_log, py_bind, py_call, effects. destruct (entries_from _ _ _) as [es|x] eqn:Ee; [|by intros ?%elem_of_nil].
  assert (numbered (raftLastApplied s + 1) es /\ forall en, en ∈ es -> log_at (raftLog s) (logID en) = Some en) as [Hn Hin].
  { apply entries_from_segment in Ee as [->|(Hge & k & ->)]; [split; [done|by intros en ?%elem_of_nil]| |done].
    by apply segment_slice. }
  pose proof (apply_entries_answers es s f r er Hn Hin) as Ha. unfold effects in Ha.
  by destruct (for_each es apply_entry s) as [[s' fx] x].
Qed.

Lemma effects_bind {B D} (c : method B) (k : B -> method D) s ef : ef ∈ effects (py_bind c k s) ->
  ef ∈ effects (c s) \/ exists b, result (c s) = Ret b /\ ef ∈ effects (k b (post (c s))).
Proof.
  unfold py_bind, effects, result, post. destruct (c s) as [[s1 fx] [b|er]]; cbn [fst snd]; [|by left].
  destruct (k b s1) as [[s2 fx'] r] eqn:Ek. cbn [fst snd]. intros [?|?]%elem_of_app; [by left|right]. exists b. by rewrite Ek.
Qed.
(** A part that answers nobody. *)
Lemma mute_then {B D} (c : method B) (k : B -> method D) s f r er : does mute c ->
  Callback f (Some r) er ∈ effects (py_bind c k s) -> exists b, Callback f (Some r) er ∈ effects (k b (post (c s))).
Proof. intros Hc [Hin|(b & _ & Hin)]%effects_bind; [by apply (Hc s) in Hin|eauto]. Qed.

(** Up to the committed entries a tick changes neither log nor object, and adds
    no subscriber. *)
Definition waits s s' : Prop :=
  num_ok (raftLog s) -> raftLog s' = raftLog s /\ idle s s' /\ forall i x, x ∈ subscribers s' i -> x ∈ subscribers s i.
Lemma waits_tacit {B} (m : method B) s : does (tacit true) m -> moves idle m ->
  (num_ok (raftLog s) -> raftLog (post (m s)) = raftLog s) -> waits s (post (m s)).
Proof. intros Ht Hi El Hok. split; [by apply El|]. split; [apply Hi|]. apply (Ht s). Qed.

Lemma onTick_answers e s f r er : fullDumpFile conf = None -> num_ok (raftLog s) ->
  Callback f (Some r) er ∈ effects (onTick (R := R) conf e s) -> answered s f r er.
Proof.
  intros Hfile Hok. unfold onTick. rewrite bind_get. unfold id. rewrite Hfile, bool_decide_false by (by intros []). cbn [andb].
  intros [b1 Hin]%mute_then; [|destruct (needLoadDumpFile s); does_auto; apply mute_nil].
  match type of Hin with context [post ?x] => set (s1 := post x) in * end.
  assert (W1 : waits s s1) by (intros _; subst s1; by destruct (needLoadDumpFile s)). clearbody s1.
  destruct (W1 Hok) as (E1 & I1 & S1). apply (answered_back s s1); [done..|]. rewrite <-E1 in Hok. clear dependent s.
  apply mute_then in Hin as [b2 Hin]; [|apply shy_mute, tick_election_shy].
  destruct (waits_tacit (tick_election conf e) s1) as (E2 & I2 & S2);
    [apply tick_election_shy|apply tick_election_idle|by intros _; apply (tick_election_turns conf (nodes s1) e s1)|done|].
  apply (answered_back s1 _ f r er I2 E2 S2). rewrite <-E2 in Hok. set (s2 := post _) in *. clearbody s2. clear dependent s1.
  apply mute_then in Hin as [b3 Hin]; [|apply shy_mute, tick_leader_shy].
  destruct (waits_tacit (tick_leader conf e) s2) as (E3 & I3 & S3);
    [apply tick_leader_shy|apply tick_leader_idle|intros _; apply (tick_leader_keeps conf e s2)|done|].
  apply (answered_back s2 _ f r er I3 E3 S3). rewrite <-E3 in Hok. set (s3 := post _) in *. clearbody s3. clear dependent s2.
  apply effects_bind in Hin as [Hin|(b4 & _ & Hin)]; [by apply tick_apply_answers|].
  apply mute_then in Hin as [b5 Hin]; [|apply checkCommands_mute].
  pose proof (shy_mute _ (tryLogCompaction_shy (R := R) conf true e)) as Hm. by apply Hm in Hin.
Qed.
End answers.
