(* ===== verification/SyncObjPromises.v ===== *)
(** * Who is answered SUCCESS gets the result of its own command

    [promises]: what the queues, the messages and the waiting callbacks of a
    cluster say about each other.  [honest]: what a step of one node may add to
    it; [vouch]: a method that appends to the log and is honest about it. *)
From stdpp Require Import base gmap sets list strings relations.
From Stdlib Require Import ZArith QArith Lia.
From S2P Require Import Prelude PyList PyExcept Serializer SyncObj SyncObjLog SyncObjMoves SyncObjTheorems SyncObjSends SyncObjWorks.
From S2P Require Import SyncObjLeader SyncObjCluster SyncObjMatching SyncObjAgreement SyncObjCallbacks SyncObjResults.
Local Open Scope Z_scope.

Ltac anywhere_does := match goal with |- does_at ?Q ?m ?x => apply (fun Hm : does Q m => Hm x) end.

Section node.
Context {A C R X F : Type} `{Countable A} `{Machine C R X} `{Codec (dump C X)}.
Context (conf : SyncObjConf) (command_of : F -> C).
(** [K n rid c]: request [rid] of node [n] is for [c]; [M i trm c]: the entry of
    index [i] and term [trm] is for [c]. *)
Context (K : A -> Z -> C -> Prop).
Implicit Types M : Z -> Z -> C -> Prop.
Implicit Types s : t A C X F.
Implicit Types e : env A.
Implicit Types fx : list (effect A C R F).
Abbreviation method B := (PyM (t A C X F) (effect A C R F) B).

Definition good_origin (c : C) (o : origin A F) : Prop :=
  match o with NoCallback => True | Local f => command_of f = c | Remote n rid => K n rid c end.
Definition good_queue s : Prop := forall c o, (c, o) ∈ commandsQueue s -> good_origin c o.
Definition in_log (log : list (entry C)) (i trm : Z) (c : C) : Prop := log_at log i = Some (MkEntry (Some c) i trm).

Record honest M s fx s' : Prop := {
  h_queue : good_queue s';
  h_counter : commandsLocalCounter s <= commandsLocalCounter s';
  h_reply rid f : commandsWaitingReply s' !! rid = Some f ->
    commandsWaitingReply s !! rid = Some f \/ commandsLocalCounter s < rid <= commandsLocalCounter s';
  h_subs i trm f : (trm, f) ∈ subscribers s' i -> (trm, f) ∈ subscribers s i \/ M i trm (command_of f);
  h_asks to c rid : Send to (apply_command c (Some rid)) ∈ fx ->
    commandsLocalCounter s < rid <= commandsLocalCounter s' /\
    forall f, commandsWaitingReply s' !! rid = Some f -> command_of f = c;
  h_responses n rid i trm : Send n (apply_command_response rid i trm) ∈ fx -> exists c, K n rid c /\ M i trm c;
}.

Lemma honest_join M M' s fx s' fx' s'' : honest M s fx s' -> honest M' s' fx' s'' ->
  (forall i trm c, M i trm c -> M' i trm c) -> honest M' s (fx ++ fx') s''.
Proof.
  intros [Q1 C1 R1 S1 A1 P1] [Q2 C2 R2 S2 A2 P2] HM. split.
  - done.
  - lia.
  - intros rid f Hf. destruct (R2 rid f Hf) as [Hf'|]; [destruct (R1 rid f Hf') as [|]; [by left|right; lia]|right; lia].
  - intros i trm f Hf. destruct (S2 i trm f Hf) as [Hf'|]; [|by right]. destruct (S1 i trm f Hf'); [by left|right; auto].
  - intros to c rid [Hin|Hin]%elem_of_app.
    + destruct (A1 to c rid Hin) as [Hr Hf]. split; [lia|]. intros f Hf'. destruct (R2 rid f Hf') as [|]; [by apply Hf|lia].
    + destruct (A2 to c rid Hin) as [Hr Hf]. split; [lia|done].
  - intros n rid i trm [Hin|Hin]%elem_of_app; [|by apply (P2 n)]. destruct (P1 n rid i trm Hin) as (c & ? & ?). eauto.
Qed.

Lemma tacit_honest b M s fx s' : tacit b s fx s' -> good_queue s -> honest M s fx s'.
Proof.
  intros [Q1 C1 R1 S1 M1 _] Hq. split.
  - intros c o. rewrite Q1. apply Hq.
  - lia.
  - intros rid f ?%R1. by left.
  - intros i trm f ?%S1. by left.
  - intros to c rid Hin. by apply M1 in Hin.
  - intros n rid i trm Hin. by apply M1 in Hin.
Qed.

(** ** Appending *)
Definition vouch s fx s' : Prop := num_ok (raftLog s) -> good_queue s ->
  num_ok (raftLog s') /\ (exists es, raftLog s' = raftLog s ++ es) /\ honest (in_log (raftLog s')) s fx s'.

Lemma vouch_tacit b s fx s' : tacit b s fx s' -> (num_ok (raftLog s) -> raftLog s' = raftLog s) -> vouch s fx s'.
Proof.
  intros Ht El Hok Hq. rewrite (El Hok). split; [done|]. split; [exists []; by rewrite app_nil_r|]. by eapply tacit_honest.
Qed.

#[export] Instance vouch_trace : TraceOrder vouch.
Proof.
  split; [intros s; by apply (vouch_tacit true); [apply trace_refl|]|].
  intros s fx s' fx' s'' V1 V2 Hok Hq. destruct (V1 Hok Hq) as (Hok1 & (es & E1) & Hh1).
  destruct (V2 Hok1 (h_queue _ _ _ _ Hh1)) as (Hok2 & (es' & E2) & Hh2). split; [done|].
  split; [exists (es ++ es'); by rewrite E2, E1, app_assoc|]. eapply honest_join; [done..|].
  intros i trm c. unfold in_log. rewrite E2. apply log_at_app.
Qed.

Lemma shy_vouches {B} b (m : method B) : does (tacit b) m -> moves same_log m -> does vouch m.
Proof. intros Ht Hm s. eapply vouch_tacit; [apply Ht|]. intros _. apply Hm. Qed.
Lemma log_vouches {B} (f : list (entry C) -> outcome B) : does vouch (on_log f).
Proof. apply (shy_vouches true); [apply on_log_shy|apply on_log_keeps]. Qed.
Lemma rounds_vouch e : does vouch (sendAppendEntries conf e).
Proof. apply (shy_vouches true); [apply sendAppendEntries_shy|apply sendAppendEntries_keeps]. Qed.
Lemma send_to_vouch n m : promising m = false -> does vouch (send_to n m).
Proof. intros Hm. apply (shy_vouches true); [by apply send_to_shy|apply send_to_keeps]. Qed.
Lemma refuse_vouch o er : does vouch (call_back o er).
Proof.
  apply (shy_vouches true); [apply call_back_shy|]. unfold call_back. moves_auto.
Qed.

(** The leader's new entry. *)
Lemma append_vouch s (en : entry C) : current_index (raftLog s) = Ret (logID en - 1) ->
  vouch s [] (set_raftLog (raftLog s ++ [en]) s) /\
  (num_ok (raftLog s) -> log_at (raftLog s ++ [en]) (logID en) = Some en).
Proof.
  intros Hi. assert (Hl : num_ok (raftLog s) -> raftLog s <> [] /\ log_ok (raftLog s) /\ numbered (last_index (raftLog s) + 1) [en] /\
    last_index (raftLog s) = logID en - 1).
  { intros Hok. assert (raftLog s <> []) as Hne by (intros E; by rewrite E in Hi).
    assert (log_ok (raftLog s)) as Hlog by (by destruct (raftLog s)). rewrite current_index_ok in Hi by done.
    injection Hi as Hi. split_and!; [done|done| |done]. split; [lia|done]. }
  split.
  - intros Hok Hq. destruct (Hl Hok) as (Hne & _ & Hnum & _). split; [by apply num_ok_app|]. split; [by exists [en]|].
    split; [exact Hq|done|by left|by left|by intros to c rid ?%elem_of_nil|by intros n rid i trm ?%elem_of_nil].
  - intros Hok. destruct (Hl Hok) as (_ & Hlog & Hnum & Hlast).
    rewrite <-(log_at_app_last (raftLog s) [en] en Hlog Hnum eq_refl). f_equal. unfold py_len. cbn. lia.
Qed.

Lemma subscribe_vouch i trm f s : (num_ok (raftLog s) -> in_log (raftLog s) i trm (command_of f)) ->
  does_at vouch (subscribe_commit (R := R) i (trm, f)) s.
Proof.
  intros Hi Hok Hq. split; [done|]. split; [exists []; by rewrite app_nil_r|]. split; [exact Hq|done|by left| | |].
  - intros j trm' f'. unfold subscribers. cbn. destruct (decide (i = j)) as [<-|Hne]; [|rewrite lookup_insert_ne by done; by left].
    rewrite lookup_insert_eq. cbn. intros [Hin|Hin]%elem_of_app; [by left|]. apply list_elem_of_singleton in Hin as [= -> ->].
    right. by apply Hi.
  - by intros to c rid ?%elem_of_nil.
  - by intros n rid j trm' ?%elem_of_nil.
Qed.
Lemma respond_vouch n rid i trm c s : K n rid c -> (num_ok (raftLog s) -> in_log (raftLog s) i trm c) ->
  does_at vouch (send_to n (apply_command_response rid i trm)) s.
Proof.
  intros HK Hi. unfold send_to. apply does_at_get; [typeclasses eauto|].
  destruct (decide _); [|apply does_ret; typeclasses eauto]. intros Hok Hq. split; [done|]. split; [exists []; by rewrite app_nil_r|].
  split; [exact Hq|done|by left|by left| |].
  - intros to c' rid' Hin. by apply list_elem_of_singleton in Hin.
  - intros n' rid' i' trm' Hin. apply list_elem_of_singleton in Hin as [= -> -> -> ->]. exists c. split; [done|by apply Hi].
Qed.
(** A new request. *)
Lemma ask_vouch leader c f s : command_of f = c ->
  does_at vouch (py_set (set_commandsLocalCounter (commandsLocalCounter s + 1)) ;;!
    py_set (fun s' => set_commandsWaitingReply (<[commandsLocalCounter s + 1 := f]> (commandsWaitingReply s')) s') ;;!
    send_to leader (apply_command c (Some (commandsLocalCounter s + 1)))) s.
Proof.
  intros Hf. unfold does_at. rewrite !bind_set. unfold send_to. rewrite bind_get. cbn -[py_return].
  assert (Hh : forall fx, fx = [] \/ fx = [Send leader (apply_command c (Some (commandsLocalCounter s + 1)))] ->
    vouch s fx (set_commandsWaitingReply (<[commandsLocalCounter s + 1 := f]> (commandsWaitingReply s))
      (set_commandsLocalCounter (commandsLocalCounter s + 1) s))).
  { intros fx Hfx Hok Hq. split; [done|]. split; [exists []; by rewrite app_nil_r|]. split; cbn.
    - exact Hq.
    - lia.
    - intros rid g [[<- <-]|[_ Hg]]%lookup_insert_Some; [right; lia|by left].
    - by left.
    - intros to c' rid Hin. destruct Hfx as [->| ->]; [by apply elem_of_nil in Hin|].
      apply list_elem_of_singleton in Hin as [= -> <- ->]. split; [lia|]. intros g. rewrite lookup_insert_eq. by intros [= <-].
    - intros n rid i trm Hin. destruct Hfx as [->| ->]; [by apply elem_of_nil in Hin|]. by apply list_elem_of_singleton in Hin. }
  destruct (decide _); apply Hh; [by right|by left].
Qed.

Lemma process_command_vouch e c o : good_origin c o -> does vouch (process_command conf e c o).
Proof.
  intros Ho s. unfold process_command. apply does_at_get; [typeclasses eauto|]. unfold id.
  assert (Hask : forall leader, does_at vouch (match o with
      | NoCallback => send_to leader (apply_command c None)
      | Local f => py_set (set_commandsLocalCounter (commandsLocalCounter s + 1)) ;;!
          py_set (fun s' => set_commandsWaitingReply (<[commandsLocalCounter s + 1 := f]> (commandsWaitingReply s')) s') ;;!
          send_to leader (apply_command c (Some (commandsLocalCounter s + 1)))
      | Remote n rid => send_to n (apply_command_error rid NOT_LEADER)
      end) s)
    by (intros leader; destruct o; [by apply send_to_vouch|by apply ask_vouch|by apply send_to_vouch]).
  assert (Hnone : does_at vouch (match o with
      | Remote n rid => send_to n (apply_command_error rid NOT_LEADER)
      | _ => call_back o MISSING_LEADER
      end) s) by (destruct o; [apply refuse_vouch|apply refuse_vouch|by apply send_to_vouch]).
  destruct (raftState s); [by destruct (raftLeader s)..|]. clear Hask Hnone.
  apply does_at_bind; [typeclasses eauto|apply log_vouches|]. intros cur Hcur. change (post _) with s.
  assert (Hcur' : current_index (raftLog s) = Ret cur) by exact Hcur.
  destruct (append_vouch s (MkEntry (Some c) (cur + 1) (raftCurrentTerm s))) as [Hv Hin];
    [rewrite Hcur'; do 2 f_equal; cbn; lia|].
  apply does_at_bind; [typeclasses eauto|exact Hv|]. intros [] _.
  apply does_at_bind; [typeclasses eauto| |]; cycle 1.
  { intros [] _. anywhere_does. pose proof rounds_vouch. does_auto. }
  assert (Hmade : num_ok (raftLog s ++ [MkEntry (Some c) (cur + 1) (raftCurrentTerm s)]) ->
    in_log (raftLog s ++ [MkEntry (Some c) (cur + 1) (raftCurrentTerm s)]) (cur + 1) (raftCurrentTerm s) c).
  { intros Hok. apply Hin. unfold num_ok in *. destruct (raftLog s) as [|en l]; [done|]. cbn [app first_index] in *.
    change (en :: l ++ ?x) with ((en :: l) ++ x) in Hok. by apply numbered_app in Hok as [? _]. }
  destruct o as [|f|n rid].
  - apply does_ret. typeclasses eauto.
  - apply subscribe_vouch. cbn in Ho. by rewrite Ho.
  - by apply (respond_vouch n rid _ _ c).
Qed.
Lemma checkCommands_vouch e i : does vouch (checkCommands conf e i).
Proof.
  induction i as [|i IH]; [by apply does_ret; typeclasses eauto|]. intros s. cbn. apply does_at_get; [typeclasses eauto|]. unfold id.
  destruct (_ && _); [apply does_ret; typeclasses eauto|].
  destruct (commandsQueue s) as [|[c o] q] eqn:Eq; [apply does_ret; typeclasses eauto|]. intros Hok Hq. assert (Ho : good_origin c o) by (apply Hq; rewrite Eq; by left). revert Hok Hq.
  apply does_at_bind; [typeclasses eauto| |].
  - intros Hok Hq. split; [done|]. split; [exists []; by rewrite app_nil_r|].
    split; [|done|by left|by left|by intros to c' rid ?%elem_of_nil|by intros n rid j trm ?%elem_of_nil].
    intros c' o' Hin. apply Hq. rewrite Eq. by right.
  - intros [] _. anywhere_does. apply does_seq; [typeclasses eauto|by apply process_command_vouch|done].
Qed.

(** A tick up to the compaction of the log. *)
Definition tick_work e : method unit :=
  let! s := py_get id in
  (if needLoadDumpFile s then
     (if bool_decide (fullDumpFile conf <> None) &&
         bool_decide (Serializer.file (serializer s) <> None)
      then loadDumpFile else py_return tt) ;;!
     py_set (set_needLoadDumpFile false)
   else py_return tt) ;;!
  tick_election conf e ;;!
  tick_leader conf e ;;!
  tick_apply ;;!
  checkCommandsToApply conf e.
Lemma onTick_work e s : onTick conf e s = py_bind (tick_work e) (fun _ => tryLogCompaction conf e) s.
Proof.
  unfold tick_work, onTick. rewrite py_bind_assoc. apply py_bind_ext. intros s0 s1. rewrite py_bind_assoc. apply py_bind_ext. intros _ s2.
  rewrite py_bind_assoc. apply py_bind_ext. intros _ s3. rewrite py_bind_assoc. apply py_bind_ext. intros _ s4.
  rewrite py_bind_assoc. by apply py_bind_ext.
Qed.

Lemma tick_work_vouch e : fullDumpFile conf = None -> does vouch (tick_work e).
Proof.
  intros Hfile s. unfold tick_work. apply does_at_get; [typeclasses eauto|]. unfold id.
  rewrite Hfile, bool_decide_false by (by intros []). cbn [andb]. anywhere_does. apply does_seq; [typeclasses eauto| |intros _].
  { destruct (needLoadDumpFile s); [|apply does_ret; typeclasses eauto]. does_auto. apply (vouch_tacit true); [by apply tacit_quiet|done]. }
  apply does_seq; [typeclasses eauto| |intros _].
  { intros s1. eapply vouch_tacit; [apply (tick_election_shy conf true)|].
    intros Hok. by apply (tick_election_turns conf (nodes s1) e s1). }
  apply does_seq; [typeclasses eauto| |intros _].
  { apply (shy_vouches true); [apply tick_leader_shy|apply tick_leader_keeps]. }
  apply does_seq; [typeclasses eauto| |intros _].
  { apply (shy_vouches false); [apply tick_apply_shy|apply tick_apply_keeps]. }
  apply checkCommands_vouch.
Qed.

(** ** Queueing *)
Lemma applyCommand_honest M c o s : good_origin c o -> good_queue s ->
  honest M s (effects (applyCommand (R := R) conf c o s)) (post (applyCommand (R := R) conf c o s)).
Proof.
  intros Ho Hq. unfold applyCommand. rewrite bind_get. destruct (queue_full conf (commandsQueue s)).
  { eapply tacit_honest; [apply (call_back_shy true)|done]. }
  split; [|done|by left|by left|by intros to c' rid ?%elem_of_nil|by intros n rid j trm ?%elem_of_nil].
  intros c' o' [Hin|Hin]%elem_of_app; [by apply Hq|]. by apply list_elem_of_singleton in Hin as [= -> ->].
Qed.

(** ** The answer of the leader *)
Lemma response_honest M e n rid i trm c s : good_queue s -> M i trm c ->
  (forall f, commandsWaitingReply s !! rid = Some f -> command_of f = c) ->
  let x := onMessageReceived (R := R) conf e n (apply_command_response rid i trm) s in honest M s (effects x) (post x).
Proof.
  intros Hq HM Hf x. subst x. cbn [onMessageReceived]. pose proof (tacit_honest true M s _ _ (pop_reply_shy (R := R) true rid s) Hq) as Hp.
  unfold pop_reply, py_bind, py_get, py_set, py_return in *. cbn in *.
  destruct (commandsWaitingReply s !! rid) as [f|]; [|exact Hp]. specialize (Hf f eq_refl).
  destruct (raftLastApplied _ <? i); [|exact Hp]. destruct Hp as [Q1 C1 R1 S1 A1 P1]. split; try done; cbn in *.
  intros j trm' f'. unfold subscribers. cbn. destruct (decide (i = j)) as [<-|Hne]; [|rewrite lookup_insert_ne by done; apply S1].
  rewrite lookup_insert_eq. cbn. intros [Hin|Hin]%elem_of_app; [by apply S1|].
  apply list_elem_of_singleton in Hin as [= -> ->]. right. by rewrite Hf.
Qed.
End node.

Section cluster.
Context {A C R X F : Type} `{Countable A} `{EqDecision C} `{Machine C R X} `{Codec (dump C X)}.
Context (conf : SyncObjConf) (lead : Z -> A) (command_of : F -> C).
Implicit Types s : t A C X F.
Implicit Types w : world (A := A) (C := C) (X := X) (F := F).
Implicit Types fx : list (effect A C R F).
Implicit Types hist : list (entry C) -> Prop.
Abbreviation method B := (PyM (t A C X F) (effect A C R F) B).

(** ** The invariant *)
(** Request [rid] of node [n] is over, or was made for [c]. *)
Definition asked w (n : A) (rid : Z) (c : C) : Prop := forall s, members w !! n = Some s ->
  rid <= commandsLocalCounter s /\ forall f, commandsWaitingReply s !! rid = Some f -> command_of f = c.
Definition made hist (i trm : Z) (c : C) : Prop := exists L, hist L /\ in_log L i trm c.

Record promises hist w : Prop := {
  p_ids u s : members w !! u = Some s -> ids_used s;
  p_queue u s : members w !! u = Some s -> good_queue command_of (asked w) s;
  p_subs u s i trm f : members w !! u = Some s -> (trm, f) ∈ subscribers s i -> made hist i trm (command_of f);
  p_asks src dst c rid : (src, dst, apply_command c (Some rid)) ∈ net w -> asked w src rid c;
  p_responses src dst rid i trm : (src, dst, apply_command_response rid i trm) ∈ net w ->
    exists c, asked w dst rid c /\ made hist i trm c;
}.

Lemma made_mono hist hist' i trm c : (forall L, hist L -> hist' L) -> made hist i trm c -> made hist' i trm c.
Proof. intros Hh (L & HL & Hin). exists L. auto. Qed.
Lemma good_origin_mono (K K' : A -> Z -> C -> Prop) c (o : origin A F) : (forall n rid c, K n rid c -> K' n rid c) ->
  good_origin command_of K c o -> good_origin command_of K' c o.
Proof. destruct o; cbn; auto. Qed.
Lemma message_sent u n (m : message C) fx src : (src, n, m) ∈ messages u fx -> src = u /\ Send n m ∈ fx.
Proof. intros ([to m'|] & Hin & [= <- <- <-])%list_elem_of_omap. done. Qed.

Lemma updated (ms : gmap A (t A C X F)) u v s s' : <[u := s']> ms !! v = Some s -> (v = u /\ s = s') \/ ms !! v = Some s.
Proof. intros [[-> ->]|[_ Hv]]%lookup_insert_Some; [by left|by right]. Qed.

Lemma promises_update hist hist' w u s s' fx M :
  promises hist w -> members w !! u = Some s -> honest command_of (asked w) M s fx s' ->
  (forall i trm c, M i trm c -> made hist' i trm c) -> (forall L, hist L -> hist' L) ->
  promises hist' (MkWorld (<[u := s']> (members w)) (net w ++ messages u fx)).
Proof.
  intros [P1 P2 P3 P4 P5] Hu [Q1 C1 R1 S1 A1 B1] HM Hh. set (w' := MkWorld _ _).
  assert (Hask : forall n rid c, asked w n rid c -> asked w' n rid c).
  { intros n rid c Hn sn [[-> ->]|Hsn]%updated; [|by apply Hn]. destruct (Hn s Hu) as [Hr Hf].
    split; [lia|]. intros f [Hf'|]%R1; [by apply Hf|lia]. }
  split.
  - intros v sv [[-> ->]|Hv]%updated; [|by eapply P1]. intros rid f [Hf|]%R1; [|lia].
    apply (P1 u s Hu) in Hf. lia.
  - intros v sv [[-> ->]|Hv]%updated c o Hin; eapply good_origin_mono; [exact Hask| |exact Hask|]; [by apply Q1|by eapply P2].
  - intros v sv i trm f [[-> ->]|Hv]%updated Hin; [|by eapply made_mono, P3].
    destruct (S1 i trm f Hin) as [Hin'|]; [by eapply made_mono, (P3 u s)|by apply HM].
  - intros src dst c rid [Hin|[-> Hin]%message_sent]%elem_of_app; [by apply Hask, (P4 src dst)|].
    intros sn Hsn. cbn in Hsn. rewrite lookup_insert_eq in Hsn. injection Hsn as <-. destruct (A1 dst c rid Hin). split; [lia|done].
  - intros src dst rid i trm [Hin|[-> Hin]%message_sent]%elem_of_app.
    + destruct (P5 src dst rid i trm Hin) as (c & ? & ?). exists c. split; [by apply Hask|by eapply made_mono].
    + destruct (B1 dst rid i trm Hin) as (c & ? & ?). exists c. split; [by apply Hask|by apply HM].
Qed.

(** ** Steps *)
Abbreviation kept ids w := (exists hist', inv lead ids hist' w /\ promises hist' w).
Abbreviation after u s' fx w := (MkWorld (<[u := s']> (members w)) (net w ++ messages u fx)).

(** What a node does is honest, up to what was made before or is in its log. *)
Lemma stage ids hist w u s s' fx M : inv lead ids hist w -> promises hist w -> members w !! u = Some s ->
  acts (nodes s) s fx s' -> (raftState s' = LEADER -> lead (raftCurrentTerm s') = u) ->
  honest command_of (asked w) M s fx s' -> (forall i trm c, M i trm c -> made hist i trm c \/ in_log (raftLog s') i trm c) ->
  kept ids (after u s' fx w).
Proof.
  intros Hi Hp Hu Ha Hl Hh HM. destruct (inv_acts lead ids hist w u s s' fx Hi Hu Ha Hl) as (hist' & Hsub & Hi').
  exists hist'. split; [done|]. apply (promises_update hist hist' w u s s' fx M); try done.
  intros i trm c [Hm|Hin]%HM; [by eapply made_mono|]. exists (raftLog s'). split; [|done].
  apply (inv_hist _ _ _ _ Hi' u). apply lookup_insert_eq.
Qed.

Context (Hfile : fullDumpFile conf = None).

Lemma tick_work_acts (N : list A) (e : env A) : does (acts N) (tick_work (R := R) (X := X) (F := F) conf e).
Proof.
  intros s. change (does_at (fun _ => acts N s) (tick_work (R := R) conf e) s). unfold tick_work. apply from_get.
  unfold id. rewrite Hfile, bool_decide_false by (by intros []). cbn [andb].
  assert (Hrest : forall s1, does_at (acts N) (tick_election conf e ;;! tick_leader conf e ;;!
    tick_apply (R := R) ;;! checkCommandsToApply conf e) s1).
  { intros s1. apply acts_bind; [apply tick_election_turns|]. intros [] _. pose proof (tick_leader_works (R := R) (X := X) (F := F) (C := C) conf N).
    pose proof (checkCommands_works (R := R) (X := X) (F := F) (C := C) conf N).
    pose proof (calm_works N _ (tick_apply_calm (A := A) (C := C) (R := R) (X := X) (F := F) false N)).
    match goal with |- does_at ?Q ?m ?x => apply (fun Hm : does Q m => Hm x) end. unfold checkCommandsToApply. does_auto. }
  apply from_reset; [apply Hrest|].
  intros HN Hok. destruct (Hrest (set_needLoadDumpFile false s) HN Hok)
    as (s1 & fx1 & fx2 & Efx & Ht & Hfx). exists s1, fx1, fx2. split; [exact Efx|]. by split.
Qed.

Lemma messages_app u fx fx' : messages u (fx ++ fx') = messages u fx ++ messages (C := C) u fx'.
Proof. apply omap_app. Qed.

Lemma tick_kept ids hist w u s e : inv lead ids hist w -> promises hist w -> members w !! u = Some s ->
  let x := onTick (R := R) conf e s in (raftState (post x) = LEADER -> lead (raftCurrentTerm (post x)) = u) ->
  kept ids (after u (post x) (effects x) w).
Proof.
  intros Hi Hp Hu x. subst x. rewrite onTick_work.
  assert (Hok : num_ok (raftLog s)) by (eapply inv_num_ok, inv_hist; done).
  destruct (tick_work_vouch conf command_of (asked w) e Hfile s Hok (p_queue _ _ Hp u s Hu)) as (Hok1 & _ & Hh).
  pose proof (tick_work_acts (nodes s) e s) as Ha. unfold does_at in Ha.
  unfold py_bind. destruct (tick_work conf e s) as [[s1 fx1] [[]|er]] eqn:E1; unfold post, effects in *; cbn [fst snd] in *; cycle 1.
  { intros Hl. eapply stage; [done..|]. by right. }
  pose proof (tryLogCompaction_works (R := R) (X := X) (F := F) (C := C) conf (nodes s1) e s1) as Hw.
  pose proof (tryLogCompaction_shy (R := R) conf true e s1) as Ht. unfold does_at, post, effects in Hw, Ht.
  destruct (tryLogCompaction conf e s1) as [[s2 fx2] r2]. cbn [fst snd] in *. intros Hl.
  destruct (Hw eq_refl Hok1) as ((Er & Et & _) & _). rewrite Er, Et in Hl.
  destruct (stage ids hist w u s s1 fx1 _ Hi Hp Hu Ha Hl Hh) as (hist1 & Hi1 & Hp1); [by right|].
  assert (Hu1 : members (after u s1 fx1 w) !! u = Some s1) by apply lookup_insert_eq.
  destruct (stage ids hist1 _ u s1 s2 fx2 (fun _ _ _ => False) Hi1 Hp1 Hu1) as (hist2 & Hi2 & Hp2).
  - by apply works_acts.
  - by rewrite Er, Et.
  - eapply tacit_honest; [exact Ht|]. by apply (p_queue _ _ Hp1 u).
  - done.
  - exists hist2. cbn [members net] in *. rewrite insert_insert_eq in Hi2, Hp2. rewrite messages_app, app_assoc. done.
Qed.

(** ** Runs *)
(** What a callback is handed in with. *)
Definition handed_in (a : action (A := A) (C := C) (F := F)) : Prop :=
  match a with Submit _ c (Local f) => command_of f = c | Submit _ _ (Remote _ _) => False | _ => True end.
Definition fed_step w w' : Prop := exists a,
  handed_in a /\ do_action (R := R) conf a w = Some w' /\ no_snapshot a w /\ leaders_led lead w'.

(** Executed with its checks. *)
#[export] Instance handed_in_dec a : Decision (handed_in a).
Proof. destruct a as [| |? ? []]; simpl; apply _. Defined.
Definition run_fed (acts : list action) w : option world :=
  foldl (fun ow a => w ← ow; if decide (handed_in a) then do_led (R := R) conf lead a w else None) (Some w) acts.
Lemma run_fed_steps acts w w' : run_fed acts w = Some w' -> rtc fed_step w w'.
Proof.
  unfold run_fed. revert w. induction acts as [|a acts IH]; intros w; cbn [foldl].
  { intros [= ->]. apply rtc_refl. }
  cbn [mbind option_bind]. destruct (decide (handed_in a)) as [Ha|]; [destruct (do_led conf lead a w) as [w1|] eqn:E|]; cycle 1.
  1,2: assert (foldl (fun ow a => w ← ow; if decide (handed_in a) then do_led (R := R) conf lead a w else None) None acts = None)
    as ->; [|done]; clear; by induction acts.
  intros Hrun. apply rtc_l with w1; [|by apply IH]. exists a. split; [done|]. by apply do_led_Some.
Qed.

Lemma member_kept ids hist w w' u (m : method unit) M : inv lead ids hist w -> promises hist w -> on_member u m w = Some w' ->
  does (acts (filter (fun v => v <> u) ids)) m -> leaders_led lead w' ->
  (forall s, members w !! u = Some s -> honest command_of (asked w) M s (effects (m s)) (post (m s))) ->
  (forall i trm c, M i trm c -> made hist i trm c) -> kept ids w'.
Proof.
  intros Hi Hp (s & Hu & ->)%on_member_Some Ha Hl Hh HM. destruct (inv_nodes _ _ _ _ Hi u s Hu) as [_ En].
  eapply (stage ids hist w u s); [done..| | |by apply Hh|intros i trm c Hm; left; by apply HM].
  - rewrite En. apply Ha.
  - intros Hlead. apply (Hl u); [apply lookup_insert_eq|done].
Qed.
Lemma shy_kept ids hist w w' u (m : method unit) : inv lead ids hist w -> promises hist w -> on_member u m w = Some w' ->
  does (acts (filter (fun v => v <> u) ids)) m -> leaders_led lead w' -> does (tacit true) m -> kept ids w'.
Proof.
  intros Hi Hp Hm Ha Hl Ht. eapply (member_kept ids hist w w' u m (fun _ _ _ => False)); [done..| |done].
  intros s Hu. eapply tacit_honest; [apply Ht|]. by eapply p_queue.
Qed.

Lemma deliver_kept ids hist w w' src u e m : inv lead ids hist w -> promises hist w -> (src, u, m) ∈ net w ->
  (forall trm ci c, m <> append_serialized trm ci c) -> on_member u (onMessageReceived (R := R) conf e src m) w = Some w' ->
  leaders_led lead w' -> kept ids w'.
Proof.
  intros Hi Hp Hin Hns Hm Hl. destruct (is_append m) eqn:Em.
  { destruct m as [| |trm ci es prev ptrm| | | | |]; try done. destruct (inv_append conf lead ids hist w w' u src e trm ci es prev ptrm Hi Hin Hm) as (hist' & Hh & Hi').
    exists hist'. split; [done|]. apply on_member_Some in Hm as (s & Hu & ->).
    eapply (promises_update hist hist' w u s _ _ (fun _ _ _ => False)); [done..| |done|done].
    eapply tacit_honest; [apply (on_append_entries_shy conf true)|]. by eapply p_queue. }
  pose proof (onMessageReceived_acts (R := R) (X := X) (F := F) conf (filter (fun v => v <> u) ids) e src m Em Hns) as Ha.
  destruct m as [trm i l|trm|trm ci es prev ptrm|trm ci c|c [rid|]|rid er|rid i trm|i b]; try done.
  - eapply shy_kept; [done..|]. apply on_request_vote_shy.
  - eapply shy_kept; [done..|]. pose proof (onBecomeLeader_shy (R := R) (X := X) (F := F) (C := C) conf true e). cbn.
    does_auto. by apply tacit_quiet.
  - by destruct (Hns trm ci c).
  - eapply (member_kept ids hist w w' u _ (fun _ _ _ => False)); [done..| |done]. intros s Hu.
    apply applyCommand_honest; [|by eapply p_queue]. by eapply p_asks.
  - eapply (member_kept ids hist w w' u _ (fun _ _ _ => False)); [done..| |done]. intros s Hu.
    apply applyCommand_honest; [done|by eapply p_queue].
  - eapply shy_kept; [done..|]. pose proof (pop_reply_shy (R := R) (X := X) (F := F) (C := C) (A := A) true rid). cbn. does_auto.
    apply tacit_refuse.
  - destruct (p_responses _ _ Hp src u rid i trm Hin) as (c & Hask & Hmade).
    eapply (member_kept ids hist w w' u _ (made hist)); [done..| |done]. intros s Hu.
    apply (response_honest conf command_of (asked w) _ e src rid i trm c); [by eapply p_queue| |by apply Hask].
    done.
  - eapply shy_kept; [done..|]. cbn. does_auto; by apply tacit_quiet.
Qed.

Lemma fed_step_kept ids hist w w' : inv lead ids hist w -> promises hist w -> fed_step w w' -> kept ids w'.
Proof.
  intros Hi Hp (a & Hin & Ha & Hs & Hl). destruct a as [k e|u e|u c o]; cbn in Ha.
  - destruct (net w !! k) as [[[src dst] m]|] eqn:Ek; [|done]. cbn in Ha.
    eapply (deliver_kept ids hist w w' src dst e m); [done|done|by eapply list_elem_of_lookup_2| |done|done].
    intros trm ci c ->. by eapply Hs.
  - apply on_member_Some in Ha as (s & Hu & ->). apply (tick_kept ids hist w u s e Hi Hp Hu).
    intros Hlead. apply (Hl u); [apply lookup_insert_eq|done].
  - eapply (member_kept ids hist w w' u _ (fun _ _ _ => False)); [exact Hi|exact Hp|exact Ha| |exact Hl| |done].
    + intros s. apply works_acts, calm_works, applyCommand_calm.
    + intros s Hu. apply applyCommand_honest; [by destruct o|by eapply p_queue].
Qed.

Lemma promises_start ids x e : promises (fun L => L = [MkEntry None 1 0]) (start (F := F) conf ids x e).
Proof.
  assert (Hs : forall u s, members (start (F := F) conf ids x e) !! u = Some s -> exists others, s = init conf u others x None (e u)).
  { intros u s Hu. apply elem_of_list_to_map_2, list_elem_of_fmap in Hu as (v & [= -> ->] & Hv). by eexists. }
  split.
  - intros u s [others ->]%Hs. apply ids_used_init.
  - by intros u s [others ->]%Hs c o ?%elem_of_nil.
  - by intros u s i trm f [others ->]%Hs ?%elem_of_nil.
  - by intros src dst c rid ?%elem_of_nil.
  - by intros src dst rid i trm ?%elem_of_nil.
Qed.

Lemma fed_invariants ids x e w : rtc fed_step (start conf ids x e) w -> kept ids w.
Proof.
  pose proof (inv_start (C := C) (X := X) (F := F) conf lead ids x e) as Hi. pose proof (promises_start ids x e) as Hp.
  intros Hrun. revert Hi Hp. generalize (fun L : list (entry C) => L = [MkEntry None 1 0]) as hist.
  induction Hrun as [w|w w1 w2 Hstep _ IH]; intros hist Hi Hp; [by exists hist|].
  destruct (fed_step_kept ids hist w w1 Hi Hp Hstep) as (hist1 & Hi1 & Hp1). by eapply IH.
Qed.

(** Index and term name one entry. *)
Lemma made_entry ids hist w u s i trm c en : inv lead ids hist w -> members w !! u = Some s -> made hist i trm c ->
  log_at (raftLog s) i = Some en -> term en = trm -> command en = Some c.
Proof.
  intros Hi Hu (L & HL & Hin) Hen Ht. pose proof (inv_match _ _ _ _ Hi L (raftLog s) HL (inv_hist _ _ _ _ Hi u s Hu)) as Hm.
  by rewrite <-(Hm i _ en Hin Hen (eq_sym Ht) i _ en (Z.le_refl i) Hin Hen).
Qed.

(** C7: the answer to a replicated call: in every run in which each term has at
    most one leader and no snapshot is loaded, when a node calls a callback with a
    result, on a message or a tick, the error is SUCCESS and the result is what
    the callback's own command returns on that node's object, right after the
    entries of its log from [raftLastApplied + 1] up to the command's have been
    applied in order: never another command's result, whatever was lost, repeated, forwarded or overwritten. *)
Theorem success_is_own_result ids x e w : rtc fed_step (start conf ids x e) w ->
  forall u s, members w !! u = Some s ->
  forall m f r er, (exists e, m = onTick conf e) \/
    (exists e src msg, m = onMessageReceived conf e src msg /\ forall trm ci c, msg <> append_serialized trm ci c) ->
  Callback f (Some r) er ∈ effects (m s) ->
  er = SUCCESS /\ exists ds en, numbered (raftLastApplied s + 1) (ds ++ [en]) /\
    (forall d, d ∈ ds ++ [en] -> log_at (raftLog s) (logID d) = Some d) /\ command en = Some (command_of f) /\
    r = (doApply (command_of f) (object_after (commands ds) (object s))).2.
Proof.
  intros Hrun u s Hu m f r er Hm Hf. destruct (fed_invariants _ _ _ _ Hrun) as (hist & Hi & Hp).
  assert (Hok : num_ok (raftLog s)) by (eapply inv_num_ok, inv_hist; done).
  destruct Hm as [[e' ->]|(e' & src & msg & -> & Hns)]; [|by apply onMessageReceived_mute in Hf].
  apply onTick_answers in Hf as (-> & ds & en & c & Hn & Hen & Hc & Hsub & ->); [|done|done]. split; [done|]. exists ds, en.
  assert (command en = Some (command_of f)) as Ec by (eapply made_entry; [done|done|by eapply (p_subs _ _ Hp)|apply Hen, elem_of_app; right; by left|done]).
  split_and!; [done|done|done|]. congruence.
Qed.
End cluster.
