(* ===== verification/SyncObjPromisesDemo.v ===== *)
(** * Callbacks in concrete clusters

    A cluster of [setValue] objects (pysyncobj/custom_server.py), whose callbacks
    are named by the value they are handed in with: the witnesses of the theorems
    on callbacks; a run in which the elections go wrong and the caller of one
    command is answered with the result of another. *)
From stdpp Require Import base gmap sets list strings relations.
From Stdlib Require Import ZArith QArith Lia.
From S2P Require Import Prelude PyList Serializer SyncObj SyncObjLog SyncObjTheorems SyncObjLeader SyncObjCluster SyncObjMatching.
From S2P Require Import SyncObjAgreement SyncObjCallbacks SyncObjResults SyncObjPromises.
Local Open Scope Z_scope.

Module Values.

(** [setValue(value)] returns the value. *)
#[export] Instance value_machine : Machine Z Z Z := fun c x => (c, c).
#[export] Instance no_codec : Codec (dump Z Z) :=
  {| mem_dump _ := []; mem_load _ := Raise UnpicklingError;
     gz_dump _ := []; gz_load _ := Raise UnpicklingError |}.

Definition at_time (t : Q) : env Z := MkEnv t 0 (fun _ => true) 10 false 99 true true true true.
Abbreviation state := (SyncObj.t Z Z Z Z).
Abbreviation nodes3 := (world (A := Z) (C := Z) (X := Z) (F := Z)).
Definition three : nodes3 := start (F := Z) default_conf [1; 2; 3] 0 (fun _ => at_time 0).

(** Node 3 hands its command to the leader, node 1. *)
Definition actions : list (action (A := Z) (C := Z) (F := Z)) :=
  [ Tick 1 (at_time 10);                    (* 0: 1->2, 1: 1->3 request_vote *)
    Deliver 1 (at_time 10);                 (* 2: 3->1 response_vote *)
    Deliver 2 (at_time 10);                 (* 3: 1->2, 4: 1->3 append_entries *)
    Deliver 4 (at_time 10);                 (* 5: 3->1 next_node_idx *)
    Submit 3 5 (Local 5);
    Tick 3 (at_time 10);                    (* 6: 3->1 apply_command *)
    Deliver 6 (at_time 10);
    Tick 1 (at_time 11);                    (* 7, 8: heartbeats, 9: 1->3 apply_command_response *)
    Tick 1 (at_time 12);                    (* 10: 1->2, 11: 1->3 with the entry *)
    Deliver 9 (at_time 12);
    Deliver 11 (at_time 12);                (* 12: 3->1 next_node_idx *)
    Deliver 12 (at_time 12);
    Tick 1 (at_time 13);                    (* commits; 13: 1->2, 14: 1->3 *)
    Deliver 14 (at_time 13) ].

(** Nodes 1 and 2 lead the same term; each appends a command at index 2. *)
Definition rivals : list (action (A := Z) (C := Z) (F := Z)) :=
  [ Tick 1 (at_time 10);                    (* 0: 1->2, 1: 1->3 request_vote *)
    Tick 2 (at_time 10);                    (* 2: 2->1, 3: 2->3 request_vote *)
    Deliver 1 (at_time 10);                 (* 4: 3->1 response_vote *)
    Deliver 3 (at_time 10);                 (* 5: 3->2 response_vote *)
    Deliver 4 (at_time 10);                 (* 6: 1->2, 7: 1->3 append_entries *)
    Deliver 5 (at_time 10);                 (* 8: 2->1, 9: 2->3 append_entries *)
    Submit 1 1 (Local 1);
    Tick 1 (at_time 11);                    (* 10, 11: heartbeats *)
    Submit 2 2 (Local 2);
    Tick 2 (at_time 11);                    (* 12, 13: heartbeats *)
    Tick 2 (at_time 12);                    (* 14: 2->1, 15: 2->3 with the entry *)
    Deliver 15 (at_time 12);                (* 16: 3->2 next_node_idx *)
    Deliver 16 (at_time 12);
    Tick 2 (at_time 13);                    (* commits; 17: 2->1, 18: 2->3 *)
    Deliver 14 (at_time 13);                (* 19: 1->2 next_node_idx *)
    Deliver 17 (at_time 13) ].
End Values.
Import Values.

Definition fed_run : option nodes3 := run_fed (R := Z) default_conf (fun _ => 1) (fun f => f) actions three.
Definition answers_at (u : Z) (w : nodes3) : option (list (effect Z Z Z Z)) :=
  (fun s => effects (onTick default_conf (at_time 14) s)) <$> members w !! u.
Lemma fed_answers : fed_run ≫= answers_at 3 = Some [Callback 5 (Some 5) SUCCESS].
Proof. vm_compute. reflexivity. Qed.

Lemma success_is_own_result_witness : exists (w : nodes3) (s : state),
  fed_run = Some w /\ members w !! 3 = Some s /\
  (SUCCESS = SUCCESS /\ exists ds en, numbered (raftLastApplied s + 1) (ds ++ [en]) /\
    (forall d, d ∈ ds ++ [en] -> log_at (raftLog s) (logID d) = Some d) /\ command en = Some 5 /\
    5 = (doApply 5 (object_after (R := Z) (SyncObjAgreement.commands ds) (object s))).2).
Proof.
  pose proof fed_answers as Ha. destruct fed_run as [w|] eqn:Erun; [|discriminate]. cbn [mbind option_bind] in Ha. unfold answers_at in Ha.
  destruct (members w !! 3) as [s|] eqn:Es; [|discriminate]. apply (inj Some) in Ha. exists w, s. split; [reflexivity|]. split; [exact Es|].
  refine (success_is_own_result (R := Z) default_conf (fun _ => 1) (fun f => f) eq_refl [1; 2; 3] 0 (fun _ => at_time 0) w
    (run_fed_steps _ _ _ _ _ _ Erun) 3 s Es (onTick default_conf (at_time 14)) 5 5 SUCCESS (or_introl _) _);
    [eexists; reflexivity|]. rewrite Ha. left.
Defined.

(** The caller of [setValue(1)] on node 1 is told that it succeeded, with the
    result 2: both nodes lead term 1, node 2 overwrites the entry of node 1 by one
    of the same index and term, and the callback is not told from the other's. *)
Theorem wrong_result : exists acts (w : nodes3) (s : state),
  Forall (handed_in (fun f => f)) acts /\ run (R := Z) default_conf acts three = Some w /\ members w !! 1 = Some s /\
  effects (onTick (R := Z) default_conf (at_time 14) s) = [Callback 1 (Some 2) SUCCESS].
Proof.
  assert (E : run (R := Z) default_conf rivals three ≫= answers_at 1 = Some [Callback 1 (Some 2) SUCCESS]) by (vm_compute; reflexivity).
  exists rivals. destruct (run default_conf rivals three) as [w|] eqn:Erun; [|discriminate]. cbn [mbind option_bind] in E. unfold answers_at in E.
  destruct (members w !! 1) as [s|] eqn:Es; [|discriminate]. apply (inj Some) in E. exists w, s.
  split; [|split; [reflexivity|split; [exact Es|exact E]]]. repeat constructor.
Qed.

(** ** The life of one node *)
(** A follower hands a command to the leader and hears of the entry in time. *)
Definition follower_life (late : bool) : list (event (A := Z) (C := Z) (F := Z)) :=
  [ Receives (at_time 1) 1 (append_entries 1 1 [] (Some 1) (Some 0));
    Applies 5 (Local 5);
    Ticks (at_time 1) ] ++
  (if late then [] else [Receives (at_time 1) 1 (apply_command_response 1 2 1)]) ++
  [ Receives (at_time 1) 1 (append_entries 1 2 [MkEntry (Some 5) 2 1] (Some 1) (Some 0));
    Ticks (at_time 1) ] ++
  (if late then [Receives (at_time 1) 1 (apply_command_response 1 2 1)] else []).
Definition lived (late : bool) : state * list (effect Z Z Z Z) * bool :=
  life default_conf (follower_life late) (init default_conf 3 [1; 2] 0 None (at_time 0)).

Lemma callbacks_conserved_witness : exists s fx lost, lived false = (s, fx, false) /\ called fx = [5] /\
  [5] ≡ₚ called fx ++ held s ++ lost /\ (false = false -> lost = []).
Proof.
  assert (E : called (lived false).1.2 = [5] /\ (lived false).2 = false) by (split; vm_compute; reflexivity).
  destruct (lived false) as [[s fx] b] eqn:El. cbn in E. destruct E as [Ec ->]. exists s, fx.
  destruct (callbacks_conserved (R := Z) default_conf 3 [1; 2] 0 None (at_time 0) (follower_life false) s fx false El) as (lost & Hp & Hl).
  exists lost. split; [reflexivity|]. split; [exact Ec|]. split; [exact Hp|exact Hl].
Defined.

(** When the entry is applied before the leader's answer comes in, the assertion
    of the answer's handler takes the callback away: it is never called. *)
Theorem late_answer_loses : exists s fx, lived true = (s, fx, true) /\ called fx = [] /\ held s = [] /\ object s = 5.
Proof. eexists _, _. split; [vm_compute; reflexivity|]. vm_compute. done. Qed.
