(* ===== verification/SyncServer.v ===== *)
(** * A SyncObj with its sockets

    The core of SyncObj.v in the hub of Node.v: what the core sends goes through
    [Node.send] to the node with that address, [isConnected] is the status of
    that node, and a packet that a node reads goes to [_onMessageReceived].
    [server_tick] is the whole [_onTick].  What the outside answers is an
    [oracle]; it may depend on the server's state, and the clock is read once
    per event. *)
From stdpp Require Import base gmap sets list strings.
From Stdlib Require Import ZArith QArith Lia.
From S2P Require Import Prelude PyList PyExcept Connection Poller Resolver Node Serializer SyncObj.
Local Open Scope Z_scope.

Section server.
Context {C R X F P : Type} `{Machine C R X} `{Codec (dump C X)}.
Context `{Pickle (packet (message C))} `{Poller P subscriber}.
Context (conf : SyncObjConf).

Abbreviation obj := (SyncObj.t string C X F).
Abbreviation effect := (SyncObj.effect string C R F).
Abbreviation server := (hub P obj).
Abbreviation MS := (PyM server (io effect)).

Record oracle : Type := MkOracle {
  clock : Q;
  core_env : server -> env string;
  kernel : server -> nat -> Connection.send_result;
}.

(** [node.isConnected()] for the node with an address. *)
Definition is_connected (w : server) (a : string) : bool :=
  match node_at a (peers w) ≫= (fun k => peers w !! k) with
  | Some n => Node.isConnected n
  | None => false
  end.
Definition env_at (o : oracle) (w : server) : env string :=
  let e := core_env o w in
  MkEnv (clock o) (random e) (is_connected w) (rounds e) (waitpid_error e) (fork_pid e) (open_ok e)
    (read_ok e) (write_ok e) (rename_ok e).

(** [__send] *)
Definition send_message (o : oracle) (a : string) (m : message C) : MS unit :=
  let! w := py_get id in
  match node_at a (peers w) with
  | None => py_return tt
  | Some k => Node.send k (kernel o w) (clock o) (Message m) ;;! py_return tt
  end.

Definition perform (o : oracle) (ef : effect) : MS unit :=
  match ef with
  | Send a m => send_message o a m
  | Callback _ _ _ => py_emit [App ef]
  end.

(** A method of the core; nothing that it sends comes back to it before it ends. *)
Definition core_call (o : oracle) (m : env string -> PyM obj effect unit) : MS unit :=
  fun w =>
    let '(s, es, r) := m (env_at o w) (core w) in
    (py_for es (perform o) ;;! py_call (fun w => (w, r))) (set_core s w).

(** [_onMessageReceived(nodeAddr, message)]: a str has no ['type']. *)
Definition on_packet (o : oracle) (a : string) (p : packet (message C)) : MS unit :=
  match p with
  | Message m => core_call o (fun e => onMessageReceived conf e a m)
  | Address _ => py_raise TypeError
  end.

(** The events of a connected node, with what the kernel answers. *)
Definition node_event (o : oracle) (e : answers) (k : nat) (descr event : Z) : MS unit :=
  processConnection e (on_packet o) k descr event.

(** [for node in self.__nodes] *)
Definition nodes_of (ns : list Node.t) : list nat := fst <$> filter (fun x => Node.listed x.2 = true) (imap pair ns).

(** [_onTick]: the core, then the connections, then the poller. *)
Definition server_tick (o : oracle) (connects : nat -> bool * Z) (e : Z -> answers) (accept : accept_result)
    (events : list (Z * Z)) : MS unit :=
  core_call o (onTick conf) ;;!
  let! w := py_get id in
  py_for (nodes_of (peers w))
    (fun k => connectIfRequired k (connects k).1 (connects k).2 (clock o)) ;;!
  poll e accept (on_packet o) events.

(** [_applyCommand] *)
Definition server_apply (o : oracle) (c : C) (callback : origin string F) : MS unit :=
  core_call o (fun _ => applyCommand conf c callback).

End server.
Arguments oracle C X F P : clear implicits.
