(* ===== verification/SyncTransport.v ===== *)
(** * What a server with its sockets puts on its connections

    A server all of whose nodes are connected and whose sockets answer without
    errors: what its core sends to a node comes out of the node's buffer in order
    ([core_call_moves]), and what arrives goes to the core in order
    ([receive_moves]). *)
From stdpp Require Import base gmap sets list strings.
From Stdlib Require Import ZArith QArith Lia.
From S2P Require Import Prelude PyList PyExcept Connection ConnectionTheorems Poller Resolver Node NodeTheorems NodeHandshake Serializer SyncObj SyncServer.
Local Open Scope Z_scope.
Import POLL_EVENT_TYPE.

Section links.
Context {C R X F P : Type} `{Machine C R X} `{Codec (dump C X)}.
Context `{PickleLaws (packet (message C))} `{PollerLaws P subscriber}.
Context (conf : SyncObjConf).
Abbreviation obj := (SyncObj.t string C X F).
Abbreviation effect := (SyncObj.effect string C R F).
Abbreviation server := (hub P obj).
Abbreviation MS := (PyM server (io effect)).
Implicit Types (w : server) (ns : list Node.t) (es : list (io effect)) (ps : list (string * message C)).

(** What a method that only sends leaves as it is. *)
Definition static (n : Node.t) : string * bool * NODE_STATUS * (option Z * Q * Q) * bool * bytes :=
  (Node.nodeAddr n, Node.listed n, Node.status n, identity (Node.conn n), Connection.disconnected (Node.conn n),
   Connection.readBuffer (Node.conn n)).

(** Every node is connected, on a descriptor of its own. *)
Definition link_ok ns (k : nat) (n : Node.t) : Prop :=
  Node.status n = CONNECTED /\ Connection.disconnected (Node.conn n) = false /\
  (0 <= Connection.timeout (Node.conn n))%Q /\ node_at (Node.nodeAddr n) ns = Some k /\
  exists d, Connection.fileno (Node.conn n) = Some d /\
    forall j m, ns !! j = Some m -> Connection.fileno (Node.conn m) = Some d -> j = k.
Definition links_ok ns : Prop := forall k n, ns !! k = Some n -> link_ok ns k n.
Definition alive (t : Q) ns : Prop :=
  forall k n, ns !! k = Some n -> Connection.isDisconnected t (Node.conn n) = false.

(** The bytes for a descriptor, and the bytes for a node. *)
Definition sent_on (d : Z) es : bytes :=
  es ≫= fun x => match x with Wire d' bs => if decide (d' = d) then bs else [] | _ => [] end.
Definition packets_for (a : string) ps : list (packet (message C)) :=
  Message <$> (filter (fun p => p.1 = a) ps).*2.

(** [ns] becomes [ns'] by sending [ps], with [es] on the wire. *)
Record moves ns es ns' ps : Prop := {
  moves_static : static <$> ns' = static <$> ns;
  moves_bytes k n n' d : ns !! k = Some n -> ns' !! k = Some n' -> Connection.fileno (Node.conn n) = Some d ->
    sent_on d es ++ Connection.writeBuffer (Node.conn n') =
    Connection.writeBuffer (Node.conn n) ++ stream (packets_for (Node.nodeAddr n) ps);
  moves_fit a m : (a, m) ∈ ps -> is_Some (node_at a ns) -> fits (Message m);
}.

(** ** What depends on [static] only *)
Lemma static_lookup ns ns' k n' : static <$> ns' = static <$> ns -> ns' !! k = Some n' ->
  exists n, ns !! k = Some n /\ static n = static n'.
Proof.
  intros Hs Hn. apply (f_equal (.!! k)) in Hs. rewrite !list_lookup_fmap, Hn in Hs.
  destruct (ns !! k) as [n|]; cbn in Hs; [|discriminate Hs]. exists n. split; [done|congruence].
Qed.
Lemma node_at_addrs a ns : node_at a ns = fst <$> list_find (fun b => b.2 = true /\ b.1 = a) ((fun n => (Node.nodeAddr n, Node.listed n)) <$> ns).
Proof. unfold node_at. rewrite list_find_fmap. by destruct (list_find _ ns) as [[]|]. Qed.
Lemma static_node_at a ns ns' : static <$> ns' = static <$> ns -> node_at a ns' = node_at a ns.
Proof.
  intros Hs. rewrite !node_at_addrs. do 2 f_equal.
  apply (f_equal (fmap (fun x : string * bool * NODE_STATUS * (option Z * Q * Q) * bool * bytes => x.1.1.1.1))) in Hs.
  by rewrite <-!list_fmap_compose in Hs.
Qed.
Lemma static_links ns ns' : static <$> ns' = static <$> ns -> links_ok ns -> links_ok ns'.
Proof.
  intros Hs Hok k n' Hn'. destruct (static_lookup _ _ _ _ Hs Hn') as (n & Hn & E).
  destruct (Hok k n Hn) as (Hst & Hd & Ht & Ha & d & Hf & Hu). injection E as Ea Eb Est Ef El Et Ed Er.
  split_and!; [congruence|congruence|by rewrite <-Et|by rewrite (static_node_at _ _ _ Hs), <-Ea|].
  exists d. split; [congruence|]. intros j m' Hm' Hmd. destruct (static_lookup _ _ _ _ Hs Hm') as (m & Hm & E).
  injection E as _ _ _ Efm _ _ _ _. apply (Hu j m Hm). congruence.
Qed.
Lemma static_alive t ns ns' : static <$> ns' = static <$> ns -> alive t ns -> alive t ns'.
Proof.
  intros Hs Ha k n' Hn'. destruct (static_lookup _ _ _ _ Hs Hn') as (n & Hn & E).
  rewrite <-(Ha k n Hn). injection E as _ _ _ Ef El Et Ed _. unfold Connection.isDisconnected. by rewrite Ed, El, Et.
Qed.

Lemma sent_on_app d es es' : sent_on d (es ++ es') = sent_on d es ++ sent_on d es'.
Proof. apply bind_app. Qed.
Lemma packets_for_app a ps ps' : packets_for a (ps ++ ps') = packets_for a ps ++ packets_for a ps'.
Proof. unfold packets_for. by rewrite filter_app, !fmap_app. Qed.
Lemma sent_on_wire d d' bs : sent_on d [Wire d' bs] = if decide (d' = d) then bs else [].
Proof. unfold sent_on. by rewrite bind_singleton. Qed.
Lemma packets_for_node a (ms : list (message C)) : packets_for a (pair a <$> ms) = Message <$> ms.
Proof.
  unfold packets_for. induction ms as [|m ms IH]; [done|].
  rewrite fmap_cons, filter_cons_True by done. rewrite !fmap_cons. by f_equal.
Qed.
Lemma packets_for_others a b (ms : list (message C)) : a <> b -> packets_for b (pair a <$> ms) = [].
Proof.
  intros Hab. unfold packets_for. induction ms as [|m ms IH]; [done|]. by rewrite fmap_cons, filter_cons_False.
Qed.
Lemma stream_app (ms ms' : list (packet (message C))) : stream (ms ++ ms') = stream ms ++ stream ms'.
Proof. apply bind_app. Qed.

Lemma moves_refl ns : moves ns [] ns [].
Proof.
  split; [done| |by intros a m ?%elem_of_nil].
  intros k n n' d Hn Hn' _. assert (n' = n) as -> by congruence. by rewrite app_nil_r.
Qed.
Lemma moves_trans ns es ns' ps es' ns'' ps' :
  moves ns es ns' ps -> moves ns' es' ns'' ps' -> moves ns (es ++ es') ns'' (ps ++ ps').
Proof.
  intros [Hs Hb Hf] [Hs' Hb' Hf']. split; [congruence| |].
  - intros k n n'' d Hn Hn'' Hd. destruct (static_lookup _ _ _ _ Hs' Hn'') as (n' & Hn' & E').
    destruct (static_lookup _ _ _ _ Hs Hn') as (n0 & Hn0 & E). assert (n0 = n) as -> by congruence.
    injection E as Ea _ _ Ed _ _ _ _. rewrite packets_for_app, stream_app, sent_on_app, <-(app_assoc (sent_on d es)).
    rewrite (Hb' k n' n'' d Hn' Hn'') by congruence. rewrite app_assoc, (Hb k n n' d Hn Hn' Hd), <-app_assoc.
    by rewrite Ea.
  - intros a m [Hp|Hp]%elem_of_app Ha; [by eapply Hf|]. eapply Hf'; [done|]. by rewrite (static_node_at _ _ _ Hs).
Qed.
(** An effect that is no bytes. *)
Lemma moves_app ns ef : moves ns [App ef] ns [].
Proof. destruct (moves_refl ns). by split. Qed.

(** ** Sending *)
Lemma send_too_long k kernel m w n : peers w !! k = Some n -> Node.status n = CONNECTED ->
  ~ fits (Message m) -> forall t, result (Node.send (Eff := effect) k kernel t (Message m) w) = Raise StructError.
Proof.
  intros Hn Hst Hf t. unfold Node.send, conn_send, self. unfold py_bind, py_call. rewrite Hn, Hst.
  cbn. rewrite Hn. cbn. assert (Connection.frame (Message m) = None) as E.
  { unfold Connection.frame, pack_i. unfold fits in Hf. rewrite (proj2 (Z.ltb_ge _ (2 ^ 31))) by lia.
    by rewrite andb_false_r. }
  unfold Connection.send. by rewrite E.
Qed.

(** One node's buffer goes to the wire, after [ms], which is for this node. *)
Lemma moves_one ns k n d c sent (ms : list (message C)) :
  links_ok ns -> ns !! k = Some n -> Connection.fileno (Node.conn n) = Some d ->
  identity c = identity (Node.conn n) -> Connection.disconnected c = Connection.disconnected (Node.conn n) ->
  Connection.readBuffer c = Connection.readBuffer (Node.conn n) ->
  sent ++ Connection.writeBuffer c = Connection.writeBuffer (Node.conn n) ++ stream (Message <$> ms) ->
  Forall (fun m => fits (Message m)) ms ->
  moves ns [Wire d sent] (<[k := Node.set_conn c n]> ns) (pair (Node.nodeAddr n) <$> ms).
Proof.
  intros Hok Hn Hd Hid Hdis Hr Hs Hf. destruct (Hok k n Hn) as (_ & _ & _ & Ha & d0 & Hd0 & Hu).
  assert (d0 = d) as -> by congruence. split.
  - rewrite list_fmap_insert. apply list_insert_id. rewrite list_lookup_fmap, Hn. cbn [fmap option_fmap option_map].
    unfold static. cbn. by rewrite Hid, Hdis, Hr.
  - intros j n1 n2 d' Hn1 Hn2 Hd'. rewrite sent_on_wire. destruct (decide (j = k)) as [->|Hj].
    + rewrite list_lookup_insert_eq in Hn2 by (by eapply lookup_lt_Some). injection Hn2 as <-.
      assert (n1 = n) as -> by congruence. rewrite decide_True by congruence. by rewrite packets_for_node.
    + rewrite list_lookup_insert_ne in Hn2 by done. assert (n2 = n1) as -> by congruence.
      rewrite decide_False by (intros ->; by apply Hj, (Hu j n1)).
      rewrite packets_for_others; [by rewrite app_nil_r|].
      intros E. destruct (Hok j n1 Hn1) as (_ & _ & _ & Ha1 & _). congruence.
  - intros a m (m' & Hin & Hm)%list_elem_of_fmap _. injection Hin as -> ->. by eapply Forall_forall in Hf.
Qed.

Lemma send_moves k kernel m w n t :
  peers w !! k = Some n -> links_ok (peers w) -> alive t (peers w) -> healthy kernel -> fits (Message m) ->
  exists ns es, Node.send (Eff := effect) k kernel t (Message m) w = (set_peers ns w, es, Ret true) /\
    moves (peers w) es ns [(Node.nodeAddr n, m)].
Proof.
  intros Hn Hok Ht Hker Hm. destruct (Hok k n Hn) as (Hst & _ & _ & _ & d & Hd & _).
  assert (k < length (peers w))%nat as Hk by (by eapply lookup_lt_Some).
  destruct (run_conn_send (Eff := effect) k w Hk kernel (Message m) n d Hd Hker Hm) as (c & sent & Hrun & Hs & Hid & Hdis & Hr).
  exists (<[k := Node.set_conn c n]> (peers w)), [Wire d sent]. split.
  - unfold Node.send. rewrite <-(put_self k n w Hn) at 1. rewrite bind_self, Hst by done.
    etrans; [eapply bind_run; [exact Hrun|]|].
    + rewrite bind_self by done. simpl. rewrite (isDisconnected_same _ _ _ Hid Hdis), (Ht k n Hn). reflexivity.
    + by rewrite app_nil_r.
  - apply (moves_one _ _ _ _ _ _ [m]); auto.
    change (Message <$> [m]) with [Message m]. unfold stream. by rewrite bind_singleton.
Qed.

(** ** What the core sends *)
Definition sends (l : list effect) : list (string * message C) :=
  omap (fun ef => match ef with Send a m => Some (a, m) | Callback _ _ _ => None end) l.

(** No socket is in error. *)
Definition sound (o : oracle C X F P) : Prop := forall w, healthy (kernel o w).
(** A message of 2 GiB or more was to be sent. *)
Abbreviation too_long x := (result x = Raise StructError).

Lemma node_at_addr a ns k n : node_at a ns = Some k -> ns !! k = Some n -> Node.nodeAddr n = a.
Proof.
  unfold node_at. intros ([j n'] & Hf & ->)%fmap_Some Hn. apply list_find_Some in Hf as (Hj & [_ Ha] & _).
  simpl in *. by assert (n' = n) as -> by congruence.
Qed.

(** A message for somebody who is no node. *)
Lemma moves_nobody ns a m : links_ok ns -> node_at a ns = None -> moves ns [] ns [(a, m)].
Proof.
  intros Hok Ha. split; [done| |].
  - intros k n n' d Hn Hn' _. assert (n' = n) as -> by congruence. rewrite (packets_for_others a _ [m]); [by rewrite app_nil_r|].
    intros ->. destruct (Hok k n Hn) as (_ & _ & _ & Hk & _). congruence.
  - intros b m' Hin%list_elem_of_singleton [k Hk]. injection Hin as -> ->. congruence.
Qed.

Lemma set_peers_same w : set_peers (peers w) w = w.
Proof. by destruct w. Qed.

Lemma send_message_moves o a m w :
  sound o -> links_ok (peers w) -> alive (clock o) (peers w) ->
  too_long (send_message (R := R) o a m w) \/
  exists ns es, send_message (R := R) o a m w = (set_peers ns w, es, Ret tt) /\ moves (peers w) es ns [(a, m)].
Proof.
  intros Ho Hok Ht. unfold send_message. rewrite bind_get. unfold id.
  destruct (node_at a (peers w)) as [k|] eqn:Ea.
  - destruct (node_at_lookup _ _ _ Ea) as [n Hn]. destruct (decide (py_len (encode (Message m)) < 2 ^ 31)) as [Hm|Hm].
    + destruct (send_moves k (kernel o w) m w n (clock o)) as (ns & es & E & Hmv); [done..|].
      right. exists ns, es. rewrite (node_at_addr _ _ _ _ Ea Hn) in Hmv. split; [|done].
      etrans; [by eapply bind_run; [exact E|]|]. by rewrite app_nil_r.
    + left. destruct (Hok k n Hn) as (Hst & _). by eapply bind_raises, send_too_long.
  - right. exists (peers w), []. split; [by rewrite set_peers_same|by apply moves_nobody].
Qed.

Lemma perform_moves o l w :
  sound o -> links_ok (peers w) -> alive (clock o) (peers w) ->
  too_long (py_for l (perform (R := R) o) w) \/
  exists ns es, py_for l (perform (R := R) o) w = (set_peers ns w, es, Ret tt) /\ moves (peers w) es ns (sends l).
Proof.
  intros Ho. revert w. induction l as [|ef l IH]; intros w Hok Ht.
  { right. exists (peers w), []. split; [by rewrite set_peers_same|apply moves_refl]. }
  cbn [py_for].
  assert (too_long (perform (R := R) o ef w) \/ exists ns es,
    perform (R := R) o ef w = (set_peers ns w, es, Ret tt) /\ moves (peers w) es ns (sends [ef])) as Hef.
  { destruct ef as [a m|f r e]; [by apply send_message_moves|].
    right. exists (peers w), [App (Callback f r e)]. split; [by rewrite set_peers_same|apply moves_app]. }
  destruct Hef as [Hl|(ns & es & E & Hm)].
  { left. by apply bind_raises. }
  destruct (IH (set_peers ns w)) as [Hl|(ns' & es' & E' & Hm')].
  { apply (static_links _ _ (moves_static _ _ _ _ Hm) Hok). }
  { apply (static_alive _ _ _ (moves_static _ _ _ _ Hm) Ht). }
  - left. unfold py_bind, result in *. rewrite E. by destruct (py_for l (perform o) (set_peers ns w)) as [[w' es'] [[]|e]].
  - right. exists ns', (es ++ es'). split; [by erewrite bind_run; [|exact E|exact E']|].
    change (ef :: l) with ([ef] ++ l). unfold sends at 1. rewrite omap_app. by eapply moves_trans.
Qed.

(** A method of the core: its state, then its messages on the connections. *)
Lemma core_call_moves o m w :
  sound o -> links_ok (peers w) -> alive (clock o) (peers w) ->
  let x := m (env_at o w) (core w) in
  too_long (core_call (R := R) o m w) \/
  exists ns es, core_call o m w = (set_peers ns (set_core (post x) w), es, result x) /\
    moves (peers w) es ns (sends (effects x)).
Proof.
  intros Ho Hok Ht x. unfold core_call. destruct (m (env_at o w) (core w)) as [[s l] r] eqn:Ex.
  destruct (perform_moves o l (set_core s w) Ho Hok Ht) as [Hl|(ns & es & E & Hm)].
  - left. by apply bind_raises.
  - right. exists ns, es. subst x. cbn. split; [|done].
    unfold py_bind. rewrite E. unfold py_call. by rewrite app_nil_r.
Qed.

(** ** What the core receives *)

(** The core's [_onMessageReceived] for messages from [a], each at its moment. *)
Fixpoint deliver_all (a : string) (l : list (env string * message C)) (s : obj) : obj * list effect :=
  match l with
  | [] => (s, [])
  | (e, m) :: l =>
      let x := onMessageReceived conf e a m s in
      let '(s', es) := deliver_all a l (post x) in (s', effects x ++ es)
  end.

(** Node [k] has [b] in its read buffer. *)
Definition with_read (k : nat) (b : bytes) ns : list Node.t :=
  alter (fun n => Node.set_conn (Connection.set_readBuffer b (Node.conn n)) n) k ns.

Lemma with_read_lookup k b ns j : with_read k b ns !! j =
  (fun n => if decide (j = k) then Node.set_conn (Connection.set_readBuffer b (Node.conn n)) n else n) <$> ns !! j.
Proof.
  unfold with_read. rewrite list_lookup_alter. destruct (ns !! j) eqn:E; repeat case_decide; subst; by rewrite ?E.
Qed.
Lemma with_read_with_read k b b' ns : with_read k b (with_read k b' ns) = with_read k b ns.
Proof.
  apply list_eq. intros j. rewrite !with_read_lookup. destruct (ns !! j); [|done]. cbn. by destruct (decide _).
Qed.
Lemma with_read_node_at k b a ns : node_at a (with_read k b ns) = node_at a ns.
Proof.
  rewrite !node_at_addrs. do 2 f_equal. apply list_eq. intros i.
  rewrite !list_lookup_fmap, with_read_lookup. destruct (ns !! i); [|done]. cbn. by destruct (decide _).
Qed.
Lemma with_read_same k n ns : ns !! k = Some n -> with_read k (Connection.readBuffer (Node.conn n)) ns = ns.
Proof.
  intros Hn. apply list_eq. intros j. rewrite with_read_lookup. destruct (ns !! j) as [n'|] eqn:E; [|done].
  cbn. f_equal. case_decide; [|done]. subst j. assert (n' = n) as -> by congruence. by destruct n as [? ? ? []].
Qed.
Lemma with_read_links k b ns : links_ok ns -> links_ok (with_read k b ns).
Proof.
  intros Hok j n'. rewrite with_read_lookup. intros (n & Hn & ->)%fmap_Some.
  destruct (Hok j n Hn) as (Hst & Hd & Ht & Ha & d & Hf & Hu).
  assert (forall i m', with_read k b ns !! i = Some m' -> Connection.fileno (Node.conn m') = Some d -> i = j) as Hu'.
  { intros i m'. rewrite with_read_lookup. intros (m & Hm & ->)%fmap_Some Hmd. apply (Hu i m Hm).
    by destruct (decide _). }
  unfold link_ok. rewrite with_read_node_at. destruct (decide (j = k)); split_and!; eauto.
Qed.
Lemma with_read_alive k b t ns : alive t ns -> alive t (with_read k b ns).
Proof.
  intros Ha j n'. rewrite with_read_lookup. intros (n & Hn & ->)%fmap_Some. rewrite <-(Ha j n Hn).
  by destruct (decide _).
Qed.

(** The read buffers do not matter to what is sent. *)
Lemma moves_with_read k b ns es ns' ps : moves ns es ns' ps -> moves (with_read k b ns) es (with_read k b ns') ps.
Proof.
  intros [Hs Hb Hf]. split.
  - apply list_eq. intros j. rewrite !list_lookup_fmap, !with_read_lookup.
    apply (f_equal (.!! j)) in Hs. rewrite !list_lookup_fmap in Hs.
    destruct (ns !! j) as [n|], (ns' !! j) as [n'|]; try done. cbn in *. f_equal.
    injection Hs as E1 E2 E3 E4 E5 E6 E7 E8. unfold static. by destruct (decide _); cbn; unfold identity; cbn; congruence.
  - intros j n1 n2 d. rewrite !with_read_lookup. intros (n & Hn & ->)%fmap_Some (n' & Hn' & ->)%fmap_Some Hd.
    specialize (Hb j n n' d Hn Hn'). destruct (decide (j = k)); by apply Hb.
  - intros a m Hp Ha. apply (Hf a m Hp). by rewrite with_read_node_at in Ha.
Qed.

(** Nothing has arrived that is a whole message. *)
Lemma receive_stops handle k fuel w n :
  peers w !! k = Some n ->
  Connection.getMessage (Msg := packet (message C)) (Node.conn n) = (Node.conn n, Ret None) ->
  receive_loop handle k (S fuel) w = (w, [], Ret true) :> _ * list (io effect) * _.
Proof.
  intros Hn Hg. assert (k < length (peers w))%nat as Hk by (by eapply lookup_lt_Some).
  cbn [receive_loop]. apply bind_pure with (s' := w) (a := None). unfold conn_getMessage.
  rewrite <-(put_self k n w Hn) at 1. rewrite bind_self, Hg, bind_set_self by done.
  assert (Node.set_conn (Node.conn n) n = n) as -> by by destruct n. by rewrite put_self.
Qed.

(** The next message goes to the handler. *)
Lemma receive_next handle k fuel w n p rest' :
  peers w !! k = Some n ->
  Connection.getMessage (Node.conn n) = (Connection.set_readBuffer rest' (Node.conn n), Ret (Some p)) ->
  receive_loop handle k (S fuel) w =
    (handle (Node.nodeAddr n) p ;;! receive_loop handle k fuel) (set_peers (with_read k rest' (peers w)) w)
    :> _ * list (io effect) * _.
Proof.
  intros Hn Hg. assert (k < length (peers w))%nat as Hk by (by eapply lookup_lt_Some).
  set (n1 := Node.set_conn (Connection.set_readBuffer rest' (Node.conn n)) n).
  assert (set_peers (with_read k rest' (peers w)) w = put k n1 w) as ->.
  { unfold put. f_equal. apply list_eq. intros j. rewrite with_read_lookup.
    destruct (decide (j = k)) as [->|Hj].
    - rewrite list_lookup_insert_eq, Hn by done. simpl. by destruct (decide (k = k)).
    - rewrite list_lookup_insert_ne by done. destruct (peers w !! j); [|done]. simpl. by destruct (decide (j = k)). }
  cbn [receive_loop]. etrans; [apply bind_pure with (s' := put k n1 w) (a := Some p)|].
  - unfold conn_getMessage. rewrite <-(put_self k n w Hn) at 1. rewrite bind_self, Hg, bind_set_self by done. done.
  - by rewrite bind_self by done.
Qed.

(** The read loop hands the messages that have arrived to the core, in order. *)
Lemma receive_moves o k fuel w n pending rest :
  sound o -> links_ok (peers w) -> alive (clock o) (peers w) -> peers w !! k = Some n ->
  Forall (fun m => fits (Message m)) pending ->
  Connection.readBuffer (Node.conn n) ++ rest = stream (Message <$> pending) ->
  let x := receive_loop (on_packet conf o) k fuel w : _ * list (io effect) * _ in
  too_long x \/
  exists l pending' b ns s fx, pending = l.*2 ++ pending' /\
    deliver_all (Node.nodeAddr n) l (core w) = (s, fx) /\ post x = set_peers ns (set_core s w) /\
    moves (with_read k b (peers w)) (effects x) ns (sends fx) /\ b ++ rest = stream (Message <$> pending').
Proof.
  intros Ho Hok Ht Hn Hfit Hbuf. revert w n pending Hok Ht Hn Hfit Hbuf.
  induction fuel as [|fuel IH]; intros w n pending Hok Ht Hn Hfit Hbuf.
  all: assert (exists l pending' b ns s fx, pending = l.*2 ++ pending' /\
    deliver_all (Node.nodeAddr n) l (core w) = (s, fx) /\ w = set_peers ns (set_core s w) /\
    moves (with_read k b (peers w)) [] ns (sends fx) /\ b ++ rest = stream (Message <$> pending')) as Hstay
    by (exists [], pending, (Connection.readBuffer (Node.conn n)), (peers w), (core w), [];
        rewrite (with_read_same k n) by done; split_and!; [done|done|by destruct w|apply moves_refl|done]).
  { by right. }
  destruct Hfit as [|m pending Hm Hfit].
  { apply app_nil in Hbuf as [Hb ->].
    rewrite (receive_stops _ k fuel w n Hn); [by right|]. unfold Connection.getMessage. by rewrite Hb. }
  change (stream (Message <$> m :: pending)) with (frame_bytes (Message m) ++ stream (Message <$> pending)) in Hbuf.
  destruct (getMessage_next _ _ _ _ Hm Hbuf) as [[Hg _]|(rest' & _ & Hrest & Hg)].
  { rewrite (receive_stops _ k fuel w n Hn Hg). by right. }
  clear Hstay. rewrite (receive_next _ k fuel w n _ _ Hn Hg). set (w1 := set_peers (with_read k rest' (peers w)) w).
  destruct (core_call_moves o (fun e => onMessageReceived conf e (Node.nodeAddr n) m) w1 Ho) as [Hl|(ns & es & E & Hmv)];
    [by apply with_read_links|by apply with_read_alive|left; by apply bind_raises|].
  set (x1 := onMessageReceived conf (env_at o w1) (Node.nodeAddr n) m (core w1)) in *.
  destruct (static_lookup _ _ k (Node.set_conn (Connection.set_readBuffer rest' (Node.conn n)) n)
    (eq_sym (moves_static _ _ _ _ Hmv))) as (n2 & Hn2 & Es).
  { simpl. rewrite with_read_lookup, Hn. simpl. by destruct (decide (k = k)). }
  injection Es as Ea _ _ _ _ _ _ Er. cbn in Er.
  destruct (result x1) as [[]|er] eqn:Er1; cycle 1.
  { right. exists [(env_at o w1, m)], pending, rest', ns, (post x1), (effects x1 ++ []).
    unfold py_bind. cbn [on_packet]. rewrite E. split_and!; [done..| |done]. by rewrite app_nil_r. }
  destruct (bind_parts (on_packet conf o (Node.nodeAddr n) (Message m)) (fun _ => receive_loop (on_packet conf o) k fuel)
    w1 _ _ _ E) as (Hr & Hp & He).
  destruct (IH (set_peers ns (set_core (post x1) w1)) n2 pending) as [Hl|(l & pending' & b & ns' & s & fx & -> & Ed & Ep & Hmv' & Hb)].
  { apply (static_links _ _ (moves_static _ _ _ _ Hmv)). by apply with_read_links. }
  { apply (static_alive _ _ _ (moves_static _ _ _ _ Hmv)). by apply with_read_alive. }
  { done. }
  { done. }
  { by rewrite Er. }
  - left. by rewrite Hr.
  - right. exists ((env_at o w1, m) :: l), pending', b, ns', s, (effects x1 ++ fx). split; [done|].
    change (core w1) with (core w) in *. rewrite Ea in Ed. cbn [deliver_all]. fold x1. cbn in Ed. rewrite Ed.
    rewrite Hp, He. split_and!; [done|exact Ep| |done]. unfold sends. rewrite omap_app. eapply moves_trans; [|exact Hmv'].
    rewrite <-(with_read_with_read k b rest'). by apply moves_with_read.
Qed.

(** ** The events of a connected node *)
Lemma links_insert ns k n c :
  links_ok ns -> ns !! k = Some n -> Connection.fileno c = Connection.fileno (Node.conn n) ->
  Connection.disconnected c = Connection.disconnected (Node.conn n) ->
  Connection.timeout c = Connection.timeout (Node.conn n) -> links_ok (<[k := Node.set_conn c n]> ns).
Proof.
  intros Hok Hn Hf Hd Ht.
  assert (forall j m', <[k := Node.set_conn c n]> ns !! j = Some m' -> exists m, ns !! j = Some m /\
    Node.nodeAddr m' = Node.nodeAddr m /\ Node.status m' = Node.status m /\
    Connection.fileno (Node.conn m') = Connection.fileno (Node.conn m) /\
    Connection.disconnected (Node.conn m') = Connection.disconnected (Node.conn m) /\
    Connection.timeout (Node.conn m') = Connection.timeout (Node.conn m)) as Hl.
  { intros j m' Hm'. destruct (decide (j = k)) as [->|Hj].
    - rewrite list_lookup_insert_eq in Hm' by (by eapply lookup_lt_Some). injection Hm' as <-. by exists n.
    - rewrite list_lookup_insert_ne in Hm' by done. by exists m'. }
  assert (forall a, node_at a (<[k := Node.set_conn c n]> ns) = node_at a ns) as Hat.
  { intros a. rewrite !node_at_addrs, list_fmap_insert. do 2 f_equal. apply list_insert_id.
    by rewrite list_lookup_fmap, Hn. }
  intros j m' (m & Hm & E1 & E2 & E3 & E4 & E5)%Hl. destruct (Hok j m Hm) as (Hst & Hdm & Htm & Ha & d & Hfd & Hu).
  split_and!; [congruence|congruence|by rewrite E5|by rewrite Hat, E1|].
  exists d. split; [congruence|]. intros i p' (p & Hp & _ & _ & Ep & _)%Hl Hpd. apply (Hu i p Hp). congruence.
Qed.

Lemma not_introduced e k w n : (k < length (peers w))%nat -> Node.status n = CONNECTED ->
  introduce e k (put k n w) = (put k n w, [], Ret tt) :> _ * list (io effect) * _.
Proof. intros Hk Hst. unfold introduce. by rewrite bind_self, Hst. Qed.

(** Bytes arrive: they are appended to the read buffer, and the loop runs. *)
Lemma read_event e handle k n d w chunk :
  links_ok (peers w) -> alive (Node.now e) (peers w) -> peers w !! k = Some n ->
  Connection.fileno (Node.conn n) = Some d -> so_error e = false -> recv_so_error e = false ->
  recv e = Connection.Received chunk -> chunk <> [] ->
  let c := Connection.set_readBuffer (Connection.readBuffer (Node.conn n) ++ chunk)
             (Connection.set_lastReadTime (Node.now e) (Node.conn n)) in
  let w1 := set_peers (<[k := Node.set_conn c n]> (peers w)) w in
  processConnection e handle k d READ w =
    (receive_loop handle k (loop_fuel (Node.set_conn c n)) ;;! py_return tt) w1 :> _ * list (io effect) * _ /\
  links_ok (peers w1) /\ alive (Node.now e) (peers w1) /\ peers w1 !! k = Some (Node.set_conn c n).
Proof.
  intros Hok Ht Hn Hd Hso Hrso Hrecv Hne c w1. assert (k < length (peers w))%nat as Hk by (by eapply lookup_lt_Some).
  destruct (Hok k n Hn) as (Hst & _ & Htime & _). split_and!.
  - unfold processConnection. rewrite <-(put_self k n w Hn) at 1. rewrite bind_self, decide_True by done.
    rewrite Hso. change (has READ READ) with true. change (has READ WRITE) with false. change (has READ ERROR) with false.
    cbn [orb]. etrans; [apply bind_pure with (s' := put k n w) (a := false)|].
    { by rewrite (bind_pure _ _ _ _ _ (not_introduced e k w n Hk Hst)). }
    rewrite bind_self by done. cbn [orb]. rewrite (Ht k n Hn). rewrite (bind_pure _ _ _ _ tt) by done.
    unfold on_readable, conn_read. etrans; [apply bind_pure with (s' := w1) (a := true)|].
    { rewrite bind_self by done. unfold Connection.read. rewrite Hrecv, Hrso. destruct chunk; [done|].
      by rewrite bind_set_self by done. }
    change w1 with (put k (Node.set_conn c n) w). by rewrite bind_self by done.
  - by apply links_insert.
  - intros j m. simpl. destruct (decide (j = k)) as [->|Hj].
    + rewrite list_lookup_insert_eq by done. intros [= <-]. destruct (Hok k n Hn) as (_ & Hdis & _).
      unfold Connection.isDisconnected. simpl. rewrite Hdis. simpl. apply negb_false_iff, Qle_bool_iff.
      unfold Qminus. by rewrite Qplus_opp_r.
    + rewrite list_lookup_insert_ne by done. apply Ht.
  - by apply list_lookup_insert_eq.
Qed.

(** The socket takes bytes. *)
Lemma write_event e handle k n d w :
  links_ok (peers w) -> alive (Node.now e) (peers w) -> peers w !! k = Some n ->
  Connection.fileno (Node.conn n) = Some d -> so_error e = false -> healthy (rest e) ->
  let x := processConnection e handle k d WRITE w : _ * list (io effect) * _ in
  result x = Ret tt /\ core (post x) = core w /\ moves (peers w) (effects x) (peers (post x)) [].
Proof.
  intros Hok Ht Hn Hd Hso Hker x. assert (k < length (peers w))%nat as Hk by (by eapply lookup_lt_Some).
  destruct (Hok k n Hn) as (Hst & _ & _).
  destruct (run_on_writable (Eff := effect) k w Hk e n d Hst Hd Hker (Ht k n Hn)) as (c & sent & Hrun & Hs & Hid & Hdis & Hr).
  assert (x = (post (on_writable (Eff := effect) e k d (put k n w)), [Wire d sent], Ret tt)) as ->.
  { subst x. unfold processConnection. rewrite <-(put_self k n w Hn) at 1. rewrite bind_self, decide_True by done.
    rewrite Hso. change (has WRITE READ) with false. change (has WRITE WRITE) with true. change (has WRITE ERROR) with false.
    cbn [orb]. etrans; [apply bind_pure with (s' := put k n w) (a := false)|].
    { by rewrite (bind_pure _ _ _ _ _ (not_introduced e k w n Hk Hst)). }
    rewrite bind_self by done. cbn [orb]. rewrite (Ht k n Hn). rewrite Hrun.
    etrans; [eapply bind_run; [exact Hrun|reflexivity]|]. done. }
  rewrite Hrun. split_and!; [done..|]. apply (moves_one _ _ _ _ _ _ []); auto. by rewrite app_nil_r.
Qed.
End links.
