(* ===== verification/SyncSystem.v ===== *)
(** * Servers that talk over sockets implement the network of SyncObjCluster.v

    Servers of SyncServer.v whose connections stand, and the bytes that are on
    the way between them.  Every run is a run of the cores over the abstract
    network, in which between any two servers the messages are delivered in the
    order of sending, each once, and those not yet delivered are in the buffers
    and on the way ([sockets_refine_network]). *)
From stdpp Require Import base gmap sets list strings relations.
From Stdlib Require Import ZArith QArith Lia.
From S2P Require Import Prelude PyList PyExcept Connection ConnectionTheorems Poller Resolver Node NodeTheorems NodeHandshake Serializer SyncObj SyncObjCluster SyncServer SyncTransport.
Local Open Scope Z_scope.
Import POLL_EVENT_TYPE.

Section system.
Context {C R X F P : Type} `{Machine C R X} `{Codec (dump C X)}.
Context `{PickleLaws (packet (message C))} `{PollerLaws P subscriber}.
Context (conf : SyncObjConf).
Abbreviation obj := (SyncObj.t string C X F).
Abbreviation effect := (SyncObj.effect string C R F).
Abbreviation server := (hub P obj).
Abbreviation MS := (PyM server (io effect)).
Abbreviation world := (SyncObjCluster.world (A := string) (C := C) (X := X) (F := F)).
Abbreviation action := (SyncObjCluster.action (A := string) (C := C) (F := F)).
Implicit Types (w : server) (ns : list Node.t) (es : list (io effect)) (ps : list (string * message C)).
Implicit Types (W : world) (net log : list (string * string * message C)).

(** ** The system *)

(** [pipe u v]: the bytes on the way from [u] to [v]. *)
Record system : Type := MkSystem { servers : gmap string server; pipe : string -> string -> bytes }.

(** The node of a server for an address, and its buffers. *)
Definition link ns (a : string) : option Node.t := k ← node_at a ns; ns !! k.
Definition written ns (a : string) : bytes :=
  default [] ((fun n => Connection.writeBuffer (Node.conn n)) <$> link ns a).
Definition unread ns (a : string) : bytes :=
  default [] ((fun n => Connection.readBuffer (Node.conn n)) <$> link ns a).
Definition sent_to ns (a : string) es : bytes :=
  match n ← link ns a; Connection.fileno (Node.conn n) with Some d => sent_on d es | None => [] end.

(** What the user of a server does. *)
Inductive call : Type := DoTick | DoApply (c : C) (callback : origin string F).
Definition call_body (c : call) (e : env string) : PyM obj effect unit :=
  match c with DoTick => onTick conf e | DoApply c callback => applyCommand conf c callback end.

(** Server [u] goes from [w] to [post x]; [take a b] is what of [pipe a b] stays. *)
Definition moves_to (u : string) w (x : server * list (io effect) * outcome unit) (stays : string -> string -> bytes)
    (S S' : system) : Prop :=
  servers S' = <[u := post x]> (servers S) /\
  forall a b, pipe S' a b = stays a b ++ if decide (a = u) then sent_to (peers w) b (effects x) else [].

Definition moved (u : string) w (x : server * list (io effect) * outcome unit) (stays : string -> string -> bytes)
    (S : system) : system :=
  MkSystem (<[u := post x]> (servers S))
    (fun a b => stays a b ++ if decide (a = u) then sent_to (peers w) b (effects x) else []).
Lemma moved_moves u w x stays S : moves_to u w x stays S (moved u w x stays S).
Proof. done. Qed.

(** A call of the core, a socket that takes bytes, a socket that has bytes; no
    connection breaks, and no message has 2 GiB. *)
Inductive sys_step (S S' : system) : Prop :=
| step_call u w o c :
    servers S !! u = Some w -> sound o -> alive (clock o) (peers w) ->
    let x := core_call o (call_body c) w in
    result x <> Raise StructError -> moves_to u w x (pipe S) S S' -> sys_step S S'
| step_write u w o e k n d :
    servers S !! u = Some w -> alive (Node.now e) (peers w) ->
    peers w !! k = Some n -> Connection.fileno (Node.conn n) = Some d -> so_error e = false -> healthy (Node.rest e) ->
    let x := node_event conf o e k d WRITE w in
    moves_to u w x (pipe S) S S' -> sys_step S S'
| step_read u w o e k n d chunk rest :
    servers S !! u = Some w -> sound o -> clock o = Node.now e -> alive (Node.now e) (peers w) ->
    peers w !! k = Some n -> Connection.fileno (Node.conn n) = Some d ->
    so_error e = false -> recv_so_error e = false -> recv e = Connection.Received chunk -> chunk <> [] ->
    pipe S (Node.nodeAddr n) u = chunk ++ rest ->
    let x := node_event (R := R) conf o e k d READ w in
    result x <> Raise StructError ->
    moves_to u w x (fun a b => if decide ((a, b) = (Node.nodeAddr n, u)) then rest else pipe S a b) S S' ->
    sys_step S S'.

(** All connections stand, both ways, and nothing has been sent. *)
Definition linked (S : system) (u v : string) : Prop :=
  exists w, servers S !! u = Some w /\ is_Some (node_at v (peers w)).
Definition well_linked (S : system) : Prop :=
  (forall u w, servers S !! u = Some w -> links_ok (peers w) /\ node_at u (peers w) = None) /\
  forall u v, linked S u v -> linked S v u.
Definition in_flight (S : system) (u v : string) : bytes :=
  default [] ((fun w => unread (peers w) u) <$> servers S !! v) ++ pipe S u v ++
  default [] ((fun w => written (peers w) v) <$> servers S !! u).
Definition fresh_system (S : system) : Prop :=
  well_linked S /\ forall u v, in_flight S u v = [].

(** ** The abstract network *)
Definition cluster_of (S : system) : world := MkWorld (core <$> servers S) [].

(** The messages from [u] to [v] in a list of packets. *)
Definition between (u v : string) net : list (message C) :=
  omap (fun p => if decide (p.1 = (u, v)) then Some p.2 else None) net.

(** A run with the packets that it delivers. *)
Fixpoint run_log (acts : list action) W : option (world * list (string * string * message C)) :=
  match acts with
  | [] => Some (W, [])
  | a :: acts =>
      W' ← do_action conf a W;
      '(W'', log) ← run_log acts W';
      Some (W'', match a with Deliver k _ => option_list (SyncObjCluster.net W !! k) | _ => [] end ++ log)
  end.

Lemma run_log_run acts W W' log : run_log acts W = Some (W', log) -> run conf acts W = Some W'.
Proof.
  revert W W' log. induction acts as [|a acts IH]; intros W W' log; cbn; [by intros [= -> _]|].
  intros (W1 & E & ([W2 l] & Hl & [= -> _])%bind_Some)%bind_Some. rewrite E. by eapply IH.
Qed.
Lemma run_log_app acts acts' W W1 W2 l l' :
  run_log acts W = Some (W1, l) -> run_log acts' W1 = Some (W2, l') ->
  run_log (acts ++ acts') W = Some (W2, l ++ l').
Proof.
  revert W W1 l. induction acts as [|a acts IH]; intros W W1 l; cbn; [by intros [= -> <-]|].
  intros (W3 & E & ([W4 l4] & Hl & [= -> <-])%bind_Some)%bind_Some Hr. rewrite E. cbn.
  rewrite (IH _ _ _ Hl Hr). cbn. by rewrite app_assoc.
Qed.
Lemma between_app u v net net' : between u v (net ++ net') = between u v net ++ between u v net'.
Proof. apply omap_app. Qed.
Lemma between_same u v (ms : list (message C)) : between u v (pair (u, v) <$> ms) = ms.
Proof. induction ms as [|m ms IH]; [done|]. cbn. rewrite decide_True by done. cbn. by f_equal. Qed.
Lemma between_others u v u' v' (ms : list (message C)) : (u', v') <> (u, v) -> between u v (pair (u', v') <$> ms) = [].
Proof. intros Hne. induction ms as [|m ms IH]; [done|]. cbn. by rewrite decide_False. Qed.
Lemma between_lookup u v net m : m ∈ between u v net -> exists k, net !! k = Some (u, v, m).
Proof.
  intros ([p m'] & Hin & Hp)%list_elem_of_omap. cbn in Hp. case_decide as E; [|done]. injection Hp as ->. subst p.
  by apply list_elem_of_lookup.
Qed.

(** The packets of a call, by destination. *)
Lemma messages_sends u (l : list effect) : messages u l = (fun p => (u, p.1, p.2)) <$> sends l.
Proof. induction l as [|[a m|f r e] l IH]; [done| |done]. cbn. by f_equal. Qed.
Lemma between_messages u v a (l : list effect) :
  Message <$> between a v (messages u l) = if decide (a = u) then packets_for v (sends l) else [].
Proof.
  rewrite messages_sends. induction (sends l) as [|[b m] ps IH]; [by case_decide|].
  rewrite fmap_cons. unfold between, packets_for in *. cbn [omap list_omap fst snd].
  destruct (decide (a = u)) as [->|Ha].
  - destruct (decide (b = v)) as [->|Hb].
    + rewrite decide_True, filter_cons_True by done. rewrite !fmap_cons. by f_equal.
    + rewrite decide_False, filter_cons_False by (cbn; congruence). exact IH.
  - rewrite decide_False by congruence. exact IH.
Qed.

(** ** The nodes of a server after an event *)
Lemma moves_link ns es ns' ps v : moves ns es ns' ps -> links_ok ns ->
  node_at v ns' = node_at v ns /\ unread ns' v = unread ns v /\
  (is_Some (node_at v ns) -> sent_to ns v es ++ written ns' v = written ns v ++ stream (packets_for v ps)).
Proof.
  intros Hm Hok. pose proof (static_node_at v _ _ (moves_static _ _ _ _ Hm)) as Ha. split; [done|].
  unfold unread, written, sent_to, link. rewrite Ha. destruct (node_at v ns) as [k|] eqn:Ek; [|by split; [|intros []]].
  cbn. destruct (node_at_lookup _ _ _ Ek) as [n Hn].
  destruct (static_lookup _ _ k n (eq_sym (moves_static _ _ _ _ Hm)) Hn) as (n' & Hn' & Es).
  rewrite Hn, Hn'. cbn. injection Es as _ _ _ _ _ _ Er. split; [done|]. intros _.
  destruct (Hok k n Hn) as (_ & _ & _ & _ & d & Hd & _). rewrite Hd.
  rewrite (moves_bytes _ _ _ _ Hm k n n' d Hn Hn' Hd). by rewrite (node_at_addr _ _ _ _ Ek Hn).
Qed.

Lemma insert_link ns k n c v : links_ok ns -> ns !! k = Some n ->
  node_at v (<[k := Node.set_conn c n]> ns) = node_at v ns /\
  link (<[k := Node.set_conn c n]> ns) v = if decide (v = Node.nodeAddr n) then Some (Node.set_conn c n) else link ns v.
Proof.
  intros Hok Hn. destruct (Hok k n Hn) as (_ & _ & _ & Hk & _).
  assert (node_at v (<[k := Node.set_conn c n]> ns) = node_at v ns) as Ha.
  { rewrite !node_at_addrs, list_fmap_insert. do 2 f_equal. apply list_insert_id. by rewrite list_lookup_fmap, Hn. }
  split; [done|]. unfold link. rewrite Ha. destruct (decide (v = Node.nodeAddr n)) as [->|Hv].
  - rewrite Hk. cbn. apply list_lookup_insert_eq. by eapply lookup_lt_Some.
  - destruct (node_at v ns) as [j|] eqn:Ej; [|done]. cbn. apply list_lookup_insert_ne. intros ->.
    apply Hv. by rewrite (node_at_addr _ _ _ _ Ej Hn).
Qed.

Lemma with_read_insert k b c n ns : (k < length ns)%nat ->
  with_read k b (<[k := Node.set_conn c n]> ns) = <[k := Node.set_conn (Connection.set_readBuffer b c) n]> ns.
Proof.
  intros Hk. apply list_eq. intros j. rewrite with_read_lookup. destruct (decide (j = k)) as [->|Hj].
  - rewrite !list_lookup_insert_eq by done. simpl. by destruct (decide (k = k)).
  - rewrite !list_lookup_insert_ne by done. destruct (ns !! j); [|done]. simpl. by destruct (decide (j = k)).
Qed.

(** ** The bytes *)

(** What is sent and not delivered is on the way. *)
Definition bytes_ok (S : system) net log : Prop :=
  forall u v, linked S u v -> exists pending,
    between u v net = between u v log ++ pending /\ Forall (fun m => fits (Message m)) pending /\
    in_flight S u v = stream (Message <$> pending).

Section update.
Context (S S' : system) (u : string) (w w' : server).
Context (Hw : servers S !! u = Some w) (Hs : servers S' = <[u := w']> (servers S)).
Context (Hat : forall v, node_at v (peers w') = node_at v (peers w)).

Lemma linked_update a b : linked S' a b <-> linked S a b.
Proof.
  unfold linked. rewrite Hs. destruct (decide (a = u)) as [->|Ha].
  - rewrite lookup_insert_eq. split.
    + intros (? & [= <-] & Hl). exists w. by rewrite <-Hat.
    + intros (w0 & Hw0 & Hl). assert (w0 = w) as -> by congruence. exists w'. by rewrite Hat.
  - by rewrite lookup_insert_ne.
Qed.
Lemma well_linked_update : links_ok (peers w') -> well_linked S -> well_linked S'.
Proof.
  intros Hok [Hl Hm]. split.
  - intros a x. rewrite Hs. destruct (decide (a = u)) as [->|Ha].
    + rewrite lookup_insert_eq. intros [= <-]. split; [done|]. rewrite Hat. by apply (Hl u w).
    + rewrite lookup_insert_ne by done. apply Hl.
  - intros a b. rewrite !linked_update. apply Hm.
Qed.
Lemma in_flight_from v : u <> v -> in_flight S u v =
    default [] ((fun x => unread (peers x) u) <$> servers S !! v) ++ pipe S u v ++ written (peers w) v /\
  in_flight S' u v =
    default [] ((fun x => unread (peers x) u) <$> servers S !! v) ++ pipe S' u v ++ written (peers w') v.
Proof. intros Huv. unfold in_flight. by rewrite Hs, lookup_insert_eq, lookup_insert_ne, Hw. Qed.
Lemma in_flight_to v : v <> u -> in_flight S v u =
    unread (peers w) v ++ pipe S v u ++ default [] ((fun x => written (peers x) u) <$> servers S !! v) /\
  in_flight S' v u =
    unread (peers w') v ++ pipe S' v u ++ default [] ((fun x => written (peers x) u) <$> servers S !! v).
Proof. intros Huv. unfold in_flight. by rewrite Hs, lookup_insert_eq, lookup_insert_ne, Hw by done. Qed.
Lemma in_flight_others a b : a <> u -> b <> u -> pipe S' a b = pipe S a b -> in_flight S' a b = in_flight S a b.
Proof. intros Ha Hb Hp. unfold in_flight. by rewrite Hs, !lookup_insert_ne, Hp. Qed.
End update.

Lemma linked_ne S u v : well_linked S -> linked S u v -> u <> v.
Proof. intros [Hl _] (w & Hw & k & Hk) ->. destruct (Hl v w Hw) as [_ Hn]. congruence. Qed.

(** Server [u] sends the effects [l] of its core. *)
Lemma bytes_out S S' net log u w w' es (l : list effect) :
  well_linked S -> bytes_ok S net log -> servers S !! u = Some w -> servers S' = <[u := w']> (servers S) ->
  moves (peers w) es (peers w') (sends l) ->
  (forall a b, pipe S' a b = pipe S a b ++ if decide (a = u) then sent_to (peers w) b es else []) ->
  well_linked S' /\ bytes_ok S' (net ++ messages u l) log.
Proof.
  intros Hwl Hb Hw Hs Hm Hp. pose proof Hwl as [Hl Hmut]. destruct (Hl u w Hw) as [Hok Hself].
  pose proof (fun v => moves_link _ _ _ _ v Hm Hok) as Hml.
  assert (forall v, node_at v (peers w') = node_at v (peers w)) as Hat by (intros v; apply Hml).
  split.
  { eapply well_linked_update; [done..| |done]. by eapply static_links; [apply (moves_static _ _ _ _ Hm)|]. }
  intros a b Hab%(linked_update S S' u w w' Hw Hs Hat). pose proof (linked_ne _ _ _ Hwl Hab) as Hne.
  destruct (Hb a b Hab) as (pending & Hsent & Hfit & Hfl). pose proof (between_messages u b a l) as Hbm.
  exists (pending ++ between a b (messages u l)). rewrite between_app, Hsent, app_assoc. split; [done|].
  rewrite fmap_app, stream_app, <-Hfl, Hbm. specialize (Hp a b). destruct (decide (a = u)) as [->|Ha].
  - destruct (in_flight_from S S' u w w' Hw Hs b Hne) as [-> ->]. destruct Hab as (w0 & Hw0 & Hlink).
    assert (w0 = w) as -> by congruence. destruct (Hml b) as (_ & _ & Hwr). rewrite Hp. split.
    + apply Forall_app. split; [done|]. apply Forall_forall. intros m Hin.
      apply (moves_fit _ _ _ _ Hm b m); [|done].
      assert (Message m ∈ packets_for b (sends l)) as Hin' by (rewrite <-Hbm; by apply list_elem_of_fmap_2).
      unfold packets_for in Hin'. apply list_elem_of_fmap in Hin' as (m' & [= ->] & Hin').
      apply list_elem_of_fmap in Hin' as ([b' m''] & -> & [E Hin']%list_elem_of_filter). cbn in E. by subst.
    + rewrite <-!app_assoc. rewrite Hwr by done. done.
  - assert (between a b (messages u l) = []) as ->.
    { apply fmap_nil_inv in Hbm. done. }
    rewrite !app_nil_r in *. split; [done|]. destruct (decide (b = u)) as [->|Hbu].
    + destruct (in_flight_to S S' u w w' Hw Hs a Ha) as [-> ->]. destruct (Hml a) as (_ & -> & _). by rewrite Hp.
    + by apply (in_flight_others S S' u w').
Qed.

(** Server [u] takes [ms] out of the bytes from its node [k]. *)
Lemma bytes_in S S' net log u w w' k n c stays (ms pending : list (message C)) :
  well_linked S -> bytes_ok S net log -> servers S !! u = Some w -> servers S' = <[u := w']> (servers S) ->
  peers w !! k = Some n -> peers w' = <[k := Node.set_conn c n]> (peers w) ->
  links_ok (peers w') -> Connection.writeBuffer c = Connection.writeBuffer (Node.conn n) ->
  (forall a b, pipe S' a b = if decide ((a, b) = (Node.nodeAddr n, u)) then stays else pipe S a b) ->
  between (Node.nodeAddr n) u net = between (Node.nodeAddr n) u log ++ ms ++ pending ->
  Forall (fun m => fits (Message m)) pending ->
  Connection.readBuffer c ++ stays ++ default [] ((fun w => written (peers w) u) <$> servers S !! Node.nodeAddr n)
    = stream (Message <$> pending) ->
  well_linked S' /\ bytes_ok S' net (log ++ (pair (Node.nodeAddr n, u) <$> ms)).
Proof.
  intros Hwl Hb Hw Hs Hn Hw' Hok' Hwr Hp Hsent Hfit Hpend. pose proof Hwl as [Hl _]. destruct (Hl u w Hw) as [Hok Hself].
  pose proof (fun v => insert_link (peers w) k n c v Hok Hn) as Hil. rewrite <-Hw' in Hil.
  assert (forall v, node_at v (peers w') = node_at v (peers w)) as Hat by (intros v; apply Hil).
  assert (Node.nodeAddr n <> u) as Hsrc.
  { intros E. destruct (Hok k n Hn) as (_ & _ & _ & Hk & _). rewrite E in Hk. congruence. }
  assert (link (peers w) (Node.nodeAddr n) = Some n) as Hlink.
  { unfold link. destruct (Hok k n Hn) as (_ & _ & _ & -> & _). exact Hn. }
  split; [by eapply well_linked_update|].
  intros a b Hab%(linked_update S S' u w w' Hw Hs Hat). pose proof (linked_ne _ _ _ Hwl Hab) as Hne. specialize (Hp a b).
  destruct (decide ((a, b) = (Node.nodeAddr n, u))) as [[= -> ->]|Hd].
  { exists pending. rewrite between_app, between_same, Hsent, <-app_assoc. split_and!; [done..|].
    destruct (in_flight_to S S' u w w' Hw Hs _ Hsrc) as [_ ->]. rewrite Hp.
    unfold unread. destruct (Hil (Node.nodeAddr n)) as [_ ->]. by rewrite decide_True. }
  destruct (Hb a b Hab) as (pending' & Hsent' & Hfit' & Hfl). exists pending'.
  rewrite between_app, between_others, app_nil_r by done. split_and!; [done..|]. rewrite <-Hfl.
  destruct (decide (b = u)) as [->|Hbu]; [|destruct (decide (a = u)) as [->|Hau]].
  - destruct (in_flight_to S S' u w w' Hw Hs a) as [-> ->]; [done|]. rewrite Hp. f_equal.
    unfold unread. destruct (Hil a) as [_ ->]. by rewrite decide_False by congruence.
  - destruct (in_flight_from S S' u w w' Hw Hs b) as [-> ->]; [done|]. rewrite Hp. do 2 f_equal.
    unfold written. destruct (Hil b) as [_ ->]. case_decide as E; [|done]. subst b. rewrite Hlink. done.
  - by apply (in_flight_others S S' u w').
Qed.

(** ** The runs of the abstract network *)
Lemma run_log_one a W W' l : do_action conf a W = Some W' ->
  match a with Deliver k _ => option_list (SyncObjCluster.net W !! k) | _ => [] end = l ->
  run_log [a] W = Some (W', l).
Proof. intros E <-. cbn. rewrite E. cbn. by rewrite app_nil_r. Qed.

Lemma deliver_run src u l W s s' fx :
  members W !! u = Some s -> (forall m, m ∈ l.*2 -> exists k, SyncObjCluster.net W !! k = Some (src, u, m)) ->
  deliver_all (R := R) conf src l s = (s', fx) ->
  exists acts W', run_log acts W = Some (W', pair (src, u) <$> l.*2) /\
    members W' = <[u := s']> (members W) /\ SyncObjCluster.net W' = SyncObjCluster.net W ++ messages u fx.
Proof.
  revert W s fx. induction l as [|[e m] l IH]; intros W s fx Hs Hin; cbn [deliver_all].
  { intros [= <- <-]. exists [], W. split; [done|]. by rewrite insert_id, app_nil_r. }
  destruct (deliver_all conf src l _) as [s2 es] eqn:E. intros [= -> <-].
  destruct (Hin m) as [k Hk]; [by left|].
  set (x := onMessageReceived (R := R) conf e src m s) in *.
  set (W1 := MkWorld (<[u := post x]> (members W)) (SyncObjCluster.net W ++ messages u (effects x))).
  destruct (IH W1 (post x) es) as (acts & W' & Hr & Hm & Hn); [by apply lookup_insert_eq| |done|].
  { intros m' Hm'. destruct (Hin m') as [k' Hk']; [by right|]. exists k'. by apply lookup_app_l_Some. }
  exists (Deliver k e :: acts), W'. split; [|split].
  - change (Deliver k e :: acts) with ([Deliver k e] ++ acts).
    change (pair (src, u) <$> ((e, m) :: l).*2) with ([(src, u, m)] ++ (pair (src, u) <$> l.*2)).
    eapply run_log_app; [apply run_log_one|exact Hr].
    + cbn. rewrite Hk. cbn. unfold on_member. by rewrite Hs.
    + by rewrite Hk.
  - rewrite Hm. cbn. by rewrite insert_insert_eq.
  - rewrite Hn. cbn. rewrite <-app_assoc. f_equal. unfold messages. by rewrite omap_app.
Qed.

Lemma sent_to_insert ns k n c v es : links_ok ns -> ns !! k = Some n ->
  Connection.fileno c = Connection.fileno (Node.conn n) ->
  sent_to (<[k := Node.set_conn c n]> ns) v es = sent_to ns v es.
Proof.
  intros Hok Hn Hf. unfold sent_to. destruct (insert_link ns k n c v Hok Hn) as [_ ->].
  case_decide as E; [|done]. unfold link. destruct (Hok k n Hn) as (_ & _ & _ & Hk & _). rewrite E, Hk. cbn.
  by rewrite Hn, Hf.
Qed.

Lemma post_unit {St E A} (c : PyM St E A) s :
  post ((c ;;! py_return tt) s) = post (c s) /\ effects ((c ;;! py_return tt) s) = effects (c s).
Proof. unfold py_bind, post, effects. destruct (c s) as [[s' es] [a|e]]; cbn; by rewrite ?app_nil_r. Qed.

(** What the system and the abstract network have to do with each other. *)
Definition simulates (S : system) W log : Prop :=
  well_linked S /\ bytes_ok S (SyncObjCluster.net W) log /\ members W = core <$> servers S.

Lemma sim_call S S' W log u w o c :
  simulates S W log -> servers S !! u = Some w -> sound o -> alive (clock o) (peers w) ->
  let x := core_call o (call_body c) w in
  result x <> Raise StructError -> moves_to u w x (pipe S) S S' ->
  exists a W', run_log [a] W = Some (W', []) /\ simulates S' W' log.
Proof.
  intros (Hwl & Hb & Hm) Hw Ho Ht x Hx [Hs Hp]. pose proof Hwl as [Hl _]. destruct (Hl u w Hw) as [Hok _].
  destruct (core_call_moves o (call_body c) w Ho Hok Ht) as [Hbad|(ns & es & Ex & Hmv)]; [done|].
  set (x1 := call_body c (env_at o w) (core w)) in *.
  exists (match c with DoTick => Tick u (env_at o w) | DoApply c cb => Submit u c cb end),
    (MkWorld (<[u := post x1]> (members W)) (SyncObjCluster.net W ++ messages u (effects x1))). split.
  { apply run_log_one; [|by destruct c]. assert (members W !! u = Some (core w)) as Hu by (by rewrite Hm, lookup_fmap, Hw).
    destruct c; cbn; unfold on_member; by rewrite Hu. }
  subst x. rewrite Ex in *. cbn in Hs, Hp.
  destruct (bytes_out S S' _ log u w _ es (effects x1) Hwl Hb Hw Hs Hmv Hp) as [Hwl' Hb'].
  split_and!; [done..|]. cbn. by rewrite Hs, fmap_insert, Hm.
Qed.

Lemma sim_write S S' W log u w o e k n d :
  simulates S W log -> servers S !! u = Some w -> alive (Node.now e) (peers w) ->
  peers w !! k = Some n -> Connection.fileno (Node.conn n) = Some d -> so_error e = false -> healthy (Node.rest e) ->
  let x := node_event conf o e k d WRITE w in
  moves_to u w x (pipe S) S S' -> simulates S' W log.
Proof.
  intros (Hwl & Hb & Hm) Hw Ht Hn Hd Hso Hker x [Hs Hp]. pose proof Hwl as [Hl _]. destruct (Hl u w Hw) as [Hok _].
  destruct (write_event (R := R) e (on_packet conf o) k n d w Hok Ht Hn Hd Hso Hker) as (_ & Hcore & Hmv).
  change (processConnection e (on_packet conf o) k d WRITE w) with x in *.
  destruct (bytes_out S S' _ log u w _ _ [] Hwl Hb Hw Hs Hmv Hp) as [Hwl' Hb'].
  rewrite app_nil_r in Hb'. split_and!; [done..|].
  rewrite Hs, fmap_insert, Hcore, insert_id; [done|]. by rewrite lookup_fmap, Hw.
Qed.

(** What a read takes from the bytes on the way. *)
Lemma read_received S net log u w o e k n d chunk rest :
  well_linked S -> bytes_ok S net log -> servers S !! u = Some w -> sound o -> clock o = Node.now e ->
  alive (Node.now e) (peers w) -> peers w !! k = Some n -> Connection.fileno (Node.conn n) = Some d ->
  so_error e = false -> recv_so_error e = false -> recv e = Connection.Received chunk -> chunk <> [] ->
  pipe S (Node.nodeAddr n) u = chunk ++ rest ->
  let src := Node.nodeAddr n in let x := node_event (R := R) conf o e k d READ w in
  result x <> Raise StructError ->
  exists l pending fx c,
    between src u net = between src u log ++ l.*2 ++ pending /\ Forall (fun m => fits (Message m)) pending /\
    deliver_all (R := R) conf src l (core w) = (core (post x), fx) /\
    moves (<[k := Node.set_conn c n]> (peers w)) (effects x) (peers (post x)) (sends fx) /\
    Connection.readBuffer c ++ rest ++ default [] ((fun w => written (peers w) u) <$> servers S !! src)
      = stream (Message <$> pending) /\
    Connection.fileno c = Connection.fileno (Node.conn n) /\
    Connection.disconnected c = Connection.disconnected (Node.conn n) /\
    Connection.timeout c = Connection.timeout (Node.conn n) /\
    Connection.writeBuffer c = Connection.writeBuffer (Node.conn n).
Proof.
  intros Hwl Hb Hw Ho Hclock Ht Hn Hd Hso Hrso Hrecv Hne Hpipe src x Hx.
  pose proof Hwl as [Hl Hmut]. destruct (Hl u w Hw) as [Hok _].
  assert (k < length (peers w))%nat as Hk by (by eapply lookup_lt_Some).
  assert (node_at src (peers w) = Some k) as Hat by apply (Hok k n Hn).
  destruct (Hb src u) as (pending & Hsent & Hfit & Hfl); [apply Hmut; exists w; split; [done|by exists k]|].
  set (wr := default [] ((fun w => written (peers w) u) <$> servers S !! src)).
  destruct (read_event (R := R) e (on_packet conf o) k n d w chunk Hok Ht Hn Hd Hso Hrso Hrecv Hne)
    as (Ex & Hok1 & Ht1 & Hn1).
  set (c := Connection.set_readBuffer (Connection.readBuffer (Node.conn n) ++ chunk)
              (Connection.set_lastReadTime (Node.now e) (Node.conn n))) in *.
  set (w1 := set_peers (<[k := Node.set_conn c n]> (peers w)) w) in *. rewrite <-Hclock in Ht1.
  assert (Connection.readBuffer c ++ rest ++ wr = stream (Message <$> pending)) as Hstream.
  { rewrite <-Hfl. unfold in_flight, unread, link. fold src in Hpipe. rewrite Hw, Hpipe. cbn. rewrite Hat. cbn. rewrite Hn. cbn.
    by rewrite <-!app_assoc. }
  set (loop := receive_loop (on_packet (R := R) conf o) k (loop_fuel (Node.set_conn c n))).
  assert (x = (loop ;;! py_return tt) w1) as Hxl by (subst x; unfold node_event; by rewrite Ex).
  destruct (receive_moves (R := R) conf o k (loop_fuel (Node.set_conn c n)) w1 (Node.set_conn c n) pending (rest ++ wr)
    Ho Hok1 Ht1 Hn1 Hfit Hstream) as [Hbad|(l & pending' & b & ns & s & fx & -> & Hdel & Hpost & Hmv & Hrest)].
  { exfalso. apply Hx. rewrite Hxl. by apply bind_raises. }
  destruct (post_unit loop w1) as [Epost Eeff]. fold loop in Hpost, Hmv. rewrite <-Epost, <-Hxl in Hpost.
  rewrite <-Eeff, <-Hxl in Hmv.
  exists l, pending', fx, (Connection.set_readBuffer b c). rewrite Hpost.
  apply Forall_app in Hfit as [_ Hfit]. split_and!; [done|done|exact Hdel| |exact Hrest|done..].
  rewrite <-with_read_insert by done. exact Hmv.
Qed.

Lemma sim_read S S' W log u w o e k n d chunk rest :
  simulates S W log -> servers S !! u = Some w -> sound o -> clock o = Node.now e -> alive (Node.now e) (peers w) ->
  peers w !! k = Some n -> Connection.fileno (Node.conn n) = Some d ->
  so_error e = false -> recv_so_error e = false -> recv e = Connection.Received chunk -> chunk <> [] ->
  pipe S (Node.nodeAddr n) u = chunk ++ rest ->
  let x := node_event (R := R) conf o e k d READ w in
  result x <> Raise StructError ->
  moves_to u w x (fun a b => if decide ((a, b) = (Node.nodeAddr n, u)) then rest else pipe S a b) S S' ->
  exists acts W' l, run_log acts W = Some (W', l) /\ simulates S' W' (log ++ l).
Proof.
  intros (Hwl & Hb & Hm) Hw Ho Hclock Ht Hn Hd Hso Hrso Hrecv Hne Hpipe x Hx [Hs Hp].
  destruct (read_received S _ log u w o e k n d chunk rest Hwl Hb Hw Ho Hclock Ht Hn Hd Hso Hrso Hrecv Hne Hpipe Hx)
    as (l & pending & fx & c & Hsent & Hfit & Hdel & Hmv & Hrest & Hfd & Hdis & Htime & Hwr).
  fold x in Hdel, Hmv. set (src := Node.nodeAddr n) in *. destruct (proj1 Hwl u w Hw) as [Hok _].
  set (wm := set_peers (<[k := Node.set_conn c n]> (peers w)) w).
  set (Sm := MkSystem (<[u := wm]> (servers S))
               (fun a b => if decide ((a, b) = (src, u)) then rest else pipe S a b)).
  destruct (bytes_in S Sm _ log u w wm k n c rest l.*2 pending Hwl Hb Hw eq_refl Hn eq_refl) as [Hwlm Hbm];
    [by apply links_insert|done..|].
  destruct (bytes_out Sm S' _ _ u wm (post x) (effects x) fx Hwlm Hbm) as [Hwl' Hb'];
    [by apply lookup_insert_eq|by simpl; rewrite insert_insert_eq|done| |].
  { intros a b. rewrite Hp. cbn [pipe Sm]. f_equal. case_decide; [|done]. symmetry. by apply sent_to_insert. }
  destruct (deliver_run src u l W (core w) (core (post x)) fx) as (acts & W' & Hrun & Hmem & Hnet);
    [by rewrite Hm, lookup_fmap, Hw| |exact Hdel|].
  { intros m Hin. apply between_lookup. rewrite Hsent. set_solver. }
  exists acts, W', (pair (src, u) <$> l.*2). split; [done|]. rewrite <-Hnet in Hb'. split_and!; [done..|].
  by rewrite Hmem, Hs, fmap_insert, Hm.
Qed.

Lemma sim_step S S' W log : simulates S W log -> sys_step S S' ->
  exists acts W' l, run_log acts W = Some (W', l) /\ simulates S' W' (log ++ l).
Proof.
  intros Hsim [u w o c Hw Ho Ht x Hx Hmv|u w o e k n d Hw Ht Hn Hd Hso Hker x Hmv|
               u w o e k n d chunk rest Hw Ho Hc Ht Hn Hd Hso Hrso Hrecv Hne Hp x Hx Hmv].
  - destruct (sim_call S S' W log u w o c Hsim Hw Ho Ht Hx Hmv) as (a & W' & Hr & Hs).
    exists [a], W', []. by rewrite app_nil_r.
  - exists [], W, []. rewrite app_nil_r. split; [done|]. by apply (sim_write S S' W log u w o e k n d).
  - by apply (sim_read S S' W log u w o e k n d chunk rest).
Qed.

Lemma sim_run S S' W log : simulates S W log -> rtc sys_step S S' ->
  exists acts W' l, run_log acts W = Some (W', l) /\ simulates S' W' (log ++ l).
Proof.
  intros Hsim Hrun. revert W log Hsim. induction Hrun as [S|S S1 S' Hstep _ IH]; intros W log Hsim.
  { exists [], W, []. by rewrite app_nil_r. }
  destruct (sim_step _ _ _ _ Hsim Hstep) as (acts & W1 & l & Hr & Hs).
  destruct (IH _ _ Hs) as (acts' & W' & l' & Hr' & Hs'). exists (acts ++ acts'), W', (l ++ l').
  split; [by eapply run_log_app|]. by rewrite app_assoc.
Qed.

Lemma stream_empty (ms : list (message C)) : Forall (fun m => fits (Message m)) ms ->
  stream (Message <$> ms) = [] -> ms = [].
Proof.
  intros [|m ms' Hm _]; [done|]. destruct (frame_fits _ Hm) as (h & Hb & _ & Hlh & _).
  change (stream (Message <$> m :: ms')) with (frame_bytes (Message m) ++ stream (Message <$> ms')).
  rewrite Hb. by destruct h.
Qed.

(** C10: while the connections stand, every run of the servers over their sockets,
    whatever the sockets take and give at a time, is a run of their cores over
    the abstract network, in which the messages from one server to another are
    delivered in the order of sending and each once; what is not delivered is,
    frame by frame, in the two buffers and on the way, so that nothing is lost:
    when no bytes are in flight everything has been delivered. *)
Theorem sockets_refine_network S0 S :
  fresh_system S0 -> rtc sys_step S0 S ->
  exists acts W log, run_log acts (cluster_of S0) = Some (W, log) /\ members W = core <$> servers S /\
    forall u v, linked S u v -> exists pending,
      between u v (SyncObjCluster.net W) = between u v log ++ pending /\
      in_flight S u v = stream (Message <$> pending) /\ (in_flight S u v = [] -> pending = []).
Proof.
  intros [Hwl Hf] Hrun. destruct (sim_run S0 S (cluster_of S0) []) as (acts & W & log & Hr & _ & Hb & Hm); [|done|].
  { split_and!; [done| |done]. intros u v _. exists []. by rewrite Hf. }
  exists acts, W, log. split_and!; [done..|]. intros u v (pending & Hsent & Hfit & Hfl)%Hb.
  exists pending. split_and!; [done..|]. rewrite Hfl. by apply stream_empty.
Qed.
End system.
