(* ===== verification/SyncSystemDemo.v ===== *)
(** * Two servers that hold an election over their sockets

    A text for every packet, and a run of SyncSystem.v in which the socket first
    takes only a part of a message: the witness of its theorem. *)
From stdpp Require Import base gmap sets list strings relations countable.
From Stdlib Require Import ZArith QArith Lia.
From Stdlib Require Strings.Byte.
From S2P Require Import Prelude PyList PyExcept Connection ConnectionTheorems Poller Resolver Node NodeTheorems NodeHandshake Serializer SyncObj SyncObjCluster SyncObjDemo SyncServer SyncTransport SyncSystem.
Local Open Scope Z_scope.
Import POLL_EVENT_TYPE.

Module Sockets.

(** ** A text for every packet *)
Fixpoint bits (p : positive) : bytes :=
  match p with xH => [Byte.x01] | xO p => Byte.x00 :: bits p | xI p => Byte.x02 :: bits p end.
Fixpoint of_bits (b : bytes) : option positive :=
  match b with
  | [Byte.x01] => Some xH
  | Byte.x00 :: b => xO <$> of_bits b
  | Byte.x02 :: b => xI <$> of_bits b
  | _ => None
  end.
Lemma of_bits_bits p : of_bits (bits p) = Some p.
Proof. induction p as [p IH|p IH|]; cbn; [by rewrite IH|by rewrite IH|done]. Qed.

Abbreviation code := (string + (Z * Z * Z) + Z +
  (Z * Z * list (option string * Z * Z) * option Z * option Z) +
  (Z * Z * option (option (list Z * bool * bool))) + (string * option Z) + (Z * Z) + (Z * Z * Z) + (Z * bool))%type.

Definition reasons : list FAIL_REASON := [SUCCESS; QUEUE_FULL; MISSING_LEADER; DISCARDED; NOT_LEADER; LEADER_CHANGED].
Definition reason_code (r : FAIL_REASON) : Z :=
  match r with SUCCESS => 0 | QUEUE_FULL => 1 | MISSING_LEADER => 2 | DISCARDED => 3 | NOT_LEADER => 4 | LEADER_CHANGED => 5 end.
Definition reason_of (z : Z) : FAIL_REASON := default SUCCESS (reasons !! Z.to_nat z).

Definition to_code (p : packet (message string)) : code :=
  match p with
  | Address a => inl (inl (inl (inl (inl (inl (inl (inl a)))))))
  | Message (request_vote t i l) => inl (inl (inl (inl (inl (inl (inl (inr (t, i, l))))))))
  | Message (response_vote t) => inl (inl (inl (inl (inl (inl (inr t))))))
  | Message (append_entries t c es i l) =>
      inl (inl (inl (inl (inl (inr (t, c, (fun e => (command e, logID e, term e)) <$> es, i, l))))))
  | Message (append_serialized t c ch) =>
      inl (inl (inl (inl (inr (t, c, match ch with
        | Serializer.NoChunk => None
        | Serializer.ChunkFailed => Some None
        | Serializer.Chunk d f l => Some (Some (byte_val <$> d, f, l))
        end)))))
  | Message (apply_command c r) => inl (inl (inl (inr (c, r))))
  | Message (apply_command_error r e) => inl (inl (inr (r, reason_code e)))
  | Message (apply_command_response r i t) => inl (inr (r, i, t))
  | Message (next_node_idx i b) => inr (i, b)
  end.
Definition of_code (c : code) : packet (message string) :=
  match c with
  | inl (inl (inl (inl (inl (inl (inl (inl a))))))) => Address a
  | inl (inl (inl (inl (inl (inl (inl (inr (t, i, l)))))))) => Message (request_vote t i l)
  | inl (inl (inl (inl (inl (inl (inr t)))))) => Message (response_vote t)
  | inl (inl (inl (inl (inl (inr (t, c, es, i, l)))))) =>
      Message (append_entries t c ((fun e => MkEntry e.1.1 e.1.2 e.2) <$> es) i l)
  | inl (inl (inl (inl (inr (t, c, ch))))) =>
      Message (append_serialized t c match ch with
        | None => Serializer.NoChunk
        | Some None => Serializer.ChunkFailed
        | Some (Some (d, f, l)) => Serializer.Chunk (byte_of <$> d) f l
        end)
  | inl (inl (inl (inr (c, r)))) => Message (apply_command c r)
  | inl (inl (inr (r, e))) => Message (apply_command_error r (reason_of e))
  | inl (inr (r, i, t)) => Message (apply_command_response r i t)
  | inr (i, b) => Message (next_node_idx i b)
  end.
Lemma of_to_code p : of_code (to_code p) = p.
Proof.
  destruct p as [a|[]]; cbn; try done.
  - do 2 f_equal. rewrite <-list_fmap_compose. rewrite <-(list_fmap_id entries) at 2. apply list_fmap_ext. by intros ? [].
  - destruct serialized as [| |d f l]; [done..|]. do 3 f_equal. rewrite <-list_fmap_compose.
    rewrite <-(list_fmap_id d) at 2. apply list_fmap_ext. intros ? b _. by destruct b.
  - by destruct error.
Qed.

#[export] Instance packet_text : Pickle (packet (message string)) := {|
  encode p := bits (countable.encode (to_code p));
  decode b := match p ← of_bits b; countable.decode p with Some c => Ret (of_code c) | None => Raise UnpicklingError end;
|}.
#[export] Instance packet_text_laws : PickleLaws (packet (message string)).
Proof.
  split; [|done]. intros p. unfold Connection.decode, Connection.encode. cbn -[countable.encode countable.decode].
  rewrite of_bits_bits. cbn -[countable.encode countable.decode]. rewrite countable.decode_encode. by rewrite of_to_code.
Qed.

(** ** The servers a:1 and b:1, connected *)
#[local] Existing Instances Demo.append_machine Demo.no_codec.
Abbreviation poller_ := (PollPoller.t subscriber).
Abbreviation server := (hub poller_ (SyncObj.t string string (list string) Z)).

Definition at_time (t : Q) : env string := MkEnv t 0 (fun _ => true) 10 false 99 true true true true.
Definition node_to (a host : string) (d : Z) : Node.t :=
  Node.MkNode a (Some host) 1 (Connection.init (Some d) (35 # 10) 0) true 0 0 CONNECTED true.
Definition start_server (self peer host : string) (d : Z) : server :=
  MkHub self (35 # 10) 5 [node_to peer host d] ∅ PollPoller.init true
    (SyncObj.init default_conf self [peer] [] None (at_time 0)).

(** At time 3; a socket takes 10 bytes, then no more. *)
Definition outside : oracle string (list string) Z poller_ := {|
  clock := 3; core_env _ := at_time 3;
  kernel _ j := match j with O => Connection.SendReturned 10 | _ => Connection.SendEAGAIN end
|}.
Definition arrives (chunk : bytes) : answers :=
  MkAnswers 3 false (fun _ => Connection.SendEAGAIN) (fun _ => Connection.SendReturned 1000)
    (Connection.Received chunk) false.

Definition a := start_server "a:1" "b:1" "b" 7.
Definition b := start_server "b:1" "a:1" "a" 8.
Definition S0 : system := MkSystem {["a:1" := a; "b:1" := b]} (fun _ _ => []).

(** a stands for election; 10 bytes of its request are on the way, *)
Abbreviation tick_a := (core_call outside (call_body default_conf DoTick) a).
Definition S1 : system := moved "a:1" a tick_a (pipe S0) S0.
Abbreviation a1 := (post tick_a : server).
(** then the rest, *)
Abbreviation write_a := (node_event (R := Z) default_conf outside (arrives []) 0 7 WRITE a1).
Definition S2 : system := moved "a:1" a1 write_a (pipe S1) S1.
(** and b, which has read them all, has voted. *)
Abbreviation read_b := (node_event (R := Z) default_conf outside (arrives (pipe S2 "a:1" "b:1")) 0 8 READ b).
Definition S3 : system :=
  moved "b:1" b read_b (fun x y => if decide ((x, y) = ("a:1", "b:1")) then [] else pipe S2 x y) S2.

Example bytes_of_the_election :
  (length (pipe S1 "a:1" "b:1"), length (written (peers a1) "b:1"), length (pipe S2 "a:1" "b:1"),
   length (pipe S3 "a:1" "b:1"), Z.to_nat (raftCurrentTerm (core (post read_b))), negb (bool_decide (pipe S3 "b:1" "a:1" = []))) =
  (10, 9, 19, 0, 1, true)%nat.
Proof. vm_compute. reflexivity. Qed.

(** ** What the theorem asks for *)
Lemma links_single (n : Node.t) d : Node.listed n = true -> Node.status n = CONNECTED -> Connection.disconnected (Node.conn n) = false ->
  (0 <= Connection.timeout (Node.conn n))%Q -> Connection.fileno (Node.conn n) = Some d -> links_ok [n].
Proof.
  intros Hl Hst Hd Ht Hf [|k] m; [|done]. intros [= <-]. split_and!; [done..| |].
  - unfold node_at. cbn. by rewrite decide_True.
  - exists d. split; [done|]. by intros [|j] m.
Qed.
Lemma alive_single (n : Node.t) t : Connection.isDisconnected t (Node.conn n) = false -> alive t [n].
Proof. intros Hn [|k] m; [|done]. by intros [= <-]. Qed.

Lemma S0_cases u w : servers S0 !! u = Some w -> (u = "a:1" /\ w = a) \/ (u = "b:1" /\ w = b).
Proof. cbn. intros [[<- <-]|[_ [<- <-]%lookup_singleton_Some]]%lookup_insert_Some; auto. Qed.
Lemma S0_linked u v : linked S0 u v -> (u = "a:1" /\ v = "b:1") \/ (u = "b:1" /\ v = "a:1").
Proof.
  intros (w & [[-> ->]|[-> ->]]%S0_cases & k & Hk); unfold node_at in Hk; cbn in Hk; case_decide; naive_solver.
Qed.
Lemma S0_fresh : fresh_system S0.
Proof.
  split; [split|].
  - intros u w [[-> ->]|[-> ->]]%S0_cases; (split; [|reflexivity]); by eapply links_single.
  - intros u v [[-> ->]|[-> ->]]%S0_linked; eexists; (split; [reflexivity|]); by eexists.
  - intros u v. unfold in_flight. destruct (servers S0 !! v) as [w|] eqn:E; destruct (servers S0 !! u) as [w'|] eqn:E'; cbn;
      repeat match goal with H : _ !! _ = Some _ |- _ => apply S0_cases in H as [[-> ->]|[-> ->]] end;
      unfold unread, written, link, node_at; cbn; repeat case_decide; try done.
Qed.

Lemma all_sound : sound outside.
Proof. intros w [|j]; (split; [done|]); intros res; by intros [= <-]. Qed.

Lemma tick_a_returns : result tick_a = Ret tt.
Proof. vm_compute. reflexivity. Qed.
Lemma read_b_returns : result read_b = Ret tt.
Proof. vm_compute. reflexivity. Qed.

Lemma step_tick : sys_step (R := Z) default_conf S0 S1.
Proof.
  refine (step_call default_conf S0 S1 "a:1" a outside DoTick _ _ _ _ _).
  - reflexivity.
  - apply all_sound.
  - by apply alive_single.
  - by rewrite tick_a_returns.
  - exact (moved_moves "a:1" a tick_a (pipe S0) S0).
Qed.

Lemma alive_all t (ns : list Node.t) :
  forallb (fun n => negb (Connection.isDisconnected t (Node.conn n))) ns = true -> alive t ns.
Proof.
  rewrite forallb_forall. intros Hn k n Hk%list_elem_of_lookup_2%list_elem_of_In. by apply negb_true_iff, Hn.
Qed.

Lemma step_rest : sys_step (R := Z) default_conf S1 S2.
Proof.
  assert (((fun n => Connection.fileno (Node.conn n)) <$> peers a1 !! 0%nat) = Some (Some 7)) as E by (vm_compute; reflexivity).
  apply fmap_Some in E as (n & Hn & Hd).
  refine (step_write default_conf S1 S2 "a:1" a1 outside (arrives []) 0 n 7 _ _ Hn (eq_sym Hd) _ _ _).
  - unfold S1, moved. cbn [servers]. apply lookup_insert_eq.
  - apply alive_all. vm_compute. reflexivity.
  - reflexivity.
  - intros j. split; [done|]. by intros res [= <-].
  - exact (moved_moves "a:1" a1 write_a (pipe S1) S1).
Qed.

Lemma step_vote : sys_step (R := Z) default_conf S2 S3.
Proof.
  refine (step_read default_conf S2 S3 "b:1" b outside (arrives (pipe S2 "a:1" "b:1")) 0 (node_to "a:1" "a" 8) 8
    (pipe S2 "a:1" "b:1") [] _ _ _ _ _ _ _ _ _ _ _ _ _).
  - unfold S2, moved. cbn [servers]. rewrite lookup_insert_ne by done. unfold S1, moved. cbn [servers].
    by rewrite lookup_insert_ne.
  - apply all_sound.
  - reflexivity.
  - by apply alive_single.
  - reflexivity.
  - reflexivity.
  - reflexivity.
  - reflexivity.
  - reflexivity.
  - intros E. apply (f_equal length) in E. vm_compute in E. discriminate E.
  - by rewrite app_nil_r.
  - by rewrite read_b_returns.
  - exact (moved_moves "b:1" b read_b _ S2).
Qed.

Lemma run_to_S3 : rtc (sys_step (R := Z) default_conf) S0 S3.
Proof. eapply rtc_l; [apply step_tick|]. eapply rtc_l; [apply step_rest|apply rtc_once, step_vote]. Qed.
End Sockets.
Import Sockets.

#[local] Existing Instances Demo.append_machine Demo.no_codec.
Lemma sockets_refine_network_witness : exists acts W log,
  run_log default_conf acts (cluster_of Sockets.S0) = Some (W, log) /\ members W = core <$> servers Sockets.S3 /\
  forall u v, linked Sockets.S3 u v -> exists pending,
    between u v (SyncObjCluster.net W) = between u v log ++ pending /\
    in_flight Sockets.S3 u v = stream (Message <$> pending) /\ (in_flight Sockets.S3 u v = [] -> pending = []).
Proof.
  apply (sockets_refine_network (R := Z) default_conf Sockets.S0 Sockets.S3).
  - apply S0_fresh.
  - apply run_to_S3.
Defined.
