(* ===== verification/SyncThread.v ===== *)
(** * The thread of a SyncObj

    How a server of SyncServer.v comes up and what its thread does
    ([__initInTickThread], [__bind], [_autoTickThread] and the start of [_onTick]
    in src/pysyncobj/syncobj.py).  The listening socket may be refused (the
    address is in use) or fail later ([onNewConnection] in Node.v); the thread
    tries again every [bindRetryTime], and with a new socket it makes new nodes:
    the old ones are in [__nodes] no more, but the poller still calls them.  The
    main thread keeps the object, so there is no [ReferenceError]. *)
From stdpp Require Import base gmap sets list strings.
From Stdlib Require Import ZArith QArith Lia Strings.Ascii.
From S2P Require Import Prelude PyList PyStr PyExcept Connection Poller Resolver Node NodeTheorems Serializer SyncObj SyncServer.
Local Open Scope Z_scope.
Import POLL_EVENT_TYPE.

Section thread.
Context {C R X F P : Type} `{Machine C R X} `{Codec (dump C X)}.
Context `{Pickle (packet (message C))} `{PollerLaws P subscriber}.
Context (conf : SyncObjConf).

Abbreviation obj := (SyncObj.t string C X F).
Abbreviation effect := (SyncObj.effect string C R F).
Abbreviation server := (hub P obj).

(** The attributes that only the start-up uses, next to the hub. *)
Record thread : Type := MkThread {
  base : server;
  otherNodesAddrs : list string;
  resolver : Resolver.t (IP := string);
  lastInitTryTime : Q;
}.
Abbreviation MT := (PyM thread (io effect)).

Definition set_base (x : server) (t : thread) : thread :=
  MkThread x (otherNodesAddrs t) (resolver t) (lastInitTryTime t).
Definition set_resolver (x : Resolver.t (IP := string)) (t : thread) : thread :=
  MkThread (base t) (otherNodesAddrs t) x (lastInitTryTime t).
Definition set_lastInitTryTime (x : Q) (t : thread) : thread :=
  MkThread (base t) (otherNodesAddrs t) (resolver t) x.

(** The core's view of [__nodes]: their addresses. *)
Definition set_nodes (x : list string) (s : obj) : obj :=
  MkSyncObj (SyncObj.selfNodeAddr s) x (raftState s) (raftCurrentTerm s) (votesCount s) (raftLeader s)
    (raftElectionDeadline s) (raftLog s) (raftCommitIndex s) (raftLastApplied s) (raftNextIndex s)
    (raftMatchIndex s) (lastSerializedTime s) (forceLogCompaction s) (serializer s)
    (needLoadDumpFile s) (commandsQueue s) (newAppendEntriesTime s) (commandsWaitingCommit s)
    (commandsLocalCounter s) (commandsWaitingReply s) (object s).

(** A method of the hub, an assignment to the hub or to the core. *)
Definition on_base {A} (m : PyM server (io effect) A) : MT A :=
  fun t => let '(w, es, r) := m (base t) in (set_base w t, es, r).
Definition update_base (f : server -> server) : MT unit := py_set (fun t => set_base (f (base t)) t).
Definition update_core (f : obj -> obj) : MT unit := update_base (fun w => set_core (f (core w)) w).

(** [SyncObj(selfNodeAddr, otherNodesAddrs)] before its thread starts; the
    poller is new. *)
Definition new_thread (selfNodeAddr : string) (others : list string) (object : X) (file : option bytes)
    (e : env string) (poller : P) : thread :=
  MkThread
    (MkHub selfNodeAddr (SyncObj.connectionTimeout conf) (SyncObj.connectionRetryTime conf) [] ∅ poller false
       (SyncObj.init conf selfNodeAddr [] object file e))
    others (Resolver.init (dnsCacheTime conf) (dnsFailCacheTime conf)) 0.

(** What the outside answers to one attempt: the listening socket's descriptor
    or the exception of creating, binding or listening; the addresses of a
    node's host and the random choice among them. *)
Record attempt : Type := MkAttempt {
  started : Q;
  listening : string -> Z -> outcome Z;
  dns : string -> option (list string);
  pick : string -> nat;
}.

Definition bind (e : attempt) : MT unit :=
  let! self := py_get (fun t => Node.selfNodeAddr (base t)) in
  match py_split ":" self with
  | [host; port] =>
      match py_int port with
      | None => py_raise ValueError
      | Some port =>
          match listening e host port with
          | Raise x => py_raise x
          | Ret descr => on_base (watch descr OnNewConnection (Z.lor READ ERROR))
          end
      end
  | _ => py_raise ValueError
  end.

(** Lines 97-99. *)
Definition add_node (e : attempt) (nodeAddr : string) : MT unit :=
  let! t := py_get id in
  let '(r, n) := Node.init (Node.selfNodeAddr (base t)) nodeAddr (Node.connectionTimeout (base t))
                   (started e) (dns e nodeAddr) (pick e nodeAddr) (resolver t) in
  py_set (set_resolver r) ;;!
  match n with
  | Raise x => py_raise x
  | Ret n =>
      update_base (fun w => set_peers (peers w ++ [n]) w) ;;!
      update_core (fun s => set_nodes (nodes s ++ [nodeAddr]) s) ;;!
      update_core (fun s => set_raftNextIndex (<[nodeAddr := 0]> (raftNextIndex s)) s) ;;!
      update_core (fun s => set_raftMatchIndex (<[nodeAddr := 0]> (raftMatchIndex s)) s)
  end.

Definition initInTickThread (e : attempt) : MT unit :=
  py_try
    (py_set (set_lastInitTryTime (started e)) ;;!
     bind e ;;!
     update_base (fun w => set_peers (Node.unlist <$> peers w) w) ;;!
     update_core (set_nodes []) ;;!
     let! others := py_get otherNodesAddrs in
     py_for others (add_node e) ;;!
     update_core (set_needLoadDumpFile true) ;;!
     update_base (set_isInitialized true))
    (py_return tt).

(** One turn of the thread: the answers to an attempt, and those to [server_tick]. *)
Record moment : Type := MkMoment {
  retry : attempt;
  outside : oracle C X F P;
  connects : nat -> bool * Z;
  kernel_answers : Z -> answers;
  accepted : accept_result;
  events : list (Z * Z);
}.

(** [_onTick] of an initialised object. *)
Definition serve (m : moment) : MT unit :=
  on_base (server_tick conf (outside m) (connects m) (kernel_answers m) (accepted m) (events m)).

Definition tick (m : moment) : MT unit :=
  let! t := py_get id in
  (if isInitialized (base t) then py_return tt
   else if Qle_bool (lastInitTryTime t + bindRetryTime conf) (started (retry m))
   then initInTickThread (retry m) else py_return tt) ;;!
  let! t := py_get id in
  if isInitialized (base t) then serve m else py_return tt.

(** The turns until the main thread has ended. *)
Definition tick_loop (ms : list moment) : MT unit := py_for ms tick.

Definition autoTickThread (e : attempt) (ms : list moment) : MT unit :=
  initInTickThread e ;;! tick_loop ms.

(** ** Start-up *)
Definition refused (e : attempt) : Prop := forall host port, exists x, listening e host port = Raise x.
Definition granted (e : attempt) (d : Z) : Prop := forall host port, listening e host port = Ret d.
(** [host:port] *)
Definition address (a : string) : Prop :=
  exists host port z, py_split ":" a = [host; port] /\ py_int port = Some z.
Definition due (m : moment) (t : thread) : Prop :=
  (lastInitTryTime t + bindRetryTime conf <= started (retry m))%Q.

Lemma refused_attempt e t : refused e ->
  initInTickThread e t = (set_lastInitTryTime (started e) t, [], Ret tt) :> _ * list (io effect) * _.
Proof.
  intros He. unfold initInTickThread, py_try, bind. unfold py_bind, py_set, py_get. cbn [base set_lastInitTryTime app].
  destruct (py_split ":" _) as [|h [|p [|]]]; [done..| |done].
  destruct (py_int p) as [z|]; [|done]. by destruct (He h z) as [x ->].
Qed.

Lemma refused_tick m t : isInitialized (base t) = false -> refused (retry m) ->
  tick m t = (if Qle_bool (lastInitTryTime t + bindRetryTime conf) (started (retry m))
              then set_lastInitTryTime (started (retry m)) t else t, [], Ret tt).
Proof.
  intros Hi Hm. unfold tick. rewrite bind_get. unfold id. rewrite Hi.
  destruct (Qle_bool _ _).
  - etrans; [by eapply bind_pure, refused_attempt|].
    rewrite bind_get. unfold id. cbn [base set_lastInitTryTime]. by rewrite Hi.
  - rewrite bind_return, bind_get. unfold id. by rewrite Hi.
Qed.

(** A waiting thread keeps everything but the time of its last attempt. *)
Lemma refused_loop ms t : isInitialized (base t) = false -> Forall (fun m => refused (retry m)) ms ->
  exists q, tick_loop ms t = (set_lastInitTryTime q t, [], Ret tt) :> _ * list (io effect) * _.
Proof.
  intros Hi Hms. revert t Hi. induction Hms as [|m ms Hm Hms IH]; intros t Hi; cbn [tick_loop py_for].
  { exists (lastInitTryTime t). by destruct t. }
  pose proof (refused_tick m t Hi Hm) as Ht.
  destruct (Qle_bool _ _).
  - destruct (IH (set_lastInitTryTime (started (retry m)) t) Hi) as [q Hq]. exists q.
    etrans; [by eapply bind_pure, Ht|exact Hq].
  - destruct (IH t Hi) as [q Hq]. exists q.
    etrans; [by eapply bind_pure, Ht|exact Hq].
Qed.

(** The core when a node is added. *)
Definition enrol (s : obj) (a : string) : obj :=
  set_raftMatchIndex (<[a := 0]> (raftMatchIndex s))
    (set_raftNextIndex (<[a := 0]> (raftNextIndex s)) (set_nodes (nodes s ++ [a]) s)).

(** What adding nodes does: fresh nodes in the hub, and in the core. *)
Record joins (l : list string) (t t' : thread) : Prop := {
  joins_addrs ns : peers (base t) = ns ->
    exists ns', base t' = set_core (foldl enrol (core (base t)) l) (set_peers (ns ++ ns') (base t)) /\
      Node.nodeAddr <$> ns' = l /\ Forall (fun n => Node.status n = DISCONNECTED /\ Node.listed n = true) ns';
  joins_others : otherNodesAddrs t' = otherNodesAddrs t;
}.

Lemma add_node_joins e a t : address a ->
  exists t', add_node e a t = (t', [], Ret tt) :> _ * list (io effect) * _ /\ joins [a] t t'.
Proof.
  intros (h & p & z & Es & Ep). unfold add_node. rewrite bind_get. unfold id, Node.init. rewrite Es.
  destruct (Resolver.resolve _ _ _ _ _) as [r ip]. rewrite Ep. eexists. split; [reflexivity|].
  split; [|done]. intros ns <-. eexists [_]. split_and!; [reflexivity|reflexivity|by repeat constructor].
Qed.

Lemma nodes_join e l t : Forall address l ->
  exists t', py_for l (add_node e) t = (t', [], Ret tt) :> _ * list (io effect) * _ /\ joins l t t'.
Proof.
  intros Hl. revert t. induction Hl as [|a l Ha Hl IH]; intros t; cbn [py_for].
  { exists t. split; [done|]. split; [|done]. intros ns <-. exists []. rewrite app_nil_r. by destruct (base t). }
  destruct (add_node_joins e a t Ha) as (t1 & E1 & J1). destruct (IH t1) as (t2 & E2 & J2).
  exists t2. split; [etrans; [by eapply bind_pure, E1|exact E2]|].
  split; [|by rewrite (joins_others _ _ _ J2), (joins_others _ _ _ J1)].
  intros ns Hns. destruct (joins_addrs _ _ _ J1 ns Hns) as (n1 & B1 & A1 & S1).
  destruct (joins_addrs _ _ _ J2 (ns ++ n1)) as (n2 & B2 & A2 & S2); [by rewrite B1|].
  exists (n1 ++ n2). rewrite B2, B1. split_and!; [by rewrite app_assoc|by rewrite fmap_app, A1, A2|by apply Forall_app].
Qed.

Lemma foldl_insert (l : list string) (m : gmap string Z) :
  foldl (fun m a => <[a := 0]> m) m l = list_to_map ((fun a => (a, 0)) <$> l) ∪ m.
Proof.
  revert m. induction l as [|a l IH]; intros m; cbn; [by rewrite (left_id_L ∅ (∪))|].
  rewrite IH. apply map_eq. intros i. rewrite !lookup_union, !lookup_insert.
  case_decide as E; [subst|done]. destruct (list_to_map _ !! i) eqn:Ei; [|by destruct (m !! i)].
  apply elem_of_list_to_map_2, list_elem_of_fmap in Ei as (b & [= -> ->] & _). by destruct (m !! b).
Qed.

Lemma enrol_all l s : foldl enrol s l =
  set_raftMatchIndex (foldl (fun m a => <[a := 0]> m) (raftMatchIndex s) l)
    (set_raftNextIndex (foldl (fun m a => <[a := 0]> m) (raftNextIndex s) l) (set_nodes (nodes s ++ l) s)).
Proof.
  revert s. induction l as [|a l IH]; intros s; cbn [foldl]; [by rewrite app_nil_r; destruct s|].
  rewrite IH. unfold enrol. cbn. by rewrite <-app_assoc.
Qed.

(** The core with its nodes made anew. *)
Definition restarted (t : thread) : obj :=
  set_needLoadDumpFile true (foldl enrol (set_nodes [] (core (base t))) (otherNodesAddrs t)).

(** [t'] is [t] with a listening socket: new nodes, not connected, are in
    [__nodes]; of the old ones only the poller knows. *)
Record ready (t : thread) (d : Z) (t' : thread) : Prop := {
  ready_core : core (base t') = restarted t;
  ready_nodes : exists ns, peers (base t') = (Node.unlist <$> peers (base t)) ++ ns /\
    Node.nodeAddr <$> ns = otherNodesAddrs t /\
    Forall (fun n => Node.status n = DISCONNECTED /\ Node.listed n = true) ns;
  ready_listens : callback (poller (base t')) d = Some OnNewConnection;
  ready_callbacks d' : d <> d' -> callback (poller (base t')) d' = callback (poller (base t)) d';
  ready_unknown : unknown (base t') = unknown (base t);
  ready_flag : isInitialized (base t') = true;
}.

Lemma bind_update_base {B} f (k : unit -> MT B) t : py_bind (update_base f) k t = k tt (set_base (f (base t)) t).
Proof. exact (bind_set (fun t => set_base (f (base t)) t) k t). Qed.
Lemma bind_update_core {B} f (k : unit -> MT B) t :
  py_bind (update_core f) k t = k tt (set_base (set_core (f (core (base t))) (base t)) t).
Proof. exact (bind_update_base (fun w => set_core (f (core w)) w) k t). Qed.

Lemma bind_listens e d t : address (Node.selfNodeAddr (base t)) -> granted e d ->
  bind e t = (set_base (set_poller (subscribe d OnNewConnection (Z.lor READ ERROR) (poller (base t))) (base t)) t,
    [], Ret tt) :> _ * list (io effect) * _.
Proof.
  intros (h & p & z & Es & Ep) Hd. unfold bind. rewrite bind_get, Es, Ep. by rewrite (Hd h z).
Qed.

Lemma granted_attempt e d t :
  address (Node.selfNodeAddr (base t)) -> Forall address (otherNodesAddrs t) -> granted e d ->
  exists t', initInTickThread e t = (t', [], Ret tt) :> _ * list (io effect) * _ /\ ready t d t'.
Proof.
  intros Hself Hl Hd. unfold initInTickThread, py_try.
  set (t1 := set_lastInitTryTime (started e) t).
  set (t2 := set_base (set_poller (subscribe d OnNewConnection (Z.lor READ ERROR) (poller (base t1))) (base t1)) t1).
  set (t3 := set_base (set_peers (Node.unlist <$> peers (base t2)) (base t2)) t2).
  set (t4 := set_base (set_core (set_nodes [] (core (base t3))) (base t3)) t3).
  destruct (nodes_join e (otherNodesAddrs t) t4 Hl) as (t5 & E & J).
  destruct (joins_addrs _ _ _ J _ eq_refl) as (ns & B & A & D).
  eexists. split.
  - rewrite bind_set. fold t1. erewrite bind_pure by (by apply bind_listens).
    fold t2. rewrite bind_update_base. fold t3. rewrite bind_update_core. fold t4. rewrite bind_get.
    change (otherNodesAddrs t4) with (otherNodesAddrs t).
    erewrite bind_pure by exact E. rewrite bind_update_core. reflexivity.
  - split; cbn [base set_base]; rewrite B; cbn; [done|by exists ns| | |done..].
    + by rewrite callback_subscribe, decide_True.
    + intros d' Hne. by rewrite callback_subscribe, decide_False.
Qed.

(** A new object is restarted into the one of SyncObj.v. *)
Lemma restarted_new self others x file e q p :
  restarted (set_lastInitTryTime q (new_thread self others x file e p)) = SyncObj.init conf self others x file e.
Proof. unfold restarted. rewrite enrol_all. cbn. by rewrite !foldl_insert, !(right_id_L ∅ (∪)). Qed.

(** C40: a server without a listening socket, one that starts or one whose
    socket has failed, waits, unchanged, and tries again every [bindRetryTime];
    the first attempt that gets the socket, if the addresses are [host:port],
    gives it new nodes that are not connected, takes the old ones off its list
    (the poller still calls them), and it serves from that turn on.  A new
    server is then the one of the model ([SyncObj.init]). *)
Theorem thread_starts ms m d t0 :
  isInitialized (base t0) = false ->
  address (Node.selfNodeAddr (base t0)) -> Forall address (otherNodesAddrs t0) ->
  Forall (fun m => refused (retry m)) ms -> granted (retry m) d ->
  exists t, tick_loop ms t0 = (t, [], Ret tt) :> _ * list (io effect) * _ /\ base t = base t0 /\
    (~ due m t -> tick m t = (t, [], Ret tt)) /\
    (due m t -> exists t', ready t0 d t' /\ tick m t = serve m t') /\
    (forall self others x file e0 p e, let new := new_thread self others x file e0 p in
       refused e -> t0 = set_lastInitTryTime (started e) new ->
       autoTickThread e ms new = (t, [], Ret tt) /\ restarted t0 = SyncObj.init conf self others x file e0).
Proof.
  intros Hi Hself Hl Hms Hd. destruct (refused_loop ms t0 Hi Hms) as [q Hq].
  eexists. split; [exact Hq|]. split; [done|]. split_and!.
  - intros Hdue. unfold tick. rewrite bind_get. unfold id. cbn [base set_lastInitTryTime]. rewrite Hi.
    destruct (Qle_bool _ _) eqn:Ed; [by apply Qle_bool_iff in Ed|].
    rewrite bind_return, bind_get. unfold id. cbn [base set_lastInitTryTime]. by rewrite Hi.
  - intros Hdue. unfold tick. rewrite bind_get. unfold id. cbn [base set_lastInitTryTime]. rewrite Hi.
    rewrite (proj2 (Qle_bool_iff _ _)) by exact Hdue.
    destruct (granted_attempt (retry m) d (set_lastInitTryTime q t0)) as (t' & E & Hr); [done..|].
    exists t'. split; [by destruct Hr; split|].
    erewrite bind_pure by exact E. rewrite bind_get. unfold id. by rewrite (ready_flag _ _ _ Hr).
  - intros self others x file e0 p e new He Ht0. split; [|by rewrite Ht0; apply restarted_new].
    unfold autoTickThread. erewrite bind_pure by (by apply refused_attempt). by rewrite <-Ht0.
Qed.

(** Whatever a turn raises ends the thread: no later turn happens. *)
Lemma loop_raises ms m ms' t t1 es t2 es' x :
  tick_loop ms t = (t1, es, Ret tt) -> tick m t1 = (t2, es', Raise x) ->
  tick_loop (ms ++ m :: ms') t = (t2, es ++ es', Raise x).
Proof.
  intros Hms Hm. unfold tick_loop in *. rewrite py_for_app. unfold py_bind. rewrite Hms. cbn [py_for].
  unfold py_bind. by rewrite Hm.
Qed.

Lemma thread_raises e ms m ms' t t1 es t2 es' x :
  autoTickThread e ms t = (t1, es, Ret tt) -> tick m t1 = (t2, es', Raise x) ->
  autoTickThread e (ms ++ m :: ms') t = (t2, es ++ es', Raise x).
Proof.
  intros Hms Hm. unfold autoTickThread, py_bind in *.
  destruct (initInTickThread e t) as [[t0 es0] [[]|]]; [|done].
  destruct (tick_loop ms t0) as [[t' es1] r] eqn:E. injection Hms as -> <- ->.
  by rewrite (loop_raises _ _ ms' _ _ _ _ _ _ E Hm), app_assoc.
Qed.

(** ** The sockets when nodes are made anew *)
Definition sockets_ok (t : thread) : Prop := hub_ok (base t).
Abbreviation keeps m := (triple (E := io effect) sockets_ok m (fun _ => sockets_ok) sockets_ok).

Lemma update_keeps (f : server -> server) :
  (forall w, hub_ok w -> hub_ok (f w)) -> keeps (update_base f).
Proof. intros Hf. apply triple_set. intros t. apply Hf. Qed.

Lemma net_ok_listen ls us (p : P) d m :
  net_ok ls us p -> us !! d = None -> (forall j st, ls !! j = Some (st, Some d) -> st = DISCONNECTED) ->
  net_ok ls us (subscribe d OnNewConnection m p).
Proof.
  intros [Hl Hu] Hn Hfree. split.
  - intros j st f Hj Hst. destruct (Hl j st f Hj Hst) as (d' & -> & Hw). exists d'. split; [done|].
    apply watched_subscribe_ne; [|done]. intros <-. eauto.
  - intros d' f Hd'. destruct (Hu d' f Hd') as [-> Hw]. split; [done|].
    apply watched_subscribe_ne; [|done]. congruence.
Qed.

Lemma links_unlisted (w : server) : links (set_peers (Node.unlist <$> peers w) w) = links w.
Proof. unfold links. cbn. rewrite <-list_fmap_compose. by apply list_fmap_ext. Qed.

Lemma net_ok_snoc ls us (p : P) f : net_ok ls us p -> net_ok (ls ++ [(DISCONNECTED, f)]) us p.
Proof.
  intros [Hl Hu]. split; [|done]. intros k st g [Hk|(_ & Hk)]%lookup_app_Some Hst; [by eapply Hl|].
  by apply list_lookup_singleton_Some in Hk as [_ [= <- _]].
Qed.

Lemma add_node_keeps e a : keeps (add_node e a).
Proof.
  unfold add_node. intros t Ht. unfold py_bind, py_get, py_set, py_call, id. cbn.
  destruct (Node.init _ _ _ _ _ _ _) as [r [n|x]] eqn:En; cbn; [|done].
  unfold sockets_ok, hub_ok, links. cbn. rewrite fmap_app. cbn.
  assert (Node.status n = DISCONNECTED) as ->; [|by apply net_ok_snoc].
  unfold Node.init in En. by repeat case_match; simplify_eq.
Qed.

Lemma bind_keeps e t :
  (forall host port d, listening e host port = Ret d -> fresh d (base t)) -> sockets_ok t ->
  triple (E := io effect) (fun t' => base t' = base t) (bind e) (fun _ => sockets_ok) sockets_ok.
Proof.
  intros Hf Ht t' Et. unfold bind, py_bind, py_get. unfold sockets_ok in *. rewrite <-Et in Ht, Hf.
  destruct (py_split ":" _) as [|h [|p [|]]]; cbn; [done..| |done].
  destruct (py_int p) as [z|]; cbn; [|done]. destruct (listening e h z) as [d|x] eqn:El; cbn; [|done].
  destruct (Hf h z d El) as [Hs Hl]. by apply net_ok_listen.
Qed.

(** The nodes of a server whose listening socket failed may still be connected:
    making new ones leaves every open connection watched for its old node, and
    none is shared, provided that the new listening socket is not in use. *)
Theorem reopening_keeps_sockets e t :
  (forall host port d, listening e host port = Ret d -> fresh d (base t)) ->
  sockets_ok t -> sockets_ok (post (initInTickThread e t : _ * list (io effect) * _)).
Proof.
  intros Hf Ht. apply (triple_post_any _ (fun t' => base t' = base t) sockets_ok); [|done].
  unfold initInTickThread. apply triple_try; [|by apply triple_return].
  eapply (triple_bind _ _ _ _ (fun _ t' => base t' = base t)); [by apply triple_set|]. intros [].
  eapply (triple_bind _ _ _ _ (fun _ => sockets_ok)); [by apply bind_keeps|]. intros [].
  eapply (triple_bind _ _ _ _ (fun _ => sockets_ok)).
  { apply update_keeps. intros w. unfold hub_ok. by rewrite links_unlisted. }
  intros []. eapply (triple_bind _ _ _ _ (fun _ => sockets_ok)); [by apply update_keeps|]. intros [].
  eapply (triple_bind _ _ _ _ (fun _ => sockets_ok)); [by apply triple_get|]. intros others.
  eapply (triple_bind _ _ _ _ (fun _ => sockets_ok)); [apply triple_for, add_node_keeps|]. intros [].
  eapply (triple_bind _ _ _ _ (fun _ => sockets_ok)); [by apply update_keeps|]. intros [].
  by apply update_keeps.
Qed.
Lemma loads_first (e : env string) (s : obj) x e1 e0 :
  fullDumpFile conf <> None -> Serializer.file (serializer s) <> None ->
  needLoadDumpFile s = true -> Serializer.deserialize (serializer s) = Ret (x, e1, e0) ->
  onTick (R := R) conf e s =
    onTick conf e (set_needLoadDumpFile false
      (set_raftLastApplied (logID e1) (set_raftLog [e0; e1] (set_object x s)))).
Proof.
  intros Hc Hf Hn Hd. unfold onTick. rewrite !bind_get. unfold id. cbn [needLoadDumpFile set_needLoadDumpFile].
  rewrite Hn, !bool_decide_eq_true_2 by done. rewrite bind_return. erewrite bind_pure; [reflexivity|].
  cbn [andb]. erewrite bind_pure; [reflexivity|]. unfold loadDumpFile. rewrite bind_get. unfold id. by rewrite Hd.
Qed.

(** Making the nodes anew asks for the dump file again: the next turn begins by
    putting the object, the log and what counts as applied back to the last
    snapshot, whatever has been applied, and answered, since. *)
Theorem reopening_rolls_back (e : env string) t x e1 e0 :
  fullDumpFile conf <> None -> Serializer.file (serializer (core (base t))) <> None ->
  Serializer.deserialize (serializer (core (base t))) = Ret (x, e1, e0) ->
  onTick (R := R) conf e (restarted t) =
    onTick conf e (set_needLoadDumpFile false
      (set_raftLastApplied (logID e1) (set_raftLog [e0; e1] (set_object x (restarted t))))).
Proof.
  assert (serializer (restarted t) = serializer (core (base t))) as <-
    by (unfold restarted; by rewrite enrol_all).
  intros Hc Hf Hd. by apply loads_first.
Qed.
End thread.
