(* ===== verification/SyncThreadDemo.v ===== *)
(** * Servers that come up, lose their listening socket, and end

    The witness of SyncThread.v; a run in which the listening socket fails and a
    peer is heard but not answered; a run in which commands that another node
    forwards end the thread: nothing but [ReferenceError] is caught there. *)
From stdpp Require Import base gmap sets list strings.
From Stdlib Require Import ZArith QArith Lia.
From S2P Require Import Prelude PyList PyExcept Connection ConnectionTheorems Poller Resolver Node Serializer SyncObj SyncObjDemo SyncServer SyncTransport SyncSystem SyncSystemDemo SyncThread.
Local Open Scope Z_scope.
Import POLL_EVENT_TYPE Sockets.
#[local] Existing Instances Demo.append_machine Demo.no_codec.

Module Thread.

(** One place in the queue; the rest as in config.py. *)
Definition conf1 : SyncObjConf := {|
  autoTick := true; autoTickPeriod := 5 # 100; commandsQueueSize := 1; maxCommandsPerTick := 100;
  raftMinTimeout := 1; raftMaxTimeout := 3; appendEntriesPeriod := 3 # 10; SyncObj.connectionTimeout := 35 # 10;
  SyncObj.connectionRetryTime := 5; appendEntriesBatchSize := 1000; appendEntriesUseBatch := true;
  sendBufferSize := 2 ^ 13; recvBufferSize := 2 ^ 13; dnsCacheTime := 600; dnsFailCacheTime := 30;
  logCompactionMinEntries := 5000; logCompactionMinTime := 60; logCompactionBatchSize := 2 ^ 13;
  commandsWaitLeader := true; fullDumpFile := None; bindRetryTime := 1;
|}.

Definition try_at (t : Q) (answer : outcome Z) : attempt :=
  MkAttempt t (fun _ _ => answer) (fun _ => Some ["10.0.0.1"]) (fun _ => O).

(** A turn at a time: a connection that is opened gets descriptor 8. *)
Definition turn (t : Q) (answer : outcome Z) (chunk : bytes) (events : list (Z * Z)) :
    moment (C := string) (X := list string) (F := Z) (P := poller_) :=
  MkMoment (try_at t answer)
    {| clock := t; core_env _ := at_time t; kernel _ _ := Connection.SendReturned 1000 |}
    (fun _ => (true, 8))
    (fun _ => MkAnswers t false (fun _ => Connection.SendReturned 1000) (fun _ => Connection.SendReturned 1000)
       (Connection.Received chunk) false)
    AcceptEAGAIN events.

(** b connects to a, which forwards two commands. *)
Definition born := new_thread (C := string) (X := list string) (F := Z) (P := poller_) conf1 "b:1" ["a:1"] [] None (at_time 0) PollPoller.init.
Definition forwarded (c : string) (i : Z) : packet (message string) := Message (apply_command c (Some i)).
Definition commands : bytes := stream [forwarded "x" 1; forwarded "y" 2].
Definition first_turn := turn 10 (Ret 5) commands [(8, READ)].

Definition life (ms : list moment) := autoTickThread (R := Z) conf1 (try_at 0 (Raise KeyError)) ms born.

Example comes_up :
  let x := life [turn (1 # 2) (Raise KeyError) [] []; turn 10 (Ret 5) [] []] in
  (result x, isInitialized (base (post x)), raftState (core (base (post x))), Node.status <$> peers (base (post x)))
  = (Ret tt, true, CANDIDATE, [CONNECTING]).
Proof. vm_compute. reflexivity. Qed.

(** The thread that has started, and its next turn. *)
Definition listening_thread := post (life [turn 10 (Ret 5) [] []]).
Definition overload := turn (21 # 2) (Raise KeyError) commands [(8, READ)].

Lemma overload_raises :
  let x := tick (R := Z) conf1 overload listening_thread in
  result x = Raise TypeError /\ (fun q => q.1) <$> commandsQueue (core (base (post x))) = ["x"].
Proof. split; vm_compute; reflexivity. Qed.
End Thread.
Import Thread.

(** Two commands that another node forwards, more than the queue of a server
    holds, end the thread of the server: it serves nothing any more, whatever
    comes. *)
Theorem forwarding_ends_the_thread ms :
  let x := life (turn 10 (Ret 5) [] [] :: overload :: ms) in
  result x = Raise TypeError /\ (fun q => q.1) <$> commandsQueue (core (base (post x))) = ["x"].
Proof.
  destruct overload_raises as [Hr Hq].
  assert (result (life [turn 10 (Ret 5) [] []]) = Ret tt) as Hs by (vm_compute; reflexivity).
  unfold listening_thread, life in *. destruct (autoTickThread _ _ [_] _) as [[t1 es] r] eqn:E.
  change (post (t1, es, r)) with t1 in *.
  destruct (tick (R := Z) conf1 overload t1) as [[t2 es'] r'] eqn:Et. cbn in Hs, Hr, Hq. subst r r'.
  pose proof (thread_raises conf1 _ _ _ ms _ _ _ _ _ _ E Et) as Hx. cbn [app] in Hx.
  cbn zeta. rewrite Hx. split; [reflexivity|exact Hq].
Qed.

(** a:1, to which b:1 connects; then the listening socket fails, and what b:1
    sends next comes when there is a new one. *)
Definition born_a := new_thread (C := string) (X := list string) (F := Z) (P := poller_) conf1 "a:1" ["b:1"] [] None (at_time 0) PollPoller.init.
Definition moment_at (t : Q) (answer : outcome Z) (accept : accept_result) (p : packet (message string))
    (events : list (Z * Z)) : moment (C := string) (X := list string) (F := Z) (P := poller_) :=
  MkMoment (retry (turn t answer [] [])) (SyncThread.outside (turn t answer [] [])) (fun _ => (true, 9))
    (kernel_answers (turn t answer (stream [p]) [])) accept events.
Definition meet : list (moment (C := string) (X := list string) (F := Z) (P := poller_)) :=
  [ moment_at (1 # 10) (Ret 5) (Accepted 8) (Address "b:1") [(5, READ)];
    moment_at (2 # 10) (Ret 5) AcceptEAGAIN (Address "b:1") [(8, READ)];
    moment_at (3 # 10) (Ret 5) AcceptEAGAIN (Address "b:1") [(8, WRITE); (5, ERROR)] ].
Definition candidacy : packet (message string) := Message (request_vote 7 1 0).
Definition calls := moment_at 2 (Ret 6) AcceptEAGAIN candidacy [(8, READ)].
Definition calls_in_time := moment_at (4 # 10) (Ret 5) AcceptEAGAIN candidacy [(8, READ)].
Definition meeting := autoTickThread (R := Z) conf1 (try_at 0 (Ret 5)) meet born_a.

Definition bytes_sent {Eff} (es : list (io Eff)) : nat :=
  length (es ≫= fun x => match x with Wire _ bs => bs | _ => [] end).
Definition node_view (n : Node.t) := (Node.nodeAddr n, Node.status n, Connection.fileno (Node.conn n), Node.listed n).
Definition after (m : moment (C := string) (X := list string) (F := Z) (P := poller_)) t :=
  let x := tick (R := Z) conf1 m t in
  (result x, node_view <$> peers (base (post x)), raftCurrentTerm (core (base (post x))), bytes_sent (effects x)).

(** When the listening socket has failed and there is a new one, b:1, whose
    connection stays open, is heard and not answered: its candidacy puts a:1
    into the new term, but the vote goes to the new node of b:1, which is not
    connected (and waits for b:1 to connect). *)
Theorem vote_unheard :
  result meeting = Ret tt /\ isInitialized (base (post meeting)) = false /\
  after calls (post meeting) =
    (Ret tt, [("b:1", CONNECTED, Some 8, false); ("b:1", DISCONNECTED, None, true)], 7, 0%nat).
Proof. split_and!; vm_compute; reflexivity. Qed.

(** Without the failure the vote is sent. *)
Example vote_heard :
  let x := after calls_in_time (set_base (set_isInitialized true (base (post meeting))) (post meeting)) in
  (x.1.1.1, x.1.1.2, x.1.2, bool_decide (x.2 = 0%nat)) = (Ret tt, [("b:1", CONNECTED, Some 8, true)], 7, false).
Proof. vm_compute. reflexivity. Qed.

Lemma thread_starts_witness : exists t,
  tick_loop (R := Z) conf1 [turn (1 # 2) (Raise KeyError) [] []] (post meeting) = (t, [], Ret tt) /\
  base t = base (post meeting) /\
  (~ due conf1 calls t -> tick (R := Z) conf1 calls t = (t, [], Ret tt)) /\
  (due conf1 calls t -> exists t', ready (post meeting) 6 t' /\ tick (R := Z) conf1 calls t = serve conf1 calls t') /\
  (forall self others x file e0 p e, let new := new_thread conf1 self others x file e0 p in
     refused e -> post meeting = set_lastInitTryTime (started e) new ->
     autoTickThread (R := Z) conf1 e [turn (1 # 2) (Raise KeyError) [] []] new = (t, [], Ret tt) /\
     restarted (post meeting) = SyncObj.init conf1 self others x file e0).
Proof.
  apply (thread_starts (R := Z) conf1 [turn (1 # 2) (Raise KeyError) [] []] calls 6 (post meeting)).
  - vm_compute. reflexivity.
  - exists "a", "1", 1. split; vm_compute; reflexivity.
  - replace (otherNodesAddrs (post meeting)) with ["b:1"] by (vm_compute; reflexivity).
    repeat constructor. exists "b", "1", 1. split; reflexivity.
  - repeat constructor. intros host port. by eexists.
  - intros host port. reflexivity.
Defined.
