(* ===== verification/PyFuel.v ===== *)
(** * Methods with unbounded loops

    [PyF S E A] is [PyM S E A] that may need more fuel ([None]).  An exception
    handler does not catch that. *)
From stdpp Require Import base list.
From S2P Require Import Prelude PyExcept.

Definition PyF (S E A : Type) : Type := S -> option (S * list E * outcome A).

Section fuel.
Context {S E : Type}.

Definition f_lift {A} (m : PyM S E A) : PyF S E A := fun s => Some (m s).
Definition f_return {A} (a : A) : PyF S E A := f_lift (py_return a).
Definition f_raise {A} (e : py_error) : PyF S E A := f_lift (py_raise e).
Definition f_more {A} : PyF S E A := fun _ => None.
Definition f_bind {A B} (c : PyF S E A) (k : A -> PyF S E B) : PyF S E B :=
  fun s =>
    match c s with
    | None => None
    | Some (s', es, Raise e) => Some (s', es, Raise e)
    | Some (s', es, Ret a) =>
        match k a s' with
        | None => None
        | Some (s'', es', r) => Some (s'', es ++ es', r)
        end
    end.
(** [try: m except e: h e] *)
Definition f_try {A} (m : PyF S E A) (h : py_error -> PyF S E A) : PyF S E A :=
  fun s =>
    match m s with
    | Some (s', es, Raise e) =>
        match h e s' with
        | None => None
        | Some (s'', es', r) => Some (s'', es ++ es', r)
        end
    | r => r
    end.
End fuel.

Notation "'let?' x := c 'in' k" := (f_bind c (fun x => k))
  (at level 10, x name, c at level 100, k at level 200) : py_scope.
Notation "c ;;? k" := (f_bind c (fun _ => k))
  (at level 100, k at level 200, right associativity) : py_scope.

Section fuel_facts.
Context {S E : Type}.

Lemma f_bind_ret {A B} (c : PyF S E A) (k : A -> PyF S E B) s s' es a :
  c s = Some (s', es, Ret a) ->
  f_bind c k s = match k a s' with
                 | None => None
                 | Some (s'', es', r) => Some (s'', es ++ es', r)
                 end.
Proof. intros Hc. unfold f_bind. by rewrite Hc. Qed.

Lemma f_bind_pure {A B} (c : PyF S E A) (k : A -> PyF S E B) s s' a :
  c s = Some (s', [], Ret a) -> f_bind c k s = k a s'.
Proof. intros Hc. rewrite (f_bind_ret _ _ _ _ _ _ Hc). by destruct (k a s') as [[[? ?] ?]|]. Qed.

Lemma f_bind_return {A B} (a : A) (k : A -> PyF S E B) s : f_bind (f_return a) k s = k a s.
Proof. by apply f_bind_pure. Qed.

Lemma f_bind_raise {A B} (c : PyF S E A) (k : A -> PyF S E B) s s' es e :
  c s = Some (s', es, Raise e) -> f_bind c k s = Some (s', es, Raise e).
Proof. intros Hc. unfold f_bind. by rewrite Hc. Qed.

Lemma f_bind_assoc {A B D} (c : PyF S E A) (k : A -> PyF S E B) (l : B -> PyF S E D) s :
  f_bind (f_bind c k) l s = f_bind c (fun x => f_bind (k x) l) s.
Proof.
  unfold f_bind. destruct (c s) as [[[s1 e1] [a|e]]|]; [|done..].
  destruct (k a s1) as [[[s2 e2] [b|e]]|]; [|done..].
  destruct (l b s2) as [[[s3 e3] r]|]; [|done]. by rewrite app_assoc.
Qed.

Lemma f_bind_ext {A B} (c : PyF S E A) (k l : A -> PyF S E B) s :
  (forall a s', k a s' = l a s') -> f_bind c k s = f_bind c l s.
Proof.
  intros H. unfold f_bind. destruct (c s) as [[[s1 e1] [a|e]]|]; [|done..]. by rewrite H.
Qed.
(** A sequence whose parts have enough fuel. *)
Lemma f_bind_some {A B} (c : PyF S E A) (k : A -> PyF S E B) s x :
  c s = Some x -> (forall a s', exists r, k a s' = Some r) -> exists r, f_bind c k s = Some r.
Proof.
  intros Hc Hk. unfold f_bind. rewrite Hc. destruct x as [[s1 es1] [a|e]]; [|eauto].
  destruct (Hk a s1) as [[[s2 es2] r] ->]. eauto.
Qed.

(** What a sequence that returned has done. *)
Lemma f_bind_result {A B} (c : PyF S E A) (k : A -> PyF S E B) s s2 es b :
  f_bind c k s = Some (s2, es, Ret b) -> exists s1 es1 a es2,
    c s = Some (s1, es1, Ret a) /\ k a s1 = Some (s2, es2, Ret b) /\ es = es1 ++ es2.
Proof.
  unfold f_bind. destruct (c s) as [[[s1 e1] [a|e]]|]; [|done..].
  destruct (k a s1) as [[[s3 e3] r]|] eqn:E3; [|done]. intros [= <- <- ->]. eauto 10.
Qed.

Lemma f_bind_error {A B} (c : PyF S E A) (k : A -> PyF S E B) s s2 es e :
  f_bind c k s = Some (s2, es, Raise e) -> c s = Some (s2, es, Raise e) \/
  exists s1 es1 a es2, c s = Some (s1, es1, Ret a) /\ k a s1 = Some (s2, es2, Raise e) /\ es = es1 ++ es2.
Proof.
  unfold f_bind. destruct (c s) as [[[s1 e1] [a|e']]|]; [| |done].
  - destruct (k a s1) as [[[s3 e3] r]|] eqn:E3; [|done]. intros [= <- <- ->]. right. eauto 10.
  - intros [= <- <- <-]. by left.
Qed.

Lemma f_try_result {A} (m : PyF S E A) h s s2 es b : f_try m h s = Some (s2, es, Ret b) ->
  m s = Some (s2, es, Ret b) \/
  exists s1 es1 e es2, m s = Some (s1, es1, Raise e) /\ h e s1 = Some (s2, es2, Ret b) /\
    es = es1 ++ es2.
Proof.
  unfold f_try. destruct (m s) as [[[s1 e1] [a|e]]|]; [by left| |done].
  destruct (h e s1) as [[[s3 e3] r]|] eqn:E3; [|done]. intros [= <- <- ->]. right. eauto 10.
Qed.
End fuel_facts.
