(* ===== verification/TestParser.v ===== *)
(** * The parser of test scripts (test_executor.py, class Parser)

    A script is a list of lines; [Parser.parse] runs through it with an index,
    unrolling [do ... n times] blocks by jumping back, and returns one entry per
    command to execute.  Python's patterns only have to match a prefix of a
    line. *)
From stdpp Require Import base list strings.
From Stdlib Require Import ZArith Lia Strings.Ascii.
From S2P Require Import Prelude PyList PyStr PyText Regex.
Local Open Scope Z_scope.

Definition SYNTAX_ERROR : string := "Syntax Error".
Definition ID_ERROR : string := "Id Error".
Definition LOCAL_EXECUTION_ERROR : string := "Local Execution Error".
Definition NETEM_ERROR : string := "Netem Error".

(** ** TestException *)
Record TestException : Type := mkTestException {
  type : string;
  message : string;
  line : Z;
}.
(** The default of the constructor's argument [line]. *)
Definition no_line : Z := -1.

Definition set_line (e : TestException) (n : Z) : TestException :=
  {| type := type e; message := message e; line := n |}.

Definition is_line_defined (e : TestException) : bool := 0 <? line e.

#[export] Instance TestException_eq_dec : EqDecision TestException.
Proof. solve_decision. Defined.

(** ** Commands

    [partial(function, *arguments)] where [function] is a method of the
    command checker. *)
Inductive command : Type :=
| modify_link_from_to (sources targets : list string) (netem_command : string) (bidirectional : bool)
| modify_random_link (connection_number : Z) (netem_command : string) (bidirectional : bool)
| reset
| run_command (n_op : Z) (label : string).

#[export] Instance command_eq_dec : EqDecision command.
Proof. solve_decision. Defined.

(** An entry of [commands_list]: [partial(attach_line, command, line)]. *)
Abbreviation entry := (command * Z)%type.

Module Parser.

(** ** The patterns *)
Fixpoint seqs (rs : list re) : re :=
  match rs with [] => Eps | [r] => r | r :: rs => Seq r (seqs rs) end.

Definition blanks : re := Star (Lit1 " "%char).
Definition blanks1 : re := Plus (Lit1 " "%char).
Definition number : re := Plus (Range "0"%char "9"%char).
Definition ids : re :=
  Alt (Seq (Lit "all") blanks1)
      (Plus (Seq (Alt number (Lit "rand")) blanks1)).
Definition rule : re :=
  seqs [Opt (Seq (Lit "bidirectional") blanks1); Lit "set"; blanks1;
        Plus (Range "a"%char "z"%char); Star Dot].

Definition modify_link_pattern : re :=
  seqs [blanks; Lit "from"; blanks1; ids; Lit "to"; blanks1; ids; rule].
Definition modify_random_link_pattern : re :=
  seqs [blanks; Lit "on"; blanks1; number; blanks1; Lit "connection"; Opt (Lit "s"); blanks1; rule].
Definition reset_pattern : re := seqs [blanks; Lit "reset"; blanks].
Definition label_char (c : Ascii.ascii) : bool :=
  between "A"%char "Z"%char c || between "a"%char "z"%char c || Ascii.eqb "_"%char c.
Definition run_pattern : re :=
  seqs [blanks; Lit "run"; blanks1; number; Opt (Seq blanks1 (Plus (Chr label_char))); blanks].
Definition do_pattern : re := seqs [blanks; Lit "do"; blanks].
Definition times_pattern : re :=
  seqs [blanks; number; blanks1; Lit "time"; Opt (Lit "s"); blanks].

(** ** Parameters *)
Definition get_times (test_line : string) : outcome Z :=
  t ← py_index (py_words test_line) 0; py_int3 t.

(** The dictionary [params], by operation. *)
Inductive params : Type :=
| no_params
| run_params (nop label : string)
| link_params (sources targets : list string) (netem_command : string) (bidirectional : bool)
| rlink_params (connection_number : Z) (netem_command : string) (bidirectional : bool).

Definition get_run (test_line : string) : outcome params :=
  let tokens := py_words test_line in
  nop ← py_index tokens 1;
  if 2 <? py_len tokens then label ← py_index tokens 2; Ret (run_params nop label)
  else Ret (run_params nop "no_name").

(** [first_part] without the word bidirectional, and whether it was there. *)
Definition get_bidirectional (first_part : string) : string * bool :=
  if py_in " bidirectional " first_part then (py_replace " bidirectional" "" first_part, true)
  else (first_part, false).

Definition get_link (test_line : string) : outcome params :=
  netem_command ← py_index (py_split_on "set" test_line) 1;
  first_part ← py_index (py_split_on "set" test_line) 0;
  let '(first_part, bidirectional) := get_bidirectional first_part in
  source ← py_index (py_split_on "to" first_part) 0;
  destination ← py_index (py_split_on "to" first_part) 1;
  Ret (link_params (py_words (py_replace "from" "" source)) (py_words destination)
    netem_command bidirectional).

Definition get_rlink (test_line : string) : outcome params :=
  netem_command ← py_index (py_split_on "set" test_line) 1;
  first_part ← py_index (py_split_on "set" test_line) 0;
  let '(first_part, bidirectional) := get_bidirectional first_part in
  number ← py_index (py_words (py_replace "on" "" first_part)) 0;
  connection_number ← py_int3 number;
  Ret (rlink_params connection_number netem_command bidirectional).

Definition get_params (test_line operation_name : string) : outcome params :=
  if String.eqb operation_name "run" then get_run test_line
  else if String.eqb operation_name "link" then get_link test_line
  else if String.eqb operation_name "rlink" then get_rlink test_line
  else Ret no_params.

(** ** The state of parse *)
Record pointer : Type := mkPointer { start : nat; repetition : Z }.

Record t : Type := mk {
  do_open : Z;
  pointers : list pointer;
  index : nat;
  commands_list : list entry;
}.

Definition init : t := {| do_open := -1; pointers := []; index := 0; commands_list := [] |}.

(** What a line turned out to be, besides its effect on the loops. *)
Inductive reading : Type :=
| Nothing
| Function (c : command)
| unknown_command.

(** [pointers[i]["start"] = start; pointers[i]["repetition"] = repetition] *)
Definition set_pointer (ps : list pointer) (i : Z) (p : pointer) : outcome (list pointer) :=
  match py_pos (length ps) i with Some n => Ret (<[n := p]> ps) | None => Raise IndexError end.

(** A do line: open a loop that starts here. *)
Definition open_do (s : t) : outcome (t * reading) :=
  let d := do_open s + 1 in
  let p := {| start := index s; repetition := 1 |} in
  ps ← (if py_len (pointers s) <? d + 1 then Ret (pointers s ++ [p])
        else set_pointer (pointers s) d p);
  Ret ({| do_open := d; pointers := ps; index := index s; commands_list := commands_list s |}, Nothing).

(** A times line: jump back, or close the loop. *)
Definition close_times (s : t) (test_line : string) : outcome (t * reading) :=
  p ← py_index (pointers s) (do_open s);
  n ← get_times test_line;
  if repetition p <? n then
    ps ← set_pointer (pointers s) (do_open s)
           {| start := start p; repetition := repetition p + 1 |};
    Ret ({| do_open := do_open s; pointers := ps; index := start p;
            commands_list := commands_list s |}, Nothing)
  else
    Ret ({| do_open := do_open s - 1; pointers := pointers s; index := index s;
            commands_list := commands_list s |}, Nothing).

(** The body of the [try]: [test_line] has lost its trailing blanks. *)
Definition read_line (s : t) (test_line : string) : outcome (t * reading) :=
  if String.eqb test_line "" then Ret (s, Nothing)
  else if re_match modify_link_pattern test_line then
    params ← get_params test_line "link";
    match params with
    | link_params sources targets netem_command bidirectional =>
        Ret (s, Function (modify_link_from_to sources targets netem_command bidirectional))
    | _ => Raise KeyError
    end
  else if re_match modify_random_link_pattern test_line then
    params ← get_params test_line "rlink";
    match params with
    | rlink_params connection_number netem_command bidirectional =>
        Ret (s, Function (modify_random_link connection_number netem_command bidirectional))
    | _ => Raise KeyError
    end
  else if re_match reset_pattern test_line then Ret (s, Function reset)
  else if re_match run_pattern test_line then
    params ← get_params test_line "run";
    match params with
    | run_params nop label => n ← py_int3 nop; Ret (s, Function (run_command n label))
    | _ => Raise KeyError
    end
  else if re_match do_pattern test_line then open_do s
  else if re_match times_pattern test_line then close_times s test_line
  else Ret (s, unknown_command).

(** One turn of the loop at [test_file[index]]. *)
Definition step (test_line : string) (s : t) : t + TestException :=
  let test_line := py_rstrip test_line in
  let n := Z.of_nat (index s) + 1 in
  match read_line s test_line with
  | Raise _ => inr {| type := SYNTAX_ERROR;
                      message := "Syntax error in command '" +:+ test_line +:+ "'"; line := n |}
  | Ret (s', unknown_command) =>
      inr {| type := SYNTAX_ERROR; message := "Command '" +:+ test_line +:+ "' is unknown"; line := n |}
  | Ret (s', r) =>
      let cs := match r with
                | Function c => [(c, Z.of_nat (index s') + 1)]
                | _ => []
                end in
      inl {| do_open := do_open s'; pointers := pointers s'; index := S (index s');
             commands_list := commands_list s' ++ cs |}
  end.

(** [while index < len(test_file)]; [None]: more turns are needed. *)
Fixpoint parse_loop (fuel : nat) (test_file : list string) (s : t) : option (list entry + TestException) :=
  match test_file !! index s with
  | None => Some (inl (commands_list s))
  | Some test_line =>
      match fuel with
      | O => None
      | S fuel =>
          match step test_line s with
          | inl s => parse_loop fuel test_file s
          | inr e => Some (inr e)
          end
      end
  end.

Definition parse (fuel : nat) (test_file : list string) : option (list entry + TestException) :=
  parse_loop fuel (test_file ++ ["reset"]) init.

End Parser.
