(* ===== verification/TestParserTheorems.v ===== *)
(** * The parser of test scripts: termination and unrolling

    [parse_terminates]: the parser returns on every list of lines, also when
    times lines have no do line and jump through stale loop pointers.
    [parse_unrolls]: on properly nested scripts it returns the unrolled
    commands, each with the number of its line. *)
From stdpp Require Import base list strings relations.
From Stdlib Require Import ZArith Lia Wellfounded.
From S2P Require Import Prelude PyList PyStr PyText Regex TestParser.
Import Parser.
Local Open Scope Z_scope.

(** ** Turns of the loop *)
Definition turn (tf : list string) (s s' : Parser.t) : Prop :=
  exists l, tf !! index s = Some l /\ step l s = inl s'.

Lemma parse_loop_turn tf s s' f : turn tf s s' -> parse_loop (S f) tf s = parse_loop f tf s'.
Proof. intros (l & Hl & Hs). simpl. by rewrite Hl, Hs. Qed.

Lemma parse_loop_turns tf s s' f r :
  rtc (turn tf) s s' -> parse_loop f tf s' = Some r -> exists f', parse_loop f' tf s = Some r.
Proof.
  intros Hr. revert f. induction Hr as [s|s s1 s' H1 _ IH]; intros f Hf; [eauto|].
  destruct (IH f Hf) as [f' Hf']. exists (S f'). by rewrite (parse_loop_turn _ _ _ _ H1).
Qed.

(** ** Termination

    A lexicographic order on lists of naturals of one length. *)
Inductive lex : list nat -> list nat -> Prop :=
| lex_here a b l m : (a < b)%nat -> length l = length m -> lex (a :: l) (b :: m)
| lex_next a l m : lex l m -> lex (a :: l) (a :: m).

Lemma lex_length l m : lex l m -> length l = length m.
Proof. induction 1; simpl; lia. Qed.

Lemma lex_wf : well_founded lex.
Proof.
  assert (H : forall n l, length l = n -> Acc lex l).
  { induction n as [|n IH]; intros l Hl.
    - destruct l; [|done]. constructor. intros m Hm. inversion Hm.
    - destruct l as [|a l]; [done|]. injection Hl as Hl. revert l Hl.
      induction (lt_wf a) as [a _ IHa]. intros l Hl.
      induction (IH l Hl) as [l _ IHl]. constructor. intros m Hm.
      inversion Hm as [? ? l' ? Hlt Hlen|? l' ? Hlex]; subst.
      + apply IHa; [done|congruence].
      + apply IHl; [done|]. by rewrite (lex_length _ _ Hlex). }
  intros l. by apply (H (length l)).
Qed.

(** The first strict decrease decides. *)
Lemma lex_map (f g : nat -> nat) n b k : (b <= k < b + n)%nat ->
  (forall i, b <= i < k -> f i <= g i)%nat -> (f k < g k)%nat ->
  lex (f <$> seq b n) (g <$> seq b n).
Proof.
  revert b. induction n as [|n IH]; intros b Hk Hle Hlt; [lia|]. simpl.
  destruct (decide (b = k)) as [->|Hne]; [constructor; [done|by rewrite !length_fmap]|].
  assert (f b <= g b)%nat as Hb by (apply Hle; lia).
  destruct (decide (f b = g b)) as [->|Hne'].
  - apply lex_next, IH; [lia| |done]. intros i Hi. apply Hle. lia.
  - apply lex_here; [lia|by rewrite !length_fmap].
Qed.

Lemma sum_list_with_insert {A} (f : A -> nat) l n (x y : A) : l !! n = Some x ->
  (sum_list_with f (<[n := y]> l) + f x = sum_list_with f l + f y)%nat.
Proof.
  revert n. induction l as [|z l IH]; intros [|n] H; [done..| |].
  - injection H as ->. simpl. lia.
  - specialize (IH n H). simpl. lia.
Qed.

(** What [read_line] does to the index and the pointers. *)
Variant moves (l : string) (s s' : Parser.t) : Prop :=
| moves_on : pointers s' = pointers s -> index s' = index s -> moves l s s'
| moves_append : index s' = index s ->
    pointers s' = pointers s ++ [{| start := index s; repetition := 1 |}] -> moves l s s'
| moves_reset n : (n < length (pointers s))%nat -> index s' = index s ->
    pointers s' = <[n := {| start := index s; repetition := 1 |}]> (pointers s) -> moves l s s'
| moves_back n p times : pointers s !! n = Some p -> get_times l = Ret times ->
    repetition p < times -> index s' = start p ->
    pointers s' = <[n := {| start := start p; repetition := repetition p + 1 |}]> (pointers s) ->
    moves l s s'.

Lemma outcome_bind_ret {A B} (c : outcome A) (k : A -> outcome B) b :
  c ≫= k = Ret b -> exists a, c = Ret a /\ k a = Ret b.
Proof. destruct c; [eauto|done]. Qed.

Lemma open_do_moves l s s' r : open_do s = Ret (s', r) -> moves l s s'.
Proof.
  unfold open_do. intros (ps & Hps & [= <- <-])%outcome_bind_ret.
  destruct (_ <? _) in Hps.
  - injection Hps as <-. by apply moves_append.
  - unfold set_pointer in Hps. destruct (py_pos _ _) as [n|] eqn:E; [|done]. injection Hps as <-.
    by apply (moves_reset _ _ _ n); [eapply py_pos_lt| |].
Qed.

Lemma close_times_moves l s s' r : close_times s l = Ret (s', r) -> moves l s s'.
Proof.
  unfold close_times. intros (p & Hp & (n & Hn & Hb)%outcome_bind_ret)%outcome_bind_ret.
  destruct (Z.ltb_spec (repetition p) n) as [Hlt|Hge].
  - apply outcome_bind_ret in Hb as (ps & Hps & [= <- <-]).
    unfold py_index in Hp. rewrite py_pos_item in Hp. unfold set_pointer in Hps.
    destruct (py_pos _ _) as [k|] eqn:E; [|done].
    destruct (pointers s !! k) as [p'|] eqn:Ek; [|done]. injection Hp as ->. injection Hps as <-.
    by eapply moves_back.
  - injection Hb as <- <-. by apply moves_on.
Qed.

Lemma read_line_moves s l s' r : read_line s l = Ret (s', r) -> moves l s s'.
Proof.
  unfold read_line.
  destruct (String.eqb _ _); [intros [= <- <-]; by apply moves_on|].
  destruct (re_match modify_link_pattern l).
  { intros (p & _ & Hp)%outcome_bind_ret. destruct p; simplify_eq. by apply moves_on. }
  destruct (re_match modify_random_link_pattern l).
  { intros (p & _ & Hp)%outcome_bind_ret. destruct p; simplify_eq. by apply moves_on. }
  destruct (re_match reset_pattern l); [intros [= <- <-]; by apply moves_on|].
  destruct (re_match run_pattern l).
  { intros (p & _ & Hp)%outcome_bind_ret. destruct p; simplify_eq.
    apply outcome_bind_ret in Hp as (n & _ & [= <- <-]). by apply moves_on. }
  destruct (re_match do_pattern l); [apply open_do_moves|].
  destruct (re_match times_pattern l); [apply close_times_moves|].
  intros [= <- <-]. by apply moves_on.
Qed.

Lemma step_moves l s s' : step l s = inl s' ->
  exists s1, moves (py_rstrip l) s s1 /\ index s' = S (index s1) /\ pointers s' = pointers s1.
Proof.
  unfold step. destruct (read_line s (py_rstrip l)) as [[s1 r]|e] eqn:E; [|done].
  apply read_line_moves in E. destruct r; intros [= <-]; eauto.
Qed.

(** The measure.  Line [i] weighs first whether the index has still to pass it
    and then how often the pointers that start there may still jump back. *)
Section measure.
Context (tf : list string).

Definition times_of (l : string) : Z :=
  match get_times (py_rstrip l) with Ret n => n | Raise _ => 0 end.
Definition max_times : Z := foldr (fun l m => Z.max (times_of l) m) 0 tf.

Lemma max_times_bound l : l ∈ tf -> times_of l <= max_times.
Proof.
  unfold max_times. induction 1 as [l tf'|l l' tf' _ IH]; simpl; lia.
Qed.

Definition allowance (i : nat) (p : pointer) : nat :=
  if (start p =? i)%nat then Z.to_nat (max_times - repetition p) else 0%nat.
Definition budget (i : nat) (ps : list pointer) : nat := sum_list_with (allowance i) ps.
Definition ahead (i : nat) (s : Parser.t) : nat := if (index s <=? i)%nat then 1%nat else 0%nat.
Definition weight (s : Parser.t) (j : nat) : nat :=
  if Nat.even j then ahead (Nat.div2 j) s else budget (Nat.div2 j) (pointers s).
Definition weights (s : Parser.t) : list nat := weight s <$> seq 0 (2 * length tf).

Lemma weight_even s i : weight s (2 * i) = ahead i s.
Proof. unfold weight. rewrite Nat.even_mul, Nat.div2_double. done. Qed.
Lemma weight_odd s i : weight s (S (2 * i)) = budget i (pointers s).
Proof.
  unfold weight. rewrite Nat.even_succ, Nat.odd_mul, Nat.div2_succ_double. done.
Qed.

Lemma weights_lt s s' k : (k < 2 * length tf)%nat ->
  (forall i, 2 * i < k -> ahead i s' <= ahead i s)%nat ->
  (forall i, S (2 * i) < k -> budget i (pointers s') <= budget i (pointers s))%nat ->
  (weight s' k < weight s k)%nat -> lex (weights s') (weights s).
Proof.
  intros Hk He Hb Hlt. apply (lex_map _ _ _ _ k); [lia| |done].
  intros i [_ Hi]. destruct (Nat.Even_or_Odd i) as [[j ->]|[j ->]].
  - rewrite !weight_even. by apply He.
  - replace (2 * j + 1)%nat with (S (2 * j)) in * by lia. rewrite !weight_odd. by apply Hb.
Qed.

(** Moving past a line, with pointers below it that did not gain. *)
Lemma weights_past s s' : (index s < length tf)%nat -> (index s < index s')%nat ->
  (forall i, i < index s -> budget i (pointers s') <= budget i (pointers s))%nat ->
  lex (weights s') (weights s).
Proof.
  intros Hl Hi Hb. apply (weights_lt _ _ (2 * index s)); [lia| | |].
  - intros i Hk. unfold ahead. destruct (Nat.leb_spec (index s') i); [lia|]. lia.
  - intros i Hk. apply Hb. lia.
  - rewrite !weight_even. unfold ahead.
    rewrite (proj2 (Nat.leb_gt _ _)), (proj2 (Nat.leb_le _ _)) by lia. lia.
Qed.

Lemma budget_insert i ps n p q : ps !! n = Some p ->
  (budget i (<[n := q]> ps) + allowance i p = budget i ps + allowance i q)%nat.
Proof. intros H. by apply sum_list_with_insert. Qed.

Lemma turn_lex s s' : turn tf s s' -> lex (weights s') (weights s).
Proof.
  intros (l & Hl & (s1 & Hm & Hi & Hp)%step_moves).
  pose proof (lookup_lt_Some _ _ _ Hl) as Hlen.
  destruct Hm as [Hps Hix|Hix Hps|n Hn Hix Hps|n p times Hn Ht Hlt Hix Hps].
  - apply weights_past; [done|lia|]. intros i _. by rewrite Hp, Hps.
  - apply weights_past; [done|lia|]. intros i Hlt. rewrite Hp, Hps. unfold budget.
    rewrite sum_list_with_app. unfold allowance at 2. simpl.
    rewrite (proj2 (Nat.eqb_neq _ _)) by lia. lia.
  - apply weights_past; [done|lia|]. intros i Hlt. rewrite Hp, Hps.
    apply lookup_lt_is_Some_2 in Hn as [p Hn].
    pose proof (budget_insert i _ _ _ {| start := index s; repetition := 1 |} Hn) as HB.
    unfold allowance at 2 in HB. simpl in HB. rewrite (proj2 (Nat.eqb_neq (index s) i)) in HB by lia. lia.
  - pose proof (fun i => budget_insert i _ _ _
      {| start := start p; repetition := repetition p + 1 |} Hn) as HB.
    unfold allowance in HB. simpl in HB.
    assert (times <= max_times) as HM.
    { transitivity (times_of l); [by unfold times_of; rewrite Ht|].
      apply max_times_bound. by apply list_elem_of_lookup_2 in Hl. }
    assert (forall i, budget i (pointers s') <= budget i (pointers s))%nat as Hle.
    { intros i. rewrite Hp, Hps. specialize (HB i). destruct (start p =? i)%nat; lia. }
    destruct (decide (index s <= start p)%nat) as [Hf|Hf]; [apply weights_past; auto; lia|].
    apply (weights_lt _ _ (S (2 * start p))); [lia| |auto|].
    + intros i Hk. unfold ahead. rewrite Hi, Hix. rewrite (proj2 (Nat.leb_gt _ _)) by lia. lia.
    + rewrite !weight_odd, Hp, Hps. specialize (HB (start p)). rewrite Nat.eqb_refl in HB. lia.
Qed.

Lemma parse_loop_ends s : exists fuel r, parse_loop fuel tf s = Some r.
Proof.
  induction (wf_inverse_image _ _ lex weights lex_wf s) as [s _ IH].
  destruct (tf !! index s) as [l|] eqn:El.
  - destruct (step l s) as [s'|e] eqn:Es.
    + assert (Ht : turn tf s s') by (by exists l).
      destruct (IH s' (turn_lex _ _ Ht)) as (f & r & Hf).
      exists (S f), r. by rewrite (parse_loop_turn _ _ _ _ Ht).
    + exists 1%nat, (inr e). simpl. by rewrite El, Es.
  - exists O, (inl (commands_list s)). simpl. by rewrite El.
Qed.

End measure.

(** ** Structured scripts

    What a line is, whatever the state; [None]: the parser would fail there. *)
Inductive kind : Type := KSkip | KCommand (c : command) | KDo | KTimes (n : Z).

Definition kind_of (l : string) : option kind :=
  let l := py_rstrip l in
  if String.eqb l "" then Some KSkip
  else if re_match modify_link_pattern l || re_match modify_random_link_pattern l
    || re_match reset_pattern l || re_match run_pattern l then
    match read_line Parser.init l with
    | Ret (_, Function c) => Some (KCommand c)
    | _ => None
    end
  else if re_match do_pattern l then Some KDo
  else if re_match times_pattern l then
    match get_times l with Ret n => Some (KTimes n) | Raise _ => None end
  else None.

Lemma kind_of_spec l k s : kind_of l = Some k ->
  read_line s (py_rstrip l) =
  match k with
  | KSkip => Ret (s, Nothing)
  | KCommand c => Ret (s, Function c)
  | KDo => open_do s
  | KTimes _ => close_times s (py_rstrip l)
  end /\ (forall n, k = KTimes n -> get_times (py_rstrip l) = Ret n).
Proof.
  unfold kind_of, read_line. set (m := py_rstrip l).
  destruct (String.eqb m ""); [by intros [= <-]|].
  destruct (re_match modify_link_pattern m); cbn [orb].
  { destruct (get_params m "link") as [[]|]; cbn; by intros [= <-]. }
  destruct (re_match modify_random_link_pattern m); cbn [orb].
  { destruct (get_params m "rlink") as [[]|]; cbn; by intros [= <-]. }
  destruct (re_match reset_pattern m); cbn [orb]; [by intros [= <-]|].
  destruct (re_match run_pattern m); cbn [orb].
  { destruct (get_params m "run") as [[]|]; cbn; try done.
    destruct (py_int3 nop); cbn; [by intros [= <-]|done]. }
  destruct (re_match do_pattern m); [by intros [= <-]|].
  destruct (re_match times_pattern m); [|done].
  destruct (get_times m) as [n|]; [|done]. intros [= <-]. split; [done|]. by intros ? [= ->].
Qed.

(** Lines and properly nested loops. *)
Inductive script : Type :=
| Finish
| Single (l : string) (rest : script)
| Loop (d : string) (body : script) (t : string) (rest : script).

Fixpoint lines (p : script) : list string :=
  match p with
  | Finish => []
  | Single l rest => l :: lines rest
  | Loop d body t rest => d :: lines body ++ t :: lines rest
  end.

Fixpoint well_formed (p : script) : bool :=
  match p with
  | Finish => true
  | Single l rest =>
      match kind_of l with Some KSkip | Some (KCommand _) => true | _ => false end && well_formed rest
  | Loop d body t rest =>
      match kind_of d with Some KDo => true | _ => false end && well_formed body &&
      match kind_of t with Some (KTimes _) => true | _ => false end && well_formed rest
  end.

(** A loop is run at least once. *)
Definition rounds (n : Z) : nat := Z.to_nat (Z.max 1 n).

(** The commands of a script whose first line has number [n]. *)
Fixpoint unroll (n : Z) (p : script) : list entry :=
  match p with
  | Finish => []
  | Single l rest =>
      match kind_of l with Some (KCommand c) => [(c, n)] | _ => [] end ++ unroll (n + 1) rest
  | Loop d body t rest =>
      mjoin (replicate (match kind_of t with Some (KTimes k) => rounds k | _ => 1%nat end)
               (unroll (n + 1) body))
      ++ unroll (n + 2 + py_len (lines body)) rest
  end.

Lemma step_kind l k s : kind_of l = Some k ->
  step l s =
  match k with
  | KSkip => inl {| do_open := do_open s; pointers := pointers s; index := S (index s);
                    commands_list := commands_list s ++ [] |}
  | KCommand c => inl {| do_open := do_open s; pointers := pointers s; index := S (index s);
                         commands_list := commands_list s ++ [(c, Z.of_nat (index s) + 1)] |}
  | KDo | KTimes _ => step l s
  end.
Proof.
  intros Hk. destruct (kind_of_spec _ _ s Hk) as [Hr _]. unfold step. rewrite Hr. by destruct k.
Qed.

(** A do line opens the next loop at this line. *)
Lemma step_do l s : kind_of l = Some KDo -> -1 <= do_open s ->
  (Z.to_nat (do_open s + 1) <= length (pointers s))%nat ->
  exists ps, step l s = inl {| do_open := do_open s + 1; pointers := ps; index := S (index s);
                               commands_list := commands_list s |} /\
    ps !! Z.to_nat (do_open s + 1) = Some {| start := index s; repetition := 1 |} /\
    take (Z.to_nat (do_open s + 1)) ps = take (Z.to_nat (do_open s + 1)) (pointers s) /\
    (length (pointers s) <= length ps)%nat.
Proof.
  intros Hk Hd Hp. destruct (kind_of_spec _ _ s Hk) as [Hr _]. unfold step. rewrite Hr. unfold open_do.
  destruct (Z.ltb_spec (py_len (pointers s)) (do_open s + 1 + 1)) as [Hlt|Hge]; unfold py_len in *.
  - assert (Z.to_nat (do_open s + 1) = length (pointers s)) as -> by lia.
    eexists. split; [cbn; rewrite app_nil_r; done|].
    split; [by rewrite lookup_app_r, Nat.sub_diag by lia|].
    split; [by rewrite take_app_le by lia|]. rewrite length_app. lia.
  - unfold set_pointer. rewrite py_pos_nonneg by lia.
    eexists. split; [cbn; rewrite app_nil_r; done|].
    split; [apply list_lookup_insert_eq; lia|].
    split; [by apply take_insert_ge|]. by rewrite length_insert.
Qed.

(** A times line jumps back or closes the innermost loop. *)
Lemma step_times l n s p d : kind_of l = Some (KTimes n) -> do_open s = Z.of_nat d ->
  pointers s !! d = Some p ->
  step l s = inl
    (if repetition p <? n then
       {| do_open := do_open s;
          pointers := <[d := {| start := start p; repetition := repetition p + 1 |}]> (pointers s);
          index := S (start p); commands_list := commands_list s |}
     else {| do_open := do_open s - 1; pointers := pointers s; index := S (index s);
             commands_list := commands_list s |}).
Proof.
  intros Hk Hd Hp. destruct (kind_of_spec _ _ s Hk) as [Hr Hn]. specialize (Hn n eq_refl).
  unfold step. rewrite Hr. unfold close_times, py_index.
  rewrite py_pos_item. pose proof (lookup_lt_Some _ _ _ Hp) as Hlt.
  assert (py_pos (length (pointers s)) (do_open s) = Some d) as Hpos.
  { rewrite Hd, py_pos_nonneg by lia. by rewrite Nat2Z.id. }
  rewrite Hpos, Hp. cbn [mbind outcome_bind]. rewrite Hn. cbn [mbind outcome_bind].
  destruct (_ <? _); [|cbn; by rewrite app_nil_r].
  unfold set_pointer. rewrite Hpos. cbn. by rewrite app_nil_r.
Qed.

Lemma lookup_middle (pre : list string) l post i : i = length pre -> (pre ++ l :: post) !! i = Some l.
Proof. intros ->. by rewrite lookup_app_r, Nat.sub_diag by lia. Qed.

(** Running through [p] from the state [s]: the index moves past it, its
    unrolled commands are appended, and the enclosing loops are as before. *)
Definition runs_through (tf : list string) (p : script) (s : Parser.t) : Prop :=
  exists ps, rtc (turn tf) s
    {| do_open := do_open s; pointers := ps; index := (index s + length (lines p))%nat;
       commands_list := commands_list s ++ unroll (Z.of_nat (index s) + 1) p |} /\
    take (Z.to_nat (do_open s + 1)) ps = take (Z.to_nat (do_open s + 1)) (pointers s) /\
    (length (pointers s) <= length ps)%nat.

Definition nested (s : Parser.t) : Prop :=
  -1 <= do_open s /\ (Z.to_nat (do_open s + 1) <= length (pointers s))%nat.

(** The turns of a loop whose body is at [S i] and whose times line says [n]. *)
Lemma loop_turns tf body i t n :
  (forall s, index s = S i -> nested s -> runs_through tf body s) ->
  tf !! (S i + length (lines body))%nat = Some t -> kind_of t = Some (KTimes n) ->
  forall m s d r, m = Z.to_nat (n - r) -> index s = S i -> do_open s = Z.of_nat d ->
    pointers s !! d = Some {| start := i; repetition := r |} ->
    exists ps, rtc (turn tf) s
      {| do_open := do_open s - 1; pointers := ps; index := S (S i + length (lines body));
         commands_list := commands_list s ++ mjoin (replicate (S m) (unroll (Z.of_nat (S i) + 1) body)) |} /\
      take d ps = take d (pointers s) /\ (length (pointers s) <= length ps)%nat.
Proof.
  intros Hbody Ht Hk. induction m as [|m IH]; intros s d r Hm Hi Hd Hp.
  all: pose proof (lookup_lt_Some _ _ _ Hp) as Hlt.
  all: destruct (Hbody s Hi) as (ps & Hr & Htk & Hlen); [split; lia|].
  all: rewrite Hd in Htk; replace (Z.to_nat (Z.of_nat d + 1)) with (S d) in Htk by lia.
  all: assert (ps !! d = Some {| start := i; repetition := r |}) as Hpd
    by (rewrite <-(lookup_take_lt _ (S d)), Htk, lookup_take_lt by lia; done).
  all: assert (take d ps = take d (pointers s)) as Htk'
    by (pose proof (f_equal (take d) Htk) as E; rewrite !take_take, !Nat.min_l in E by lia; done).
  all: rewrite Hi in Hr; match type of Hr with rtc _ _ ?s1 => set (s1' := s1) in * end.
  all: pose proof (step_times t n s1' _ d Hk Hd Hpd) as Hs; cbn [start repetition] in Hs.
  - rewrite (proj2 (Z.ltb_ge _ _)) in Hs by lia. exists ps.
    split; [|split; [done|lia]]. eapply rtc_r; [exact Hr|].
    exists t. split; [exact Ht|]. rewrite Hs. subst s1'. cbn. rewrite app_nil_r. done.
  - rewrite (proj2 (Z.ltb_lt _ _)) in Hs by lia.
    match type of Hs with _ = inl ?s2 => set (s2' := s2) in * end.
    destruct (IH s2' d (r + 1)) as (ps' & Hr' & Htk2 & Hlen2); [lia|done|done| |].
    { apply list_lookup_insert_eq. subst s1'. cbn. lia. }
    exists ps'. split; [|split].
    + etransitivity; [exact Hr|]. eapply rtc_l; [exists t; split; [exact Ht|exact Hs]|].
      replace (commands_list s ++ mjoin (replicate (S (S m)) (unroll (Z.of_nat (S i) + 1) body)))
        with (commands_list s2' ++ mjoin (replicate (S m) (unroll (Z.of_nat (S i) + 1) body))).
      2:{ subst s2' s1'. cbn [commands_list]. rewrite <-app_assoc. done. }
      exact Hr'.
    + rewrite Htk2. subst s2'. cbn [pointers]. by rewrite take_insert_ge by lia.
    + subst s2' s1'. cbn [pointers] in Hlen2. rewrite length_insert in Hlen2. lia.
Qed.

Lemma through_single tf l rest k s : kind_of l = Some k ->
  match k with KSkip | KCommand _ => True | _ => False end ->
  tf !! index s = Some l ->
  (forall s', index s' = S (index s) -> do_open s' = do_open s -> pointers s' = pointers s ->
     runs_through tf rest s') ->
  runs_through tf (Single l rest) s.
Proof.
  intros Ek Hk Hl Hrest. pose proof (step_kind l k s Ek) as Hs.
  assert (Hs' : exists s1, step l s = inl s1 /\ do_open s1 = do_open s /\ pointers s1 = pointers s /\
    index s1 = S (index s) /\ commands_list s1 ++ unroll (Z.of_nat (index s1) + 1) rest =
      commands_list s ++ unroll (Z.of_nat (index s) + 1) (Single l rest)).
  { destruct k; try done; (eexists; split; [exact Hs|]); cbn; rewrite Ek, <-app_assoc;
      repeat split; do 2 f_equal; f_equal; lia. }
  clear Hs. destruct Hs' as (s1 & Hs & Ed & Ep & Eix & Ec).
  destruct (Hrest s1 Eix Ed Ep) as (ps & Hr & Htk & Hlen).
  exists ps. rewrite Ed, Ep in *. split; [|done].
  eapply rtc_l; [exists l; split; [exact Hl|exact Hs]|].
  rewrite Ec, Eix in Hr. cbn [lines length]. rewrite Nat.add_succ_r. exact Hr.
Qed.

Lemma through_loop tf d body t rest n s :
  kind_of d = Some KDo -> kind_of t = Some (KTimes n) ->
  tf !! index s = Some d -> tf !! (S (index s) + length (lines body))%nat = Some t -> nested s ->
  (forall s', index s' = S (index s) -> nested s' -> runs_through tf body s') ->
  (forall s', index s' = S (S (index s) + length (lines body)) -> nested s' -> runs_through tf rest s') ->
  runs_through tf (Loop d body t rest) s.
Proof.
  intros Ed Et Hd Ht [Hn1 Hn2] Hbody Hrest.
  destruct (step_do d s Ed Hn1 Hn2) as (ps0 & Hs0 & Hp0 & Htk0 & Hlen0).
  match type of Hs0 with _ = inl ?s2 => set (s0 := s2) in * end.
  destruct (loop_turns tf body (index s) t n) with (m := Z.to_nat (n - 1)) (s := s0)
    (d := Z.to_nat (do_open s + 1)) (r := 1) as (ps1 & Hr1 & Htk1 & Hlen1); try done.
  { subst s0. cbn. lia. }
  subst s0. cbn [do_open pointers index commands_list] in *.
  replace (do_open s + 1 - 1) with (do_open s) in Hr1 by lia.
  match type of Hr1 with rtc _ _ ?s2 => set (s1 := s2) in * end.
  destruct (Hrest s1) as (ps2 & Hr2 & Htk2 & Hlen2); [done|subst s1; split; cbn in *; lia|].
  subst s1. cbn [do_open pointers index commands_list] in *.
  exists ps2. split; [|split; [congruence|lia]].
  eapply rtc_l; [exists d; split; [exact Hd|exact Hs0]|].
  etransitivity; [exact Hr1|].
  match type of Hr2 with rtc _ _ ?x => match goal with |- rtc _ _ ?y => replace y with x; [exact Hr2|] end end.
  cbn [unroll]. rewrite Et. unfold rounds, py_len.
  f_equal; [cbn [lines length]; rewrite length_app; cbn [length]; lia|].
  rewrite <-app_assoc. f_equal.
  replace (Z.to_nat (Z.max 1 n)) with (S (Z.to_nat (n - 1))) by lia.
  f_equal; f_equal; try lia. f_equal; f_equal; lia.
Qed.

Ltac flat_lists := repeat (progress (cbn [app]; rewrite <-?app_assoc)); reflexivity.

Lemma exec p : well_formed p = true -> forall tf pre post s,
  tf = pre ++ lines p ++ post -> index s = length pre -> nested s -> runs_through tf p s.
Proof.
  induction p as [|l rest IH|d body IHb t rest IHr]; intros Hwf tf pre post s Htf Hi Hn.
  - exists (pointers s). split; [|done]. cbn. rewrite app_nil_r, Nat.add_0_r. by destruct s.
  - cbn in Hwf. apply andb_true_iff in Hwf as [Hk Hwf].
    destruct (kind_of l) as [k|] eqn:Ek; [|done].
    apply (through_single tf l rest k s Ek); [by destruct k|rewrite Htf; by apply lookup_middle|].
    intros s' Hi' Hd Hp. apply (IH Hwf tf (pre ++ [l]) post); [rewrite Htf; flat_lists| |].
    + rewrite length_app. cbn. lia.
    + unfold nested. by rewrite Hd, Hp.
  - cbn in Hwf. rewrite !andb_true_iff in Hwf. destruct Hwf as [[[Hkd Hwb] Hkt] Hwr].
    destruct (kind_of d) as [[]|] eqn:Ed; try done. destruct (kind_of t) as [[]|] eqn:Et; try done.
    cbn [lines] in Htf. apply (through_loop _ _ _ _ _ _ _ Ed Et); [| |done|..].
    + rewrite Htf. by apply lookup_middle.
    + rewrite Htf, lookup_app_r by lia.
      replace (S (index s) + length (lines body) - length pre)%nat with (S (length (lines body))) by lia.
      cbn. rewrite <-app_assoc. by apply lookup_middle.
    + intros s' Hi' Hn'.
      apply (IHb Hwb tf (pre ++ [d]) (t :: lines rest ++ post)); [|rewrite length_app; cbn; lia|done].
      rewrite Htf. flat_lists.
    + intros s' Hi' Hn'.
      apply (IHr Hwr tf (pre ++ d :: lines body ++ [t]) post); [rewrite Htf; flat_lists| |done].
      rewrite length_app. cbn. rewrite length_app. cbn. lia.
Qed.

Lemma parse_unrolls_lines (p : script) : well_formed p = true ->
  exists fuel, parse fuel (lines p) =
    Some (inl (unroll 1 p ++ [(reset, py_len (lines p) + 1)])).
Proof.
  intros Hwf. set (tf := lines p ++ ["reset"]).
  destruct (exec p Hwf tf [] ["reset"] init) as (ps & Hr & _ & _); [done|done|done|].
  cbn [init do_open index commands_list pointers] in Hr.
  match type of Hr with rtc _ _ ?s2 => set (s1 := s2) in * end.
  assert (Hk : kind_of "reset" = Some (KCommand reset)) by reflexivity.
  pose proof (step_kind _ _ s1 Hk) as Hs. cbn in Hs.
  apply (parse_loop_turns tf _ _ 1 _ Hr). cbn [parse_loop].
  replace (tf !! index s1) with (Some "reset") by (symmetry; by apply lookup_middle).
  rewrite Hs. cbn [parse_loop index]. subst tf s1. cbn.
  rewrite lookup_ge_None_2 by (rewrite length_app; cbn; lia). done.
Qed.

(** ** The theorems *)
(** C26: the parser returns, with a list of commands or an error, on every list
    of lines: no script makes it loop, not even with unmatched [times] lines,
    which jump through stale loop pointers. *)
Theorem parse_terminates (test_file : list string) : exists fuel r, parse fuel test_file = Some r.
Proof. apply parse_loop_ends. Qed.

(** C25: a properly nested script parses to the commands of its unrolling: the
    body of each loop as often as its times line says, but once where that is 0
    (the line comes after the body, which has been read by then), each command
    with the number of its line, and a last reset. *)
Theorem parse_unrolls (p : script) : well_formed p = true ->
  exists fuel, parse fuel (lines p) =
    Some (inl (unroll 1 p ++ [(reset, py_len (lines p) + 1)])).
Proof. apply parse_unrolls_lines. Qed.

Lemma parse_unrolls_witness : exists fuel,
  parse fuel ["do"; "run 5"; "do"; "reset"; "3 times"; "0 times"] =
  Some (inl [(run_command 5 "no_name", 2); (reset, 4); (reset, 4); (reset, 4); (reset, 7)]).
Proof.
  apply (parse_unrolls (Loop "do" (Single "run 5" (Loop "do" (Single "reset" Finish) "3 times" Finish))
    "0 times" Finish)). reflexivity.
Defined.

(** What is to be repeated 0 times is done once. *)
Theorem zero_times_runs_once : parse 10 ["do"; "run 5"; "0 times"] = parse 10 ["do"; "run 5"; "1 times"] /\
  parse 10 ["do"; "run 5"; "0 times"] = Some (inl [(run_command 5 "no_name", 2); (reset, 4)]).
Proof. split; by vm_compute. Qed.
