(* ===== verification/NetworkManager.v ===== *)
(** * The network manager of a node (network_manager.py)

    Each node runs a [NetemManager]; the test executor calls it over XML-RPC.
    It keeps one traffic-control class per peer, created at the start, and
    changes the class of a peer to disturb the traffic to it.  The shell that
    runs the commands is a parameter: the state it leaves, and what the command
    wrote to its standard error. *)
From stdpp Require Import base list strings.
From Stdlib Require Import ZArith Lia Strings.Ascii.
From S2P Require Import Prelude PyList PyStr PyText PyExcept.
Local Open Scope Z_scope.

(** A peer of the configuration file. *)
Record peer : Type := mkPeer {
  peer_id : Z;
  portsToLock : list Z;
  addressesToLock : list string;
}.

(** ** NetemManager *)
Record NetemManager : Type := mkNetemManager {
  interface : string;
  host_id : Z;
  peers : list peer;
  mode : string;
}.

Definition interface_token : string := "%INTERFACE%".
Definition source_id_token : string := "%SID%".
Definition destination_id_token : string := "%DID%".
Definition peer_port_token : string := "%PPORT%".
Definition peer_address_token : string := "%PADDRESS%".
Definition host_port_token : string := "%HPORT%".
Definition host_address_token : string := "%HADDRESS%".
Definition peer_id_token : string := "%PID%".
Definition netem_token : string := "%NETEM%".

Definition bandwidth : string := "100Mbps".

Definition create_root_commands : list string :=
  ["sudo tc qdisc add dev %INTERFACE% root handle 1: htb"].
Definition delete_root_commands : list string :=
  ["sudo tc qdisc del dev %INTERFACE% root"; "sudo tc -s qdisc ls dev %INTERFACE%"].
Definition create_peer_class_commands : list string :=
  ["sudo tc class add dev %INTERFACE% parent 1: classid 1:%DID% htb rate " +:+ bandwidth].
Definition create_peer_qdisc_commands : list string :=
  ["sudo tc qdisc add dev %INTERFACE% parent 1:%DID% handle %DID%: netem delay 0ms"].
Definition create_peer_filter_commands_local : list string :=
  ["sudo tc filter add dev %INTERFACE% protocol ip u32 match ip dport %PPORT% 0xffff flowid 1:%DID%"].
Definition create_peer_filter_commands_gce : list string :=
  ["sudo tc filter add dev %INTERFACE% protocol ip u32 match ip dst %PADDRESS%/32 flowid 1:%DID%"].
Definition modify_outgoing_connections_commands : list string :=
  ["sudo tc qdisc change dev %INTERFACE% parent 1:%PID%2 netem %NETEM%"].

(** The order of the items of a dictionary is not specified (Python 3.4): the
    definitions below use the order of the source, and the theorems show that
    another order gives the same commands. *)
Abbreviation substitutions := (list (string * string)).

Definition substitute (substitution_map : substitutions) (command : string) : string :=
  foldl (fun command tv => py_replace tv.1 tv.2 command) command substitution_map.

Section manager.
Context {W : Type}.
(** [Popen(command, shell=True).communicate()]: standard error, or an OSError. *)
Context (shell : W -> string -> W * outcome string).

Abbreviation M A := (PyM W string A).

Definition run (command : string) : M string :=
  py_emit [command] ;;! py_call (fun w => shell w command).

(** [e + "\n"] for bytes [e]: bytes and str do not add. *)
Definition bytes_plus_str (e : string) : M string := py_raise TypeError.

Fixpoint run_all (commands : list string) (substitution_map : substitutions) (error : string) : M string :=
  match commands with
  | [] => py_return error
  | command :: commands =>
      let! e := run (substitute substitution_map command) in
      let! error := (if String.eqb e "" then py_return error
                     else let! e' := bytes_plus_str e in py_return (error +:+ e')) in
      run_all commands substitution_map error
  end.
Definition run_commands (commands : list string) (substitution_map : substitutions) : M string :=
  run_all commands substitution_map "".

(** [if err: ... return False; else: return True] *)
Definition no_error (err : string) : M bool := py_return (String.eqb err "").

Context (self : NetemManager).

Definition create_root_qdisc : M bool :=
  py_try (let! err := run_commands create_root_commands [(interface_token, interface self)] in
          no_error err)
    (py_return false).

Definition clean_all_qdisc : M bool :=
  py_try (let! err := run_commands delete_root_commands [(interface_token, interface self)] in
          no_error err)
    (py_return false).

(** [id + qid + "2"] *)
Definition destination_id (p : peer) : string :=
  py_str (host_id self) +:+ py_str (peer_id p) +:+ "2".

(** [for x in xs: err = ...; if err: return False] and [return True] *)
Fixpoint create_filters {X} (xs : list X) (filter : X -> M string) : M bool :=
  match xs with
  | [] => py_return true
  | x :: xs =>
      let! err := filter x in
      if String.eqb err "" then create_filters xs filter else py_return false
  end.

Definition create_peer_qdisc (p : peer) : M bool :=
  py_try
    (let map := [(interface_token, interface self); (destination_id_token, destination_id p)] in
     let! err := run_commands create_peer_class_commands map in
     if negb (String.eqb err "") then py_return false
     else
       let! err := run_commands create_peer_qdisc_commands map in
       if negb (String.eqb err "") then py_return false
       else if String.eqb (mode self) "local" then
         create_filters (portsToLock p) (fun peer_port =>
           run_commands create_peer_filter_commands_local
             (map ++ [(peer_port_token, py_str peer_port)]))
       else
         create_filters (addressesToLock p) (fun peer_address =>
           run_commands create_peer_filter_commands_gce
             (map ++ [(peer_address_token, peer_address)])))
    (py_return false).

Definition modify_outgoing_connection (to_id netem_command : string) : M bool :=
  py_try
    (let! err := run_commands modify_outgoing_connections_commands
       [(interface_token, interface self);
        (peer_id_token, py_str (host_id self) +:+ to_id);
        (netem_token, netem_command)] in
     no_error err)
    (py_return false).

(** [result and self.create_peer_qdisc(peer)] does not call after a failure. *)
Fixpoint init_peers (ps : list peer) (result : bool) : M bool :=
  match ps with
  | [] => py_return result
  | p :: ps =>
      let! result := (if result then create_peer_qdisc p else py_return false) in
      init_peers ps result
  end.
Definition init_qdisc : M bool := init_peers (peers self) true.

End manager.
