(* ===== verification/NetworkManagerTheorems.v ===== *)
(** * The network manager: the commands it runs

    [setup_runs_script], [modify_runs_command]: on every path the manager runs
    the commands of a written-out script up to the first one that complains, and
    says whether all went well.  [substitution_order]: the order in which
    Python walks the dictionary of tokens does not matter. *)
From stdpp Require Import base list strings.
From Stdlib Require Import ZArith Lia Strings.Ascii Permutation.
From S2P Require Import Prelude PyList PyStr PyText PyExcept NetworkManager.
Local Open Scope Z_scope.

(** ** Scripts *)
Section scripts.
Context {W : Type} (shell : W -> string -> W * outcome string).

(** Commands run one after the other until one raises or writes an error. *)
Fixpoint run_script (cs : list string) (w : W) : W * list string * bool :=
  match cs with
  | [] => (w, [], true)
  | c :: cs =>
      match shell w c with
      | (w', Ret err) =>
          if String.eqb err "" then
            let '(w'', es, b) := run_script cs w' in (w'', c :: es, b)
          else (w', [c], false)
      | (w', Raise _) => (w', [c], false)
      end
  end.

(** [m] runs the script; where the script fails it may raise. *)
Definition tracks (m : PyM W string bool) (cs : list string) : Prop :=
  forall w, let '(w', es, b) := run_script cs w in
    exists r, m w = (w', es, r) /\ match r with Ret b' => b' = b | Raise _ => b = false end.

(** [m] runs the script and returns whether it succeeded. *)
Definition runs (m : PyM W string bool) (cs : list string) : Prop :=
  forall w, let '(w', es, b) := run_script cs w in m w = (w', es, Ret b).

Lemma runs_try m cs : tracks m cs -> runs (py_try m (py_return false)) cs.
Proof.
  intros Hm w. specialize (Hm w). destruct (run_script cs w) as [[w' es] b].
  destruct Hm as ([b'|e] & E & Hr); unfold py_try; rewrite E; [by rewrite Hr|].
  subst b. unfold py_return. by rewrite app_nil_r.
Qed.

Lemma runs_tracks m cs : runs m cs -> tracks m cs.
Proof.
  intros Hm w. specialize (Hm w). destruct (run_script cs w) as [[w' es] b]. by exists (Ret b).
Qed.

Lemma tracks_true : tracks (py_return true) [].
Proof. intros w. by exists (Ret true). Qed.

(** [run_commands] runs its commands, and continues only after silence. *)
Lemma tracks_commands commands map (k : string -> PyM W string bool) cs :
  tracks (k "") cs ->
  tracks (py_bind (run_commands shell commands map) k) ((substitute map <$> commands) ++ cs).
Proof.
  intros Hk. unfold run_commands.
  induction commands as [|c commands IH]; [intros w; cbn [run_all]|].
  { specialize (Hk w). cbn [fmap list_fmap app]. destruct (run_script cs w) as [[w' es] b].
    rewrite bind_return. exact Hk. }
  intros w. rewrite fmap_cons, <-app_comm_cons. cbn [run_all run_script]. unfold run.
  destruct (shell w (substitute map c)) as [w1 [err|e]] eqn:E.
  - destruct (String.eqb_spec err "") as [->|Hne].
    + specialize (IH w1). cbn [String.eqb].
      destruct (run_script ((substitute map <$> commands) ++ cs) w1) as [[w' es] b].
      destruct IH as (r & Hr & Hb). exists r. split; [|done].
      revert Hr. unfold py_bind, py_emit, py_call. rewrite E. cbn.
      destruct (run_all shell commands map "" w1) as [[w2 es2] [x|x]]; cbn.
      * destruct (k x w2) as [[w3 es3] r3]. by intros [= <- <- <-].
      * by intros [= <- <- <-].
    + exists (Raise TypeError). split; [|done]. unfold py_bind, py_emit, py_call. rewrite E. cbn.
      by rewrite (proj2 (String.eqb_neq _ _)).
  - exists (Raise e). split; [|done]. unfold py_bind, py_emit, py_call. by rewrite E.
Qed.

Lemma run_script_app cs cs' w : run_script (cs ++ cs') w =
  let '(w1, es1, b1) := run_script cs w in
  if b1 then let '(w2, es2, b2) := run_script cs' w1 in (w2, es1 ++ es2, b2) else (w1, es1, false).
Proof.
  revert w. induction cs as [|c cs IH]; intros w; cbn.
  - by destruct (run_script cs' w) as [[w2 es2] b2].
  - destruct (shell w c) as [w1 [err|e]]; [|done]. destruct (String.eqb err ""); [|done].
    rewrite IH. destruct (run_script cs w1) as [[w2 es2] []]; [|done].
    by destruct (run_script cs' w2) as [[w3 es3] b3].
Qed.

Lemma tracks_filters {X} (xs : list X) filter (c : X -> string) :
  (forall x (k : string -> PyM W string bool) cs, tracks (k "") cs -> tracks (py_bind (filter x) k) (c x :: cs)) ->
  tracks (create_filters xs filter) (c <$> xs).
Proof.
  intros Hf. induction xs as [|x xs IH]; [apply tracks_true|]. cbn. apply Hf. exact IH.
Qed.

End scripts.

(** ** Substitution *)
Definition free_percent : string -> bool := free_of "%"%char.

(** Evaluates substitutions: constants by computation, values without a token
    by [replace_free] and [replace_absent]. *)
Ltac substitution commands :=
  let c := eval vm_compute in commands in change commands with c;
  unfold interface_token, destination_id_token, peer_port_token, peer_address_token,
    peer_id_token, netem_token in *;
  cbn [fmap list_fmap]; unfold substitute, py_replace; cbn [foldl fst snd];
  repeat first [ progress (cbn -[String.append]) | rewrite replace_free by done
               | rewrite app_nil_s
               | match goal with H : py_in ?t ?r = false |- context [replace_at ?t ?v 0 ?r] =>
                   rewrite (replace_absent t v r H) end ];
  reflexivity.

Lemma perm_2 {A} (a b : A) l : [a; b] ≡ₚ l -> l = [a; b] \/ l = [b; a].
Proof. intros H. by apply Permutation_length_2_inv in H. Qed.

Lemma perm_3 {A} (a b c : A) l : [a; b; c] ≡ₚ l ->
  l = [a; b; c] \/ l = [a; c; b] \/ l = [b; a; c] \/ l = [b; c; a] \/ l = [c; a; b] \/ l = [c; b; a].
Proof.
  intros H. destruct l as [|x l]; [by apply Permutation_nil_r in H|].
  assert (Hx : x ∈ [a; b; c]) by (rewrite H; left).
  rewrite !elem_of_cons, elem_of_nil in Hx. destruct Hx as [->|[->|[->|[]]]].
  - apply Permutation_cons_inv, perm_2 in H as [->| ->]; auto.
  - rewrite (Permutation_swap b a [c]) in H.
    apply Permutation_cons_inv, perm_2 in H as [->| ->]; auto.
  - rewrite <-(Permutation_cons_append [a; b] c) in H.
    apply Permutation_cons_inv, perm_2 in H as [->| ->]; auto 7.
Qed.

(** The commands, written out. *)
Definition flow (h p : Z) : string := "1:" +:+ py_str h +:+ py_str p +:+ "2".
Definition handle (h p : Z) : string := py_str h +:+ py_str p +:+ "2:".

Definition class_command (i : string) (h p : Z) : string :=
  "sudo tc class add dev " +:+ i +:+ " parent 1: classid " +:+ flow h p +:+ " htb rate 100Mbps".
Definition qdisc_command (i : string) (h p : Z) : string :=
  "sudo tc qdisc add dev " +:+ i +:+ " parent " +:+ flow h p +:+ " handle " +:+ handle h p
    +:+ " netem delay 0ms".
Definition port_command (i : string) (h p port : Z) : string :=
  "sudo tc filter add dev " +:+ i +:+ " protocol ip u32 match ip dport " +:+ py_str port
    +:+ " 0xffff flowid " +:+ flow h p.
Definition address_command (i : string) (h p : Z) (a : string) : string :=
  "sudo tc filter add dev " +:+ i +:+ " protocol ip u32 match ip dst " +:+ a
    +:+ "/32 flowid " +:+ flow h p.
Definition change_command (i : string) (h p : Z) (rule : string) : string :=
  "sudo tc qdisc change dev " +:+ i +:+ " parent " +:+ flow h p +:+ " netem " +:+ rule.

(** Values without [%]. *)
Section substituted.
Context (i d : string) (Hi : free_percent i = true) (Hd : free_percent d = true).

Lemma subst_root : substitute [(interface_token, i)] <$> create_root_commands =
  ["sudo tc qdisc add dev " +:+ i +:+ " root handle 1: htb"].
Proof. substitution create_root_commands. Qed.

Lemma subst_delete : substitute [(interface_token, i)] <$> delete_root_commands =
  ["sudo tc qdisc del dev " +:+ i +:+ " root"; "sudo tc -s qdisc ls dev " +:+ i].
Proof. substitution delete_root_commands. Qed.

Lemma subst_class m : [(interface_token, i); (destination_id_token, d)] ≡ₚ m ->
  substitute m <$> create_peer_class_commands =
  ["sudo tc class add dev " +:+ i +:+ " parent 1: classid 1:" +:+ d +:+ " htb rate 100Mbps"].
Proof.
  intros [-> | ->]%perm_2; substitution create_peer_class_commands.
Qed.

Lemma subst_qdisc m : [(interface_token, i); (destination_id_token, d)] ≡ₚ m ->
  substitute m <$> create_peer_qdisc_commands =
  ["sudo tc qdisc add dev " +:+ i +:+ " parent 1:" +:+ d +:+ " handle " +:+ d +:+ ": netem delay 0ms"].
Proof.
  intros [-> | ->]%perm_2; substitution create_peer_qdisc_commands.
Qed.

Lemma subst_port m port : free_percent port = true ->
  [(interface_token, i); (destination_id_token, d); (peer_port_token, port)] ≡ₚ m ->
  substitute m <$> create_peer_filter_commands_local =
  ["sudo tc filter add dev " +:+ i +:+ " protocol ip u32 match ip dport " +:+ port
     +:+ " 0xffff flowid 1:" +:+ d].
Proof.
  intros Hp Hm%perm_3; destruct_or! Hm; rewrite Hm;
    substitution create_peer_filter_commands_local.
Qed.

Lemma subst_address m a : free_percent a = true ->
  [(interface_token, i); (destination_id_token, d); (peer_address_token, a)] ≡ₚ m ->
  substitute m <$> create_peer_filter_commands_gce =
  ["sudo tc filter add dev " +:+ i +:+ " protocol ip u32 match ip dst " +:+ a
     +:+ "/32 flowid 1:" +:+ d].
Proof.
  intros Hp Hm%perm_3; destruct_or! Hm; rewrite Hm;
    substitution create_peer_filter_commands_gce.
Qed.

(** The rule may contain [%] (loss 40%), but no token. *)
Lemma subst_change m rule : py_in interface_token rule = false -> py_in peer_id_token rule = false ->
  [(interface_token, i); (peer_id_token, d); (netem_token, rule)] ≡ₚ m ->
  substitute m <$> modify_outgoing_connections_commands =
  ["sudo tc qdisc change dev " +:+ i +:+ " parent 1:" +:+ d +:+ "2 netem " +:+ rule].
Proof.
  intros Hr1 Hr2 Hm%perm_3; destruct_or! Hm; rewrite Hm;
    substitution modify_outgoing_connections_commands.
Qed.
End substituted.

Lemma free_id h p : free_percent (py_str h +:+ py_str p +:+ "2") = true.
Proof. unfold free_percent. by rewrite !free_of_app, !py_str_free. Qed.

(** ** The methods *)
Section methods.
Context {W : Type} (shell : W -> string -> W * outcome string) (self : NetemManager).
Context (Hi : free_percent (interface self) = true).
Abbreviation host := (host_id self).

(** The commands that set up a peer, and all of them. *)
Definition filter_script (m : NetemManager) (p : peer) : list string :=
  if String.eqb (mode m) "local" then
    port_command (interface m) (host_id m) (peer_id p) <$> portsToLock p
  else address_command (interface m) (host_id m) (peer_id p) <$> addressesToLock p.
Definition peer_script (m : NetemManager) (p : peer) : list string :=
  class_command (interface m) (host_id m) (peer_id p) ::
  qdisc_command (interface m) (host_id m) (peer_id p) :: filter_script m p.
Definition setup_script (m : NetemManager) : list string := mjoin (peer_script m <$> peers m).

Lemma class_is p : substitute [(interface_token, interface self); (destination_id_token, destination_id self p)]
    <$> create_peer_class_commands = [class_command (interface self) host (peer_id p)].
Proof.
  rewrite (subst_class _ _ Hi (free_id host (peer_id p))) by done.
  unfold class_command, flow. by rewrite !app_assoc_s.
Qed.

Lemma qdisc_is p : substitute [(interface_token, interface self); (destination_id_token, destination_id self p)]
    <$> create_peer_qdisc_commands = [qdisc_command (interface self) host (peer_id p)].
Proof.
  rewrite (subst_qdisc _ _ Hi (free_id host (peer_id p))) by done.
  unfold qdisc_command, flow, handle. by rewrite !app_assoc_s.
Qed.

Lemma port_is p port : substitute [(interface_token, interface self);
    (destination_id_token, destination_id self p); (peer_port_token, py_str port)]
    <$> create_peer_filter_commands_local = [port_command (interface self) host (peer_id p) port].
Proof.
  rewrite (subst_port _ _ Hi (free_id host (peer_id p)) _ (py_str port)) by (done || by apply py_str_free).
  done.
Qed.

Lemma address_is p a : free_percent a = true -> substitute [(interface_token, interface self);
    (destination_id_token, destination_id self p); (peer_address_token, a)]
    <$> create_peer_filter_commands_gce = [address_command (interface self) host (peer_id p) a].
Proof.
  intros Ha. rewrite (subst_address _ _ Hi (free_id host (peer_id p)) _ a) by done.
  done.
Qed.

(** A group of commands and what follows. *)
Lemma tracks_group commands map (k : string -> PyM W string bool) cs c :
  substitute map <$> commands = c -> tracks shell (k "") cs ->
  tracks shell (py_bind (run_commands shell commands map) k) (c ++ cs).
Proof. intros <-. apply tracks_commands. Qed.

Lemma runs_peer p : forallb free_percent (addressesToLock p) = true ->
  runs shell (create_peer_qdisc shell self p) (peer_script self p).
Proof.
  intros Ha. apply runs_try. apply (tracks_group _ _ _ _ _ (class_is p)).
  apply (tracks_group _ _ _ _ _ (qdisc_is p)). cbn [String.eqb negb]. unfold filter_script.
  destruct (String.eqb (mode self) "local").
  - apply tracks_filters. intros port k cs Hk. apply (tracks_group _ _ _ cs _ (port_is p port)). exact Hk.
  - rewrite forallb_forall in Ha. induction (addressesToLock p) as [|a l IH]; [apply tracks_true|].
    cbn [create_filters fmap list_fmap].
    apply (tracks_group _ _ _ (list_fmap _ _ _ l) _ (address_is p a (Ha a (or_introl eq_refl)))).
    apply IH. intros x Hx. apply Ha. by right.
Qed.

Lemma init_peers_false ps w : init_peers shell self ps false w = (w, [], Ret false).
Proof.
  induction ps as [|p ps IH]; [done|]. cbn [init_peers]. by rewrite bind_return.
Qed.

Lemma runs_peers ps : forallb (fun p => forallb free_percent (addressesToLock p)) ps = true ->
  runs shell (init_peers shell self ps true) (mjoin (peer_script self <$> ps)).
Proof.
  induction ps as [|p ps IH]; [done|]. cbn [forallb]. intros [Hp Hps]%andb_true_iff w.
  cbn [fmap list_fmap mjoin list_join init_peers]. rewrite run_script_app.
  pose proof (runs_peer p Hp w) as H1. unfold py_bind.
  destruct (run_script shell (peer_script self p) w) as [[w1 es1] []]; rewrite H1.
  - specialize (IH Hps w1). cbn [fmap] in IH. destruct (run_script _ _ w1) as [[w2 es2] b2].
    by rewrite IH.
  - rewrite init_peers_false. by rewrite app_nil_r.
Qed.

Lemma runs_change to_id rule : free_percent to_id = true ->
  py_in interface_token rule = false -> py_in peer_id_token rule = false ->
  runs shell (modify_outgoing_connection shell self to_id rule)
    ["sudo tc qdisc change dev " +:+ interface self +:+ " parent 1:" +:+
       py_str host +:+ to_id +:+ "2 netem " +:+ rule].
Proof.
  intros Ht H1 H2. apply runs_try.
  assert (Hf : free_percent (py_str host +:+ to_id) = true)
    by (unfold free_percent in *; rewrite free_of_app, py_str_free by done; exact Ht).
  apply (tracks_group _ _ _ [] ["sudo tc qdisc change dev " +:+ interface self +:+ " parent 1:" +:+
       py_str host +:+ to_id +:+ "2 netem " +:+ rule]); [|apply tracks_true].
  rewrite (subst_change _ _ Hi Hf _ rule) by done. by rewrite !app_assoc_s.
Qed.

End methods.

(** ** The theorems *)
(** Setting up the peers runs the script class, qdisc, filters of each peer
    in turn up to the first command that complains, and reports whether every
    command was silent; the answer never is an exception. *)
Theorem setup_runs_script {W} (shell : W -> string -> W * outcome string) (self : NetemManager) :
  free_percent (interface self) = true ->
  forallb (fun p => forallb free_percent (addressesToLock p)) (peers self) = true ->
  runs shell (init_qdisc shell self) (setup_script self).
Proof. intros Hi Hp. by apply runs_peers. Qed.

(** A shell that counts commands and complains about the fourth. *)
Definition counting_shell (w : nat) (command : string) : nat * outcome string :=
  (S w, Ret (if (w =? 3)%nat then "RTNETLINK answers: File exists" else "")).
Definition demo_manager : NetemManager :=
  {| interface := "eth0"; host_id := 1; mode := "gce";
     peers := [{| peer_id := 2; portsToLock := [12345]; addressesToLock := ["10.0.0.2"] |};
               {| peer_id := 3; portsToLock := [12345]; addressesToLock := ["10.0.0.3"] |}] |}.

Lemma setup_runs_script_witness :
  runs counting_shell (init_qdisc counting_shell demo_manager) (setup_script demo_manager) /\
  (run_script counting_shell (setup_script demo_manager) 0%nat).2 = false /\
  length (run_script counting_shell (setup_script demo_manager) 0%nat).1.2 = 4%nat.
Proof. split; [by apply setup_runs_script|by vm_compute]. Defined.

(** A change asked for a peer runs one command, on the class that the setup
    made for that peer; no other peer of the host has that class. *)
Theorem modify_hits_its_peer {W} (shell : W -> string -> W * outcome string) (self : NetemManager)
    (p : Z) (rule : string) :
  free_percent (interface self) = true ->
  py_in interface_token rule = false -> py_in peer_id_token rule = false ->
  runs shell (modify_outgoing_connection shell self (py_str p) rule)
    [change_command (interface self) (host_id self) p rule] /\
  (forall q, flow (host_id self) q = flow (host_id self) p -> q = p).
Proof.
  intros Hi H1 H2. split.
  - unfold change_command, flow. rewrite !app_assoc_s.
    apply runs_change; [done|by apply py_str_free|done..].
  - intros q Hq. apply (inj (String.append "1:")), (inj (String.append _)) in Hq.
    apply py_str_inj. revert Hq. generalize (py_str q) (py_str p). clear.
    induction s as [|a s IH]; intros [|b t] E; [done| | |].
    + destruct t; discriminate.
    + destruct s; discriminate.
    + injection E as -> E. f_equal. by apply IH.
Qed.

Lemma modify_hits_its_peer_witness :
  runs counting_shell (modify_outgoing_connection counting_shell demo_manager (py_str 3) "loss 40%")
    ["sudo tc qdisc change dev eth0 parent 1:132 netem loss 40%"] /\
  (forall q, flow 1 q = flow 1 3 -> q = 3).
Proof. by apply (modify_hits_its_peer counting_shell demo_manager 3 "loss 40%"). Defined.

(** Python may walk the dictionary of tokens in any order: the commands are
    the same. *)
Theorem substitution_order (i d x rule : string) (m : substitutions) :
  free_percent i = true -> free_percent d = true -> free_percent x = true ->
  py_in interface_token rule = false -> py_in peer_id_token rule = false ->
  let base := [(interface_token, i); (destination_id_token, d)] in
  let same cs m0 := m0 ≡ₚ m -> substitute m <$> cs = substitute m0 <$> cs in
  same create_peer_class_commands base /\ same create_peer_qdisc_commands base /\
  same create_peer_filter_commands_local (base ++ [(peer_port_token, x)]) /\
  same create_peer_filter_commands_gce (base ++ [(peer_address_token, x)]) /\
  same modify_outgoing_connections_commands
    [(interface_token, i); (peer_id_token, d); (netem_token, rule)].
Proof.
  intros Hi Hd Hx H1 H2. repeat split; intros Hm; cbn [app] in Hm.
  - by rewrite (subst_class i d Hi Hd m), (subst_class i d Hi Hd _).
  - by rewrite (subst_qdisc i d Hi Hd m), (subst_qdisc i d Hi Hd _).
  - by rewrite (subst_port i d Hi Hd m x), (subst_port i d Hi Hd _ x).
  - by rewrite (subst_address i d Hi Hd m x), (subst_address i d Hi Hd _ x).
  - by rewrite (subst_change i d Hi Hd m rule), (subst_change i d Hi Hd _ rule).
Qed.

Lemma substitution_order_witness :
  substitute [(netem_token, "loss 40%"); (interface_token, "lo"); (peer_id_token, "12")]
    <$> modify_outgoing_connections_commands =
  ["sudo tc qdisc change dev lo parent 1:122 netem loss 40%"].
Proof.
  destruct (substitution_order "lo" "12" "x" "loss 40%"
    [(netem_token, "loss 40%"); (interface_token, "lo"); (peer_id_token, "12")]
    eq_refl eq_refl eq_refl eq_refl eq_refl) as (_ & _ & _ & _ & H).
  etransitivity; [apply H|reflexivity]. symmetry. by rewrite Permutation_cons_append.
Defined.

(** On one machine all nodes share the interface, and class names of
    different links coincide: node 1 changing its link to 12 is node 11 changing
    its link to 2. *)
Theorem shared_interface_collision {W} (shell : W -> string -> W * outcome string) ps ps' m rule w :
  modify_outgoing_connection shell
    {| interface := "lo"; host_id := 1; peers := ps; mode := m |} (py_str 12) rule w =
  modify_outgoing_connection shell
    {| interface := "lo"; host_id := 11; peers := ps'; mode := m |} (py_str 2) rule w.
Proof. reflexivity. Qed.
