(* ===== verification/TestExecutor.v ===== *)
(** * The execution of test scripts (test_executor.py)

    [CommandUnwrapper] checks a command and resolves its node ids, [Executor]
    and [NetemMaster] carry it out by remote calls, [attach_line] ties a command
    to its line, and the main loop takes each entry of the list through its
    stages.  What answers the calls is the interface [Platform]. *)
From stdpp Require Import base gmap sets list strings.
From Stdlib Require Import ZArith Lia.
From S2P Require Import Prelude PyList PyStr PyText PyExcept PyFuel Regex TestParser.
Local Open Scope Z_scope.

(** ** Remote calls

    The network managers, by node id, and the test daemon; a call may raise (a
    Fault, a socket error). *)
Class Platform (W V : Type) := {
  rpc_clean_all_qdisc : string -> W -> W * outcome bool;
  rpc_create_root_qdisc : string -> W -> W * outcome bool;
  rpc_init_qdisc : string -> W -> W * outcome bool;
  rpc_modify_outgoing_connection : string -> string -> string -> W -> W * outcome bool;
  rpc_run : Z -> W -> W * outcome (list V);
}.

(** What the executor does to the outside. *)
Inductive event (V : Type) : Type :=
| Clean (node : string)
| CreateRoot (node : string)
| InitQdisc (node : string)
| Modify (node target rule : string)
| Run (n_op : Z)
| Row (label : string) (times : list V).
Arguments Clean {V} _.
Arguments CreateRoot {V} _.
Arguments InitQdisc {V} _.
Arguments Modify {V} _ _ _.
Arguments Run {V} _.
Arguments Row {V} _ _.

Definition raised (e : TestException) : py_error := TestError (type e) (message e) (line e).

Section executor.
Context {W V : Type} `{Platform W V}.
(** The number that the k-th call of [random.randrange(n)] returns. *)
Context (randrange : nat -> Z -> Z).
(** The order in which Python walks a set. *)
Context (set_order : gset Z -> list Z).

(** The state: the platform, and how many random numbers were drawn. *)
Abbreviation state := (W * nat)%type.
Abbreviation M A := (PyM state (event V) A).
Abbreviation F A := (PyF state (event V) A).

Definition rpc {A} (ev : event V) (call : W -> W * outcome A) : M A :=
  py_emit [ev] ;;!
  py_call (fun '(w, k) => let '(w', r) := call w in ((w', k), r)).

(** ** NetemMaster: [nodes] are the ids of the configuration *)
Definition nodes_rpc (nodes : list Z) (key : string) : M string :=
  if bool_decide (key ∈ py_str <$> nodes) then py_return key else py_raise KeyError.

Definition netem_init (nodes : list Z) : M unit :=
  py_for nodes (fun n =>
    (let! node := nodes_rpc nodes (py_str n) in rpc (Clean node) (rpc_clean_all_qdisc node)) ;;!
    (let! node := nodes_rpc nodes (py_str n) in rpc (CreateRoot node) (rpc_create_root_qdisc node)) ;;!
    py_return tt) ;;!
  py_for nodes (fun n =>
    let! node := nodes_rpc nodes (py_str n) in
    let! ok := rpc (InitQdisc node) (rpc_init_qdisc node) in
    if ok then py_return tt
    else py_raise (PlainException ("[" +:+ NETEM_ERROR +:+ "] Error initializing qdiscs"))).

Definition call_modify (nodes : list Z) (source target netem_command : string) : M bool :=
  let! node := nodes_rpc nodes source in
  rpc (Modify node target netem_command) (rpc_modify_outgoing_connection node target netem_command).

Definition netem_error (netem_command : string) : M unit :=
  py_raise (raised {| type := NETEM_ERROR;
    message := "'" +:+ netem_command +:+ "' is not a valid netem command"; line := no_line |}).

Definition modify_connection (nodes : list Z) (source target : Z) (netem_command : string)
    (bidirectional : bool) : M unit :=
  if String.eqb (py_str source) (py_str target) then py_return tt
  else if bidirectional then
    let! ok := call_modify nodes (py_str source) (py_str target) netem_command in
    if negb ok then netem_error netem_command else
    let! ok := call_modify nodes (py_str target) (py_str source) netem_command in
    if negb ok then netem_error netem_command else py_return tt
  else
    let! ok := call_modify nodes (py_str source) (py_str target) netem_command in
    if negb ok then netem_error netem_command else py_return tt.

(** The sets are walked once for [sources], and [targets] once per source. *)
Definition modify_connections (nodes : list Z) (sources targets : gset Z) (netem_command : string)
    (bidirectional : bool) : M unit :=
  py_for (set_order sources) (fun source =>
    py_for (set_order targets) (fun target =>
      modify_connection nodes source target netem_command bidirectional)).

(** ** Executor *)
Record Executor : Type := mkExecutor { nodes : list Z; algorithm : string }.

(** The partials that [CommandUnwrapper] returns: a method of [Executor] with
    its arguments. *)
Inductive action : Type :=
| run_action (n_op : Z) (label : string)
| modify_action (sources targets : gset Z) (netem_command : string) (bidirectional : bool).

Definition executor_run_command (self : Executor) (n_op : Z) (label : string) : M unit :=
  let! result := rpc (Run n_op) (rpc_run n_op) in
  py_emit [Row (algorithm self +:+ "_" +:+ label) result].

Definition execute (self : Executor) (a : action) : M unit :=
  match a with
  | run_action n_op label => executor_run_command self n_op label
  | modify_action sources targets netem_command bidirectional =>
      modify_connections (nodes self) sources targets netem_command bidirectional
  end.

(** ** CommandUnwrapper *)
Record CommandUnwrapper : Type := mkUnwrapper { nodes_number : Z; local_execution : bool }.
Context (self : CommandUnwrapper).

(** An element of a list of ids: a token of the script, or a number that
    [modify_random_link] drew. *)
Inductive value : Type := Str (s : string) | Int (z : Z).

Definition lift {A} (o : outcome A) : M A :=
  match o with Ret a => py_return a | Raise e => py_raise e end.

(** [value.isdigit()]: an int has no such method. *)
Definition isdigit (v : value) : outcome bool :=
  match v with Str s => Ret (py_isdigit s) | Int _ => Raise AttributeError end.
Definition to_int (v : value) : outcome Z :=
  match v with Str s => py_int3 s | Int z => Ret z end.
Definition is_str (v : value) (t : string) : bool :=
  match v with Str s => String.eqb s t | Int _ => false end.
Definition text (v : value) : string := match v with Str s => s | Int z => py_str z end.

Definition id_error {A} (m : string) : outcome A :=
  Raise (raised {| type := ID_ERROR; message := m; line := no_line |}).

(** [random_values.pop(0)] is shared between the calls for sources and targets. *)
Fixpoint resolve (ids : list value) (random_values : list Z) (result : gset Z) :
    outcome (gset Z * list Z) :=
  match ids with
  | [] => Ret (result, random_values)
  | v :: ids =>
      d ← isdigit v;
      if (d : bool) then
        integer ← to_int v;
        if nodes_number self <? integer then id_error ("Id " +:+ text v +:+ " out of range ")
        else resolve ids random_values ({[ integer ]} ∪ result)
      else if is_str v "rand" then
        match random_values with
        | [] => Raise IndexError
        | r :: random_values => resolve ids random_values ({[ r ]} ∪ result)
        end
      else if is_str v "all" then
        resolve ids random_values (list_to_set (seqZ 1 (nodes_number self)) ∪ result)
      else id_error ("Id " +:+ text v +:+ " is not valid")
  end.

(** The ids named in a list, and how often "rand" occurs. *)
Fixpoint count_ids (ids : list value) (referred_ids : gset Z) (random_values_count : Z) :
    outcome (gset Z * Z) :=
  match ids with
  | [] => Ret (referred_ids, random_values_count)
  | v :: ids =>
      d ← isdigit v;
      referred_ids ← (if (d : bool) then integer ← to_int v; Ret ({[ integer ]} ∪ referred_ids)
                      else Ret referred_ids);
      count_ids ids referred_ids
        (if is_str v "rand" then random_values_count + 1 else random_values_count)
  end.

(** [random.randrange(n)] *)
Definition draw (n : Z) : M Z :=
  if n <=? 0 then py_raise ValueError
  else fun '(w, k) => ((w, S k), [], Ret (randrange k n)).

Fixpoint draw_values (fuel : nat) (count : Z) (referred_ids : gset Z) (random_values : list Z) :
    F (list Z) :=
  if count <=? 0 then f_return random_values
  else match fuel with
  | O => f_more
  | S fuel =>
      let? r := f_lift (draw (nodes_number self)) in
      let ran := r + 1 in
      if bool_decide (ran ∈ referred_ids) then draw_values fuel count referred_ids random_values
      else draw_values fuel (count - 1) ({[ ran ]} ∪ referred_ids) (random_values ++ [ran])
  end.

Definition resolve_ids (fuel : nat) (sources targets : list value) : F (gset Z * gset Z) :=
  let? counted := f_lift (lift (count_ids (sources ++ targets) ∅ 0)) in
  let (referred_ids, random_values_count) := counted in
  if nodes_number self <? Z.of_nat (size referred_ids) + random_values_count then
    f_lift (lift (id_error "'Rand' keyword has been used too many times!"))
  else
    let? random_values := draw_values fuel random_values_count referred_ids [] in
    let? resolved := f_lift (lift (resolve sources random_values ∅)) in
    let (r_sources, random_values) := resolved in
    let? resolved := f_lift (lift (resolve targets random_values ∅)) in
    f_return (r_sources, resolved.1).

(** [targets < self.nodes_number - 1] compares a set with an int. *)
Definition unwrap_link (fuel : nat) (sources targets : list value) (netem_command : string)
    (bidirectional : bool) : F action :=
  let? resolved := resolve_ids fuel sources targets in
  let (sources, targets) := resolved in
  let? refuse :=
    (if local_execution self then
       if Z.of_nat (size sources) <? nodes_number self - 1 then f_return true
       else if bidirectional then f_raise TypeError else f_return false
     else f_return false) in
  if (refuse : bool) then
    f_raise (raised {| type := LOCAL_EXECUTION_ERROR;
      message := "impossible to specify single sources in local commands"; line := no_line |})
  else f_return (modify_action sources targets netem_command bidirectional).

(** The inner loop: a target other than the source. *)
Fixpoint draw_target (fuel : nat) (source : Z) : F Z :=
  match fuel with
  | O => f_more
  | S fuel =>
      let? r := f_lift (draw (nodes_number self)) in
      if r + 1 =? source then draw_target fuel source else f_return (r + 1)
  end.

Fixpoint draw_links (fuel : nat) (connection_number : Z) (bidirectional : bool)
    (selected : gset string) (n_selected : Z) (sources targets : gset Z) : F (gset Z * gset Z) :=
  if connection_number <=? n_selected then f_return (sources, targets)
  else match fuel with
  | O => f_more
  | S fuel =>
      let? r := f_lift (draw (nodes_number self)) in
      let source := r + 1 in
      let? target := draw_target fuel source in
      let link := py_str source +:+ "-" +:+ py_str target in
      if bool_decide (link ∈ selected) then
        draw_links fuel connection_number bidirectional selected n_selected sources targets
      else
        let selected := if bidirectional then {[ py_str target +:+ "-" +:+ py_str source ]} ∪ selected
                        else selected in
        draw_links fuel connection_number bidirectional ({[ link ]} ∪ selected) (n_selected + 1)
          ({[ source ]} ∪ sources) ({[ target ]} ∪ targets)
  end.

Definition unwrap_random_link (fuel : nat) (connection_number : Z) (netem_command : string)
    (bidirectional : bool) : F action :=
  let? drawn := draw_links fuel connection_number bidirectional ∅ 0 ∅ ∅ in
  let (sources, targets) := drawn in
  unwrap_link fuel (Int <$> set_order sources) (Int <$> set_order targets) netem_command bidirectional.

(** The call of a [partial(function, *arguments)] of the parser. *)
Definition unwrap (fuel : nat) (c : command) : F action :=
  match c with
  | modify_link_from_to sources targets netem_command bidirectional =>
      unwrap_link fuel (Str <$> sources) (Str <$> targets) netem_command bidirectional
  | modify_random_link connection_number netem_command bidirectional =>
      unwrap_random_link fuel connection_number netem_command bidirectional
  | reset => unwrap_link fuel [Str "all"] [Str "all"] "delay 0ms" false
  | run_command n_op label => f_return (run_action n_op label)
  end.

(** ** attach_line

    The function it is given: a command still to be checked, an action still to
    be executed, or the [None] that an action returned. *)
Inductive stage : Type :=
| Check (c : command)
| Execute (a : action)
| Finished.

Context (executor : Executor).

(** [f = fun()] *)
Definition call_stage (fuel : nat) (f : stage) : F stage :=
  match f with
  | Check c => let? a := unwrap fuel c in f_return (Execute a)
  | Execute a => f_lift (execute executor a) ;;? f_return Finished
  | Finished => f_return Finished
  end.

Definition attach_line (fuel : nat) (f : stage) (n : Z) : F (option (stage * Z)) :=
  f_try
    (match f with
     | Finished => f_return None
     | _ => let? g := call_stage fuel f in f_return (Some (g, n))
     end)
    (fun e =>
       match e with
       | TestError ty m l =>
           let e := {| type := ty; message := m; line := l |} in
           if is_line_defined e then f_return None else f_raise (raised (set_line e n))
       | _ => f_return None
       end).

(** ** main: [while command_list] *)
Fixpoint main_loop (turns fuel : nat) (command_list : list (stage * Z)) : F unit :=
  match command_list with
  | [] => f_return tt
  | (f, n) :: command_list =>
      match turns with
      | O => f_more
      | S turns =>
          let? command := attach_line fuel f n in
          main_loop turns fuel (command_list ++ option_list command)
      end
  end.

Definition main_run (turns fuel : nat) (test_file_lines : list string) : F unit :=
  match Parser.parse fuel test_file_lines with
  | None => f_more
  | Some (inr e) => f_raise (raised e)
  | Some (inl cs) => main_loop turns fuel ((fun '(c, n) => (Check c, n)) <$> cs)
  end.

End executor.
