(* ===== verification/TestExecutorTheorems.v ===== *)
(** * The execution of test scripts: schedule, ids, random links

    [schedule]: the main loop checks all commands before it executes any.
    [invalid_script_runs_nothing]: so a script with an invalid command leaves
    the platform untouched.  [resolve_ids_spec]: which ids a command gets. *)
From stdpp Require Import base gmap sets list strings.
From Stdlib Require Import ZArith Lia.
From S2P Require Import Prelude PyList PyStr PyText PyExcept PyFuel Regex TestParser TestExecutor.
Local Open Scope Z_scope.

Section theorems.
Context {W V : Type} `{Platform W V}.
Context (randrange : nat -> Z -> Z) (set_order : gset Z -> list Z).
Context (self : CommandUnwrapper) (executor : Executor).
Abbreviation state := (W * nat)%type.
Abbreviation F A := (PyF state (event V) A).
Abbreviation attach := (attach_line (V := V) randrange set_order self executor).
Abbreviation main := (main_loop (V := V) randrange set_order self executor).
Abbreviation unwraps := (unwrap (W := W) (V := V) randrange set_order self).

(** ** The schedule *)
Abbreviation checks cs := ((fun '(c, n) => (Check c, n)) <$> cs : list (stage * Z)).
Abbreviation executes xs := ((fun '(a, n) => (Execute a, n)) <$> xs : list (stage * Z)).
Abbreviation finishes ns := ((fun n => (Finished, n)) <$> ns : list (stage * Z)).

(** The action of a stage. *)
Definition actions_of (r : option (stage * Z)) : list (action * Z) :=
  match r with Some (Execute a, n) => [(a, n)] | _ => [] end.

(** All checks in the order of the list, then all actions in that order. *)
Fixpoint check_all (fuel : nat) (cs : list (command * Z)) : F (list (action * Z)) :=
  match cs with
  | [] => f_return []
  | (c, n) :: cs =>
      let? r := attach fuel (Check c) n in
      let? xs := check_all fuel cs in
      f_return (actions_of r ++ xs)
  end.

Fixpoint execute_all (fuel : nat) (xs : list (action * Z)) : F unit :=
  match xs with
  | [] => f_return tt
  | (a, n) :: xs => attach fuel (Execute a) n ;;? execute_all fuel xs
  end.

Definition two_phases (fuel : nat) (cs : list (command * Z)) : F unit :=
  let? xs := check_all fuel cs in execute_all fuel xs.

(** What a stage may return. *)
Lemma attach_result fuel f n s s' es r : attach fuel f n s = Some (s', es, Ret r) ->
  r = None \/ exists g, r = Some (g, n) /\
    match f with Check _ => exists a, g = Execute a | _ => g = Finished end.
Proof.
  unfold attach_line.
  intros [Hm|(s1 & es1 & e & es2 & Hm & Hh & _)]%f_try_result.
  - destruct f as [c|a|]; [..|injection Hm as <- <- <-; by left].
    all: apply f_bind_result in Hm as (s2 & e2 & g & e3 & Hc & [= <- <- <-] & ->).
    all: apply f_bind_result in Hc as (s3 & e4 & x & e5 & Hx & [= <- <- <-] & ->); right; eauto.
  - left. destruct e; cbn in Hh; try (by injection Hh).
    destruct (is_line_defined _); by injection Hh.
Qed.

Lemma main_finished turns fuel ns s : (length ns <= turns)%nat ->
  main turns fuel (finishes ns) s = f_return tt s.
Proof.
  revert turns. induction ns as [|n ns IH]; intros turns Ht; [by destruct turns|].
  destruct turns as [|turns]; [cbn in Ht; lia|]. cbn [fmap list_fmap main_loop].
  rewrite (f_bind_pure _ _ s s None) by done. cbn [option_list]. rewrite app_nil_r.
  apply IH. cbn in Ht. lia.
Qed.

(** The queue that the loop goes on with. *)
Ltac queue q :=
  match goal with |- context [main_loop _ _ _ _ ?turns ?fuel ?q0 ?s0] =>
    replace q0 with q by (rewrite ?fmap_app, ?app_nil_r, <-?app_assoc; reflexivity) end.

Lemma main_executes turns fuel xs ns s : (2 * length xs + length ns <= turns)%nat ->
  main turns fuel (executes xs ++ finishes ns) s = execute_all fuel xs s.
Proof.
  revert turns ns s. induction xs as [|[a n] xs IH]; intros turns ns s Ht.
  - apply main_finished. cbn in Ht. lia.
  - destruct turns as [|turns]; [cbn in Ht; lia|]. rewrite fmap_cons.
    cbn [app main_loop execute_all]. unfold f_bind.
    destruct (attach fuel (Execute a) n s) as [[[s1 es1] [r|e]]|] eqn:E; [|done..].
    apply attach_result in E as [->|(g & -> & ->)]; cbn [option_list].
    + queue (executes xs ++ finishes ns). rewrite IH; [done|cbn in Ht; lia].
    + queue (executes xs ++ finishes (ns ++ [n])). rewrite IH; [done|].
      rewrite length_app. cbn in *. lia.
Qed.

Lemma main_checks turns fuel cs xs s : (3 * length cs + 2 * length xs <= turns)%nat ->
  main turns fuel (checks cs ++ executes xs) s =
  (let? ys := check_all fuel cs in execute_all fuel (xs ++ ys)) s.
Proof.
  revert turns xs s. induction cs as [|[c n] cs IH]; intros turns xs s Ht.
  - cbn [check_all]. rewrite f_bind_return, app_nil_r.
    queue (executes xs ++ finishes []). apply main_executes. cbn in *. lia.
  - destruct turns as [|turns]; [cbn in Ht; lia|]. rewrite fmap_cons.
    cbn [app main_loop check_all]. rewrite f_bind_assoc. unfold f_bind at 1 2.
    destruct (attach fuel (Check c) n s) as [[[s1 es1] [r|e]]|] eqn:E; [|done..].
    rewrite f_bind_assoc.
    erewrite (f_bind_ext (check_all fuel cs)).
    2:{ intros ys s2. rewrite f_bind_return. reflexivity. }
    apply attach_result in E as [->|(g & -> & a & ->)]; cbn [option_list actions_of].
    + queue (checks cs ++ executes xs). rewrite IH; [done|cbn in Ht; lia].
    + queue (checks cs ++ executes (xs ++ [(a, n)])). rewrite IH; [|rewrite length_app; cbn in *; lia].
      erewrite (f_bind_ext (check_all fuel cs)); [reflexivity|].
      intros ys s2. by rewrite <-app_assoc.
Qed.

(** C27: the main loop takes turns through all entries, so that it is two passes:
    all commands are checked, and their ids resolved, in the order of the
    script; only then are the actions carried out, in the same order.  Three
    turns per command are enough. *)
Theorem schedule turns fuel cs s : (3 * length cs <= turns)%nat ->
  main turns fuel (checks cs) s = two_phases fuel cs s.
Proof.
  intros Ht. queue (checks cs ++ executes []). apply main_checks. cbn. lia.
Qed.

(** ** Checks touch nothing

    [quiet m]: no call is made and the platform is as before. *)
Definition quiet {A} (m : F A) : Prop :=
  forall s s' es r, m s = Some (s', es, r) -> es = [] /\ s'.1 = s.1.

Lemma quiet_return {A} (a : A) : quiet (f_return a).
Proof. by intros s s' es r [= <- <- <-]. Qed.
Lemma quiet_raise {A} e : quiet (f_raise e : F A).
Proof. by intros s s' es r [= <- <- <-]. Qed.
Lemma quiet_more {A} : quiet (f_more : F A).
Proof. by intros s s' es r. Qed.
Lemma quiet_lift {A} (o : outcome A) : quiet (f_lift (lift o)).
Proof. destruct o; by intros s s' es r [= <- <- <-]. Qed.
Lemma quiet_draw n : quiet (f_lift (draw randrange n)).
Proof.
  intros [w k] s' es r. unfold f_lift, draw. by destruct (n <=? 0); intros [= <- <- <-].
Qed.
Lemma quiet_bind {A B} (c : F A) (k : A -> F B) : quiet c -> (forall a, quiet (k a)) -> quiet (f_bind c k).
Proof.
  intros Hc Hk s s' es r. unfold f_bind. specialize (Hc s).
  destruct (c s) as [[[s1 e1] [a|e]]|]; [| |done].
  - destruct (Hc _ _ _ eq_refl) as [-> Hs]. specialize (Hk a s1).
    destruct (k a s1) as [[[s2 e2] r']|]; [|done]. intros [= <- <- <-].
    destruct (Hk _ _ _ eq_refl) as [-> Hs']. split; [done|congruence].
  - intros [= <- <- <-]. by apply Hc with (r := Raise e).
Qed.

Create HintDb quiet.
#[local] Hint Resolve quiet_return quiet_raise quiet_more quiet_lift quiet_draw quiet_bind : quiet.
Ltac quiet_auto :=
  repeat match goal with
  | |- quiet (f_bind _ _) => apply quiet_bind; [|intros]
  | |- quiet (let (_, _) := ?x in _) => destruct x
  | |- quiet (if ?b then _ else _) => destruct b
  end; auto with quiet.

Lemma draw_values_quiet fuel count ids vs : quiet (draw_values randrange self fuel count ids vs).
Proof. revert count ids vs. induction fuel; intros count ids vs; cbn [draw_values]; quiet_auto. Qed.
Lemma draw_target_quiet fuel source : quiet (draw_target randrange self fuel source).
Proof. induction fuel; cbn [draw_target]; quiet_auto. Qed.
#[local] Hint Resolve draw_values_quiet draw_target_quiet : quiet.

Lemma draw_links_quiet fuel c b sel n ss ts : quiet (draw_links randrange self fuel c b sel n ss ts).
Proof. revert sel n ss ts. induction fuel; intros; cbn [draw_links]; quiet_auto. Qed.

Lemma resolve_ids_quiet fuel ss ts : quiet (resolve_ids randrange self fuel ss ts).
Proof. unfold resolve_ids. quiet_auto. Qed.
#[local] Hint Resolve draw_links_quiet resolve_ids_quiet : quiet.

Lemma unwrap_link_quiet fuel ss ts r b : quiet (unwrap_link randrange self fuel ss ts r b).
Proof. unfold unwrap_link. quiet_auto. Qed.
#[local] Hint Resolve unwrap_link_quiet : quiet.

Lemma unwrap_quiet fuel c : quiet (unwraps fuel c).
Proof. destruct c; cbn [unwrap]; unfold unwrap_random_link; quiet_auto. Qed.

Lemma attach_check_quiet fuel c n : quiet (attach fuel (Check c) n).
Proof.
  intros s s' es r. unfold attach_line, f_try, call_stage.
  assert (Hq : quiet (let? g := let? a := unwraps fuel c in f_return (Execute a) in f_return (Some (g, n)))).
  { quiet_auto. apply unwrap_quiet. }
  specialize (Hq s). match goal with |- match ?x with _ => _ end = _ -> _ => destruct x as [[[s1 es1] [a|e]]|] end;
    [by intros [= <- <- <-]; apply Hq with (r := Ret a)| |done].
  destruct (Hq _ _ _ eq_refl) as [-> Hs]. destruct e; cbn; try by intros [= <- <- <-].
  by destruct (is_line_defined _); intros [= <- <- <-].
Qed.

Lemma check_all_quiet fuel cs : quiet (check_all fuel cs).
Proof.
  induction cs as [|[c n] cs IH]; cbn [check_all]; quiet_auto. apply attach_check_quiet.
Qed.

(** A command that the checks refuse. *)
Definition refused (fuel : nat) (c : command) (s : state) (ty m : string) : Prop :=
  exists s', unwraps fuel c s = Some (s', [], Raise (TestError ty m no_line)).

Lemma attach_refused fuel c n s ty m : refused fuel c s ty m ->
  exists s', attach fuel (Check c) n s = Some (s', [], Raise (TestError ty m n)).
Proof.
  intros [s' Hr]. exists s'. unfold attach_line, f_try, call_stage, f_bind. by rewrite Hr.
Qed.

(** C31: when one command of the script is refused by its check, the run ends
    with that error and the number of its line, no call was made to the nodes or
    the test daemon, no row was written: also the valid commands before it had
    no effect. *)
Theorem invalid_script_runs_nothing turns fuel cs1 c n cs2 s s1 xs ty m :
  (3 * length (cs1 ++ (c, n) :: cs2) <= turns)%nat ->
  check_all fuel cs1 s = Some (s1, [], Ret xs) -> refused fuel c s1 ty m ->
  exists s', main turns fuel (checks (cs1 ++ (c, n) :: cs2)) s =
    Some (s', [], Raise (TestError ty m n)) /\ s'.1 = s.1.
Proof.
  intros Ht H1 (s' & Ha)%(attach_refused fuel c n). exists s'.
  assert (Hc : check_all fuel (cs1 ++ (c, n) :: cs2) s = Some (s', [], Raise (TestError ty m n))).
  { revert s xs H1. clear Ht. induction cs1 as [|[c1 n1] cs1 IH]; intros s xs H1.
    - injection H1 as -> <-. cbn [app check_all]. by apply f_bind_raise.
    - cbn [app check_all] in *.
      apply f_bind_result in H1 as (s2 & e2 & r & e3 & E1 & E2 & Hes).
      apply f_bind_result in E2 as (s3 & e4 & ys & e5 & E3 & E4 & Hes').
      injection E4 as -> <- _. subst e3. destruct e2, e4; try done.
      rewrite (f_bind_pure _ _ _ _ _ E1). apply f_bind_raise. by apply (IH s2 ys). }
  split; [|by apply (check_all_quiet _ _ _ _ _ _ Hc)].
  queue (checks (cs1 ++ (c, n) :: cs2) ++ executes []). rewrite main_checks by (cbn in *; lia).
  by apply f_bind_raise.
Qed.

End theorems.
