(* ===== verification/TestIds.v ===== *)
(** * The node ids of a command

    [resolve_ids_spec]: which sets of nodes "all", "rand" and numbers stand for.
    [resolve_ids_ends]: with a fair random generator the drawing ends.
    [random_links_do_nothing], [random_links_hang]: the command "on n
    connections" never changes a link. *)
From stdpp Require Import base gmap sets list strings.
From Stdlib Require Import ZArith Lia.
From S2P Require Import Prelude PyList PyStr PyText PyExcept PyFuel Regex TestParser TestExecutor TestExecutorTheorems.
Local Open Scope Z_scope.

(** ** Tokens *)
Definition id_of (t : string) : option Z := if py_isdigit t then py_int t else None.
(** The ids that a list of tokens names, and how often it says "rand". *)
Definition named (ts : list string) : gset Z := list_to_set (omap id_of ts).
Fixpoint rand_count (ts : list string) : nat :=
  match ts with [] => 0%nat | t :: ts => (if String.eqb t "rand" then 1 else 0) + rand_count ts end%nat.
Definition all_ids (n : Z) : gset Z := list_to_set (seqZ 1 n).
(** The ids that a list stands for, when its "rand"s are [rs]. *)
Definition picks (n : Z) (ts : list string) (rs : list Z) : gset Z :=
  named ts ∪ list_to_set rs ∪ (if bool_decide ("all" ∈ ts) then all_ids n else ∅).

Lemma digit_range a z : digit a = Some z -> 0 <= z < 10.
Proof.
  unfold digit. set (x := Z.of_N (Ascii.N_of_ascii a) - 48).
  destruct (Z.leb_spec 0 x), (Z.ltb_spec x 10); cbn; by intros [= <-].
Qed.

Lemma digits_from_some acc s : 0 <= acc -> py_all is_digit s = true ->
  exists z, digits_from acc s = Some z /\ 0 <= z.
Proof.
  revert acc. induction s as [|a s IH]; intros acc Ha Hs; [by exists acc|].
  cbn in Hs. apply andb_true_iff in Hs as [Hd Hs]. unfold is_digit in Hd.
  destruct (digit a) as [z|] eqn:E; [|done]. apply digit_range in E as Hz.
  cbn [digits_from]. rewrite E. apply IH; [lia|done].
Qed.

Lemma isdigit_int t : py_isdigit t = true -> exists z, py_int t = Some z /\ 0 <= z.
Proof.
  intros Ht. rewrite py_int_digits by done. unfold digits.
  destruct t as [|a t]; [done|]. apply digits_from_some; [lia|done].
Qed.

Lemma isdigit_not_rand t : py_isdigit t = true -> String.eqb t "rand" = false.
Proof. intros Ht. destruct (String.eqb_spec t "rand") as [->|]; [done|done]. Qed.
Lemma isdigit_not_all t : py_isdigit t = true -> t <> "all".
Proof. by intros Ht ->. Qed.

Lemma id_of_digit t : py_isdigit t = true -> exists z, id_of t = Some z /\ py_int3 t = Ret z /\ 0 <= z.
Proof.
  intros Ht. destruct (isdigit_int t Ht) as (z & Hz & Hp). exists z.
  unfold id_of, py_int3. by rewrite Ht, Hz.
Qed.

Lemma named_cons t ts : named (t :: ts) = match id_of t with Some z => {[ z ]} | None => ∅ end ∪ named ts.
Proof. unfold named. cbn. destruct (id_of t); set_solver. Qed.

Lemma named_app ts ts' : named (ts ++ ts') = named ts ∪ named ts'.
Proof. unfold named. rewrite omap_app. by rewrite list_to_set_app_L. Qed.

Lemma rand_count_app ts ts' : rand_count (ts ++ ts') = (rand_count ts + rand_count ts')%nat.
Proof. induction ts as [|t ts IH]; cbn; [done|]. rewrite IH. lia. Qed.

Lemma named_nonneg ts i : i ∈ named ts -> 0 <= i.
Proof.
  unfold named. rewrite elem_of_list_to_set, list_elem_of_omap. intros (t & _ & Ht).
  unfold id_of in Ht. destruct (py_isdigit t) eqn:E; [|done].
  destruct (isdigit_int t E) as (z & Hz & Hp). congruence.
Qed.

Section ids.
Context {W V : Type} `{Platform W V}.
Context (randrange : nat -> Z -> Z) (self : CommandUnwrapper).
Abbreviation n := (nodes_number self).
Abbreviation state := (W * nat)%type.
Abbreviation F A := (PyF state (event V) A).

Lemma count_ids_spec ts ids k :
  count_ids (Str <$> ts) ids k = Ret (named ts ∪ ids, k + Z.of_nat (rand_count ts)).
Proof.
  revert ids k. induction ts as [|t ts IH]; intros ids k.
  - cbn. f_equal. f_equal; first [lia | set_solver].
  - cbn [fmap list_fmap count_ids isdigit is_str to_int rand_count]. cbn [mbind outcome_bind].
    rewrite named_cons. destruct (py_isdigit t) eqn:Ed.
    + destruct (id_of_digit t Ed) as (z & Hz & Hi & _). rewrite Hz, Hi. cbn [mbind outcome_bind].
      rewrite isdigit_not_rand by done. pose proof (IH ({[z]} ∪ ids) k) as E. cbn [fmap] in E. rewrite E.
      f_equal. f_equal; first [lia | set_solver].
    + unfold id_of. rewrite Ed. cbn [mbind outcome_bind].
      destruct (String.eqb t "rand").
      * pose proof (IH ids (k + 1)) as E. cbn [fmap] in E. rewrite E. f_equal. f_equal; first [lia | set_solver].
      * pose proof (IH ids k) as E. cbn [fmap] in E. rewrite E. f_equal. f_equal; first [lia | set_solver].
Qed.

Lemma resolve_spec ts rs X Y rs' : resolve self (Str <$> ts) rs X = Ret (Y, rs') ->
  (rand_count ts <= length rs)%nat /\ rs' = drop (rand_count ts) rs /\
  Y = X ∪ picks n ts (take (rand_count ts) rs) /\ (forall i, i ∈ named ts -> i <= n).
Proof.
  revert rs X. induction ts as [|t ts IH]; intros rs X.
  - cbn. intros [= <- <-]. split; [lia|]. split; [done|]. split; [|unfold named; set_solver]. unfold picks, named. cbn. set_solver.
  - cbn [fmap list_fmap resolve isdigit is_str to_int text rand_count]. cbn [mbind outcome_bind].
    destruct (py_isdigit t) eqn:Ed.
    + destruct (id_of_digit t Ed) as (z & Hz & Hi & _). rewrite Hi. cbn [mbind outcome_bind].
      destruct (Z.ltb_spec n z); [done|]. rewrite isdigit_not_rand by done.
      intros (Hl & -> & -> & Hn)%IH. split; [done|]. split; [done|]. split.
      * unfold picks. rewrite named_cons, Hz.
        pose proof (isdigit_not_all t Ed).
        rewrite (bool_decide_ext ("all" ∈ t :: ts) ("all" ∈ ts)) by set_solver.
        case_bool_decide; cbn; set_solver.
      * intros i. rewrite named_cons, Hz. set_solver by lia.
    + destruct (String.eqb_spec t "rand") as [->|Hr].
      * destruct rs as [|r rs]; [done|]. intros (Hl & -> & -> & Hn)%IH. cbn [Nat.add].
        split; [cbn; lia|]. split; [done|]. split; [|intros i; rewrite named_cons; set_solver].
        unfold picks. rewrite named_cons.
        rewrite (bool_decide_ext ("all" ∈ "rand" :: ts) ("all" ∈ ts)) by set_solver.
        cbn [take]. rewrite list_to_set_cons. cbn. set_solver.
      * destruct (String.eqb_spec t "all") as [->|Ha]; [|done].
        intros (Hl & -> & -> & Hn)%IH. cbn [Nat.add]. split; [done|]. split; [done|].
        split; [|intros i; rewrite named_cons; set_solver].
        unfold picks. rewrite named_cons, (bool_decide_eq_true_2 ("all" ∈ "all" :: ts)) by set_solver.
        cbn [id_of py_isdigit]. unfold all_ids. case_bool_decide; cbn; set_solver.
Qed.

Lemma lift_result {A} (o : outcome A) (s s' : state) (es : list (event V)) a :
  f_lift (lift o) s = Some (s', es, Ret a) -> o = Ret a /\ s' = s /\ es = [].
Proof. destruct o; by intros [= <- <- <-]. Qed.

(** Random numbers are in the range. *)
Context (Hrange : forall k m, 0 < m -> 0 <= randrange k m < m).

Lemma draw_spec m (s s' : state) es r : draw (V := V) randrange m s = (s', es, Ret r) ->
  0 <= r < m /\ s' = (s.1, S s.2) /\ es = [] /\ r = randrange s.2 m.
Proof.
  destruct s as [w k]. unfold draw. destruct (Z.leb_spec m 0); [done|].
  intros [= <- <- <-]. by split; [apply Hrange|].
Qed.

Lemma draw_values_spec fuel k ids vs (s s' : state) es rs :
  draw_values (V := V) randrange self fuel k ids vs s = Some (s', es, Ret rs) ->
  exists new, rs = vs ++ new /\ length new = Z.to_nat k /\ NoDup new /\
    forall r, r ∈ new -> 1 <= r <= n /\ r ∉ ids.
Proof.
  revert k ids vs s s' es. induction fuel as [|fuel IH]; intros k ids vs s s' es.
  - cbn. destruct (Z.leb_spec k 0); [|done]. intros [= <- <- <-].
    exists []. rewrite app_nil_r. repeat split; [cbn; lia|constructor|set_solver..].
  - cbn [draw_values]. destruct (Z.leb_spec k 0).
    { intros [= <- <- <-]. exists []. rewrite app_nil_r. repeat split; [cbn; lia|constructor|set_solver..]. }
    intros (s1 & es1 & r & es2 & Hd & Hk & _)%f_bind_result. injection Hd as Hd.
    apply draw_spec in Hd as (Hr & _). destruct (bool_decide_reflect (r + 1 ∈ ids)) as [Hin|Hin].
    + by apply IH in Hk.
    + apply IH in Hk as (new & -> & Hlen & Hnd & Hnew). exists (r + 1 :: new).
      split; [by rewrite <-app_assoc|]. split; [cbn; lia|]. split.
      * constructor; [|done]. intros Hbad. destruct (Hnew _ Hbad). set_solver.
      * intros x [->|Hx]%elem_of_cons; [split; [lia|done]|]. destruct (Hnew _ Hx). set_solver.
Qed.

(** The ids of a command: there are as many different random nodes as
    "rand"s, none of them named by the command; sources and targets are the named
    ids, their share of the random ones, and all nodes if "all" is said; no id
    exceeds the number of nodes.  (An id 0 passes.) *)
Theorem resolve_ids_spec fuel sources targets (s s' : state) es S T :
  resolve_ids (V := V) randrange self fuel (Str <$> sources) (Str <$> targets) s =
    Some (s', es, Ret (S, T)) ->
  exists rs, NoDup rs /\ length rs = (rand_count sources + rand_count targets)%nat /\
    (forall r, r ∈ rs -> 1 <= r <= n /\ r ∉ named sources ∪ named targets) /\
    S = picks n sources (take (rand_count sources) rs) /\
    T = picks n targets (drop (rand_count sources) rs) /\
    forall i, i ∈ S ∪ T -> 0 <= i <= n.
Proof.
  unfold resolve_ids. rewrite <-fmap_app, count_ids_spec, (f_bind_pure _ _ s s _ eq_refl).
  case_match; [done|].
  intros (s1 & es1 & vs & es2 & Hd & (s2 & es3 & [X rs1] & es4 & H1 & Hk & _)%f_bind_result & _)%f_bind_result.
  apply f_bind_result in Hk as (s3 & es5 & [Y rs2] & es6 & H2 & [= <- _ <- <-] & _).
  apply draw_values_spec in Hd as (rs & -> & Hlen & Hnd & Hrs).
  apply lift_result in H1 as (HX & _ & _). apply lift_result in H2 as (HY & _ & _).
  apply resolve_spec in HX as (Hl1 & -> & -> & Hn1).
  apply resolve_spec in HY as (Hl2 & -> & -> & Hn2).
  rewrite named_app in Hrs. cbn [app] in *. rewrite length_drop in Hl2.
  rewrite rand_count_app in Hlen.
  exists rs. split; [done|]. split; [lia|]. split; [set_solver|].
  rewrite !union_empty_l_L. split; [done|].
  rewrite (take_ge (drop _ rs)) by (rewrite length_drop; lia). split; [done|].
  intros i. unfold picks, all_ids.
  assert (Hall : forall b : bool, i ∈ (if b then list_to_set (seqZ 1 n) else ∅ : gset Z) -> 0 <= i <= n).
  { intros []; [|set_solver]. rewrite elem_of_list_to_set, elem_of_seqZ. lia. }
  rewrite !elem_of_union, !elem_of_list_to_set.
  intros [[[Hi|Hi]|Hi]|[[Hi|Hi]|Hi]]; try (by eapply Hall).
  - split; [by eapply named_nonneg|auto].
  - apply elem_of_take in Hi as (j & Hi & _). apply list_elem_of_lookup_2 in Hi. destruct (Hrs i Hi). lia.
  - split; [by eapply named_nonneg|auto].
  - apply list_elem_of_lookup in Hi as (j & Hi). rewrite lookup_drop in Hi.
    apply list_elem_of_lookup_2 in Hi. destruct (Hrs i Hi). lia.
Qed.

(** ** Termination of the drawing *)
Lemma size_all_ids : size (all_ids n) = Z.to_nat n.
Proof.
  unfold all_ids. rewrite size_list_to_set by apply NoDup_seqZ. apply length_seqZ.
Qed.

(** Every number comes again and again. *)
Definition fair : Prop :=
  forall k i, 0 <= i < n -> exists k', (k <= k')%nat /\ randrange k' n = i.

Lemma free_id_exists (ids : gset Z) : Z.of_nat (size ids) < n -> exists i, 1 <= i <= n /\ i ∉ ids.
Proof.
  intros Hs. destruct (decide (all_ids n ⊆ ids)) as [Hsub|Hsub].
  - apply subseteq_size in Hsub. rewrite size_all_ids in Hsub. lia.
  - assert (exists i, i ∈ all_ids n ∖ ids) as [i Hi].
    { apply set_choose_L. intros He. apply Hsub. intros x Hx.
      destruct (decide (x ∈ ids)); [done|]. set_solver. }
    exists i. apply elem_of_difference in Hi as [Hi Hni]. split; [|done].
    unfold all_ids in Hi. rewrite elem_of_list_to_set, elem_of_seqZ in Hi. lia.
Qed.

Lemma draw_values_ends (Hf : fair) k ids vs (s : state) : Z.of_nat (size ids) + k <= n ->
  exists fuel r, draw_values (V := V) randrange self fuel k ids vs s = Some r.
Proof.
  remember (Z.to_nat k) as m eqn:Em. revert k ids vs s Em.
  induction m as [|m IH]; intros k ids vs s Em Hs.
  { exists 0%nat. cbn. rewrite (proj2 (Z.leb_le k 0)) by lia. eauto. }
  destruct (free_id_exists ids) as (i & Hi & Hni); [lia|].
  destruct (Hf s.2 (i - 1)) as (k' & Hk & Hr); [lia|].
  remember (k' - s.2)%nat as d eqn:Ed. revert s Hk Ed.
  induction d as [|d IHd]; intros [w j] Hk Ed; cbn [snd] in *.
  all: destruct (decide (randrange j n + 1 ∈ ids)) as [Hin|Hin].
  all: try (assert (Hne : j <> k') by (intros ->; rewrite Hr in Hin; by replace (i - 1 + 1) with i in Hin by lia)).
  all: try lia.
  2: destruct (IHd (w, S j)) as (fuel & r & Hfu); [cbn [snd]; lia..|].
  1,3: destruct (IH (k - 1) ({[ randrange j n + 1 ]} ∪ ids) (vs ++ [randrange j n + 1]) (w, S j))
      as (fuel & r & Hfu); [lia|rewrite size_union, size_singleton by set_solver; lia|].
  all: exists (S fuel); cbn [draw_values]; rewrite (proj2 (Z.leb_gt k 0)) by lia.
  all: rewrite (f_bind_pure _ _ (w, j) (w, S j) (randrange j n))
    by (unfold f_lift, draw; rewrite (proj2 (Z.leb_gt n 0)) by lia; done).
  all: rewrite ?(bool_decide_eq_true_2 (randrange j n + 1 ∈ ids)) by done.
  all: rewrite ?(bool_decide_eq_false_2 (randrange j n + 1 ∈ ids)) by done.
  all: eauto.
Qed.

(** If the random generator is fair, resolving the ids of a command ends,
    with sets of ids or an exception. *)
Theorem resolve_ids_ends sources targets (s : state) : fair ->
  exists fuel r, resolve_ids (V := V) randrange self fuel (Str <$> sources) (Str <$> targets) s = Some r.
Proof.
  intros Hf. unfold resolve_ids.
  rewrite <-fmap_app, count_ids_spec. set (named _ ∪ ∅) as ids. set (0 + _) as k.
  destruct (Z.ltb_spec n (Z.of_nat (size ids) + k)) as [Hlt|Hle].
  - exists 0%nat. rewrite (f_bind_pure _ _ s s _ eq_refl). rewrite (proj2 (Z.ltb_lt _ _)) by done. by eexists.
  - destruct (draw_values_ends Hf k ids [] s) as (fuel & [[s1 es1] r] & Hd); [lia|].
    exists fuel. rewrite (f_bind_pure _ _ s s _ eq_refl). rewrite (proj2 (Z.ltb_ge _ _)) by done.
    eapply f_bind_some; [exact Hd|]. intros vs s2.
    eapply f_bind_some; [reflexivity|]. intros [X rs1] s3.
    eapply f_bind_some; [reflexivity|]. intros [Y rs2] s4. by eexists.
Qed.

(** ** More links than there are *)
Context (set_order : gset Z -> list Z).

Definition link (a b : Z) : string := py_str a +:+ "-" +:+ py_str b.
Definition links : gset string :=
  list_to_set (mjoin ((fun a => link a <$> elements (all_ids n ∖ {[ a ]})) <$> elements (all_ids n))).

Lemma length_mjoin_le {A B} (f : A -> list B) (l : list A) m :
  (forall a, a ∈ l -> length (f a) <= m)%nat -> (length (mjoin (f <$> l)) <= length l * m)%nat.
Proof.
  induction l as [|a l IH]; intros Hm; [cbn; lia|].
  pose proof (Hm a ltac:(left)).
  assert (length (mjoin (f <$> l)) <= length l * m)%nat
    by (apply IH; intros x Hx; apply Hm; by right).
  rewrite fmap_cons. cbn [mjoin list_join length]. rewrite length_app. by apply Nat.add_le_mono.
Qed.

Lemma size_list_to_set_le (l : list string) : (size (list_to_set l : gset string) <= length l)%nat.
Proof.
  induction l as [|x l IH]; [done|]. rewrite list_to_set_cons. cbn [length].
  destruct (decide (x ∈ (list_to_set l : gset string))).
  - rewrite subseteq_union_1_L by set_solver. lia.
  - rewrite size_union, size_singleton by set_solver. lia.
Qed.

Lemma elem_of_all_ids i : i ∈ all_ids n <-> 1 <= i <= n.
Proof. unfold all_ids. rewrite elem_of_list_to_set, elem_of_seqZ. lia. Qed.

Lemma size_links : 1 <= n -> Z.of_nat (size links) <= n * (n - 1).
Proof.
  intros Hn. unfold links.
  transitivity (Z.of_nat (length (elements (all_ids n)) * Z.to_nat (n - 1))).
  - apply inj_le. etransitivity; [apply size_list_to_set_le|]. apply length_mjoin_le.
    intros a Ha. rewrite length_fmap. change (length (elements ?X)) with (size X).
    rewrite elem_of_elements in Ha. rewrite size_difference by set_solver.
    rewrite size_singleton, size_all_ids. lia.
  - change (length (elements ?X)) with (size X). rewrite size_all_ids. nia.
Qed.

Lemma elem_of_links a b : 1 <= a <= n -> 1 <= b <= n -> a <> b -> link a b ∈ links.
Proof.
  intros Ha Hb Hne. unfold links. rewrite elem_of_list_to_set. apply list_elem_of_join.
  exists (link a <$> elements (all_ids n ∖ {[ a ]})). split.
  - apply list_elem_of_fmap_2. apply elem_of_elements, elem_of_difference.
    rewrite elem_of_all_ids. set_solver.
  - apply list_elem_of_fmap. exists a. split; [done|]. by apply elem_of_elements, elem_of_all_ids.
Qed.

Lemma draw_lift (s : state) : 1 <= n ->
  exists r, 0 <= r < n /\ f_lift (draw (V := V) randrange n) s = Some ((s.1, S s.2), [], Ret r).
Proof.
  intros Hn. exists (randrange s.2 n). split; [apply Hrange; lia|].
  destruct s as [w k]. unfold f_lift, draw. by rewrite (proj2 (Z.leb_gt n 0)) by lia.
Qed.

Lemma draw_target_spec fuel source (s : state) x : 1 <= n ->
  draw_target (V := V) randrange self fuel source s = Some x ->
  exists t, x.2 = Ret t /\ 1 <= t <= n /\ t <> source.
Proof.
  intros Hn. revert s x. induction fuel as [|fuel IH]; intros s x; [done|]. cbn [draw_target].
  destruct (draw_lift s Hn) as (r & Hr & Hd). rewrite (f_bind_pure _ _ _ _ _ Hd).
  destruct (Z.eqb_spec (r + 1) source); [apply IH|]. intros [= <-]. exists (r + 1). split; [done|lia].
Qed.

Lemma draw_links_hangs fuel c b sel k ss ts (s : state) : 1 <= n -> n * (n - 1) < c ->
  sel ⊆ links -> k <= Z.of_nat (size sel) ->
  draw_links (V := V) randrange self fuel c b sel k ss ts s = None.
Proof.
  intros Hn Hc. revert sel k ss ts s. induction fuel as [|fuel IH]; intros sel k ss ts s Hsub Hk.
  all: assert (k < c) by (pose proof (size_links Hn); pose proof (subseteq_size _ _ Hsub); lia).
  all: cbn [draw_links]; rewrite (proj2 (Z.leb_gt c k)) by done. { done. }
  destruct (draw_lift s Hn) as (r & Hr & Hd). rewrite (f_bind_pure _ _ _ _ _ Hd).
  unfold f_bind. destruct (draw_target _ _ _ _ _) as [[[s1 es1] x]|] eqn:Et; [|done].
  apply draw_target_spec in Et as (t & Hx & Ht & Hne); [|done]. cbn in Hx. subst x.
  change (py_str (r + 1) +:+ "-" +:+ py_str t) with (link (r + 1) t).
  change (py_str t +:+ "-" +:+ py_str (r + 1)) with (link t (r + 1)).
  assert (H1 : link (r + 1) t ∈ links) by (apply elem_of_links; lia).
  assert (H2 : link t (r + 1) ∈ links) by (apply elem_of_links; lia).
  case_bool_decide as Hin; [by rewrite IH|].
  rewrite IH; [done| |].
  - destruct b; set_solver.
  - transitivity (Z.of_nat (size ({[ link (r + 1) t ]} ∪ sel))).
    + rewrite size_union, size_singleton by set_solver. lia.
    + apply inj_le, subseteq_size. destruct b; set_solver.
Qed.

(** Asked for more connections than there are, the check never ends. *)
Theorem random_links_hang fuel c rule b (s : state) : 1 <= n -> n * (n - 1) < c ->
  unwrap (V := V) randrange set_order self fuel (modify_random_link c rule b) s = None.
Proof.
  intros Hn Hc. cbn [unwrap]. unfold unwrap_random_link, f_bind. by rewrite draw_links_hangs.
Qed.

(** ** Random links *)
Context (Horder : forall X, set_order X ≡ₚ elements X).

Lemma draw_links_spec fuel c b sel k ss ts (s s' : state) es S T :
  draw_links (V := V) randrange self fuel c b sel k ss ts s = Some (s', es, Ret (S, T)) ->
  k < c \/ ss <> ∅ -> S <> ∅.
Proof.
  revert sel k ss ts s es. induction fuel as [|fuel IH]; intros sel k ss ts s es; cbn [draw_links].
  - destruct (Z.leb_spec c k); [|done]. intros [= <- <- <- <-]. intros [?|?]; [lia|done].
  - destruct (Z.leb_spec c k); [intros [= <- <- <- <-]; intros [?|?]; [lia|done]|].
    intros (s1 & es1 & r & es2 & _ & (s2 & es3 & t & es4 & _ & Hk & _)%f_bind_result & _)%f_bind_result _.
    case_bool_decide; apply IH in Hk; [done|by left|done|].
    right. intros He. assert (r + 1 ∈ ({[r + 1]} ∪ ss)) by set_solver. set_solver.
Qed.

Lemma draw_error m (s s' : state) es e : draw (V := V) randrange m s = (s', es, Raise e) -> e = ValueError.
Proof. destruct s as [w k]. unfold draw. destruct (m <=? 0); [by intros [= <- <- <-]|done]. Qed.

Lemma draw_target_error fuel source (s s' : state) es e :
  draw_target (V := V) randrange self fuel source s = Some (s', es, Raise e) -> e = ValueError.
Proof.
  revert s es. induction fuel as [|fuel IH]; intros s es; [done|]. cbn [draw_target].
  intros [Hd|(s1 & es1 & r & es2 & Hd & Hk & _)]%f_bind_error.
  - injection Hd as Hd. by apply draw_error in Hd.
  - destruct (r + 1 =? source); [by apply IH in Hk|done].
Qed.

Lemma draw_links_error fuel c b sel k ss ts (s s' : state) es e :
  draw_links (V := V) randrange self fuel c b sel k ss ts s = Some (s', es, Raise e) -> e = ValueError.
Proof.
  revert sel k ss ts s es. induction fuel as [|fuel IH]; intros sel k ss ts s es; cbn [draw_links].
  - by destruct (Z.leb_spec c k).
  - destruct (Z.leb_spec c k); [done|].
    intros [Hd|(s1 & es1 & r & es2 & _ & [Ht|(s2 & es3 & t & es4 & _ & Hk & _)]%f_bind_error & _)]%f_bind_error.
    + injection Hd as Hd. by apply draw_error in Hd.
    + by apply draw_target_error in Ht.
    + case_bool_decide; by apply IH in Hk.
Qed.

(** The ids are numbers, and a number has no isdigit. *)
Lemma unwrap_ints fuel S T r b (s : state) : S <> ∅ ->
  unwrap_link (V := V) randrange self fuel (Int <$> set_order S) (Int <$> set_order T) r b s =
    Some (s, [], Raise AttributeError).
Proof.
  intros HS. unfold unwrap_link, resolve_ids.
  destruct (set_order S) as [|x l] eqn:E.
  { exfalso. apply HS, leibniz_equiv, elements_empty_inv.
    pose proof (Horder S) as Hp. rewrite E in Hp. by apply Permutation_nil_l in Hp as <-. }
  done.
Qed.

(** A command "on n connections", n positive, never disturbs a link: where
    its check ends it ends in an exception that [attach_line] swallows, no call is
    made and the entry is dropped. *)
Theorem random_links_do_nothing executor fuel c rule b line (s s' : state) es r :
  0 < c ->
  attach_line (V := V) randrange set_order self executor fuel (Check (modify_random_link c rule b)) line s =
    Some (s', es, r) ->
  r = Ret None /\ es = [] /\ s'.1 = s.1.
Proof.
  intros Hc Ha. split; [|by apply (attach_check_quiet _ _ _ _ _ _ _ _ _ _ _ Ha)].
  revert Ha. unfold attach_line, f_try, call_stage, unwrap, unwrap_random_link.
  destruct (draw_links (V := V) randrange self fuel c b ∅ 0 ∅ ∅ s) as [[[s1 es1] [[S T]|e]]|] eqn:Ed.
  - assert (HS : S <> ∅) by (eapply draw_links_spec; [exact Ed|by left]).
    unfold f_bind. rewrite Ed, unwrap_ints by done. cbn. by intros [= _ _ <-].
  - assert (e = ValueError) as -> by (by eapply draw_links_error).
    unfold f_bind. rewrite Ed. cbn. by intros [= _ _ <-].
  - unfold f_bind. by rewrite Ed.
Qed.

End ids.
