(* ===== verification/TestCluster.v ===== *)
(** * The executor on a cluster of network managers

    The remote calls of the executor answered by the network managers of
    NetworkManager.v: [cluster] is an instance of [Platform].  A link command
    then becomes the traffic-control commands of its links, up to the first that
    is not silent ([link_reaches_tc]).  The shell that runs them is a parameter.
    The demonstration nodes at the end are the witnesses of
    the executor's theorems. *)
From stdpp Require Import base gmap sets list strings.
From Stdlib Require Import ZArith Lia.
From S2P Require Import Prelude PyList PyStr PyText PyExcept PyFuel Regex TestParser NetworkManager NetworkManagerTheorems TestExecutor TestExecutorTheorems TestIds.
Local Open Scope Z_scope.

(** ** The calls of a link command *)
Section calls.
Context {W V : Type} `{Platform W V} (set_order : gset Z -> list Z).
Abbreviation M A := (PyM (W * nat) (event V) A).

(** The connections that are changed for a pair, and for sets of nodes. *)
Definition pair_calls (b : bool) (s t : Z) : list (Z * Z) :=
  if s =? t then [] else (s, t) :: if b then [(t, s)] else [].
Definition link_calls (b : bool) (S T : gset Z) : list (Z * Z) :=
  mjoin ((fun s => mjoin (pair_calls b s <$> set_order T)) <$> set_order S).

Definition modify_call (rule : string) (c : Z * Z) : M unit :=
  let! ok := rpc (Modify (py_str c.1) (py_str c.2) rule)
               (rpc_modify_outgoing_connection (py_str c.1) (py_str c.2) rule) in
  if (ok : bool) then py_return tt else netem_error rule.

Lemma str_eqb a b : String.eqb (py_str a) (py_str b) = (a =? b).
Proof.
  destruct (String.eqb_spec (py_str a) (py_str b)) as [E|E].
  - apply py_str_inj in E as ->. by rewrite Z.eqb_refl.
  - destruct (Z.eqb_spec a b); congruence.
Qed.

Lemma call_modify_known nodes a b rule s : a ∈ nodes ->
  call_modify (W := W) (V := V) nodes (py_str a) (py_str b) rule s =
  rpc (Modify (py_str a) (py_str b) rule)
    (rpc_modify_outgoing_connection (py_str a) (py_str b) rule) s.
Proof.
  intros Ha. unfold call_modify, nodes_rpc.
  rewrite bool_decide_eq_true_2 by (by apply list_elem_of_fmap_2). by rewrite bind_return.
Qed.

Lemma modify_connection_calls nodes a b rule bidir s : a ∈ nodes -> b ∈ nodes ->
  modify_connection (W := W) (V := V) nodes a b rule bidir s =
  py_for (pair_calls bidir a b) (modify_call rule) s.
Proof.
  intros Ha Hb. unfold modify_connection, pair_calls. rewrite str_eqb.
  destruct (a =? b); [done|].
  assert (Hcall : forall x y (k : M unit) s, x ∈ nodes ->
    (let! ok := call_modify nodes (py_str x) (py_str y) rule in
     if negb ok then netem_error rule else k) s = (modify_call rule (x, y) ;;! k) s).
  { intros x y k s' Hx. unfold modify_call. rewrite py_bind_assoc.
    unfold py_bind at 1 2. rewrite call_modify_known by done.
    destruct (rpc _ _ _) as [[s1 e1] [[]|]]; [by rewrite bind_return|done..]. }
  destruct bidir; cbn [py_for]; rewrite Hcall by done; [|done].
  apply py_bind_ext. intros [] s'. by rewrite (Hcall b a).
Qed.

Lemma py_for_ext {B} (l : list B) (f g : B -> M unit) s :
  (forall x s, x ∈ l -> f x s = g x s) -> py_for l f s = py_for l g s.
Proof.
  revert s. induction l as [|x l IH]; intros s Hfg; [done|]. cbn [py_for].
  unfold py_bind at 1 2. rewrite Hfg by (by left).
  destruct (g x s) as [[s1 e1] [[]|]]; [|done]. rewrite IH; [done|]. intros. apply Hfg. by right.
Qed.

Lemma py_for_join {B D} (l : list B) (f : B -> list D) (g : D -> M unit) s :
  py_for l (fun x => py_for (f x) g) s = py_for (mjoin (f <$> l)) g s.
Proof.
  revert s. induction l as [|x l IH]; intros s; [done|].
  rewrite fmap_cons. cbn [py_for mjoin list_join]. rewrite py_for_app. by apply py_bind_ext.
Qed.

(** Changing links is changing their connections one after the other. *)
Lemma modify_connections_calls nodes (S T : gset Z) rule b s :
  (forall X i, i ∈ set_order X -> i ∈ X) -> (forall i, i ∈ S ∪ T -> i ∈ nodes) ->
  modify_connections (W := W) (V := V) set_order nodes S T rule b s =
  py_for (link_calls b S T) (modify_call rule) s.
Proof.
  intros Ho Hn. unfold modify_connections, link_calls. rewrite <-py_for_join.
  apply py_for_ext. intros x s1 Hx. rewrite <-py_for_join. apply py_for_ext. intros y s2 Hy.
  apply modify_connection_calls; apply Hn; apply Ho in Hx, Hy; set_solver.
Qed.
End calls.

(** ** The cluster *)
Section cluster.
Context {K D V : Type}.
Context (shell : K -> string -> K * outcome string).
Context (daemon : Z -> D -> D * outcome (list V)).

(** The managers by node id, each with the state of its node; the test daemon. *)
Record cluster : Type := mkCluster { managers : gmap string (NetemManager * K); test_daemon : D }.

Definition on_node {A} (call : NetemManager -> PyM K string A) (node : string) (w : cluster) :
    cluster * outcome A :=
  match managers w !! node with
  | None => (w, Raise IOError)               (* nobody listens there *)
  | Some (m, k) =>
      let '(k', _, r) := call m k in
      ({| managers := <[node := (m, k')]> (managers w); test_daemon := test_daemon w |}, r)
  end.

Definition cluster_platform : Platform cluster V := {|
  rpc_clean_all_qdisc := on_node (clean_all_qdisc shell);
  rpc_create_root_qdisc := on_node (create_root_qdisc shell);
  rpc_init_qdisc := on_node (init_qdisc shell);
  rpc_modify_outgoing_connection node target rule :=
    on_node (fun m => modify_outgoing_connection shell m target rule) node;
  rpc_run n w := let '(d, r) := daemon n (test_daemon w) in
    ({| managers := managers w; test_daemon := d |}, r);
|}.
End cluster.
Arguments cluster : clear implicits.

(** ** From a link command to tc *)

(** A shell that also records what it ran and what each command answered. *)
Section recording.
Context {K : Type} (shell : K -> string -> K * outcome string).
Abbreviation answered := (string * outcome string)%type.
Abbreviation recorded := (list answered * K)%type.

Definition recording (w : recorded) (c : string) : recorded * outcome string :=
  let '(k, r) := shell w.2 c in ((w.1 ++ [(c, r)], k), r).
(** The command wrote nothing to its standard error. *)
Definition silent {A} (x : A * outcome string) : Prop := x.2 = Ret "".

End recording.

(** The items [cs] were tried in order, with their answers: all of them, each
    silent, or up to the first that was not. *)
Definition tried {A} (cs : list A) (made : list (A * outcome string)) (all : bool) : Prop :=
  if all then made.*1 = cs /\ Forall silent made
  else exists before x rest, made = before ++ [x] /\ cs = made.*1 ++ rest /\ Forall silent before /\ ~ silent x.

Lemma tried_cons {A} (c : A) cs made b : tried cs made b -> tried (c :: cs) ((c, Ret "") :: made) b.
Proof.
  destruct b; [intros [<- Hs]; split; [done|by constructor]|].
  intros (before & x & rest & -> & -> & Hb & Hx). exists ((c, Ret "") :: before), x, rest.
  split_and!; [done|done|by constructor|done].
Qed.
Abbreviation recorded K := (list (string * outcome string) * K)%type.

Section tc.
Context {K D V : Type} (shell : K -> string -> K * outcome string) (daemon : Z -> D -> D * outcome (list V)).
Abbreviation world := (cluster (recorded K) D).
#[local] Instance recording_platform : Platform world V := cluster_platform (recording shell) daemon.

(** The managers as the provisioner configures them. *)
Definition configured (w : world) (nodes : list Z) : Prop :=
  forall i, i ∈ nodes -> exists m st, managers w !! py_str i = Some (m, st) /\
    host_id m = i /\ free_percent (interface m) = true.

Definition interface_at (w : world) (i : Z) : string :=
  match managers w !! py_str i with Some (m, _) => interface m | None => "" end.
Definition log_at (w : world) (i : Z) : list (string * outcome string) :=
  match managers w !! py_str i with Some (_, st) => st.1 | None => [] end.

(** What changing the connections [made] is for node [i]: the traffic-control
    commands and their answers. *)
Definition tc_log (w : world) (rule : string) (i : Z) (made : list ((Z * Z) * outcome string)) :
    list (string * outcome string) :=
  (fun x => (change_command (interface_at w i) i x.1.2 rule, x.2)) <$> filter (fun x => x.1.1 = i) made.

(** One call: the command runs on the node, and the answer says whether it was
    silent. *)
Lemma change_one w nodes a b rule : configured w nodes -> a ∈ nodes ->
  py_in interface_token rule = false -> py_in peer_id_token rule = false ->
  exists w' r, let ok := bool_decide (r = Ret "") in
    rpc_modify_outgoing_connection (py_str a) (py_str b) rule w = (w', Ret ok) /\
    configured w' nodes /\ (forall i, interface_at w' i = interface_at w i) /\
    forall i, log_at w' i = log_at w i ++ tc_log w rule i [((a, b), r)].
Proof.
  intros Hw Ha H1 H2. destruct (Hw a Ha) as (m & st & Hm & Hh & Hi).
  set (c := change_command (interface m) a b rule).
  assert (Hr : runs (recording shell) (modify_outgoing_connection (recording shell) m (py_str b) rule) [c]).
  { subst c. replace (change_command (interface m) a b rule) with ("sudo tc qdisc change dev " +:+ interface m
      +:+ " parent 1:" +:+ py_str (host_id m) +:+ py_str b +:+ "2 netem " +:+ rule)
      by (unfold change_command, flow; by rewrite Hh, !app_assoc_s).
    by apply runs_change; [|apply py_str_free|..]. }
  destruct (shell st.2 c) as [k' r] eqn:Es.
  assert (Hm' : exists es, modify_outgoing_connection (recording shell) m (py_str b) rule st =
    ((st.1 ++ [(c, r)], k'), es, Ret (bool_decide (r = Ret "")))).
  { specialize (Hr st). cbn [run_script] in Hr. unfold recording at 1 in Hr. rewrite Es in Hr.
    destruct r as [err|e]; [|by eexists; rewrite bool_decide_eq_false_2 by done; exact Hr].
    destruct (decide (err = "")) as [E|Hne]; eexists.
    - rewrite bool_decide_eq_true_2 by congruence. subst err. exact Hr.
    - rewrite bool_decide_eq_false_2 by congruence. apply String.eqb_neq in Hne. rewrite Hne in Hr. exact Hr. }
  destruct Hm' as [es Hm'].
  change (rpc_modify_outgoing_connection (py_str a) (py_str b) rule w) with
    (on_node (K := recorded K) (D := D)
       (fun m => modify_outgoing_connection (recording shell) m (py_str b) rule) (py_str a) w).
  unfold on_node. rewrite Hm, Hm'.
  eexists _, r. split; [reflexivity|]. cbn [managers]. split; [|split].
  - intros i Hin. destruct (decide (i = a)) as [->|Hne].
    + eexists m, _. cbn [managers]. rewrite lookup_insert_eq. by split.
    + destruct (Hw i Hin) as (m' & log' & Hm'' & Hr'). exists m', log'.
      cbn [managers]. rewrite lookup_insert_ne; [done|]. intros E%py_str_inj. done.
  - intros i. unfold interface_at. cbn [managers]. destruct (decide (i = a)) as [->|Hne].
    + by rewrite lookup_insert_eq, Hm.
    + rewrite lookup_insert_ne; [done|]. intros E%py_str_inj. done.
  - intros i. unfold log_at, tc_log. cbn [managers]. destruct (decide (i = a)) as [->|Hne].
    + rewrite lookup_insert_eq, Hm, filter_cons_True by done. cbn.
      unfold interface_at. by rewrite Hm.
    + rewrite lookup_insert_ne by (intros E%py_str_inj; done).
      rewrite filter_cons_False by (cbn; congruence). cbn. by rewrite app_nil_r.
Qed.

Lemma tc_log_cons w w' rule i x made : interface_at w' i = interface_at w i ->
  tc_log w rule i (x :: made) = tc_log w rule i [x] ++ tc_log w' rule i made.
Proof.
  intros Hi. unfold tc_log. rewrite Hi, <-fmap_app, <-filter_app. done.
Qed.

Definition invalid_rule (rule : string) : py_error :=
  TestError NETEM_ERROR ("'" +:+ rule +:+ "' is not a valid netem command") no_line.

(** The connections [cs] were changed, in order and on their nodes, up to the
    first whose command was not silent; the rule is then reported. *)
Definition changed (w w' : world) (rule : string) (cs : list (Z * Z)) (r : outcome unit) : Prop :=
  exists made all, tried cs made all /\ r = (if all then Ret tt else Raise (invalid_rule rule)) /\
    forall i, log_at w' i = log_at w i ++ tc_log w rule i made.

Lemma changed_all nodes rule cs w k : configured w nodes -> (forall c, c ∈ cs -> c.1 ∈ nodes) ->
  py_in interface_token rule = false -> py_in peer_id_token rule = false ->
  exists w' es r, py_for cs (modify_call (V := V) rule) (w, k) = ((w', k), es, r) /\ changed w w' rule cs r.
Proof.
  intros Hw Hcs H1 H2. revert w Hw Hcs. induction cs as [|[a b] cs IH]; intros w Hw Hcs.
  { exists w, [], (Ret tt). split; [done|]. exists [], true. split; [by split|]. split; [done|].
    intros i. by rewrite app_nil_r. }
  destruct (change_one w nodes a b rule Hw) as (w1 & r1 & Hc & Hw1 & Hi1 & Hl1); [apply (Hcs (a, b)); by left|done..|].
  cbn [py_for]. unfold py_bind at 1. unfold modify_call at 1, rpc, py_bind, py_emit, py_call. cbn [fst snd]. rewrite Hc.
  case_bool_decide as Hr.
  - destruct (IH w1 Hw1) as (w2 & es & r & Hf & made & all & Ht & Hr2 & Hl2); [intros c Hc'; apply Hcs; by right|].
    eexists w2, _, r. split; [cbn; by rewrite Hf|]. exists (((a, b), r1) :: made), all. subst r1.
    split; [by apply tried_cons|]. split; [done|].
    intros i. rewrite Hl2, Hl1, <-app_assoc. by rewrite (tc_log_cons w w1 rule i _ made (Hi1 i)).
  - eexists w1, _, _. split; [done|]. exists [((a, b), r1)], false. split; [|by split].
    by exists [], ((a, b), r1), cs.
Qed.

(** On nodes that are set up, executing a link command runs on each node, in
    order, the traffic-control command of each of its connections that the
    command names, and nothing else, up to the first that is not silent; a
    connection of a node to itself is left out. *)
Theorem link_reaches_tc set_order executor (S T : gset Z) rule b (w : world) k :
  (forall X i, i ∈ set_order X -> i ∈ X) ->
  configured w (nodes executor) -> (forall i, i ∈ S ∪ T -> i ∈ nodes executor) ->
  py_in interface_token rule = false -> py_in peer_id_token rule = false ->
  exists w' es r, execute (V := V) set_order executor (modify_action S T rule b) (w, k) = ((w', k), es, r) /\
    changed w w' rule (link_calls set_order b S T) r.
Proof.
  intros Ho Hw Hn H1 H2. cbn [execute]. rewrite modify_connections_calls by done.
  apply changed_all with (nodes executor); [done| |done..].
  intros c Hc. unfold link_calls in Hc.
  apply list_elem_of_join in Hc as (l1 & Hc & (s & -> & Hs)%list_elem_of_fmap).
  apply list_elem_of_join in Hc as (l2 & Hc & (t & -> & Ht)%list_elem_of_fmap).
  apply Ho in Hs, Ht. unfold pair_calls in Hc.
  destruct (s =? t); [by apply elem_of_nil in Hc|].
  apply elem_of_cons in Hc as [->|Hc]; [apply Hn; set_solver|].
  destruct b; [|by apply elem_of_nil in Hc]. apply list_elem_of_singleton in Hc as ->. apply Hn. set_solver.
Qed.
End tc.

(** ** Three nodes *)
Module Demo.
Definition manager (i : Z) : NetemManager :=
  {| interface := "eth0"; host_id := i; mode := "gce";
     peers := (fun p => {| peer_id := p; portsToLock := [12345]; addressesToLock := ["10.0.0." +:+ py_str p] |})
                <$> filter (fun p => p <> i) [1; 2; 3] |}.
Definition daemon (n : Z) (d : unit) : unit * outcome (list Z) := (d, Ret [n]).
(** tc complains of a rule that does not start with a known word. *)
Definition tc (k : unit) (c : string) : unit * outcome string :=
  (k, Ret (if py_in "nonsense" c then "What is nonsense?" else "")).
Definition world : cluster (recorded unit) unit :=
  {| managers := {[ "1" := (manager 1, ([], tt)); "2" := (manager 2, ([], tt)); "3" := (manager 3, ([], tt)) ]};
     test_daemon := tt |}.
#[export] Instance platform : Platform (cluster (recorded unit) unit) Z := recording_platform tc daemon.

Definition executor : Executor := {| nodes := [1; 2; 3]; algorithm := "paxos" |}.
Definition unwrapper : CommandUnwrapper := {| nodes_number := 3; local_execution := false |}.
(** Random numbers in turn. *)
Definition randrange (k : nat) (n : Z) : Z := Z.of_nat k mod n.
Definition order (X : gset Z) : list Z := elements X.

Lemma randrange_range k n : 0 < n -> 0 <= randrange k n < n.
Proof. apply Z.mod_pos_bound. Qed.

Lemma randrange_fair : fair randrange unwrapper.
Proof.
  intros k i Hi. cbn in Hi. exists (k + Z.to_nat ((i - Z.of_nat k) mod 3))%nat. split; [lia|].
  unfold randrange. cbn. pose proof (Z.mod_pos_bound (i - Z.of_nat k) 3 ltac:(lia)).
  rewrite Nat2Z.inj_add, Z2Nat.id by lia. rewrite Zplus_mod_idemp_r.
  replace (Z.of_nat k + (i - Z.of_nat k)) with i by lia. apply Z.mod_small. lia.
Qed.

Definition script : list string :=
  ["from 1 to 2 3 set delay 10ms"; "do"; "run 5 slow"; "2 times"; "reset"].

(** A whole run: the rows written, and the commands that node 1 ran. *)
Definition rows (es : list (event Z)) : list (string * list Z) :=
  omap (fun e => match e with Row l ts => Some (l, ts) | _ => None end) es.

Example whole_run :
  match main_run randrange order unwrapper executor 30 30 script (world, 0%nat) with
  | Some ((w, _), es, r) => (r, rows es, take 2 (log_at w 1).*1)
  | None => (Raise IOError, [], [])
  end =
  (Ret tt, [("paxos_slow", [5]); ("paxos_slow", [5])],
   ["sudo tc qdisc change dev eth0 parent 1:132 netem  delay 10ms";
    "sudo tc qdisc change dev eth0 parent 1:122 netem  delay 10ms"]).
Proof. vm_compute. reflexivity. Qed.

(** A rule that tc refuses: the first command ends the run, with the line. *)
Example refused_rule :
  match main_run randrange order unwrapper executor 30 30 ["from 1 to 2 3 set nonsense"; "run 5 slow"] (world, 0%nat) with
  | Some ((w, _), es, r) => (r, rows es, log_at w 1)
  | None => (Raise IOError, [], [])
  end =
  (Raise (TestError NETEM_ERROR "' nonsense' is not a valid netem command" 1), [],
   [("sudo tc qdisc change dev eth0 parent 1:132 netem  nonsense", Ret "What is nonsense?")]).
Proof. vm_compute. reflexivity. Qed.
End Demo.
#[local] Existing Instance Demo.platform.

Definition demo_commands : list (command * Z) :=
  [(run_command 5 "a", 1); (modify_link_from_to ["1"] ["rand"] "loss 4%" true, 2); (reset, 3)].

Lemma schedule_witness :
  main_loop Demo.randrange Demo.order Demo.unwrapper Demo.executor 9 5
    ((fun '(c, n) => (Check c, n)) <$> demo_commands) (Demo.world, 0%nat) =
  two_phases Demo.randrange Demo.order Demo.unwrapper Demo.executor 5 demo_commands (Demo.world, 0%nat).
Proof. apply schedule. cbn. lia. Defined.

Lemma invalid_script_runs_nothing_witness : exists s',
  main_loop Demo.randrange Demo.order Demo.unwrapper Demo.executor 9 5
    ((fun '(c, n) => (Check c, n)) <$>
       [(run_command 5 "a", 1); (modify_link_from_to ["4"] ["all"] "loss 4%" true, 2)])
    (Demo.world, 0%nat) =
  Some (s', [], Raise (TestError ID_ERROR "Id 4 out of range " 2)) /\ s'.1 = Demo.world.
Proof.
  apply (invalid_script_runs_nothing Demo.randrange Demo.order Demo.unwrapper Demo.executor 9 5
    [(run_command 5 "a", 1)] (modify_link_from_to ["4"] ["all"] "loss 4%" true) 2 []
    (Demo.world, 0%nat) (Demo.world, 0%nat) [(run_action 5 "a", 1)]); [cbn; lia|by vm_compute|].
  exists (Demo.world, 0%nat). by vm_compute.
Defined.

Lemma resolve_ids_spec_witness : exists rs, NoDup rs /\ length rs = 1%nat /\
  (forall r, r ∈ rs -> 1 <= r <= 3 /\ r ∉ named ["rand"] ∪ named ["1"; "all"]) /\
  {[ 2 ]} = picks 3 ["rand"] (take 1 rs) /\ all_ids 3 = picks 3 ["1"; "all"] (drop 1 rs) /\
  forall i, i ∈ {[ 2 ]} ∪ all_ids 3 -> 0 <= i <= 3.
Proof.
  apply (resolve_ids_spec (V := Z) Demo.randrange Demo.unwrapper Demo.randrange_range 5 ["rand"] ["1"; "all"]
    (Demo.world, 0%nat) (Demo.world, 2%nat) []). by vm_compute.
Defined.

Lemma resolve_ids_ends_witness : exists fuel r,
  resolve_ids (V := Z) Demo.randrange Demo.unwrapper fuel (Str <$> ["rand"; "rand"]) (Str <$> ["2"])
    (Demo.world, 0%nat) = Some r.
Proof.
  apply (resolve_ids_ends Demo.randrange Demo.unwrapper Demo.randrange_range). apply Demo.randrange_fair.
Defined.

Lemma random_links_do_nothing_witness : exists s',
  attach_line Demo.randrange Demo.order Demo.unwrapper Demo.executor 5
    (Check (modify_random_link 2 "loss 4%" false)) 1 (Demo.world, 0%nat) = Some (s', [], Ret None) /\
  s'.1 = Demo.world.
Proof.
  destruct (attach_line Demo.randrange Demo.order Demo.unwrapper Demo.executor 5
    (Check (modify_random_link 2 "loss 4%" false)) 1 (Demo.world, 0%nat)) as [[[s' es] r]|] eqn:E.
  - destruct (random_links_do_nothing Demo.randrange Demo.unwrapper Demo.randrange_range Demo.order
      (fun X => Permutation_refl (elements X))
      Demo.executor 5 2 "loss 4%" false 1 _ _ _ _ eq_refl E) as (-> & -> & Hs).
    by exists s'.
  - exfalso. by vm_compute in E.
Defined.

Lemma random_links_hang_witness :
  unwrap (V := Z) Demo.randrange Demo.order Demo.unwrapper 1000 (modify_random_link 7 "loss 4%" false)
    (Demo.world, 0%nat) = None.
Proof.
  apply random_links_hang; [apply Demo.randrange_range|done|done].
Defined.

Lemma link_reaches_tc_witness : exists w' es r,
  execute Demo.order Demo.executor (modify_action {[ 1 ]} {[ 1; 2 ]} "loss 4%" true) (Demo.world, 0%nat) =
    ((w', 0%nat), es, r) /\
  changed Demo.world w' "loss 4%" (link_calls Demo.order true {[ 1 ]} {[ 1; 2 ]}) r.
Proof.
  apply (link_reaches_tc Demo.tc Demo.daemon Demo.order Demo.executor).
  - intros X i Hi. by apply elem_of_elements.
  - intros i Hi. cbn in Hi. rewrite !elem_of_cons in Hi.
    destruct Hi as [->|[->|[->|[]%elem_of_nil]]]; eexists _, _; (split; [by vm_compute|done]).
  - intros i Hi. cbn. set_solver.
  - done.
  - done.
Defined.
