(* ===== verification/TestGenerator.v ===== *)
(** * The generator of test scripts (test_generator.py)

    A [Test] is its list of lines, which the methods extend.  A [NodeGroup]
    holds a reference to a list of nodes: its own, or the one that all groups
    created without nodes share (a class attribute). *)
From stdpp Require Import base list strings.
From Stdlib Require Import ZArith Lia Strings.Ascii.
From S2P Require Import Prelude PyList PyStr PyText.
Local Open Scope Z_scope.

(** ** Node: its id as a string *)
Module GNode.
Definition init (id : Z) : string := py_str id.
Definition random : string := "rand".
End GNode.

(** ** NodeGroup *)
Module NodeGroup.
(** The lists of nodes by reference; reference 0 is the class attribute. *)
Abbreviation heap := (list (list string)).
Definition class_nodes : nat := 0%nat.
Record t : Type := mk { own : option nat }.

(** [NodeGroup(nodes)]: an empty list is not kept. *)
Definition init (h : heap) (nodes : nat) : t :=
  match h !! nodes with
  | Some (_ :: _) => {| own := Some nodes |}
  | _ => {| own := None |}
  end.

Definition all : string := "all".

Definition nodes (g : t) : nat := default class_nodes (own g).

Definition add (h : heap) (g : t) (node : string) : heap := alter (fun l => l ++ [node]) (nodes g) h.

(** [result[:-1]] *)
Fixpoint but_last (s : string) : string :=
  match s with
  | EmptyString => EmptyString
  | String a EmptyString => EmptyString
  | String a s => String a (but_last s)
  end.

Definition to_str (h : heap) (g : t) : string :=
  let result := fold_left (fun result node => result +:+ node +:+ " ")
                  (default [] (h !! nodes g)) "" in
  if (0 <? String.length result)%nat then but_last result else result.
End NodeGroup.

(** ** Test: the methods on [test_lines] *)
Module TestScript.
Abbreviation t := (list string).
Definition init : t := [].

Definition run (n_op : Z) (self : t) : t := self ++ ["run " +:+ py_str n_op].
Definition reset (self : t) : t := self ++ ["reset"].

Definition from_to_command (sources targets : string) (bidirectional : bool) (netem_command : string) : string :=
  if bidirectional then
    "from " +:+ sources +:+ " to " +:+ targets +:+ " bidirectional set " +:+ netem_command
  else "from " +:+ sources +:+ " to " +:+ targets +:+ " set " +:+ netem_command.

Definition set_rule (rule sources targets : string) (bidirectional : bool) (self : t) : t :=
  self ++ [from_to_command sources targets bidirectional rule].
Definition set_delay (delay : Z) (sources targets : string) (bidirectional : bool) (self : t) : t :=
  self ++ [from_to_command sources targets bidirectional ("delay " +:+ py_str delay +:+ "ms")].
Definition set_loss (loss : Z) (sources targets : string) (bidirectional : bool) (self : t) : t :=
  self ++ [from_to_command sources targets bidirectional ("loss " +:+ py_str loss +:+ "%")].
Definition partition (group1 group2 : string) (self : t) : t := set_loss 100 group1 group2 true self.

Definition indent (line : string) : string := String "009"%char line.
Definition times_line (times : Z) : string := py_str times +:+ " times".

(** [self.repeat(test, times)] for another test. *)
Definition repeat (test : t) (times : Z) (self : t) : t :=
  self ++ ["do"] ++ (indent <$> test) ++ [times_line times].
Definition repeat_all (times : Z) (self : t) : t := ["do"] ++ (indent <$> self) ++ [times_line times].

Definition get_lines (self : t) : list string := self.

(** What is written to the file. *)
Definition print_to_file (self : t) : string :=
  fold_right (fun line file => line +:+ newline +:+ file) "" self.
End TestScript.

(** ** test_on_each_one: the test, and the file's name *)
Definition each_one (rule : string) (nop : Z) (test : TestScript.t) (i : Z) : TestScript.t :=
  TestScript.run nop (TestScript.set_rule rule NodeGroup.all (GNode.init i) false (TestScript.reset test)).
Definition test_on_each_one (nodes_number : Z) (rule : string) (nop : Z) (path : string) : string * string :=
  let test := fold_left (each_one rule nop) (seqZ 1 nodes_number) TestScript.init in
  (path +:+ py_replace " " "_" rule +:+ "_each_" +:+ py_str nodes_number +:+ "_nodes",
   TestScript.print_to_file test).

(** A file opened as text: every line ending is read as a newline. *)
Fixpoint universal_newlines (s : string) : string :=
  match s with
  | EmptyString => EmptyString
  | String a s =>
      if Ascii.eqb a "013"%char then
        match s with
        | EmptyString => newline
        | String b s' => String "010"%char (if Ascii.eqb b "010"%char then universal_newlines s' else universal_newlines s)
        end
      else String a (universal_newlines s)
  end.
Fixpoint split_lines (s : string) : list string :=
  match s with
  | EmptyString => []
  | String a s =>
      if Ascii.eqb a "010"%char then String a EmptyString :: split_lines s
      else match split_lines s with
           | [] => [String a EmptyString]
           | l :: ls => String a l :: ls
           end
  end.
(** [f.readlines()] *)
Definition readlines (s : string) : list string := split_lines (universal_newlines s).
