(* ===== verification/TestGeneratorTheorems.v ===== *)
(** * The generator and the parser agree

    [generated_scripts_parse]: what a test built from runs, resets and link
    rules prints is read back by the parser as exactly these commands.
    [repeated_tests_fail]: what [repeat] writes is not. *)
From stdpp Require Import base list strings.
From Stdlib Require Import ZArith Lia Strings.Ascii.
From S2P Require Import Prelude PyList PyStr PyText Regex TestParser TestParserTheorems TestGenerator.
Import Parser.
Local Open Scope Z_scope.

(** ** Operations on a test *)
Inductive op : Type :=
| ORun (n : Z)
| OReset
| ORule (sources targets : list string) (bidirectional : bool) (rule : string).

(** The text of a group with these nodes. *)
Definition group_text (ids : list string) : string := py_join " "%char ids.

Definition apply_op (t : TestScript.t) (o : op) : TestScript.t :=
  match o with
  | ORun n => TestScript.run n t
  | OReset => TestScript.reset t
  | ORule ss ts b rule => TestScript.set_rule rule (group_text ss) (group_text ts) b t
  end.
Definition build (ops : list op) : TestScript.t := fold_left apply_op ops TestScript.init.

(** The command that the operation means. *)
Definition meaning (o : op) : command :=
  match o with
  | ORun n => run_command n "no_name"
  | OReset => reset
  | ORule ss ts b rule => modify_link_from_to ss ts (" " +:+ rule) b
  end.

Definition id_ok (t : string) : bool := py_isdigit t || String.eqb t "rand".
Definition ids_ok (ids : list string) : bool :=
  match ids with
  | [] => false
  | [t] => String.eqb t "all" || id_ok t
  | _ => forallb id_ok ids
  end.
(** No line ends inside. *)
Definition one_line (s : string) : bool := free_of "010"%char s && free_of "013"%char s.
(** A rule starts with a small letter, is one line without trailing blanks and
    does not contain the word set. *)
Definition rule_ok (rule : string) : bool :=
  match rule with
  | EmptyString => false
  | String a _ => between "a"%char "z"%char a
  end && one_line rule && negb (py_in "set" rule) && String.eqb (py_rstrip rule) rule.
Definition op_ok (o : op) : bool :=
  match o with
  | ORun n => 0 <=? n
  | OReset => true
  | ORule ss ts b rule => ids_ok ss && ids_ok ts && rule_ok rule
  end.

(** ** Trailing blanks *)
Lemma rstrip_app s t : py_rstrip t <> EmptyString -> py_rstrip (s +:+ t) = s +:+ py_rstrip t.
Proof.
  intros Ht. induction s as [|a s IH]; [done|]. rewrite !app_cons_s. cbn [py_rstrip]. rewrite IH.
  destruct (s +:+ py_rstrip t) eqn:E; [|done]. destruct s; [|discriminate]. by rewrite app_empty_s in E.
Qed.

Lemma rstrip_newline s : py_rstrip (s +:+ newline) = py_rstrip s.
Proof.
  induction s as [|a s IH]; [done|]. rewrite app_cons_s. cbn [py_rstrip]. by rewrite IH.
Qed.

Lemma rstrip_word w : is_word w = true -> py_rstrip w = w.
Proof.
  intros Hw. induction w as [|a w IH]; [done|]. cbn in Hw. apply andb_true_iff in Hw as [Ha Hw].
  cbn [py_rstrip]. destruct w as [|b w]; [cbn; by destruct (blank a)|]. by rewrite (IH Hw).
Qed.

Lemma kind_of_newline l : kind_of (l +:+ newline) = kind_of l.
Proof. unfold kind_of. by rewrite rstrip_newline. Qed.

(** ** The patterns on generated lines *)
Lemma is_digit_between a : is_digit a = true -> between "0"%char "9"%char a = true.
Proof.
  unfold is_digit, digit, between. destruct (_ && _) eqn:E; [|done]. intros _.
  apply andb_true_iff in E as [E1 E2]. rewrite Z.leb_le in E1. rewrite Z.ltb_lt in E2.
  apply andb_true_iff. rewrite !N.leb_le.
  change (N_of_ascii "0") with 48%N. change (N_of_ascii "9") with 57%N. lia.
Qed.

Lemma number_digits s : py_isdigit s = true -> number ∼ s.
Proof.
  intros Hs. destruct s as [|a s]; [done|]. assert (Ha : py_all is_digit (String a s) = true) by exact Hs.
  clear Hs. revert a Ha. induction s as [|b s IH]; intros a Ha; cbn in Ha; apply andb_true_iff in Ha as [Ha Hs].
  - apply in_plus_one. constructor. by apply is_digit_between.
  - apply (in_plus_cons _ (String a EmptyString) (String b s)); [|by apply IH].
    constructor. by apply is_digit_between.
Qed.

Lemma blanks1_one : blanks1 ∼ " ".
Proof. apply in_plus_one. by constructor. Qed.

Lemma id_in t : id_ok t = true -> Alt number (Lit "rand") ∼ t.
Proof.
  unfold id_ok. rewrite orb_true_iff. intros [Ht| ->%String.eqb_eq].
  - apply in_alt_l. by apply number_digits.
  - apply in_alt_r, in_lit.
Qed.

Lemma join_cons t u ids : group_text (t :: u :: ids) = t +:+ " " +:+ group_text (u :: ids).
Proof. done. Qed.

Lemma id_list_in ids : ids <> [] -> forallb id_ok ids = true ->
  Plus (Seq (Alt number (Lit "rand")) blanks1) ∼ (group_text ids +:+ " ").
Proof.
  intros Hne Hids. induction ids as [|t ids IH]; [done|]. cbn [forallb] in Hids.
  apply andb_true_iff in Hids as [Ht Hids].
  assert (H1 : Seq (Alt number (Lit "rand")) blanks1 ∼ (t +:+ " ")).
  { apply in_seq; [by apply id_in|apply blanks1_one]. }
  destruct ids as [|u ids]; [by apply in_plus_one|].
  rewrite join_cons, app_assoc_s, app_assoc_s, <-(app_assoc_s t).
  apply in_plus_cons; [exact H1|]. by apply IH.
Qed.

Lemma ids_in l : ids_ok l = true -> Parser.ids ∼ (group_text l +:+ " ").
Proof.
  intros Hl. destruct l as [|t [|u l]]; [done| |].
  - cbn in Hl. apply orb_true_iff in Hl as [->%String.eqb_eq|Ht].
    + apply in_alt_l. apply (in_seq _ _ "all" " "); [apply in_lit|apply blanks1_one].
    + apply in_alt_r. apply id_list_in; [done|]. cbn. by rewrite Ht.
  - apply in_alt_r. by apply id_list_in.
Qed.

(** The line of a link rule. *)
Definition link_line (ss ts : list string) (b : bool) (rule : string) : string :=
  TestScript.from_to_command (group_text ss) (group_text ts) b rule.
(** What comes before "set". *)
Definition link_head (ss ts : list string) (b : bool) : string :=
  "from " +:+ group_text ss +:+ " to " +:+ group_text ts +:+ (if b then " bidirectional " else " ").

Lemma link_line_head ss ts b rule : link_line ss ts b rule = link_head ss ts b +:+ "set" +:+ " " +:+ rule.
Proof. unfold link_line, link_head, TestScript.from_to_command. destruct b; by rewrite !app_assoc_s. Qed.

Lemma link_matches ss ts b rule : ids_ok ss = true -> ids_ok ts = true -> rule_ok rule = true ->
  re_match modify_link_pattern (link_line ss ts b rule) = true.
Proof.
  intros Hs Ht Hr.
  replace (link_line ss ts b rule) with (EmptyString +:+ "from" +:+ " " +:+ (group_text ss +:+ " ") +:+ "to"
    +:+ " " +:+ (group_text ts +:+ " ") +:+ (if b then "bidirectional " else EmptyString) +:+ "set" +:+ " " +:+ rule)
    by (unfold link_line, TestScript.from_to_command; destruct b; rewrite !app_assoc_s; reflexivity).
  unfold modify_link_pattern, Parser.rule. cbn [seqs].
  apply re_match_seq; [constructor|]. apply re_match_seq; [apply in_lit|].
  apply re_match_seq; [apply blanks1_one|]. apply re_match_seq; [by apply ids_in|].
  apply re_match_seq; [apply in_lit|]. apply re_match_seq; [apply blanks1_one|].
  apply re_match_seq; [by apply ids_in|].
  apply re_match_seq.
  { destruct b; [apply in_alt_l|apply in_alt_r; constructor].
    apply (in_seq _ _ "bidirectional" " "); [apply in_lit|apply blanks1_one]. }
  apply re_match_seq; [apply in_lit|]. apply re_match_seq; [apply blanks1_one|].
  destruct rule as [|a rule]; [done|]. unfold rule_ok in Hr. rewrite !andb_true_iff in Hr.
  apply (re_match_seq _ _ (String a EmptyString) rule); [|by apply re_match_nullable].
  apply in_plus_one. constructor. apply Hr.
Qed.

(** Texts of ids contain no other letters. *)
Lemma id_free c t : is_digit c = false -> free_of c "rand" = true -> id_ok t = true -> free_of c t = true.
Proof.
  intros Hd Hc. unfold id_ok. rewrite orb_true_iff. intros [Ht| ->%String.eqb_eq]; [|done].
  apply (py_all_free is_digit); [done|]. by destruct t.
Qed.

Lemma ids_free c l : is_digit c = false -> free_of c "rand all" = true -> ids_ok l = true ->
  free_of c (group_text l) = true.
Proof.
  intros Hd Hc Hl. change "rand all" with ("rand" +:+ " " +:+ "all") in Hc.
  rewrite !free_of_app, !andb_true_iff in Hc. destruct Hc as (Hrand & Hsp & Hall).
  destruct l as [|t [|u l]]; [done| |].
  - cbn in Hl. apply orb_true_iff in Hl as [->%String.eqb_eq|Ht]; [done|]. by apply id_free.
  - change (forallb id_ok (t :: u :: l) = true) in Hl. revert t Hl.
    induction l as [|v l IH] in u |- *; intros t Hl; cbn [forallb] in Hl; rewrite !andb_true_iff in Hl;
      rewrite join_cons, !free_of_app, Hsp, (id_free c t) by (done || apply Hl); cbn [andb].
    + apply id_free; [done..|apply Hl].
    + apply IH. cbn [forallb]. rewrite !andb_true_iff. apply Hl.
Qed.

(** Words of a text of ids. *)
Lemma id_word t : id_ok t = true -> is_word t = true.
Proof. unfold id_ok. rewrite orb_true_iff. intros [Ht| ->%String.eqb_eq]; [by apply isdigit_word|done]. Qed.

Lemma ids_words l : ids_ok l = true -> py_words (group_text l +:+ " ") = l.
Proof.
  intros Hl. destruct l as [|t [|u l]]; [done| |].
  - change (group_text [t]) with t.
    rewrite py_words_word_cons; [done| |done]. cbn in Hl.
    apply orb_true_iff in Hl as [->%String.eqb_eq|Ht]; [done|by apply id_word].
  - change (forallb id_ok (t :: u :: l) = true) in Hl. revert t Hl.
    induction l as [|v l IH] in u |- *; intros t Hl; cbn [forallb] in Hl; rewrite !andb_true_iff in Hl;
      rewrite join_cons, !app_assoc_s;
      change (" " +:+ ?x) with (String " "%char x);
      rewrite py_words_word_cons by (done || apply id_word, Hl); f_equal.
    + change (group_text [u]) with u. rewrite py_words_word_cons; [done| |done]. apply id_word, Hl.
    + apply IH. cbn [forallb]. rewrite !andb_true_iff. apply Hl.
Qed.

(** Replacing a word that starts with a blank, past a text without its second
    letter. *)
Lemma replace_second a old new s t : free_of a s = true ->
  match t with String b _ => Ascii.eqb b a = false | EmptyString => True end ->
  replace_at (String " " (String a old)) new 0 (s +:+ t) =
  s +:+ replace_at (String " " (String a old)) new 0 t.
Proof.
  intros Hs Ht. induction s as [|b s IH]; [done|]. cbn [free_of] in Hs.
  apply andb_true_iff in Hs as [_ Hs]. rewrite !app_cons_s. cbn [replace_at].
  assert (py_startswith (String " " (String a old)) (String b (s +:+ t)) = false) as ->.
  { cbn [py_startswith]. destruct (Ascii.eqb " " b); [cbn [andb]|done].
    destruct s as [|c s].
    - rewrite app_empty_s. destruct t as [|c t]; [done|]. rewrite Ascii.eqb_sym. by rewrite Ht.
    - rewrite app_cons_s. cbn [free_of] in Hs. apply andb_true_iff in Hs as [Hc%negb_true_iff _].
      by rewrite Ascii.eqb_sym, Hc. }
  by rewrite IH.
Qed.

Lemma head_free c ss ts (b : bool) : is_digit c = false ->
  free_of c ("rand all from to " +:+ (if b then "bidirectional " else EmptyString)) = true ->
  ids_ok ss = true -> ids_ok ts = true -> free_of c (link_head ss ts b) = true.
Proof.
  intros Hd Hc Hs Ht. rewrite free_of_app, andb_true_iff in Hc. destruct Hc as [Hc Hb].
  change "rand all from to " with ("rand all" +:+ " from" +:+ " to" +:+ " ") in Hc.
  rewrite !free_of_app, !andb_true_iff in Hc. destruct Hc as (H1 & H2 & H3 & H4).
  assert (Hsp : Ascii.eqb " " c = false) by (cbn [free_of] in H4; by apply andb_true_iff in H4 as [?%negb_true_iff _]).
  unfold link_head. rewrite !free_of_app, !ids_free by done.
  cbn [free_of andb] in *. rewrite Hsp in *. cbn [negb andb] in *. rewrite !andb_true_r.
  rewrite !andb_true_iff in *. destruct b; cbn [free_of] in *; rewrite ?Hsp; cbn [negb andb];
    rewrite ?andb_true_iff in *; tauto.
Qed.

(** *** Substrings *)
Lemma startswith_inv p s : py_startswith p s = true -> exists t, s = p +:+ t.
Proof.
  revert s. induction p as [|a p IH]; intros s Hs; [by exists s|].
  destruct s as [|b s]; [done|]. cbn in Hs. apply andb_true_iff in Hs as [->%Ascii.eqb_eq Hs].
  destruct (IH s Hs) as [t ->]. by exists t.
Qed.

Lemma py_in_absent c p s : free_of c p = false -> free_of c s = true -> py_in p s = false.
Proof.
  intros Hp Hs. assert (Hst : forall t, free_of c t = true -> py_startswith p t = false).
  { intros t Ht. destruct (py_startswith p t) eqn:E; [|done].
    apply startswith_inv in E as [u ->]. rewrite free_of_app, Hp in Ht. done. }
  induction s as [|a s IH]; cbn [py_in]; rewrite Hst by done; [done|].
  cbn [free_of] in Hs. apply andb_true_iff in Hs as [_ Hs]. by apply IH.
Qed.

Lemma py_in_app p s t : py_in p (s +:+ p +:+ t) = true.
Proof.
  induction s as [|a s IH]; [rewrite app_empty_s|rewrite app_cons_s; cbn [py_in]; rewrite IH; by rewrite orb_true_r].
  destruct (p +:+ t) eqn:E; cbn [py_in]; rewrite <-E, startswith_app; done.
Qed.

(** ** The parameters of a link line *)
Section link.
Context (ss ts : list string) (b : bool) (rule : string).
Context (Hss : ids_ok ss = true) (Hts : ids_ok ts = true) (Hrule : rule_ok rule = true).

Lemma link_split : py_split_on "set" (link_line ss ts b rule) = [link_head ss ts b; " " +:+ rule].
Proof.
  rewrite link_line_head. unfold py_split_on. erewrite split_on_free.
  - by rewrite app_nil_s.
  - apply head_free; [done|by destruct b|done..].
  - rewrite (split_on_sep "s" "et"). f_equal. apply split_on_absent; [done|].
    unfold rule_ok in Hrule. rewrite !andb_true_iff, negb_true_iff in Hrule.
    change (py_in "set" rule = false). apply Hrule.
Qed.

Lemma link_bidirectional : get_bidirectional (link_head ss ts b) = (link_head ss ts false, b).
Proof.
  unfold get_bidirectional. destruct b.
  - assert (E : link_head ss ts true = ("from " +:+ group_text ss +:+ " to " +:+ group_text ts)
      +:+ " bidirectional " +:+ EmptyString).
    { unfold link_head. by rewrite !app_assoc_s, app_nil_s. }
    rewrite E, py_in_app. f_equal. unfold py_replace. rewrite replace_second; [| |done].
    + unfold link_head. by rewrite !app_assoc_s.
    + rewrite !free_of_app, !ids_free by done. done.
  - rewrite (py_in_absent "b"); [done..|]. apply head_free; done.
Qed.

Lemma link_tokens : py_split_on "to" (link_head ss ts false) =
  ["from " +:+ group_text ss +:+ " "; " " +:+ group_text ts +:+ " "].
Proof.
  assert (E : link_head ss ts false =
    ("from " +:+ group_text ss +:+ " ") +:+ "to" +:+ (" " +:+ group_text ts +:+ " ")).
  { unfold link_head. by rewrite !app_assoc_s. }
  unfold py_split_on. rewrite E. erewrite split_on_free.
  - by rewrite app_nil_s.
  - rewrite !free_of_app, ids_free by done. done.
  - rewrite (split_on_sep "t" "o"). f_equal. apply split_on_absent; [done|].
    apply py_in_free. rewrite !free_of_app, ids_free by done. done.
Qed.

Lemma link_source : py_words (py_replace "from" "" ("from " +:+ group_text ss +:+ " ")) = ss.
Proof.
  change ("from " +:+ group_text ss +:+ " ") with ("from" +:+ (" " +:+ group_text ss +:+ " ")).
  unfold py_replace. rewrite (replace_at_sep "f" "rom"), app_empty_s.
  rewrite replace_absent by (apply py_in_free; rewrite !free_of_app, ids_free by done; done).
  change (" " +:+ ?x) with (String " " x). rewrite py_words_blank by done. by apply ids_words.
Qed.

Lemma link_params_of : get_params (link_line ss ts b rule) "link" =
  Ret (link_params ss ts (" " +:+ rule) b).
Proof.
  unfold get_params. cbn [String.eqb]. change (get_link (link_line ss ts b rule) = Ret (link_params ss ts (" " +:+ rule) b)).
  unfold get_link. rewrite link_split, py_index_0, py_index_1. cbn [mbind outcome_bind].
  rewrite link_bidirectional, link_tokens, py_index_0, py_index_1. cbn [mbind outcome_bind].
  rewrite link_source. do 2 f_equal.
  change (" " +:+ ?x) with (String " " x). rewrite py_words_blank by done. by apply ids_words.
Qed.

Lemma link_rstrip : py_rstrip (link_line ss ts b rule) = link_line ss ts b rule.
Proof.
  unfold rule_ok in Hrule. rewrite !andb_true_iff in Hrule. destruct Hrule as [[[Ha _] _] Hr].
  apply String.eqb_eq in Hr. rewrite link_line_head.
  assert (Hne : py_rstrip rule <> EmptyString) by (rewrite Hr; by destruct rule).
  rewrite rstrip_app; rewrite rstrip_app; rewrite rstrip_app; rewrite ?Hr; try done; by destruct rule.
Qed.

Lemma link_kind : kind_of (link_line ss ts b rule) =
  Some (KCommand (modify_link_from_to ss ts (" " +:+ rule) b)).
Proof.
  unfold kind_of. rewrite link_rstrip, link_matches by done. cbn [orb].
  unfold read_line. rewrite link_matches by done. rewrite link_params_of.
  destruct (String.eqb_spec (link_line ss ts b rule) "") as [E|_]; [|done].
  rewrite link_line_head in E. by unfold link_head in E.
Qed.
End link.

(** ** Runs and resets *)
Lemma unmatched a r s : nullable r = false -> deriv a r = Void -> re_match r (String a s) = false.
Proof. intros Hn Hd. rewrite re_match_cons, Hn, Hd. apply re_match_void. Qed.

Lemma run_rstrip n : 0 <= n -> py_rstrip ("run " +:+ py_str n) = "run " +:+ py_str n.
Proof.
  intros Hn. pose proof (isdigit_word _ (py_str_isdigit n Hn)) as Hw.
  rewrite rstrip_app; rewrite rstrip_word by done; [done|]. by destruct (py_str n).
Qed.

Lemma run_kind n : 0 <= n -> kind_of ("run " +:+ py_str n) = Some (KCommand (run_command n "no_name")).
Proof.
  intros Hn. pose proof (py_str_isdigit n Hn) as Hd. pose proof (isdigit_word _ Hd) as Hw.
  set (l := "run " +:+ py_str n).
  assert (H1 : re_match modify_link_pattern l = false) by (by apply (unmatched "r")).
  assert (H2 : re_match modify_random_link_pattern l = false) by (by apply (unmatched "r")).
  assert (H3 : re_match reset_pattern l = false).
  { change l with (String "r" ("un " +:+ py_str n)). rewrite re_match_cons. cbn [orb nullable reset_pattern seqs].
    by apply (unmatched "u"). }
  assert (H4 : re_match run_pattern l = true).
  { change l with (EmptyString +:+ "run" +:+ " " +:+ py_str n). rewrite <-(app_nil_s (py_str n)).
    unfold run_pattern. cbn [seqs].
    apply re_match_seq; [constructor|]. apply re_match_seq; [apply in_lit|].
    apply re_match_seq; [apply blanks1_one|]. apply re_match_seq; [by apply number_digits|done]. }
  assert (H5 : get_params l "run" = Ret (run_params (py_str n) "no_name")).
  { change (get_params l "run") with (get_run l). unfold get_run.
    replace (py_words l) with ["run"; py_str n]; [done|].
    change l with ("run" +:+ String " " (py_str n)). by rewrite py_words_word_cons, py_words_word. }
  unfold kind_of. subst l. rewrite run_rstrip by done. unfold read_line. rewrite H1, H2, H3, H4, H5.
  change (String.eqb ("run " +:+ py_str n) "") with false. cbn.
  unfold py_int3. by rewrite py_int_str.
Qed.

Definition line_of (o : op) : string :=
  match o with
  | ORun n => "run " +:+ py_str n
  | OReset => "reset"
  | ORule ss ts b rule => link_line ss ts b rule
  end.

Lemma build_lines ops : build ops = line_of <$> ops.
Proof.
  unfold build. assert (H : forall t, fold_left apply_op ops t = t ++ (line_of <$> ops)); [|apply H].
  induction ops as [|o ops IH]; intros t; cbn [fold_left]; [by rewrite app_nil_r|].
  rewrite IH. destruct o; cbn [apply_op];
    unfold TestScript.run, TestScript.reset, TestScript.set_rule; by rewrite <-app_assoc.
Qed.

(** A generated line is the command it means. *)
Lemma line_kind o : op_ok o = true -> kind_of (line_of o) = Some (KCommand (meaning o)).
Proof.
  destruct o as [n| |ss ts b rule]; cbn [op_ok line_of meaning].
  - intros Hn. apply run_kind. by apply Z.leb_le.
  - intros _. by vm_compute.
  - rewrite !andb_true_iff. intros [[Hs Ht] Hr]. by apply link_kind.
Qed.

Lemma one_line_app s t : one_line (s +:+ t) = one_line s && one_line t.
Proof. unfold one_line. rewrite !free_of_app. by repeat destruct (free_of _ _). Qed.
Lemma line_one o : op_ok o = true -> one_line (line_of o) = true.
Proof.
  destruct o as [n| |ss ts b rule]; cbn [op_ok line_of]; [|done|].
  - intros _. rewrite one_line_app. unfold one_line. by rewrite !py_str_free.
  - rewrite !andb_true_iff. intros [[Hs Ht] Hr]. rewrite link_line_head, !one_line_app.
    unfold rule_ok in Hr. rewrite !andb_true_iff in Hr. destruct Hr as [[[_ Hr] _] _].
    unfold one_line at 1. by rewrite !head_free, Hr by (done || by destruct b).
Qed.

(** ** Files *)
Lemma universal_line l file : free_of "013"%char l = true ->
  universal_newlines (l +:+ newline +:+ file) = l +:+ newline +:+ universal_newlines file.
Proof.
  induction l as [|a l IH]; [done|]. cbn [free_of]. rewrite andb_true_iff, negb_true_iff. intros [Ha Hl].
  rewrite !app_cons_s. cbn [universal_newlines]. by rewrite Ha, IH.
Qed.
Lemma split_line l file : free_of "010"%char l = true ->
  split_lines (l +:+ newline +:+ file) = (l +:+ newline) :: split_lines file.
Proof.
  induction l as [|a l IH]; [done|]. cbn [free_of]. rewrite andb_true_iff, negb_true_iff. intros [Ha Hl].
  rewrite !app_cons_s. cbn [split_lines]. by rewrite Ha, IH.
Qed.
Lemma readlines_line l file : one_line l = true ->
  readlines (l +:+ newline +:+ file) = (l +:+ newline) :: readlines file.
Proof. intros [H1 H2]%andb_true_iff. unfold readlines. by rewrite universal_line, split_line. Qed.

Lemma readlines_print ls : Forall (fun l => one_line l = true) ls ->
  readlines (TestScript.print_to_file ls) = (fun l => l +:+ newline) <$> ls.
Proof.
  induction 1 as [|l ls Hl _ IH]; [done|]. cbn [TestScript.print_to_file fold_right].
  change (fold_right _ "" ls) with (TestScript.print_to_file ls). by rewrite readlines_line, IH.
Qed.

Lemma build_one_line ops : forallb op_ok ops = true ->
  Forall (fun l => one_line l = true) (build ops).
Proof.
  rewrite build_lines, Forall_fmap, forallb_forall, Forall_forall. intros H o Ho.
  apply line_one, H. by apply list_elem_of_In.
Qed.

(** ** The theorems *)
Fixpoint singles (ls : list string) : script :=
  match ls with [] => Finish | l :: ls => Single l (singles ls) end.

Lemma lines_singles ls : lines (singles ls) = ls.
Proof. induction ls as [|l ls IH]; cbn; [done|]. by rewrite IH. Qed.

(** The operations as entries, numbered from [n]. *)
Fixpoint entries (n : Z) (ops : list op) : list entry :=
  match ops with [] => [] | o :: ops => (meaning o, n) :: entries (n + 1) ops end.

Lemma singles_read ops : forallb op_ok ops = true ->
  let p := singles ((fun l => l +:+ newline) <$> (line_of <$> ops)) in
  well_formed p = true /\ forall n, unroll n p = entries n ops.
Proof.
  induction ops as [|o ops IH]; [done|]. cbn [forallb]. intros [Ho Hops]%andb_true_iff.
  destruct (IH Hops) as [Hw Hu]. rewrite !fmap_cons. cbn [singles well_formed unroll entries].
  rewrite kind_of_newline, line_kind by done. split; [exact Hw|].
  intros n. by rewrite Hu.
Qed.

Lemma generated_lines ops : forallb op_ok ops = true ->
  exists fuel, parse fuel (readlines (TestScript.print_to_file (build ops))) =
    Some (inl (entries 1 ops ++ [(reset, py_len ops + 1)])).
Proof.
  intros Hops. rewrite readlines_print by (by apply build_one_line). rewrite build_lines.
  destruct (singles_read ops Hops) as [Hw Hu].
  destruct (parse_unrolls_lines _ Hw) as [fuel Hp]. exists fuel.
  rewrite lines_singles, Hu in Hp. unfold py_len in *. by rewrite !length_fmap in Hp.
Qed.

(** A line ending inside a rule makes two lines of it. *)
Example return_splits :
  readlines (TestScript.print_to_file (build [ORule ["1"] ["all"] false ("delay" +:+ String "013" "5ms")])) =
  ["from 1 to all set delay" +:+ newline; "5ms" +:+ newline].
Proof. vm_compute. reflexivity. Qed.

(** C32: a test built from runs of a number that is not negative, resets, and link
    rules between lists of ids (numbers, rand, or all alone), each rule one line
    (no newline or carriage return) that starts with a small letter, has no
    trailing blanks and does not contain the word set: printed to a file and read
    by the parser it is the list of the commands it means, with their lines, and
    the closing reset. *)
Theorem generated_scripts_parse ops : forallb op_ok ops = true ->
  exists fuel, parse fuel (readlines (TestScript.print_to_file (build ops))) =
    Some (inl (entries 1 ops ++ [(reset, py_len ops + 1)])).
Proof. apply generated_lines. Qed.

Lemma generated_scripts_parse_witness : exists fuel,
  parse fuel (readlines (TestScript.print_to_file
    (build [OReset; ORule ["1"; "rand"] ["all"] true "loss 40%"; ORun 100]))) =
  Some (inl [(reset, 1); (modify_link_from_to ["1"; "rand"] ["all"] " loss 40%" true, 2);
             (run_command 100 "no_name", 3); (reset, 4)]).
Proof.
  apply (generated_scripts_parse [OReset; ORule ["1"; "rand"] ["all"] true "loss 40%"; ORun 100]).
  by vm_compute.
Defined.

(** ** Repeated tests *)
Lemma line_rstrip o : op_ok o = true -> py_rstrip (line_of o) = line_of o /\ line_of o <> EmptyString.
Proof.
  destruct o as [n| |ss ts b rule]; cbn [op_ok line_of]; [|done|].
  - intros Hn. split; [by apply run_rstrip, Z.leb_le|done].
  - rewrite !andb_true_iff. intros [[Hs Ht] Hr]. split; [by apply link_rstrip|].
    rewrite link_line_head. by unfold link_head.
Qed.

Lemma indented_unknown l s : py_rstrip l = l -> l <> EmptyString ->
  step (TestScript.indent l +:+ newline) s =
  inr {| type := SYNTAX_ERROR; message := "Command '" +:+ TestScript.indent l +:+ "' is unknown";
         line := Z.of_nat (index s) + 1 |}.
Proof.
  intros Hl Hne. unfold step. rewrite rstrip_newline.
  assert (E : py_rstrip (TestScript.indent l) = TestScript.indent l).
  { unfold TestScript.indent. change (String "009" l) with (String "009" EmptyString +:+ l).
    rewrite rstrip_app by (by rewrite Hl). by rewrite Hl. }
  rewrite E. unfold read_line, TestScript.indent.
  change (String.eqb (String "009" l) "") with false. cbn iota.
  by rewrite !(unmatched "009").
Qed.

Lemma repeat_one_line test times : Forall (fun l => one_line l = true) test ->
  Forall (fun l => one_line l = true) (TestScript.repeat test times TestScript.init).
Proof.
  intros Ht. unfold TestScript.repeat, TestScript.init. cbn [app]. constructor; [done|].
  apply Forall_app. split; [by apply Forall_fmap|]. constructor; [|constructor].
  unfold TestScript.times_line. rewrite one_line_app. unfold one_line. by rewrite !py_str_free.
Qed.

(** A repeated test cannot be parsed: its lines are indented with a tab,
    which no pattern allows; the parser refuses the first of them. *)
Theorem repeated_tests_fail o ops times : forallb op_ok (o :: ops) = true ->
  parse 2 (readlines (TestScript.print_to_file
    (TestScript.repeat (build (o :: ops)) times TestScript.init))) =
  Some (inr {| type := SYNTAX_ERROR;
               message := "Command '" +:+ TestScript.indent (line_of o) +:+ "' is unknown"; line := 2 |}).
Proof.
  intros Hops. rewrite readlines_print by (by apply repeat_one_line, build_one_line).
  cbn [forallb] in Hops. apply andb_true_iff in Hops as [Ho _].
  destruct (line_rstrip o Ho) as [Hr Hne]. rewrite build_lines.
  set (s1 := {| do_open := 0; pointers := [{| start := 0; repetition := 1 |}]; index := 1;
                commands_list := [] |}).
  unfold parse. rewrite (parse_loop_turn _ init s1) by (by exists ("do" +:+ newline)).
  cbn [parse_loop].
  match goal with |- context [?tf !! index s1] =>
    change (tf !! index s1) with (Some (TestScript.indent (line_of o) +:+ newline)) end.
  cbv beta iota. by rewrite indented_unknown.
Qed.

Lemma repeated_tests_fail_witness :
  parse 2 (readlines (TestScript.print_to_file
    (TestScript.repeat (build [ORun 100]) 5 TestScript.init))) =
  Some (inr {| type := SYNTAX_ERROR;
               message := "Command '" +:+ String "009"%char "run 100" +:+ "' is unknown"; line := 2 |}).
Proof. by apply (repeated_tests_fail (ORun 100) [] 5). Defined.

(** ** Groups and the generated file *)
Lemma fold_spaced ids s :
  fold_left (fun result node => result +:+ node +:+ " ") ids s =
  s +:+ match ids with [] => EmptyString | _ => group_text ids +:+ " " end.
Proof.
  revert s. induction ids as [|t ids IH]; intros s; cbn [fold_left]; [by rewrite app_nil_s|].
  rewrite IH. destruct ids as [|u ids].
  - change (group_text [t]) with t. by rewrite app_nil_s.
  - rewrite join_cons. by rewrite !app_assoc_s.
Qed.

Lemma but_last_snoc s a : NodeGroup.but_last (s +:+ String a EmptyString) = s.
Proof.
  induction s as [|b s IH]; [done|]. rewrite app_cons_s. cbn [NodeGroup.but_last].
  destruct (s +:+ String a EmptyString) eqn:E; [by destruct s|]. by rewrite IH.
Qed.

(** The text of a group is the ids with blanks between. *)
Lemma to_str_spec h g ids : h !! NodeGroup.nodes g = Some ids ->
  NodeGroup.to_str h g = group_text ids.
Proof.
  intros Hg. unfold NodeGroup.to_str. rewrite Hg. cbn [default from_option]. rewrite fold_spaced, app_empty_s.
  destruct ids as [|t ids]; [done|]. cbn [id]. rewrite but_last_snoc.
  destruct (Nat.ltb_spec 0 (String.length (group_text (t :: ids) +:+ " "))) as [|Hlt]; [done|].
  exfalso. destruct (group_text (t :: ids)); rewrite ?app_empty_s, ?app_cons_s in Hlt; cbn in Hlt; lia.
Qed.

(** Groups created without nodes share one list: a node added to one of them
    is in the text of the other. *)
Theorem empty_groups_share h node e1 e2 ids : h !! NodeGroup.class_nodes = Some ids ->
  h !! e1 = Some [] -> h !! e2 = Some [] ->
  NodeGroup.to_str (NodeGroup.add h (NodeGroup.init h e1) node) (NodeGroup.init h e2) =
  group_text (ids ++ [node]).
Proof.
  intros Hc H1 H2. unfold NodeGroup.init. rewrite H1, H2. apply to_str_spec.
  unfold NodeGroup.add. cbn. by rewrite list_lookup_alter_eq, Hc.
Qed.

Lemma empty_groups_share_witness :
  let h := [[]; []] in
  NodeGroup.to_str (NodeGroup.add h (NodeGroup.init h 1) "rand") (NodeGroup.init h 1) = "rand".
Proof. by apply (empty_groups_share [[]; []] "rand" 1 1 []). Defined.

(** The script of [test_on_each_one]. *)
Lemma fmap_mjoin {A B C} (f : B -> C) (g : A -> list B) l :
  f <$> mjoin (g <$> l) = mjoin ((fun x => f <$> g x) <$> l).
Proof.
  induction l as [|x l IH]; [done|]. rewrite !fmap_cons. cbn [mjoin list_join].
  rewrite fmap_app. f_equal. exact IH.
Qed.

Lemma each_one_lines rule nop l0 t :
  fold_left (each_one rule nop) l0 t = t ++ mjoin ((fun i =>
    [line_of OReset; line_of (ORule ["all"] [py_str i] false rule); line_of (ORun nop)]) <$> l0).
Proof.
  revert t. induction l0 as [|i l0 IH]; intros t; cbn [fold_left]; [by rewrite app_nil_r|].
  rewrite IH. unfold each_one, TestScript.run, TestScript.reset, TestScript.set_rule.
  rewrite fmap_cons. cbn [mjoin list_join]. by rewrite <-!app_assoc.
Qed.

Definition each_one_ops (rule : string) (nop : Z) (n : Z) : list op :=
  mjoin ((fun i => [OReset; ORule ["all"] [py_str i] false rule; ORun nop]) <$> seqZ 1 n).

(** The file of [test_on_each_one] parses to, for each node in turn: a reset,
    the rule on the links from all nodes to it, a run; and the closing reset. *)
Theorem each_one_parses n rule nop path : rule_ok rule = true -> 0 <= nop ->
  exists fuel, parse fuel (readlines (test_on_each_one n rule nop path).2) =
    Some (inl (entries 1 (each_one_ops rule nop n) ++ [(reset, py_len (each_one_ops rule nop n) + 1)])).
Proof.
  intros Hr Hn. assert (E : fold_left (each_one rule nop) (seqZ 1 n) TestScript.init = build (each_one_ops rule nop n)).
  { rewrite each_one_lines, build_lines. unfold each_one_ops, TestScript.init. cbn [app].
    by rewrite fmap_mjoin. }
  cbn [test_on_each_one snd]. rewrite E. apply generated_lines. clear E.
  assert (H : Forall (fun i => 0 <= i) (seqZ 1 n)).
  { apply Forall_forall. intros i. rewrite elem_of_seqZ. lia. }
  unfold each_one_ops. induction H as [|i l0 Hi _ IH]; [done|].
  rewrite fmap_cons. cbn [mjoin list_join]. rewrite forallb_app.
  match goal with |- _ && ?x = true => replace x with true by (symmetry; exact IH) end.
  cbn [forallb op_ok ids_ok].
  rewrite Hr. unfold id_ok. rewrite py_str_isdigit by done.
  rewrite (proj2 (Z.leb_le 0 nop)) by done. by rewrite orb_true_r.
Qed.

Lemma each_one_parses_witness : exists fuel,
  parse fuel (readlines (test_on_each_one 2 "delay 100ms" 10 "./").2) =
  Some (inl [(reset, 1); (modify_link_from_to ["all"] ["1"] " delay 100ms" false, 2); (run_command 10 "no_name", 3);
             (reset, 4); (modify_link_from_to ["all"] ["2"] " delay 100ms" false, 5); (run_command 10 "no_name", 6);
             (reset, 7)]).
Proof. by apply (each_one_parses 2 "delay 100ms" 10 "./"). Defined.
