(* ===== verification/Messenger.v ===== *)
(** * messenger.py: datagrams

    A packet is the text "type json".  [_send] builds it from keyword arguments,
    [datagramReceived] takes it apart and calls the handler receive_type of the
    replicated value.  The json library is the class [JsonText]: the text of a
    dictionary loads back to the dictionary. *)
From stdpp Require Import base gmap sets list strings.
From Stdlib Require Import ZArith QArith Lia Strings.Ascii.
From S2P Require Import Prelude PyStr PyText PyExcept ComposablePaxos ReplicatedValue.
Local Open Scope Z_scope.

(** ** JSON values *)
#[warnings="-register-all"]
Inductive json : Type :=
| JNull
| JInt (z : Z)
| JStr (s : string)
| JList (l : list json).

(** Keyword arguments, and what [json.loads] returns: an object, or something
    without [keys]; [None] is a ValueError. *)
Abbreviation kwargs := (gmap string json).
Class JsonText : Type := {
  dumps : kwargs -> string;
  loads : string -> option (option kwargs);
  loads_dumps d : loads (dumps d) = Some (Some d);
}.

(** The uids and the values, as JSON. *)
Class Jsonable (A : Type) : Type := {
  to_json : A -> json;
  of_json : json -> option A;
  of_to_json a : of_json (to_json a) = Some a;
  to_json_null a : to_json a <> JNull;
}.

(** [packet.split(' ', 1)] as a pair: [None] when there is no blank. *)
Fixpoint split_once (s : string) : option (string * string) :=
  match s with
  | EmptyString => None
  | String a s =>
      if Ascii.eqb a " "%char then Some (EmptyString, s)
      else '(x, y) ← split_once s; Some (String a x, y)
  end.

(** [k.endswith('_id')] *)
Fixpoint py_endswith (p s : string) : bool :=
  String.eqb p s || match s with EmptyString => false | String _ s => py_endswith p s end.

Section messenger.
Context {U V A : Type} `{Countable U} `{PyOrder U} `{EqDecision V} `{Countable A}.
Context `{JsonText} `{Jsonable U} `{Jsonable V}.
Implicit Types pid : option (ProposalID U).

(** ** The address book: one dictionary, used in both directions *)
Record Messenger : Type := mkMessenger { addr_of : gmap U A; uid_of : gmap A U }.

Definition messenger_init (peer_addresses : list (U * A)) : Messenger :=
  {| addr_of := list_to_map peer_addresses;
     uid_of := foldl (fun m ua => <[ua.2 := ua.1]> m) ∅ peer_addresses |}.

(** ** Sending *)
Definition json_pid pid : json :=
  match pid with
  | None => JNull
  | Some p => JList [JInt (number p); to_json (uid p)]
  end.
Definition json_value (v : option V) : json := match v with None => JNull | Some v => to_json v end.

(** The type and the keyword arguments of [send_*]. *)
Definition message_type (m : wire U V) : string :=
  match m with
  | WSyncRequest _ => "sync_request"
  | WCatchup _ _ => "catchup"
  | WNack _ _ _ => "nack"
  | WPrepare _ _ => "prepare"
  | WPromise _ _ _ _ => "promise"
  | WAccept _ _ _ => "accept"
  | WAccepted _ _ _ => "accepted"
  end.

Definition message_kwargs (m : wire U V) : kwargs :=
  match m with
  | WSyncRequest k => {[ "instance_number" := JInt k ]}
  | WCatchup k v => {[ "instance_number" := JInt k; "current_value" := json_value v ]}
  | WNack k pid promised =>
      {[ "instance_number" := JInt k; "proposal_id" := json_pid pid;
         "promised_proposal_id" := json_pid promised ]}
  | WPrepare k pid => {[ "instance_number" := JInt k; "proposal_id" := json_pid pid ]}
  | WPromise k pid last_id last_value =>
      {[ "instance_number" := JInt k; "proposal_id" := json_pid pid;
         "last_accepted_id" := json_pid last_id; "last_accepted_value" := json_value last_value ]}
  | WAccept k pid v =>
      {[ "instance_number" := JInt k; "proposal_id" := json_pid pid; "proposal_value" := json_value v ]}
  | WAccepted k pid v =>
      {[ "instance_number" := JInt k; "proposal_id" := json_pid pid; "proposal_value" := json_value v ]}
  end.

(** The datagram that [_send] writes, and where to; an unknown uid is a KeyError. *)
Definition msg_text (ty : string) (d : kwargs) : string := ty +:+ " " +:+ dumps d.
Definition _send (self : Messenger) (to_uid : U) (m : wire U V) : outcome (string * A) :=
  match addr_of self !! to_uid with
  | Some addr => Ret (msg_text (message_type m) (message_kwargs m), addr)
  | None => Raise KeyError
  end.

(** ** Receiving *)

(** A keyword argument after the conversion of the ids. *)
Inductive argument : Type :=
| Plain (j : json)
| Pid (number uid : json).

(** [ProposalID( *v )] for the keys that end in _id. *)
Definition convert (k : string) (j : json) : outcome argument :=
  if py_endswith "_id" k then
    match j with
    | JNull => Ret (Plain JNull)
    | JList [n; u] => Ret (Pid n u)
    | _ => Raise TypeError
    end
  else Ret (Plain j).

(** The loop over the keys raises at the first id that is none. *)
Definition convert_all (d : kwargs) : outcome (gmap string argument) :=
  if forallb (fun kj => match convert kj.1 kj.2 with Ret _ => true | Raise _ => false end) (map_to_list d)
  then Ret (map_imap (fun k j => match convert k j with Ret a => Some a | Raise _ => None end) d)
  else Raise TypeError.

(** Arguments of the expected types. *)
Definition arg_int (d : gmap string argument) (k : string) : option Z :=
  match d !! k with Some (Plain (JInt z)) => Some z | _ => None end.
Definition arg_pid (d : gmap string argument) (k : string) : option (option (ProposalID U)) :=
  match d !! k with
  | Some (Plain JNull) => Some None
  | Some (Pid (JInt n) u) => u ← of_json u; Some (Some (MkPID n u))
  | _ => None
  end.
Definition arg_value (d : gmap string argument) (k : string) : option (option V) :=
  match d !! k with
  | Some (Plain JNull) => Some None
  | Some (Plain j) => v ← of_json j; Some (Some v)
  | _ => None
  end.

(** The parameters of the handlers, by type. *)
Definition handler (ty : string) : option (list string) :=
  if String.eqb ty "sync_request" then Some ["instance_number"]
  else if String.eqb ty "catchup" then Some ["instance_number"; "current_value"]
  else if String.eqb ty "nack" then Some ["instance_number"; "proposal_id"; "promised_proposal_id"]
  else if String.eqb ty "prepare" then Some ["instance_number"; "proposal_id"]
  else if String.eqb ty "promise" then
    Some ["instance_number"; "proposal_id"; "last_accepted_id"; "last_accepted_value"]
  else if String.eqb ty "accept" then Some ["instance_number"; "proposal_id"; "proposal_value"]
  else if String.eqb ty "accepted" then Some ["instance_number"; "proposal_id"; "proposal_value"]
  else None.

Definition arguments (ty : string) (d : gmap string argument) : option (wire U V) :=
  k ← arg_int d "instance_number";
  if String.eqb ty "sync_request" then Some (WSyncRequest k)
  else if String.eqb ty "catchup" then v ← arg_value d "current_value"; Some (WCatchup k v)
  else
    pid ← arg_pid d "proposal_id";
    if String.eqb ty "nack" then p ← arg_pid d "promised_proposal_id"; Some (WNack k pid p)
    else if String.eqb ty "prepare" then Some (WPrepare k pid)
    else if String.eqb ty "promise" then
      i ← arg_pid d "last_accepted_id"; v ← arg_value d "last_accepted_value";
      Some (WPromise k pid i v)
    else
      v ← arg_value d "proposal_value";
      if String.eqb ty "accept" then Some (WAccept k pid v) else Some (WAccepted k pid v).

(** What a handler does with arguments of types that no server sends. *)
Context (odd_call : U -> string -> gmap string argument -> M U V unit).
(** A text as a value: the data of a propose packet. *)
Context (text_value : string -> V).

(** [handler(from_uid, **kwargs)] *)
Definition call_handler (rnd : Q) (from_uid : U) (ty : string) (params : list string)
    (d : gmap string argument) : M U V unit :=
  if bool_decide (dom d = list_to_set params) then
    match arguments ty d with
    | Some m => CustomServer.receive rnd from_uid m
    | None => odd_call from_uid ty d
    end
  else py_raise TypeError.

Definition dispatch (self : Messenger) (rnd : Q) (packet : string) (from_addr : A) : M U V unit :=
  match split_once packet with
  | None => py_raise ValueError
  | Some (ty, data) =>
      if String.eqb ty "propose" then CustomServer.propose_update (text_value data)
      else match uid_of self !! from_addr with
      | None => py_raise KeyError
      | Some from_uid =>
          match handler ty with
          | None => py_return tt
          | Some params =>
              match loads data with
              | None => py_raise ValueError
              | Some None => py_raise AttributeError
              | Some (Some d) =>
                  match convert_all d with
                  | Raise e => py_raise e
                  | Ret d => call_handler rnd from_uid ty params d
                  end
              end
          end
      end
  end.

Definition datagramReceived (self : Messenger) (rnd : Q) (packet : string) (from_addr : A) : M U V unit :=
  py_try (dispatch self rnd packet from_addr) (py_return tt).

(** The XML-RPC entry of the test daemon; [now] is [timeit.default_timer()]. *)
Definition paxos_append (now : Q) (value : V) : M U V Q :=
  CustomServer.propose_update value ;;! py_return now.

(** ** Facts *)
Lemma split_once_app ty data : free_of " "%char ty = true -> split_once (ty +:+ " " +:+ data) = Some (ty, data).
Proof.
  induction ty as [|a ty IH]; [done|]. cbn [free_of]. rewrite andb_true_iff, negb_true_iff.
  intros [Ha Hty]. rewrite app_cons_s. cbn [split_once]. by rewrite Ha, IH.
Qed.

Definition converted (m : wire U V) : gmap string argument :=
  map_imap (fun k j => match convert k j with Ret a => Some a | Raise _ => None end) (message_kwargs m).

Lemma json_pid_converts k pid : exists a, convert k (json_pid pid) = Ret a.
Proof. unfold convert. destruct (py_endswith "_id" k), pid; cbn; eauto. Qed.
Lemma json_value_converts k v : py_endswith "_id" k = false -> convert k (json_value v) = Ret (Plain (json_value v)).
Proof. intros Hk. unfold convert. by rewrite Hk. Qed.

Lemma convert_message m : convert_all (message_kwargs m) = Ret (converted m).
Proof.
  unfold convert_all, converted.
  assert (Hall : map_Forall (fun k j => exists a, convert k j = Ret a) (message_kwargs m)).
  { destruct m; cbn [message_kwargs];
      repeat (apply map_Forall_insert_2);
      first [apply map_Forall_empty | apply map_Forall_singleton | idtac];
      first [done | apply json_pid_converts | eexists; by apply json_value_converts | eexists; reflexivity]. }
  destruct (forallb _ _) eqn:E; [done|].
  exfalso. apply not_true_iff_false in E. apply E. apply forallb_forall. intros [k j] Hin%list_elem_of_In.
  apply elem_of_map_to_list in Hin. apply Hall in Hin as [a Ha]. cbn. by rewrite Ha.
Qed.

Lemma lookup_converted m k j a : message_kwargs m !! k = Some j -> convert k j = Ret a ->
  converted m !! k = Some a.
Proof. intros Hk Ha. unfold converted. rewrite map_lookup_imap, Hk. cbn. by rewrite Ha. Qed.

Lemma arg_int_of m k z : message_kwargs m !! k = Some (JInt z) -> py_endswith "_id" k = false ->
  arg_int (converted m) k = Some z.
Proof.
  intros Hk He. unfold arg_int. rewrite (lookup_converted m k (JInt z) (Plain (JInt z))); [done|done|].
  unfold convert. by rewrite He.
Qed.

Lemma arg_pid_of m k pid : message_kwargs m !! k = Some (json_pid pid) -> py_endswith "_id" k = true ->
  arg_pid (converted m) k = Some pid.
Proof.
  intros Hk He. unfold arg_pid. destruct pid as [[n u]|].
  - rewrite (lookup_converted m k _ (Pid (JInt n) (to_json u)) Hk); [by rewrite of_to_json|].
    unfold convert. by rewrite He.
  - rewrite (lookup_converted m k _ (Plain JNull) Hk); [done|]. unfold convert. by rewrite He.
Qed.

Lemma arg_value_of m k v : message_kwargs m !! k = Some (json_value v) -> py_endswith "_id" k = false ->
  arg_value (converted m) k = Some v.
Proof.
  intros Hk He. unfold arg_value.
  rewrite (lookup_converted m k _ (Plain (json_value v)) Hk); [|by apply json_value_converts].
  destruct v as [v|]; [|done]. cbn [json_value]. pose proof (to_json_null v) as Hn.
  destruct (to_json v) eqn:E; rewrite <-?E, ?of_to_json; done.
Qed.

(** What was sent is what is read. *)
Lemma arguments_message m : arguments (message_type m) (converted m) = Some m.
Proof.
  unfold arguments. destruct m; cbn [message_type];
    repeat match goal with
    | |- context [String.eqb ?a ?b] => let r := eval vm_compute in (String.eqb a b) in change (String.eqb a b) with r
    end; cbn iota;
    (erewrite arg_int_of by (first [by simplify_map_eq | reflexivity]));
    cbn [mbind option_bind];
    repeat match goal with
    | |- context [arg_pid _ _] => erewrite arg_pid_of by (first [by simplify_map_eq | reflexivity]); cbn [mbind option_bind]
    | |- context [arg_value _ _] => erewrite arg_value_of by (first [by simplify_map_eq | reflexivity]); cbn [mbind option_bind]
    end; done.
Qed.

Lemma dom_converted m params : handler (message_type m) = Some params ->
  dom (converted m) = list_to_set params.
Proof.
  assert (Hd : dom (converted m) = dom (message_kwargs m)).
  { unfold converted. apply dom_imap_L. intros k. split; [|by intros (x & Hx & _); apply elem_of_dom].
    intros [x Hx]%elem_of_dom. exists x. split; [done|].
    pose proof (convert_message m) as Hc. unfold convert_all in Hc.
    destruct (forallb _ _) eqn:E; [|done]. rewrite forallb_forall in E.
    specialize (E (k, x)). cbn in E. destruct (convert k x); [by eexists|].
    discriminate E. by apply list_elem_of_In, elem_of_map_to_list. }
  rewrite Hd. destruct m; vm_compute handler; intros [= <-]; cbn [message_kwargs list_to_set foldr];
    rewrite ?dom_insert_L, ?dom_singleton_L; set_solver.
Qed.

(** A packet of the network as PaxosSystem.v has it. *)
Lemma dispatch_sent self_s self_r to_uid from_uid m rnd packet addr from_addr s :
  _send self_s to_uid m = Ret (packet, addr) -> uid_of self_r !! from_addr = Some from_uid ->
  dispatch self_r rnd packet from_addr s = CustomServer.receive rnd from_uid m s.
Proof.
  unfold _send. destruct (addr_of self_s !! to_uid); [|done]. intros [= <- _] Hu.
  unfold dispatch, msg_text. rewrite split_once_app by (by destruct m).
  assert (String.eqb (message_type m) "propose" = false) as -> by (by destruct m).
  rewrite Hu. assert (exists ps, handler (message_type m) = Some ps) as [ps Hps]
    by (destruct m; eexists; reflexivity).
  rewrite Hps, loads_dumps, convert_message. unfold call_handler.
  rewrite bool_decide_eq_true_2 by (by apply dom_converted). by rewrite arguments_message.
Qed.

End messenger.

(** ** The theorems *)
Section theorems.
Context {U V A : Type} `{Countable U} `{PyOrder U} `{EqDecision V} `{Countable A}.
Context `{JsonText} `{Jsonable U} `{Jsonable V}.
Context (odd_call : U -> string -> gmap string argument -> M U V unit) (text_value : string -> V).

(** A message that one server sends, received from an address that the other
    knows, is handled there as that very message from that server: ids, values
    and their absence survive the text; an exception of the handler is caught. *)
Theorem datagram_roundtrip (self_s self_r : Messenger (U := U) (A := A)) to_uid from_uid
    (m : wire U V) rnd packet addr from_addr s :
  _send self_s to_uid m = Ret (packet, addr) -> uid_of self_r !! from_addr = Some from_uid ->
  datagramReceived odd_call text_value self_r rnd packet from_addr s =
  py_try (CustomServer.receive rnd from_uid m) (py_return tt) s.
Proof.
  intros Hs Hu. unfold datagramReceived, py_try.
  by rewrite (dispatch_sent odd_call text_value self_s self_r to_uid from_uid m rnd packet addr from_addr).
Qed.

(** A datagram that is no message: no blank, an unknown sender, an unknown type,
    no JSON object, or other keys than the handler's parameters. *)
Definition malformed (self : Messenger (U := U) (A := A)) (packet : string) (from_addr : A) : Prop :=
  match split_once packet with
  | None => True
  | Some (ty, data) =>
      ty <> "propose" /\
      (uid_of self !! from_addr = None \/
       match handler ty with
       | None => True
       | Some params =>
           match loads data with
           | Some (Some d) =>
               match convert_all d with Ret d => dom d <> list_to_set params | Raise _ => True end
           | _ => True
           end
       end)
  end.

(** A malformed datagram changes nothing, sends nothing and raises nothing. *)
Theorem malformed_ignored self rnd packet from_addr s : malformed self packet from_addr ->
  datagramReceived odd_call text_value self rnd packet from_addr s = (s, [], Ret tt).
Proof.
  unfold malformed, datagramReceived, py_try, dispatch.
  destruct (split_once packet) as [[ty data]|]; [|done].
  intros [Hty Hbad]. rewrite (proj2 (String.eqb_neq _ _)) by done.
  destruct (uid_of self !! from_addr) as [u|]; [|done]. destruct Hbad as [|Hbad]; [done|].
  destruct (handler ty) as [params|]; [|done]. destruct (loads data) as [[d|]|]; [|done..].
  destruct (convert_all d) as [d'|e]; [|done]. unfold call_handler.
  by rewrite bool_decide_eq_false_2.
Qed.
End theorems.

(** ** An instance: any injective text will do *)
Fixpoint tree_of (j : json) : gen_tree (Z + string) :=
  match j with
  | JNull => GenNode 0 []
  | JInt z => GenLeaf (inl z)
  | JStr s => GenLeaf (inr s)
  | JList l => GenNode 1 (tree_of <$> l)
  end.
Fixpoint of_tree (t : gen_tree (Z + string)) : json :=
  match t with
  | GenLeaf (inl z) => JInt z
  | GenLeaf (inr s) => JStr s
  | GenNode 0 _ => JNull
  | GenNode _ l => JList (of_tree <$> l)
  end.
Lemma of_tree_of j : of_tree (tree_of j) = j.
Proof.
  revert j. fix FIX 1. intros [|z|s|l]; [done..|]. cbn. f_equal.
  induction l as [|j l IH]; [done|]. cbn. by rewrite FIX, IH.
Qed.
#[export] Instance json_eq_dec : EqDecision json.
Proof.
  refine (fun x y => cast_if (decide (tree_of x = tree_of y))); [|by intros ->].
  by rewrite <-(of_tree_of x), <-(of_tree_of y), e.
Defined.
#[export] Instance json_countable : Countable json := inj_countable' tree_of of_tree of_tree_of.

Definition coded_json : JsonText.
Proof.
  refine {| dumps d := py_str (Z.pos (encode d));
            loads s := z ← py_int s; Some (decode (Z.to_pos z)) |}.
  intros d. rewrite py_int_str by done. cbn. by rewrite decode_encode.
Defined.

#[export] Instance string_jsonable : Jsonable string.
Proof.
  refine {| to_json := JStr; of_json j := match j with JStr s => Some s | _ => None end |}; done.
Defined.
#[export] Instance Z_jsonable : Jsonable Z.
Proof.
  refine {| to_json := JInt; of_json j := match j with JInt z => Some z | _ => None end |}; done.
Defined.

(** Server 1 sends server 2 a promise; servers 1 and 2 are at "a" and "b". *)
Module Demo.
Definition book : Messenger (U := Z) (A := string) := messenger_init [(1, "a"); (2, "b")].
Definition server : t Z string := Base.init 2 [1; 2] None.
Definition promise : wire Z string := WPromise 0 (Some (MkPID 3 2)) None None.
Definition odd : Z -> string -> gmap string argument -> M Z string unit := fun _ _ _ => py_return tt.
End Demo.

#[local] Existing Instance coded_json.

Lemma datagram_roundtrip_witness : exists packet,
  _send Demo.book 2 Demo.promise = Ret (packet, "b") /\
  datagramReceived Demo.odd id Demo.book 0%Q packet "a" Demo.server =
  py_try (CustomServer.receive 0%Q 1 Demo.promise) (py_return tt) Demo.server.
Proof.
  exists (msg_text (message_type Demo.promise) (message_kwargs Demo.promise)). split; [done|].
  by apply (datagram_roundtrip Demo.odd id Demo.book Demo.book 2 1 Demo.promise 0%Q _ "b").
Defined.

Lemma malformed_ignored_witness :
  datagramReceived Demo.odd id Demo.book 0%Q "promise 17" "nowhere" Demo.server = (Demo.server, [], Ret tt).
Proof. apply malformed_ignored. split; [done|]. by left. Defined.
