(* ===== verification/Client.v ===== *)
(** * The Paxos clients and the server with a fixed configuration

    client.py, custom_client.py, server.py and config.py of src/paxos/.  A client
    sends a datagram "propose value"; [client_value_proposed] follows it into
    the server.  The worker thread of custom_client.py shares a list with the
    main thread: [ReactorThread] is the state of both, its steps are the accesses
    to the list and to [spin] in any interleaving. *)
From stdpp Require Import base gmap sets list strings.
From Stdlib Require Import ZArith QArith Lia Strings.Ascii.
From S2P Require Import Prelude PyStr PyText PyExcept ComposablePaxos ReplicatedValue MasterStrategy Messenger.
Local Open Scope Z_scope.

(** ** config.py *)
Abbreviation address := (string * Z)%type.
Definition peers : list (string * address) :=
  [("A", ("127.0.0.1", 1234)); ("B", ("127.0.0.1", 1235)); ("C", ("127.0.0.1", 1236))].
Definition state_files : list (string * string) :=
  [("A", "/tmp/A.json"); ("B", "/tmp/B.json"); ("C", "/tmp/C.json")].

(** ** client.py: one datagram, or exit status 1 *)
Definition client_packet (new_value : string) : string := "propose " +:+ new_value.
Definition client (argv : list string) : string * address + Z :=
  match argv with
  | [_; uid; new_value] =>
      match (list_to_map peers : gmap string address) !! uid with
      | Some addr => inl (client_packet new_value, addr)
      | None => inr 1
      end
  | _ => inr 1
  end.

(** ** server.py: the object, without or with the dedicated master *)
Section server.
(** The state files that are there. *)
Context (files : string -> option (saved string string)).
Definition server_state_file (uid : string) : option (saved string string) :=
  name ← (list_to_map state_files : gmap string string) !! uid; files name.
Definition server (uid : string) : ReplicatedValue.t string string :=
  Base.init uid peers.*1 (server_state_file uid).
Definition server_master `{MasterJson string string} (now : Q) (uid : string) : Master.t string string :=
  Master.init now uid peers.*1 (server_state_file uid).
Definition server_messenger : Messenger (U := string) (A := address) := messenger_init peers.
End server.

(** ** custom_client.py *)
Module ReactorThread.
(** Where [append_from_queue] is. *)
Inductive point : Type := AtSpin | AtLen | AtPop | Stopped.
(** [sent]: the values whose datagram has been written. *)
Record t : Type := mk { spin : bool; queue : list string; worker : point; sent : list string }.
Inductive action : Type :=
| AddItem (item : string)
| Stop
| Work.

Definition init : t := mk true [] AtSpin [].
(** [self.queue.pop()] takes the last item. *)
Definition py_pop (l : list string) : option (list string * string) :=
  match reverse l with [] => None | x :: l => Some (reverse l, x) end.

Definition add_item (item : string) (s : t) : t := mk (spin s) (queue s ++ [item]) (worker s) (sent s).
Definition stop (s : t) : t := mk false (queue s) (worker s) (sent s).
(** One access of the worker; [None] is the IndexError of [pop]. *)
Definition work (s : t) : option t :=
  match worker s with
  | AtSpin => Some (mk (spin s) (queue s) (if spin s then AtLen else Stopped) (sent s))
  | AtLen => Some (mk (spin s) (queue s) (match queue s with [] => AtSpin | _ => AtPop end) (sent s))
  | AtPop =>
      match py_pop (queue s) with
      | Some (q, x) => Some (mk (spin s) q AtSpin (sent s ++ [x]))
      | None => None
      end
  | Stopped => Some s
  end.
Definition step (a : action) (s : t) : option t :=
  match a with
  | AddItem x => Some (add_item x s)
  | Stop => Some (stop s)
  | Work => work s
  end.
Fixpoint run (acts : list action) (s : t) : option t :=
  match acts with
  | [] => Some s
  | a :: acts => s' ← step a s; run acts s'
  end.
Definition added (acts : list action) : list string :=
  omap (fun a => match a with AddItem x => Some x | _ => None end) acts.

(** The calls of [main], the main thread; what the worker does meanwhile is open. *)
Definition main_calls : list action := [AddItem "111"; AddItem "222"; AddItem "444"; Stop].

#[export] Instance action_eq_dec : EqDecision action.
Proof. solve_decision. Defined.
Definition of_main (acts : list action) : Prop := filter (fun a => a <> Work) acts = main_calls.

(** ** Facts *)
Lemma py_pop_snoc q x : py_pop (q ++ [x]) = Some (q, x).
Proof. unfold py_pop. by rewrite reverse_snoc, reverse_involutive. Qed.
Lemma py_pop_split q : q <> [] -> exists q' x, q = q' ++ [x] /\ py_pop q = Some (q', x).
Proof.
  intros Hq. destruct q as [|x q _] using rev_ind; [done|]. exists q, x. split; [done|]. apply py_pop_snoc.
Qed.

(** At the pop there is an item: only the worker removes items. *)
Definition inv (acts : list action) (s : t) : Prop :=
  (worker s = AtPop -> queue s <> []) /\ sent s ++ queue s ≡ₚ added acts.

Lemma inv_step acts a s : inv acts s -> exists s', step a s = Some s' /\ inv (acts ++ [a]) s'.
Proof.
  intros [Hpop Hall]. unfold inv, added. rewrite omap_app. fold (added acts).
  destruct a as [x| |]; cbn [step omap list_omap]; rewrite ?app_nil_r.
  - eexists. split; [done|]. cbn. split; [by intros _ [_ [=]]%app_nil|]. by rewrite <-Hall, app_assoc.
  - by eexists.
  - unfold work. destruct (worker s) eqn:Ew; [| | |exists s; by rewrite Ew].
    + eexists. split; [done|]. cbn. split; [by destruct (spin s)|done].
    + eexists. split; [done|]. cbn. split; [|done]. by destruct (queue s).
    + destruct (py_pop_split (queue s)) as (q & x & Eq & ->); [by apply Hpop|]. eexists. split; [done|].
      cbn. split; [done|]. rewrite <-Hall, Eq. by rewrite <-app_assoc, (Permutation_app_comm [x] q).
Qed.

Lemma run_inv acts acts' s : inv acts s -> exists s', run acts' s = Some s' /\ inv (acts ++ acts') s'.
Proof.
  revert acts s. induction acts' as [|a acts' IH]; intros acts s Hs; [exists s; by rewrite app_nil_r|].
  destruct (inv_step acts a s Hs) as (s1 & E & Hs1). destruct (IH _ _ Hs1) as (s' & E' & Hs').
  exists s'. cbn. rewrite E. cbn. split; [done|]. by rewrite <-app_assoc in Hs'.
Qed.

Lemma drain_one q x l : run [Work; Work; Work] (mk true (q ++ [x]) AtSpin l) = Some (mk true q AtSpin (l ++ [x])).
Proof.
  cbn. assert (match q ++ [x] with [] => AtSpin | _ => AtPop end = AtPop) as -> by by destruct q.
  cbn. by rewrite py_pop_snoc.
Qed.
Lemma run_app acts acts' s : run (acts ++ acts') s = (s' ← run acts s; run acts' s').
Proof. revert s. induction acts as [|a acts IH]; intros s; [done|]. cbn. destruct (step a s); cbn; [apply IH|done]. Qed.
End ReactorThread.

Import ReactorThread.

(** The shared list is safe without a lock: in every interleaving the worker's
    [pop] finds an item, and every added item is sent once or still waits. *)
Theorem worker_conserves acts : exists s, run acts init = Some s /\ sent s ++ queue s ≡ₚ added acts.
Proof. destruct (run_inv [] acts init) as (s & E & _ & Hs); [done|]. by exists s. Qed.

(** While nobody adds or stops, three accesses of the worker send one item, the
    newest first. *)
Theorem worker_drains q l : run (repeat Work (3 * length q)) (mk true q AtSpin l) = Some (mk true [] AtSpin (l ++ reverse q)).
Proof.
  revert l. induction q as [|x q IH] using rev_ind; intros l; [cbn; by rewrite app_nil_r|].
  rewrite length_app. replace (3 * (length q + length [x]))%nat with (3 + 3 * length q)%nat by (cbn; lia).
  rewrite repeat_app, run_app. change (repeat Work 3) with [Work; Work; Work]. rewrite drain_one. cbn [mbind option_bind].
  rewrite IH, reverse_snoc. by rewrite <-app_assoc.
Qed.

(** The last value of [main] can be lost: [stop] follows its [add_item] at once,
    and the worker that sees [spin] unset stops without looking at the list. *)
Theorem last_value_lost : exists acts s, of_main acts /\ run acts init = Some s /\
  worker s = Stopped /\ sent s = ["111"; "222"] /\ forall acts' s', run acts' s = Some s' -> sent s' = ["111"; "222"].
Proof.
  exists ([AddItem "111"; Work; Work; Work; AddItem "222"; Work; Work; Work; AddItem "444"; Stop; Work]).
  eexists. split; [done|]. split; [reflexivity|]. split; [done|]. split; [done|].
  assert (Hs : forall acts' s0 s', worker s0 = Stopped -> run acts' s0 = Some s' -> sent s' = sent s0).
  { induction acts' as [|a acts' IH]; intros s0 s' Hw; [by intros [= ->]|]. cbn.
    destruct a; cbn; [| |unfold work; rewrite Hw; cbn]; intros E; by apply IH in E. }
  intros acts' s' E. by apply (Hs acts' _ s') in E.
Qed.

(** ** A client's value reaches the server *)
Section propose.
Context `{JsonText}.
Context (odd_call : string -> string -> gmap string argument -> M string string unit).

(** Whatever address the client has, and whatever its value is, blanks
    included: the server proposes exactly this text; an exception of the
    proposal is caught. *)
Theorem client_value_proposed uid new_value packet addr rnd from_addr s :
  client ["client.py"; uid; new_value] = inl (packet, addr) ->
  datagramReceived odd_call id server_messenger rnd packet from_addr s =
    py_try (CustomServer.propose_update new_value) (py_return tt) s /\
  addr_of server_messenger !! uid = Some addr.
Proof.
  cbn -[lookup list_to_map]. destruct (_ !! uid) as [a|] eqn:Eu; [|done]. intros [= <- <-].
  split; [|done]. unfold datagramReceived, py_try, dispatch, client_packet.
  change ("propose " +:+ new_value) with ("propose" +:+ " " +:+ new_value). by rewrite split_once_app.
Qed.
End propose.

#[local] Existing Instance coded_json.

Lemma client_value_proposed_witness :
  let odd := fun (_ _ : string) (_ : gmap string argument) => py_return tt : M string string unit in
  let s := server (fun _ => None) "B" in
  datagramReceived odd id server_messenger 0%Q "propose a b" ("10.0.0.9", 4) s =
    py_try (CustomServer.propose_update "a b") (py_return tt) s /\
  addr_of server_messenger !! "B" = Some ("127.0.0.1", 1235).
Proof. by apply client_value_proposed. Defined.

