(* ===== verification/ConfigureDaemon.v ===== *)
(** * The configure daemon of a node (configure_daemon.py)

    Functions that start the processes of a node and wait for their ports; the
    provisioner calls them directly for a local cluster and over XML-RPC on
    virtual machines.  What a started process does, whether a port answers and
    what a program prints is the interface [Machines]. *)
From stdpp Require Import base list strings.
From Stdlib Require Import ZArith QArith Lia Strings.Ascii.
From S2P Require Import Prelude PyList PyStr PyText PyExcept PyFuel.
Local Open Scope Z_scope.

Definition CONFIGURE_DAEMON_PORT : Z := 12345.
Definition TEST_DAEMON_PORT : Z := 2082.
Definition NETWORK_MANAGER_PORT : Z := 12347.
Definition LOCAL_NODE_CONF_FILE : string := "node_conf.json".

(** Where a function runs: on the machine of the provisioner or on a node. *)
Inductive location : Type := Here | Vm (i : nat).

#[export] Instance location_eq_dec : EqDecision location.
Proof. solve_decision. Defined.

(** A process: a command line for the shell, or its arguments. *)
Inductive process : Type :=
| Shell (cmd : string)
| Args (command : list string).

#[export] Instance process_eq_dec : EqDecision process.
Proof. solve_decision. Defined.

(** [popen] starts a process, and [output] also waits for what it prints;
    [connect] is [connect_ex((host, port)) == 0]; [sleep] lets time pass. *)
Class Machines (W : Type) : Type := {
  popen : location -> process -> W -> W * outcome unit;
  output : location -> process -> W -> W * outcome string;
  connect : location -> string -> Z -> bool -> W -> W * bool;
  sleep : Q -> W -> W;
}.

Section daemon.
Context {S W E : Type} `{Machines W}.
(** The machines within the state of the caller, and its events. *)
Context (machines : S -> W) (set_machines : W -> S -> S).
Context (started : location -> process -> E).
Abbreviation M A := (PyM S E A).
Abbreviation F A := (PyF S E A).

Definition on_machines {A} (f : W -> W * A) : M A :=
  fun s => let '(w, a) := f (machines s) in (set_machines w s, [], Ret a).

Definition Popen (at_ : location) (p : process) : M unit :=
  py_emit [started at_ p] ;;!
  py_call (fun s => let '(w, r) := popen at_ p (machines s) in (set_machines w s, r)).
Definition Popen_output (at_ : location) (p : process) : M string :=
  py_emit [started at_ p] ;;!
  py_call (fun s => let '(w, r) := output at_ p (machines s) in (set_machines w s, r)).

Definition is_socket_free (at_ : location) (host : string) (port : Z) (tcp : bool) : M bool :=
  on_machines (connect at_ host port tcp).

(** [while not is_socket_free(...): sleep(timeout)] *)
Fixpoint wait_for_port (fuel : nat) (at_ : location) (host : string) (port : Z) (timeout : Q) (tcp : bool) : F unit :=
  match fuel with
  | O => f_more
  | Datatypes.S fuel =>
      let? free := f_lift (is_socket_free at_ host port tcp) in
      if (free : bool) then f_return tt
      else f_lift (on_machines (fun w => (sleep timeout w, tt))) ;;?
           wait_for_port fuel at_ host port timeout tcp
  end.

Fixpoint wait_for_ports (fuel : nat) (at_ : location) (ports_to_check : list Z) (timeout : Q) (tcp : bool) : F unit :=
  match ports_to_check with
  | [] => f_return tt
  | port :: ports =>
      wait_for_port fuel at_ "127.0.0.1" port timeout tcp ;;?
      wait_for_ports fuel at_ ports timeout tcp
  end.

(** [os.path.dirname(os.path.abspath(__file__))] *)
Context (directory : location -> string).

Definition test_daemon_process (at_ : location) (algorithm : string) (algorithm_port : Z) : process :=
  let file_path := py_replace " " "\ " (directory at_) in
  Shell ("python3.4 " +:+ file_path +:+ "/test_daemon.py '' " +:+ algorithm +:+ " "
           +:+ py_str algorithm_port +:+ " &").
Definition run_test_daemon (fuel : nat) (at_ : location) (algorithm : string) (algorithm_port : Z) : F unit :=
  f_lift (Popen at_ (test_daemon_process at_ algorithm algorithm_port)) ;;?
  wait_for_ports fuel at_ [TEST_DAEMON_PORT] (1#2) true.

Definition network_manager_process : process := Args ["sudo"; "./network_manager.py"; LOCAL_NODE_CONF_FILE].
Definition run_network_manager (fuel : nat) (at_ : location) : F unit :=
  f_lift (Popen at_ network_manager_process) ;;?
  wait_for_ports fuel at_ [NETWORK_MANAGER_PORT] (3#10) true.

Definition metadata_process (attribute : string) : process :=
  Args ["curl"; "http://metadata.google.internal/computeMetadata/v1/instance/attributes/" +:+ attribute;
        "-H"; "Metadata-Flavor: Google"].
Definition download_node_config (at_ : location) : F string :=
  let? gcs_node_conf_file := f_lift (Popen_output at_ (metadata_process "clusterConfig")) in
  let? bucket := f_lift (Popen_output at_ (metadata_process "bucket")) in
  f_lift (Popen at_ (Args ["sudo"; "gsutil"; "cp";
    "gs://" +:+ bucket +:+ "/" +:+ gcs_node_conf_file; LOCAL_NODE_CONF_FILE])) ;;?
  f_return ("GCS file download completed " +:+ gcs_node_conf_file).

(** [server] is the directory of the algorithm's custom_server.py; the test
    daemon's address is passed to the node that reports to it. *)
Definition server_process (server node_config_file : string) (test_daemon : option string) : process :=
  match test_daemon with
  | Some d =>
      if String.eqb d "" then Shell ("./" +:+ server +:+ "/custom_server.py " +:+ node_config_file +:+ " &")
      else Shell ("./" +:+ server +:+ "/custom_server.py " +:+ node_config_file +:+ " " +:+ d +:+ " &")
  | None => Shell ("./" +:+ server +:+ "/custom_server.py " +:+ node_config_file +:+ " &")
  end.

Definition run_pso_node (fuel : nat) (at_ : location) (port : Z) (node_config_file : string)
    (test_daemon : option string) : F string :=
  f_lift (Popen at_ (server_process "pysyncobj" node_config_file test_daemon)) ;;?
  wait_for_ports fuel at_ [port] (3#10) false ;;?
  f_return "PSO node started".

Definition run_paxos_node (fuel : nat) (at_ : location) (port : Z) (node_config_file : string)
    (test_daemon : option string) : F string :=
  f_lift (Popen at_ (server_process "paxos" node_config_file test_daemon)) ;;?
  wait_for_ports fuel at_ [port] (3#10) false ;;?
  f_return "Paxos node started".

Definition rethinkdb_master_process (cluster_port driver_port http_port : Z) (canonical_address : string) : process :=
  Shell ("rethinkdb --cache-size 0 --bind all --cluster-port " +:+ py_str cluster_port +:+ " --driver-port "
    +:+ py_str driver_port +:+ " --http-port " +:+ py_str http_port +:+ " --canonical-address "
    +:+ canonical_address +:+ " &").
Definition configure_rethinkdb_master (fuel : nat) (at_ : location) (cluster_port driver_port http_port : Z)
    (canonical_address : string) : F string :=
  f_lift (Popen at_ (rethinkdb_master_process cluster_port driver_port http_port canonical_address)) ;;?
  wait_for_ports fuel at_ [cluster_port; driver_port; http_port] (1#2) true ;;?
  f_return ("RethinkDB master ready on port " +:+ py_str cluster_port).

Definition rethinkdb_follower_process (my_id : Z) (m_ip : string) (m_cp my_cp my_dp my_hp : Z) : process :=
  Shell ("rethinkdb --cache-size 0 --bind all --directory rethinkdb_data" +:+ py_str my_id +:+ " --join "
    +:+ m_ip +:+ ":" +:+ py_str m_cp +:+ " --cluster-port " +:+ py_str my_cp +:+ " --driver-port "
    +:+ py_str my_dp +:+ " --http-port " +:+ py_str my_hp +:+ " &").
Definition configure_rethinkdb_follower (fuel : nat) (at_ : location) (my_id : Z) (m_ip : string)
    (m_cp my_cp my_dp my_hp : Z) : F string :=
  f_lift (Popen at_ (rethinkdb_follower_process my_id m_ip m_cp my_cp my_dp my_hp)) ;;?
  wait_for_ports fuel at_ [my_cp; my_dp; my_hp] (1#2) true ;;?
  f_return ("RethinkDB follower ready on port " +:+ py_str my_cp).

(** [check_call]: the interface's [popen] raises when the command fails. *)
Definition stop_rethinkdb (at_ : location) : F string :=
  f_lift (Popen at_ (Shell "killall rethinkdb")) ;;? f_return "RethinkDB processes stopped".
End daemon.
