(* ===== verification/Provisioner.v ===== *)
(** * The provisioner (provisioner.py)

    It makes a cluster of nodes, local processes or virtual machines, writes
    their configurations, and starts on each the consensus algorithm and the
    network manager, and the test daemon on the first.  [event]s are what it
    writes and starts; the operating system is [Machines], the cloud [Gce]. *)
From stdpp Require Import base gmap sets list strings.
From Stdlib Require Import ZArith QArith Lia Strings.Ascii.
From S2P Require Import Prelude PyList PyStr PyText PyExcept PyFuel NetworkManager ConfigureDaemon.
Local Open Scope Z_scope.

Definition MAX_CLUSTER_NODES : Z := 8.
Definition CLUSTER_MODES : list string := ["local"; "gce"].
Definition CONSENSUS_ALGORITHMS : list string := ["pso"; "paxos"; "rethinkdb"; "datastore"].
Definition GCP_PROJECT_ID : string := "krafters-1334".
Definition GCS_BUCKET : string := "krafters".
Definition GCE_REGION_ID : string := "us-central1".
Definition GCE_ZONE_ID : string := "us-central1-c".
Definition GCE_FIREWALL_RULE_NAME : string := "allow-all-tcp-udp".
Definition GCE_INSTANCE_TYPE : string := "n1-standard-1".
Definition CONSENSUS_ALGORITHM_PORT : Z := 12348.
(** [GCE_RETHINKDB_PORTS] *)
Definition driver_port : Z := CONSENSUS_ALGORITHM_PORT.
Definition cluster_port : Z := CONSENSUS_ALGORITHM_PORT + 1.
Definition http_port : Z := CONSENSUS_ALGORITHM_PORT + 2.

(** ** Data *)
Record node : Type := mkNode {
  id : Z;
  address : string;
  port : Z;
  rpcPort : Z;
  node_interface : string;
  vmID : option string;
  internalIP : string;
}.

Record peer_config : Type := mkPeerConfig {
  p_address : string;
  p_port : Z;
  p_id : Z;
  p_addressesToLock : list string;
  p_portsToLock : list Z;
}.

Record node_config : Type := mkNodeConfig {
  c_mode : string;
  c_interface : string;
  c_rpcPort : Z;
  c_host_port : Z;
  c_host_address : string;
  c_host_id : Z;
  c_peers : list peer_config;
}.

(** masterConfig.json *)
Record master_config : Type := mkMaster {
  m_mode : string;
  m_algorithm : string;
  m_testDaemon : string;
  m_nodes : list node;
}.

(** The body of the request for a virtual machine. *)
#[warnings="-register-all"]
Inductive body : Type :=
| BStr (s : string)
| BBool (b : bool)
| BList (l : list body)
| BDict (kvs : list (string * body)).

Inductive event : Type :=
| Started (at_ : location) (p : process)
| WroteConfig (path : string) (c : node_config)
| WroteMaster (path : string) (c : master_config)
| CreatedVm (request : body)
| CreatedFirewall (name : string)
| Uploaded (path name : string)
| Deleted (name : string).

(** The cloud services: each call may raise. *)
Class Gce (W : Type) : Type := {
  credentials : W -> W * outcome unit;                  (* and the two clients *)
  image_link : W -> W * outcome string;                 (* getFromFamily(...)["selfLink"] *)
  insert_instance : body -> W -> W * outcome (option string);   (* the operation's name, if any *)
  operation_done : string -> W -> W * outcome bool;     (* its status is DONE *)
  instance_ips : string -> W -> W * outcome (string * string);  (* natIP, networkIP *)
  firewall_exists : W -> W * outcome unit;
  insert_firewall : W -> W * outcome unit;
  object_exists : string -> W -> W * outcome unit;
  delete_object : string -> W -> W * outcome unit;
  insert_object : string -> string -> W -> W * outcome unit;
}.

(** What only the provisioner asks of the operating system: a port that the
    system gives out, [random.choice(string.ascii_lowercase)], and files. *)
Class System (W : Type) : Type := {
  bind_port : W -> W * Z;
  random_letter : W -> W * ascii;
  startup_script : string -> W -> W * outcome string;    (* the text of a file *)
  dump_config : string -> node_config -> W -> W * outcome unit;    (* open(.., "w") and json.dump *)
  dump_master : string -> master_config -> W -> W * outcome unit;
}.

(** ** get_node_config *)
Section config.
(** The order of [list({...})]. *)
Context (set_order : gset string -> list string).

Definition peer_of (additional_ports : list Z) (p : node) : peer_config :=
  {| p_address := address p; p_port := port p; p_id := id p;
     p_addressesToLock := set_order {[ internalIP p; address p ]};
     p_portsToLock := [port p] ++ additional_ports |}.

Definition get_node_config (cluster : list node) (n : node) (mode : string)
    (additional_ports : option (list Z)) : node_config :=
  let additional_ports := default [] additional_ports in
  {| c_mode := mode; c_interface := node_interface n; c_rpcPort := rpcPort n;
     c_host_port := port n; c_host_address := address n; c_host_id := id n;
     c_peers := peer_of additional_ports <$> filter (fun p => id p <> id n) cluster |}.

(** network_manager.py, run_rpc_server: the manager of a configuration file. *)
Definition manager_of (c : node_config) : NetemManager :=
  {| interface := c_interface c; host_id := c_host_id c; mode := c_mode c;
     peers := (fun p => {| peer_id := p_id p; portsToLock := p_portsToLock p;
                           addressesToLock := p_addressesToLock p |}) <$> c_peers c |}.
End config.

(** ** create_instance *)
Definition network_interface : body :=
  BDict [("network", BStr "global/networks/default");
         (* two adjacent literals are one: there is no comma after the first *)
         ("projects/krafters-1334/regions/us-central1/subnetworks/default" +:+ "subnetwork",
          BStr ("projects/" +:+ GCP_PROJECT_ID +:+ "/regions/" +:+ GCE_REGION_ID +:+ "/subnetworks/default"));
         ("accessConfigs", BList [BDict [("type", BStr "ONE_TO_ONE_NAT"); ("name", BStr "External NAT")]])].

Definition instance_config (name image script : string) (metadata : list (string * string)) : body :=
  BDict [
    ("name", BStr name);
    ("machineType", BStr ("zones/" +:+ GCE_ZONE_ID +:+ "/machineTypes/" +:+ GCE_INSTANCE_TYPE));
    ("disks", BList [BDict [
      ("boot", BBool true); ("autoDelete", BBool true); ("type", BStr "PERSISTENT");
      ("mode", BStr "READ_WRITE"); ("deviceName", BStr (name +:+ "-disk"));
      ("initializeParams", BDict [
        ("sourceImage", BStr image);
        ("diskType", BStr ("projects/" +:+ GCP_PROJECT_ID +:+ "/zones/" +:+ GCE_ZONE_ID +:+ "/diskTypes/pd-standard"));
        ("diskSizeGb", BStr "10")])]]);
    ("networkInterfaces", BList [network_interface]);
    ("serviceAccounts", BList [BDict [
      ("email", BStr "default");
      ("scopes", BList (BStr <$> [
        "https://www.googleapis.com/auth/devstorage.read_write";
        "https://www.googleapis.com/auth/logging.write";
        "https://www.googleapis.com/auth/monitoring.write";
        "https://www.googleapis.com/auth/servicecontrol";
        "https://www.googleapis.com/auth/service.management"]))]]);
    ("tags", BDict [("items", BList [BStr "http-server"; BStr "https-server"])]);
    ("metadata", BDict [("items", BList (
      BDict [("key", BStr "startup-script"); ("value", BStr script)]
      :: ((fun kv => BDict [("key", BStr kv.1); ("value", BStr kv.2)]) <$> metadata)))]);
    ("scheduling", BDict [("preemptible", BBool false); ("onHostMaintenance", BStr "MIGRATE");
                          ("automaticRestart", BBool true)])].

Section provisioner.
Context {W : Type} `{Machines W} `{Gce W} `{System W}.
Context (set_order : gset string -> list string) (directory : location -> string).
(** [sys.executable], and the order of a dict's items. *)
Context (executable : string) (items_order : list (string * string) -> list (string * string)).

(** [RANDOM_PORTS_POOL] and the world. *)
Record state : Type := mkState { pool : gset Z; world : W }.
Definition set_world (w : W) (s : state) : state := {| pool := pool s; world := w |}.
Abbreviation M A := (PyM state event A).
Abbreviation F A := (PyF state event A).

Definition sys {A} (f : W -> W * A) : M A := on_machines world set_world f.
Definition ask {A} (f : W -> W * outcome A) : M A :=
  py_call (fun s => let '(w, r) := f (world s) in (set_world w s, r)).
Definition popen_here (p : process) : M unit := Popen world set_world Started Here p.
Definition write_node_file (path : string) (c : node_config) : M unit :=
  ask (dump_config path c) ;;! py_emit [WroteConfig path c].
Definition write_master_file (path : string) (c : master_config) : M unit :=
  ask (dump_master path c) ;;! py_emit [WroteMaster path c].

(** [while True]: until the system gives a port that was not given before. *)
Fixpoint get_free_random_port (fuel : nat) : F Z :=
  match fuel with
  | O => f_more
  | S fuel =>
      let? p := f_lift (sys bind_port) in
      let? s := f_lift (py_get (fun s => s)) in
      if bool_decide (p ∈ pool s) then get_free_random_port fuel
      else f_lift (py_set (fun s => {| pool := {[ p ]} ∪ pool s; world := world s |})) ;;? f_return p
  end.

Fixpoint get_random_string (length : nat) : M string :=
  match length with
  | O => py_return EmptyString
  | S length =>
      let! c := sys random_letter in
      let! s := get_random_string length in
      py_return (String c s)
  end.

(** [for x in l] with a body that may need fuel. *)
Fixpoint f_for {B} (l : list B) (body : B -> F unit) : F unit :=
  match l with
  | [] => f_return tt
  | x :: l => body x ;;? f_for l body
  end.

Definition node_file (i : string) : string := "/tmp/provision_node_" +:+ i +:+ "_config.json".

(** ** The consensus algorithm *)
Definition first_node (cluster : list node) : F node :=
  match cluster with [] => f_raise IndexError | n :: _ => f_return n end.

Definition run_node (algorithm : string) (fuel : nat) (at_ : location) (p : Z) (file : string)
    (test_daemon : option string) : F unit :=
  (if String.eqb algorithm "pso" then run_pso_node world set_world Started fuel at_ p file test_daemon
   else run_paxos_node world set_world Started fuel at_ p file test_daemon) ;;?
  f_return tt.

(** [configure_pso_local] and [configure_paxos_local] *)
Definition configure_local (algorithm : string) (fuel : nat) (cluster : list node) (test_daemon : string) : F unit :=
  let? first := first_node cluster in
  run_node algorithm fuel Here (port first) (node_file (py_str (id first))) (Some test_daemon) ;;?
  f_for (tail cluster) (fun n =>
    run_node algorithm fuel Here (port n) (node_file (py_str (id n))) None).

(** [configure_pso_gce] and [configure_paxos_gce]: daemon [i] is that of node
    [i] of the list. *)
Definition configure_gce (algorithm : string) (fuel : nat) (cluster : list node) (test_daemon : string) : F unit :=
  let? first := first_node cluster in
  run_node algorithm fuel (Vm 0) (port first) LOCAL_NODE_CONF_FILE (Some test_daemon) ;;?
  f_for (zip (seq 1 (length (tail cluster))) (tail cluster)) (fun '(i, n) =>
    run_node algorithm fuel (Vm i) (port n) LOCAL_NODE_CONF_FILE None).

Definition configure_rethinkdb_local (fuel : nat) (cluster : list node) : F unit :=
  let? master_cluster_port := get_free_random_port fuel in
  let? first := first_node cluster in
  let? http := get_free_random_port fuel in
  configure_rethinkdb_master world set_world Started fuel Here master_cluster_port (port first) http "localhost" ;;?
  f_for (tail cluster) (fun n =>
    let? my_cp := get_free_random_port fuel in
    let? my_hp := get_free_random_port fuel in
    configure_rethinkdb_follower world set_world Started fuel Here (id n) (address first) master_cluster_port
      my_cp (port n) my_hp ;;? f_return tt).

Definition configure_rethinkdb_gce (fuel : nat) (cluster : list node) : F unit :=
  let? first := first_node cluster in
  configure_rethinkdb_master world set_world Started fuel (Vm 0) cluster_port driver_port http_port (address first) ;;?
  f_for (zip (seq 1 (length (tail cluster))) (tail cluster)) (fun '(i, n) =>
    configure_rethinkdb_follower world set_world Started fuel (Vm i) (id n) (address first) cluster_port
      cluster_port driver_port http_port ;;? f_return tt).

(** ** A local cluster *)
Fixpoint local_nodes (fuel : nat) (ids0 : list Z) : F (list node) :=
  match ids0 with
  | [] => f_return []
  | i :: ids0 =>
      let? p := get_free_random_port fuel in
      let? rpc := get_free_random_port fuel in
      let? ns := local_nodes fuel ids0 in
      f_return ({| id := i; address := "127.0.0.1"; port := p; rpcPort := rpc; node_interface := "lo";
                   vmID := None; internalIP := "127.0.0.1" |} :: ns)
  end.

Definition manager_process (n : node) : process :=
  Args [executable; "network_manager.py"; node_file (py_str (id n))].

Definition provide_local_cluster (fuel : nat) (nodes_num : Z) (algorithm : string) : F unit :=
  let? cluster := local_nodes fuel (seqZ 1 nodes_num) in
  f_for cluster (fun n =>
    f_lift (write_node_file (node_file (py_str (id n))) (get_node_config set_order cluster n "local" None))) ;;?
  let test_daemon_endpoint := "127.0.0.1:" +:+ py_str TEST_DAEMON_PORT in
  (if String.eqb algorithm "pso" || String.eqb algorithm "paxos" then
     configure_local algorithm fuel cluster test_daemon_endpoint
   else if String.eqb algorithm "rethinkdb" then configure_rethinkdb_local fuel cluster
   else f_return tt) ;;?
  f_for cluster (fun n => f_lift (popen_here (manager_process n))) ;;?
  f_for cluster (fun n => wait_for_port world set_world fuel Here (address n) (rpcPort n) (3#10) true) ;;?
  let? first := first_node cluster in
  run_test_daemon world set_world Started directory fuel Here algorithm (port first) ;;?
  f_lift (write_master_file "masterConfig.json"
    {| m_mode := "local"; m_algorithm := algorithm; m_testDaemon := test_daemon_endpoint; m_nodes := cluster |}).

(** ** A cluster of virtual machines *)
Definition config_dir : string := "config/".
Definition config_file (vm : string) : string := "provision_node_" +:+ vm +:+ "_config.json".

Definition create_instance (name : string) (metadata : list (string * string)) (script : string) :
    M (option string) :=
  let! image := ask image_link in
  let! text := ask (startup_script script) in
  let config := instance_config name image text metadata in
  py_emit [CreatedVm config] ;;!
  ask (insert_instance config).

Fixpoint create_vms (ids0 : list Z) : M (list (string * option string)) :=
  match ids0 with
  | [] => py_return []
  | i :: ids0 =>
      let! random := get_random_string 6 in
      let vm := "vm-node-" +:+ py_str i +:+ "-" +:+ random in
      let metadata := items_order [("bucket", GCS_BUCKET); ("clusterConfig", config_dir +:+ config_file vm);
                                   ("myid", vm)] in
      let! op := create_instance vm metadata "gce-startup-script.sh" in
      let! vms := create_vms ids0 in
      py_return ((vm, op) :: vms)
  end.

(** [zone_op["name"]] of each *)
Fixpoint op_names (vms : list (string * option string)) : outcome (list (string * string)) :=
  match vms with
  | [] => Ret []
  | (vm, Some n) :: vms => l ← op_names vms; Ret ((vm, n) :: l)
  | (_, None) :: _ => Raise KeyError
  end.

Fixpoint wait_operation (fuel : nat) (zone : string) : F unit :=
  match fuel with
  | O => f_more
  | S fuel =>
      let? done_ := f_lift (ask (operation_done zone)) in
      if (done_ : bool) then f_return tt
      else f_lift (sys (fun w => (sleep 2 w, tt))) ;;? wait_operation fuel zone
  end.

Fixpoint gce_nodes (fuel : nat) (i : Z) (vms : list (string * string)) : F (list node) :=
  match vms with
  | [] => f_return []
  | (vm, zone) :: vms =>
      wait_operation fuel zone ;;?
      let? ips := f_lift (ask (instance_ips vm)) in
      let? ns := gce_nodes fuel (i + 1) vms in
      f_return ({| id := i; address := ips.1; port := CONSENSUS_ALGORITHM_PORT; rpcPort := NETWORK_MANAGER_PORT;
                   node_interface := "eth0"; vmID := Some vm; internalIP := ips.2 |} :: ns)
  end.

(** [try: get(...) except: insert(...)] *)
Definition allow_traffic : M unit :=
  py_try (ask firewall_exists)
         (py_emit [CreatedFirewall GCE_FIREWALL_RULE_NAME] ;;! ask insert_firewall).

Definition gcs_file_exists (file_name : string) : M bool :=
  py_try (ask (object_exists file_name) ;;! py_return true) (py_return false).

Fixpoint wait_file (fuel : nat) (file_name : string) : F unit :=
  match fuel with
  | O => f_more
  | S fuel =>
      let? found := f_lift (gcs_file_exists file_name) in
      if (found : bool) then f_return tt
      else f_lift (sys (fun w => (sleep 2 w, tt))) ;;? wait_file fuel file_name
  end.

Definition wait_startup (fuel : nat) (vm_id_file : string) : F unit :=
  wait_file fuel vm_id_file ;;?
  f_lift (py_emit [Deleted vm_id_file] ;;! ask (delete_object vm_id_file)).

Definition upload_object (file_path file_name : string) : M unit :=
  py_emit [Uploaded file_path file_name] ;;! ask (insert_object file_path file_name).

Definition write_config (algorithm : string) (cluster : list node) (n : node) : M unit :=
  let vm := default EmptyString (vmID n) in
  let node_config_file := "/tmp/" +:+ config_file vm in
  let additional_ports := if String.eqb algorithm "rethinkdb" then Some [cluster_port] else None in
  write_node_file node_config_file (get_node_config set_order cluster n "gce" additional_ports) ;;!
  upload_object node_config_file (config_dir +:+ config_file vm).

(** [configure_daemons[i]]: daemon [i] is that of the [i]th node. *)
Definition daemon_of (cluster : list node) (i : Z) : outcome location :=
  match py_pos (length cluster) i with Some k => Ret (Vm k) | None => Raise IndexError end.

Definition provide_gce_cluster (fuel : nat) (nodes_num : Z) (algorithm : string) : F unit :=
  f_lift (ask credentials) ;;?
  let? vms := f_lift (create_vms (seqZ 1 nodes_num)) in
  let? zones := f_lift (py_call (fun s => (s, op_names vms))) in
  let? cluster := gce_nodes fuel 1 zones in
  f_lift allow_traffic ;;?
  f_for (fst <$> vms) (wait_startup fuel) ;;?
  f_for cluster (fun n => f_lift (write_config algorithm cluster n)) ;;?
  f_for (seq 0 (length cluster)) (fun i => download_node_config world set_world Started (Vm i) ;;? f_return tt) ;;?
  let? first := first_node cluster in
  let test_daemon_endpoint := address first +:+ ":" +:+ py_str TEST_DAEMON_PORT in
  (if String.eqb algorithm "pso" || String.eqb algorithm "paxos" then
     configure_gce algorithm fuel cluster test_daemon_endpoint
   else if String.eqb algorithm "rethinkdb" then configure_rethinkdb_gce fuel cluster
   else f_return tt) ;;?
  f_for cluster (fun n =>
    let? at_ := f_lift (py_call (fun s => (s, daemon_of cluster (id n - 1)))) in
    run_network_manager world set_world Started fuel at_) ;;?
  run_test_daemon world set_world Started directory fuel (Vm 0) algorithm (port first) ;;?
  f_lift (write_master_file "masterConfig.json"
    {| m_mode := "gce"; m_algorithm := algorithm; m_testDaemon := test_daemon_endpoint; m_nodes := cluster |}).

(** The choices that argparse accepts. *)
Definition valid_args (nodes : Z) (mode algorithm : string) : bool :=
  (1 <=? nodes) && (nodes <? MAX_CLUSTER_NODES + 1) &&
  bool_decide (mode ∈ CLUSTER_MODES) && bool_decide (algorithm ∈ CONSENSUS_ALGORITHMS).
(** From the parsed arguments; an exception is printed. *)
Definition main (fuel : nat) (nodes : Z) (mode algorithm : string) : F unit :=
  f_try (if String.eqb mode "local" then provide_local_cluster fuel nodes algorithm
         else if String.eqb mode "gce" then provide_gce_cluster fuel nodes algorithm
         else f_return tt)
        (fun _ => f_return tt).
End provisioner.
