(* ===== verification/ProvisionerTheorems.v ===== *)
(** * What the provisioner has done when it returns

    A deployment that ended writes every configuration, then starts the
    algorithm, the network managers and the test daemon, in this order
    ([local_cluster_deployed]); the ports it gave are new and pairwise distinct;
    and the configurations are those that the test executor needs
    ([provisioned_links_reach_tc]). *)
From stdpp Require Import base gmap sets list strings.
From Stdlib Require Import ZArith QArith Lia Strings.Ascii.
From S2P Require Import Prelude PyList PyStr PyText PyExcept PyFuel NetworkManager ConfigureDaemon Provisioner.
Local Open Scope Z_scope.

Section deployment.
Context {W : Type} `{Machines W} `{Gce W} `{System W}.
Context (set_order : gset string -> list string) (directory : location -> string) (executable : string).
Abbreviation F A := (PyF (state (W := W)) event A).

(** The ports [ps] were taken, and no other. *)
Definition fresh (s s' : state (W := W)) (ps : list Z) : Prop :=
  NoDup ps /\ (forall p, p ∈ ps -> p ∉ pool s) /\ pool s' = list_to_set ps ∪ pool s.

Lemma fresh_same s s' : pool s' = pool s -> fresh s s' [].
Proof. intros E. split; [constructor|]. split; [set_solver|]. cbn. set_solver. Qed.
Lemma fresh_app s1 s2 s3 ps qs : fresh s1 s2 ps -> fresh s2 s3 qs -> fresh s1 s3 (ps ++ qs).
Proof.
  intros (Hn1 & Hp1 & E1) (Hn2 & Hp2 & E2). split; [|split].
  - apply NoDup_app. split; [done|]. split; [|done]. intros p Hp Hq. apply (Hp2 p Hq). set_solver.
  - intros p [Hp|Hp]%elem_of_app; [by apply Hp1|]. specialize (Hp2 p Hp). set_solver.
  - rewrite E2, E1, list_to_set_app_L. set_solver.
Qed.

(** [m], when it returns, has taken ports and done what [Q] says. *)
Definition gives {A} (m : F A) (Q : list Z -> list event -> A -> Prop) : Prop :=
  forall s s' es a, m s = Some (s', es, Ret a) -> exists ps, fresh s s' ps /\ Q ps es a.

Lemma gives_bind {A B} (m : F A) (k : A -> F B) Q1 Q :
  gives m Q1 -> (forall ps es a, Q1 ps es a -> gives (k a) (fun ps' es' b => Q (ps ++ ps') (es ++ es') b)) ->
  gives (f_bind m k) Q.
Proof.
  intros Hm Hk s s' es b (s1 & es1 & a & es2 & E1 & E2 & ->)%f_bind_result.
  destruct (Hm _ _ _ _ E1) as (ps & Hf & HQ1). destruct (Hk _ _ _ HQ1 _ _ _ _ E2) as (ps' & Hf' & HQ).
  exists (ps ++ ps'). eauto using fresh_app.
Qed.
Lemma gives_return {A} (a : A) (Q : list Z -> list event -> A -> Prop) : Q [] [] a -> gives (f_return a) Q.
Proof. intros HQ s s' es b [= <- <- <-]. exists []. split; [by apply fresh_same|done]. Qed.
Lemma gives_raise {A} e Q : gives (f_raise e : F A) Q.
Proof. by intros s s' es b Hb. Qed.
Lemma gives_more {A} Q : gives (f_more : F A) Q.
Proof. by intros s s' es b Hb. Qed.
Lemma gives_sys {A} (f : W -> W * A) Q : (forall a, Q [] [] a) -> gives (f_lift (sys f)) Q.
Proof.
  intros HQ s s' es b. unfold f_lift, sys, on_machines. destruct (f (world s)). intros [= <- <- <-].
  exists []. split; [by apply fresh_same|done].
Qed.
Lemma gives_emit es (Q : list Z -> list event -> unit -> Prop) : Q [] es tt -> gives (f_lift (py_emit es)) Q.
Proof. intros HQ s s' es' [] [= <- <-]. exists []. split; [by apply fresh_same|done]. Qed.
Lemma gives_weaken {A} (m : F A) (Q Q' : list Z -> list event -> A -> Prop) :
  gives m Q -> (forall ps es a, Q ps es a -> Q' ps es a) -> gives m Q'.
Proof. intros Hm HQ s s' es a E. destruct (Hm _ _ _ _ E) as (ps & ? & ?). eauto. Qed.

(** Nothing but the events [es]. *)
Definition just {A} (es : list event) (ps : list Z) (es' : list event) (a : A) : Prop := ps = [] /\ es' = es.

Lemma gives_just {A B} (m : F A) (k : A -> F B) es Q :
  gives m (just es) -> (forall a, gives (k a) (fun ps es' b => Q ps (es ++ es') b)) -> gives (f_bind m k) Q.
Proof. intros Hm Hk. eapply gives_bind; [exact Hm|]. intros ps es' a [-> ->]. apply Hk. Qed.
Lemma gives_quiet {A B} (m : F A) (k : A -> F B) Q :
  gives m (just []) -> (forall a, gives (k a) Q) -> gives (f_bind m k) Q.
Proof. intros Hm Hk. by apply (gives_just m k []). Qed.
Lemma gives_lift {A B} (c : PyM state event A) (k : A -> PyM state event B) Q :
  gives (f_bind (f_lift c) (fun a => f_lift (k a))) Q -> gives (f_lift (py_bind c k)) Q.
Proof.
  intros Hg s s' es b E. apply (Hg s). revert E. unfold f_lift, f_bind, py_bind.
  destruct (c s) as [[s1 e1] [a|e]]; [|done]. by destruct (k a s1) as [[s2 e2] r].
Qed.
Lemma gives_ask {A} (f : W -> W * outcome A) Q : (forall a, Q [] [] a) -> gives (f_lift (ask f)) Q.
Proof.
  intros HQ s s' es b. unfold f_lift, ask, py_call. destruct (f (world s)). intros [= <- <- ->].
  exists []. split; [by apply fresh_same|done].
Qed.
Lemma gives_write {A} (f : W -> W * outcome A) e (Q : list Z -> list event -> unit -> Prop) :
  Q [] [e] tt -> gives (f_lift (ask f ;;! py_emit [e])) Q.
Proof.
  intros HQ.
  apply gives_lift, gives_quiet; [by apply gives_ask|]. intros _. by apply gives_emit.
Qed.
Lemma gives_popen at_ p : gives (f_lift (Popen world set_world Started at_ p)) (just [Started at_ p]).
Proof.
  intros s s' es a. unfold f_lift, Popen, py_bind, py_emit, py_call.
  destruct (popen at_ p (world s)) as [w [[]|e]]; intros [= <- <- <-].
  exists []. split; [by apply fresh_same|done].
Qed.

Lemma gives_wait fuel at_ host port timeout tcp :
  gives (wait_for_port world set_world fuel at_ host port timeout tcp) (just []).
Proof.
  induction fuel as [|fuel IH]; [apply gives_more|]. cbn [wait_for_port].
  apply gives_quiet; [by apply gives_sys|]. intros [|]; [by apply gives_return|].
  apply gives_quiet; [by apply gives_sys|]. intros _. exact IH.
Qed.
Lemma gives_waits fuel at_ ports timeout tcp :
  gives (wait_for_ports world set_world fuel at_ ports timeout tcp) (just []).
Proof.
  induction ports as [|port ports IH]; [by apply gives_return|]. cbn [wait_for_ports].
  apply gives_quiet; [apply gives_wait|]. intros _. exact IH.
Qed.
Lemma gives_waits_then es fuel at_ ports timeout tcp :
  gives (wait_for_ports world set_world fuel at_ ports timeout tcp)
    (fun ps es' u => just es ps (es ++ es') u).
Proof.
  eapply gives_weaken; [apply gives_waits|]. intros ? ? u [-> ->]. by rewrite app_nil_r.
Qed.
(** A process, its ports and an answer. *)
Lemma gives_service {A} fuel at_ p ports timeout tcp (a : A) :
  gives (f_lift (Popen world set_world Started at_ p) ;;?
         wait_for_ports world set_world fuel at_ ports timeout tcp ;;? f_return a) (just [Started at_ p]).
Proof.
  eapply gives_just; [apply gives_popen|]. intros _.
  apply gives_quiet; [apply gives_waits|]. intros _. by apply gives_return.
Qed.

(** ** Loops *)
Lemma gives_for {B} (l : list B) (body : B -> F unit) (Q : B -> list Z -> list event -> Prop) :
  (forall x, x ∈ l -> gives (body x) (fun ps es _ => Q x ps es)) ->
  gives (f_for l body) (fun ps es _ => exists rs,
    Forall2 (fun x r => Q x r.1 r.2) l rs /\ ps = mjoin rs.*1 /\ es = mjoin rs.*2).
Proof.
  induction l as [|x l IH]; intros Hb; cbn [f_for].
  - apply gives_return. exists []. split; [constructor|done].
  - eapply gives_bind; [apply Hb; by left|]. intros ps es u HQ. cbn beta in HQ.
    eapply gives_weaken; [apply IH; intros y Hy; apply Hb; by right|].
    intros ps' es' u' (rs & Hrs & -> & ->). exists ((ps, es) :: rs). by split; [constructor|].
Qed.

Lemma gives_for_just {B} (l : list B) (body : B -> F unit) (f : B -> list event) :
  (forall x, x ∈ l -> gives (body x) (just (f x))) -> gives (f_for l body) (just (mjoin (f <$> l))).
Proof.
  intros Hb. eapply gives_weaken; [by apply (gives_for l body (fun x ps es => ps = [] /\ es = f x))|].
  intros ps es u (rs & Hrs & -> & ->). unfold just. clear Hb.
  induction Hrs as [|x r l rs [E1 E2] _ [IH1 IH2]]; [done|]. cbn in *. rewrite E1, E2.
  split; [exact IH1|exact (f_equal (app (f x)) IH2)].
Qed.

(** One event each. *)
Lemma gives_for_each {B} (l : list B) (body : B -> F unit) (f : B -> event) :
  (forall x, x ∈ l -> gives (body x) (just [f x])) -> gives (f_for l body) (just (f <$> l)).
Proof.
  intros Hb. eapply gives_weaken; [by apply (gives_for_just l body (fun x => [f x]))|].
  intros ps es u [-> ->]. split; [done|]. clear Hb. induction l as [|x l IH]; [done|]. cbn. by f_equal.
Qed.

(** ** Ports and nodes *)
Lemma gives_port fuel : gives (get_free_random_port fuel) (fun ps es p => ps = [p] /\ es = []).
Proof.
  induction fuel as [|fuel IH]; [apply gives_more|]. cbn [get_free_random_port].
  intros s s' es p (s1 & es1 & p0 & es2 & E1 & E2 & ->)%f_bind_result.
  assert (pool s1 = pool s /\ es1 = []) as [Hp ->].
  { unfold f_lift, sys, on_machines in E1. destruct (bind_port (world s)). by injection E1 as <- <- <-. }
  cbn in E2. unfold f_bind at 1 in E2. cbn in E2.
  destruct (bool_decide_reflect (p0 ∈ pool s1)) as [Hin|Hin]; cbn in E2.
  - destruct (get_free_random_port fuel s1) as [[[s2 e2] r]|] eqn:E3; [|done].
    injection E2 as <- <- ->. destruct (IH _ _ _ _ E3) as (ps & Hf & HQ). exists ps.
    split; [|done]. apply (fresh_app s s1 s2 [] ps); [by apply fresh_same|done].
  - injection E2 as <- <- <-. exists [p0]. split; [|done]. split; [|split].
    + by apply NoDup_singleton.
    + intros q ->%list_elem_of_singleton. by rewrite <-Hp.
    + cbn. rewrite Hp. set_solver.
Qed.

(** A node on the machine of the provisioner. *)
Definition is_local (n : node) : Prop :=
  address n = "127.0.0.1" /\ internalIP n = "127.0.0.1" /\ node_interface n = "lo" /\ vmID n = None.
Definition ports_of (cluster : list node) : list Z := mjoin ((fun n => [port n; rpcPort n]) <$> cluster).

Lemma gives_nodes fuel ids0 : gives (local_nodes fuel ids0) (fun ps es cluster =>
  id <$> cluster = ids0 /\ Forall is_local cluster /\ ps = ports_of cluster /\ es = []).
Proof.
  induction ids0 as [|i ids0 IH]; cbn [local_nodes]; [by apply gives_return|].
  eapply gives_bind; [apply gives_port|]. intros ? ? p [-> ->].
  eapply gives_bind; [apply gives_port|]. intros ? ? rpc [-> ->].
  eapply gives_bind; [exact IH|]. intros ps es ns (Hid & Hl & -> & ->).
  apply gives_return. rewrite fmap_cons, Hid. split; [done|].
  split; [|by rewrite app_nil_r]. by constructor.
Qed.

(** ** The consensus algorithm *)
Definition server_of (algorithm : string) : string := if String.eqb algorithm "pso" then "pysyncobj" else "paxos".

Lemma gives_run_node algorithm fuel at_ p file test_daemon :
  gives (run_node algorithm fuel at_ p file test_daemon)
    (just [Started at_ (server_process (server_of algorithm) file test_daemon)]).
Proof.
  unfold run_node, run_pso_node, run_paxos_node, server_of. destruct (String.eqb algorithm "pso");
    (rewrite <-(app_nil_r [_]); eapply gives_just; [apply gives_service|]; intros a; by apply gives_return).
Qed.

(** What starting an algorithm on a local cluster does, and the ports it takes:
    the first node alone is told the test daemon's address. *)
Inductive algorithm_local (cluster : list node) (test_daemon : string) :
    string -> list Z -> list event -> Prop :=
| local_server algorithm first rest : cluster = first :: rest -> algorithm ∈ ["pso"; "paxos"] ->
    algorithm_local cluster test_daemon algorithm []
      (Started Here (server_process (server_of algorithm) (node_file (py_str (id first))) (Some test_daemon)) ::
       ((fun n => Started Here (server_process (server_of algorithm) (node_file (py_str (id n))) None)) <$> rest))
| local_rethinkdb first rest cp hp (ports : list (Z * Z)) : cluster = first :: rest ->
    length ports = length rest ->
    algorithm_local cluster test_daemon "rethinkdb" (cp :: hp :: mjoin ((fun q => [q.1; q.2]) <$> ports))
      (Started Here (rethinkdb_master_process cp (port first) hp "localhost") ::
       zip_with (fun n q => Started Here (rethinkdb_follower_process (id n) (address first) cp q.1 (port n) q.2))
         rest ports)
| local_other algorithm : algorithm ∉ ["pso"; "paxos"; "rethinkdb"] ->
    algorithm_local cluster test_daemon algorithm [] [].

Lemma gives_first cluster : gives (first_node cluster) (fun ps es n =>
  ps = [] /\ es = [] /\ exists rest, cluster = n :: rest).
Proof. destruct cluster as [|n rest]; [apply gives_raise|]. apply gives_return. eauto. Qed.

Lemma gives_server algorithm fuel cluster test_daemon : algorithm ∈ ["pso"; "paxos"] ->
  gives (configure_local algorithm fuel cluster test_daemon)
    (fun ps es _ => algorithm_local cluster test_daemon algorithm ps es).
Proof.
  intros Ha. unfold configure_local.
  eapply gives_bind; [apply gives_first|]. intros ? ? first (-> & -> & rest & ->). cbn [tail app].
  eapply gives_just; [apply gives_run_node|]. intros _.
  eapply gives_weaken; [apply gives_for_each; intros n Hn; apply gives_run_node|].
  intros ps es u [-> ->]. by apply local_server.
Qed.

Lemma gives_followers fuel (first : node) cp rest :
  gives (f_for rest (fun n =>
    let? my_cp := get_free_random_port fuel in
    let? my_hp := get_free_random_port fuel in
    configure_rethinkdb_follower world set_world Started fuel Here (id n) (address first) cp
      my_cp (port n) my_hp ;;? f_return tt))
  (fun ps es _ => exists ports : list (Z * Z), length ports = length rest /\
     ps = mjoin ((fun q => [q.1; q.2]) <$> ports) /\
     es = zip_with (fun n q => Started Here (rethinkdb_follower_process (id n) (address first) cp q.1 (port n) q.2))
         rest ports).
Proof.
  induction rest as [|n rest IH]; cbn [f_for].
  - apply gives_return. by exists [].
  - eapply (gives_bind _ _ (fun ps es _ => exists p q, ps = [p; q] /\ es =
      [Started Here (rethinkdb_follower_process (id n) (address first) cp p (port n) q)])).
    + eapply gives_bind; [apply gives_port|]. intros ? ? my_cp [-> ->].
      eapply gives_bind; [apply gives_port|]. intros ? ? my_hp [-> ->]. cbn [app].
      eapply gives_just; [apply gives_service|]. intros _. apply gives_return. by eexists _, _.
    + intros ? ? u (p & q & -> & ->). eapply gives_weaken; [exact IH|].
      intros ? ? u' (ports & Hl & -> & ->). exists ((p, q) :: ports). cbn. by rewrite Hl.
Qed.

Lemma gives_rethinkdb fuel cluster test_daemon :
  gives (configure_rethinkdb_local fuel cluster)
    (fun ps es _ => algorithm_local cluster test_daemon "rethinkdb" ps es).
Proof.
  unfold configure_rethinkdb_local.
  eapply gives_bind; [apply gives_port|]. intros ? ? cp [-> ->].
  eapply gives_bind; [apply gives_first|]. intros ? ? first (-> & -> & rest & ->). cbn [tail app].
  eapply gives_bind; [apply gives_port|]. intros ? ? hp [-> ->]. cbn [app].
  eapply gives_just; [apply gives_service|]. intros _. cbn [app].
  eapply gives_weaken; [apply gives_followers|]. intros ? ? u (ports & Hl & -> & ->).
  by eapply (local_rethinkdb _ _ first rest cp hp ports).
Qed.

Lemma gives_test_daemon fuel at_ algorithm p :
  gives (run_test_daemon world set_world Started directory fuel at_ algorithm p)
    (just [Started at_ (test_daemon_process directory at_ algorithm p)]).
Proof. unfold run_test_daemon. eapply gives_just; [apply gives_popen|]. intros _. apply gives_waits_then. Qed.

Definition local_endpoint : string := "127.0.0.1:" +:+ py_str TEST_DAEMON_PORT.
Definition wrote_configs (cluster : list node) : list event :=
  (fun n => WroteConfig (node_file (py_str (id n))) (get_node_config set_order cluster n "local" None)) <$> cluster.
Definition started_managers (cluster : list node) : list event :=
  (fun n => Started Here (manager_process executable n)) <$> cluster.
Definition ready (algorithm : string) (cluster : list node) (first : node) : list event :=
  [Started Here (test_daemon_process directory Here algorithm (port first));
   WroteMaster "masterConfig.json"
     {| m_mode := "local"; m_algorithm := algorithm; m_testDaemon := local_endpoint; m_nodes := cluster |}].

Lemma gives_local fuel nodes_num algorithm :
  gives (provide_local_cluster set_order directory executable fuel nodes_num algorithm)
    (fun ps es _ => exists cluster first qs run, id <$> cluster = seqZ 1 nodes_num /\
      Forall is_local cluster /\ head cluster = Some first /\ ps = ports_of cluster ++ qs /\
      algorithm_local cluster local_endpoint algorithm qs run /\
      es = wrote_configs cluster ++ run ++ started_managers cluster ++ ready algorithm cluster first).
Proof.
  unfold provide_local_cluster. eapply gives_bind; [apply gives_nodes|].
  intros ? ? cluster (Hid & Hl & -> & ->). cbn [app].
  eapply gives_just; [apply gives_for_each; intros n Hn; by apply gives_write|]. intros _.
  eapply (gives_bind _ _ (fun ps es _ => algorithm_local cluster local_endpoint algorithm ps es)).
  { destruct (String.eqb_spec algorithm "pso") as [->|N1]; [apply gives_server; by left|].
    destruct (String.eqb_spec algorithm "paxos") as [->|N2]; [apply gives_server; by right; left|].
    destruct (String.eqb_spec algorithm "rethinkdb") as [->|N3]; [apply gives_rethinkdb|].
    apply gives_return, local_other. rewrite !not_elem_of_cons. auto using not_elem_of_nil. }
  intros qs run u Hrun. cbn beta in Hrun.
  eapply gives_just; [apply gives_for_each; intros n Hn; apply gives_popen|]. intros _.
  eapply gives_just; [apply gives_for_just; intros n Hn; apply gives_wait|]. intros _.
  eapply gives_bind; [apply gives_first|]. intros ? ? first (-> & -> & rest & Hc). cbn [app].
  eapply gives_just; [apply gives_test_daemon|]. intros _. apply gives_write.
  exists cluster, first, qs, run. repeat (split; [done|]). split; [by rewrite Hc|].
  split; [by rewrite app_nil_r|]. split; [done|]. unfold wrote_configs, started_managers, ready.
  replace (mjoin ((fun _ : node => []) <$> cluster)) with (@nil event) by (clear; by induction cluster). done.
Qed.

(** ** Virtual machines *)
Context (items_order : list (string * string) -> list (string * string)).

Lemma gives_pure {A} (o : outcome A) (Q : list Z -> list event -> A -> Prop) :
  (forall a, o = Ret a -> Q [] [] a) -> gives (f_lift (py_call (fun s => (s, o)))) Q.
Proof.
  intros HQ s s' es b [= <- <- ->]. exists []. split; [by apply fresh_same|by apply HQ].
Qed.

Lemma gives_random_string n : gives (f_lift (get_random_string n)) (just []).
Proof.
  induction n as [|n IH]; cbn [get_random_string]; [by apply gives_return|].
  apply gives_lift, gives_quiet; [by apply gives_sys|]. intros c.
  apply gives_lift, gives_quiet; [exact IH|]. intros t. by apply gives_return.
Qed.

(** The metadata of a machine names the object that its configuration will be. *)
Definition metadata_of (vm : string) : list (string * string) :=
  items_order [("bucket", GCS_BUCKET); ("clusterConfig", config_dir +:+ config_file vm); ("myid", vm)].
Definition created (vm : string) (e : event) : Prop :=
  exists image text, e = CreatedVm (instance_config vm image text (metadata_of vm)).

Lemma gives_vm vm : gives (f_lift (create_instance vm (metadata_of vm) "gce-startup-script.sh"))
  (fun ps es _ => ps = [] /\ exists e, es = [e] /\ created vm e).
Proof.
  unfold create_instance.
  apply gives_lift, gives_quiet; [by apply gives_ask|]. intros image.
  apply gives_lift, gives_quiet; [by apply gives_ask|]. intros text.
  apply gives_lift. eapply gives_just; [by apply gives_emit|]. intros _. apply gives_ask.
  intros _. split; [done|]. eexists. split; [done|]. by exists image, text.
Qed.

Lemma gives_vms ids0 : gives (f_lift (create_vms items_order ids0)) (fun ps es vms =>
  ps = [] /\ Forall2 created vms.*1 es /\ length vms = length ids0).
Proof.
  induction ids0 as [|i ids0 IH]; cbn [create_vms]; [by apply gives_return|].
  apply gives_lift, gives_quiet; [apply gives_random_string|]. intros r.
  apply gives_lift. eapply gives_bind; [apply gives_vm|]. intros ? ? op (-> & e & -> & He).
  apply gives_lift. eapply gives_bind; [exact IH|]. intros ? es vms (-> & Hes & Hl).
  apply gives_return. split; [done|]. rewrite app_nil_r. cbn. rewrite Hl. split; [by constructor|done].
Qed.

Lemma op_names_fst vms zones : op_names vms = Ret zones -> zones.*1 = vms.*1.
Proof.
  revert zones. induction vms as [|[vm [n|]] vms IH]; intros zones; cbn; [by intros [= <-]| |done].
  destruct (op_names vms) as [l|]; [|done]. intros [= <-]. cbn. f_equal. by apply IH.
Qed.

Lemma gives_wait_operation fuel zone : gives (wait_operation fuel zone) (just []).
Proof.
  induction fuel as [|fuel IH]; [apply gives_more|]. cbn [wait_operation].
  apply gives_quiet; [by apply gives_ask|]. intros [|]; [by apply gives_return|].
  apply gives_quiet; [by apply gives_sys|]. intros _. exact IH.
Qed.

Definition is_remote (n : node) : Prop :=
  port n = CONSENSUS_ALGORITHM_PORT /\ rpcPort n = NETWORK_MANAGER_PORT /\ node_interface n = "eth0".

Lemma gives_gce_nodes fuel i zones : gives (gce_nodes fuel i zones) (fun ps es cluster =>
  ps = [] /\ es = [] /\ id <$> cluster = seqZ i (Z.of_nat (length zones)) /\
  vmID <$> cluster = Some <$> zones.*1 /\ Forall is_remote cluster).
Proof.
  revert i. induction zones as [|[vm zone] zones IH]; intros i; cbn [gce_nodes]; [by apply gives_return|].
  apply gives_quiet; [apply gives_wait_operation|]. intros _.
  apply gives_quiet; [by apply gives_ask|]. intros ips.
  eapply gives_bind; [apply IH|]. intros ? ? ns (-> & -> & Hid & Hvm & Hr). apply gives_return.
  split; [done|]. split; [done|]. cbn [length]. rewrite seqZ_cons by lia. cbn. rewrite Hid, Hvm.
  split; [|split; [done|by constructor]]. f_equal. f_equal; lia.
Qed.

Lemma gives_try {A} (m h : PyM (state (W := W)) event A) Q :
  gives (f_lift m) Q ->
  (forall s s' es e, m s = (s', es, Raise e) -> pool s' = pool s /\ es = []) ->
  gives (f_lift h) Q -> gives (f_lift (py_try m h)) Q.
Proof.
  intros Hm Hf Hh s s' es a E. unfold f_lift, py_try in E. destruct (m s) as [[s1 e1] [b|e]] eqn:Em.
  - apply (Hm s). unfold f_lift. by rewrite Em.
  - destruct (Hf _ _ _ _ Em) as [Hp ->]. destruct (h s1) as [[s2 e2] r] eqn:Eh.
    injection E as <- <- ->. destruct (Hh s1 s2 e2 a) as (ps & Hfr & HQ); [unfold f_lift; by rewrite Eh|].
    exists ps. split; [|done]. apply (fresh_app s s1 s2 [] ps); [by apply fresh_same|done].
Qed.
Lemma ask_fails {A} (f : W -> W * outcome A) s s' es e :
  ask f s = (s', es, Raise e) -> pool s' = pool s /\ es = [].
Proof. unfold ask, py_call. destruct (f (world s)). by intros [= <- <- _]. Qed.

Lemma gives_traffic : gives (f_lift allow_traffic) (fun ps es _ =>
  ps = [] /\ (es = [] \/ es = [CreatedFirewall GCE_FIREWALL_RULE_NAME])).
Proof.
  apply gives_try; [apply gives_ask; by auto|apply ask_fails|].
  apply gives_lift. eapply gives_just; [by apply gives_emit|]. intros _. apply gives_ask. by auto.
Qed.

Lemma gives_wait_file fuel name : gives (wait_file fuel name) (just []).
Proof.
  induction fuel as [|fuel IH]; [apply gives_more|]. cbn [wait_file]. apply gives_quiet.
  - apply gives_try; [|intros s s' es e E|by apply gives_return].
    + apply gives_lift, gives_quiet; [by apply gives_ask|]. intros _. by apply gives_return.
    + revert E. unfold py_bind. destruct (ask (object_exists name) s) as [[s1 e1] [|e']] eqn:Ea; [done|].
      intros [= <- <- <-]. by apply ask_fails in Ea.
  - intros [|]; [by apply gives_return|].
    apply gives_quiet; [by apply gives_sys|]. intros _. exact IH.
Qed.
Lemma gives_startup fuel name : gives (wait_startup fuel name) (just [Deleted name]).
Proof.
  unfold wait_startup. apply gives_quiet; [apply gives_wait_file|]. intros _.
  apply gives_lift. eapply gives_just; [by apply gives_emit|]. intros _. by apply gives_ask.
Qed.

Definition vm_name (n : node) : string := default EmptyString (vmID n).
(** The node's configuration, written and sent to the object of its machine's
    metadata; RethinkDB's cluster port is locked with the node's port. *)
Definition configured_vm (algorithm : string) (cluster : list node) (n : node) : list event :=
  [WroteConfig ("/tmp/" +:+ config_file (vm_name n))
     (get_node_config set_order cluster n "gce"
        (if String.eqb algorithm "rethinkdb" then Some [cluster_port] else None));
   Uploaded ("/tmp/" +:+ config_file (vm_name n)) (config_dir +:+ config_file (vm_name n))].

Lemma gives_config algorithm cluster n :
  gives (f_lift (write_config set_order algorithm cluster n)) (just (configured_vm algorithm cluster n)).
Proof.
  unfold write_config, upload_object.
  apply gives_lift. eapply gives_just; [by apply gives_write|]. intros _.
  apply gives_lift. eapply gives_just; [by apply gives_emit|]. intros _. by apply gives_ask.
Qed.

(** What node [i] does to fetch its configuration. *)
Definition downloaded (i : nat) (es : list event) : Prop := exists file bucket,
  es = [Started (Vm i) (metadata_process "clusterConfig"); Started (Vm i) (metadata_process "bucket");
        Started (Vm i) (Args ["sudo"; "gsutil"; "cp"; "gs://" +:+ bucket +:+ "/" +:+ file; LOCAL_NODE_CONF_FILE])].

Lemma gives_output at_ p : gives (f_lift (Popen_output world set_world Started at_ p)) (just [Started at_ p]).
Proof.
  intros s s' es a. unfold f_lift, Popen_output, py_bind, py_emit, py_call.
  destruct (output at_ p (world s)) as [w [t|e]]; intros [= <- <- <-].
  exists []. split; [by apply fresh_same|done].
Qed.

Lemma gives_download i :
  gives (download_node_config world set_world Started (Vm i) ;;? f_return tt)
    (fun ps es _ => ps = [] /\ downloaded i es).
Proof.
  eapply (gives_bind _ _ (fun ps es _ => ps = [] /\ downloaded i es)).
  - unfold download_node_config. eapply gives_just; [apply gives_output|]. intros file.
    eapply gives_just; [apply gives_output|]. intros bucket.
    eapply gives_just; [apply gives_popen|]. intros _. apply gives_return. split; [done|]. by exists file, bucket.
  - intros ps es u [-> He]. apply gives_return. by rewrite !app_nil_r.
Qed.

(** ** The algorithm on virtual machines: node [i] is served by daemon [i] *)
Inductive algorithm_gce (cluster : list node) (test_daemon : string) : string -> list event -> Prop :=
| gce_server algorithm first rest : cluster = first :: rest -> algorithm ∈ ["pso"; "paxos"] ->
    algorithm_gce cluster test_daemon algorithm
      (Started (Vm 0) (server_process (server_of algorithm) LOCAL_NODE_CONF_FILE (Some test_daemon)) ::
       ((fun i => Started (Vm i) (server_process (server_of algorithm) LOCAL_NODE_CONF_FILE None))
          <$> seq 1 (length rest)))
| gce_rethinkdb first rest : cluster = first :: rest ->
    algorithm_gce cluster test_daemon "rethinkdb"
      (Started (Vm 0) (rethinkdb_master_process cluster_port driver_port http_port (address first)) ::
       ((fun '(i, n) => Started (Vm i) (rethinkdb_follower_process (id n) (address first) cluster_port
           cluster_port driver_port http_port)) <$> zip (seq 1 (length rest)) rest))
| gce_other algorithm : algorithm ∉ ["pso"; "paxos"; "rethinkdb"] ->
    algorithm_gce cluster test_daemon algorithm [].

Lemma zip_seq_fst {A B} (f : nat -> B) i (l : list A) :
  (fun p => f p.1) <$> zip (seq i (length l)) l = f <$> seq i (length l).
Proof. revert i. induction l as [|x l IH]; intros i; [done|]. cbn. f_equal. apply IH. Qed.

Lemma gives_server_gce algorithm fuel cluster test_daemon : algorithm ∈ ["pso"; "paxos"] ->
  gives (configure_gce algorithm fuel cluster test_daemon)
    (fun ps es _ => ps = [] /\ algorithm_gce cluster test_daemon algorithm es).
Proof.
  intros Ha. unfold configure_gce.
  eapply gives_bind; [apply gives_first|]. intros ? ? first (-> & -> & rest & ->). cbn [tail app].
  eapply gives_just; [apply gives_run_node|]. intros _.
  eapply gives_weaken; [apply (gives_for_each _ _ (fun p =>
    Started (Vm p.1) (server_process (server_of algorithm) LOCAL_NODE_CONF_FILE None)));
    intros [i n] Hn; apply gives_run_node|].
  intros ps es u [-> ->]. split; [done|].
  rewrite (zip_seq_fst (fun i => Started (Vm i) (server_process (server_of algorithm) LOCAL_NODE_CONF_FILE None))).
  by eapply gce_server.
Qed.

Lemma gives_rethinkdb_gce fuel cluster test_daemon :
  gives (configure_rethinkdb_gce fuel cluster)
    (fun ps es _ => ps = [] /\ algorithm_gce cluster test_daemon "rethinkdb" es).
Proof.
  unfold configure_rethinkdb_gce.
  eapply gives_bind; [apply gives_first|]. intros ? ? first (-> & -> & rest & ->). cbn [tail app].
  eapply gives_just; [apply gives_service|]. intros _.
  eapply gives_weaken; [apply (gives_for_each _ _ (fun '(i, n) =>
    Started (Vm i) (rethinkdb_follower_process (id n) (address first) cluster_port
      cluster_port driver_port http_port))); intros [i n] Hn|].
  - rewrite <-(app_nil_r [_]). eapply gives_just; [apply gives_service|]. intros _. by apply gives_return.
  - intros ps es u [-> ->]. split; [done|]. by eapply gce_rethinkdb.
Qed.

(** Node [i] of the cluster is on machine [i - 1]. *)
Lemma daemon_of_node cluster k n n0 : id <$> cluster = seqZ 1 n0 -> cluster !! k = Some n ->
  daemon_of cluster (id n - 1) = Ret (Vm k).
Proof.
  intros Hid Hk. unfold daemon_of.
  assert (Hi : (id <$> cluster) !! k = Some (id n)) by (by rewrite list_lookup_fmap, Hk).
  rewrite Hid, lookup_seqZ in Hi. destruct Hi as [Hi Hlt].
  apply lookup_lt_Some in Hk. rewrite py_pos_nonneg by lia. do 2 f_equal. lia.
Qed.

Lemma gives_managers fuel cluster n0 : id <$> cluster = seqZ 1 n0 ->
  gives (f_for cluster (fun n =>
    let? at_ := f_lift (py_call (fun s => (s, daemon_of cluster (id n - 1)))) in
    run_network_manager world set_world Started fuel at_))
  (just ((fun i => Started (Vm i) network_manager_process) <$> seq 0 (length cluster))).
Proof.
  intros Hid. eapply gives_weaken; [apply (gives_for _ _ (fun n ps es => ps = [] /\ exists k,
    daemon_of cluster (id n - 1) = Ret (Vm k) /\ es = [Started (Vm k) network_manager_process]))|].
  - intros n Hn. apply (gives_bind _ _ (fun ps es at_ => ps = [] /\ es = [] /\ daemon_of cluster (id n - 1) = Ret at_)).
    { apply gives_pure. auto. }
    intros ? ? at_ (-> & -> & Ha). cbn [app]. unfold run_network_manager.
    apply list_elem_of_lookup in Hn as [k Hk]. rewrite (daemon_of_node _ _ _ _ Hid Hk) in *.
    injection Ha as <-. eapply gives_just; [apply gives_popen|]. intros _.
    eapply gives_weaken; [apply gives_waits|]. intros ? ? u [-> ->]. eauto.
  - intros ps es u (rs & Hrs & -> & ->). unfold just.
    assert (Hz : forall i l rs0, (forall k n, l !! k = Some n -> cluster !! (i + k)%nat = Some n) ->
      Forall2 (fun n (r : list Z * list event) => r.1 = [] /\ exists k,
        daemon_of cluster (id n - 1) = Ret (Vm k) /\ r.2 = [Started (Vm k) network_manager_process]) l rs0 ->
      mjoin rs0.*1 = [] /\ mjoin rs0.*2 = (fun i => Started (Vm i) network_manager_process) <$> seq i (length l)).
    { intros i l rs0 Hl Hf. revert i Hl. induction Hf as [|n r l rs0 [E1 (k & Hk & E2)] _ IH]; intros i Hl; [done|].
      destruct (IH (S i)) as [IH1 IH2].
      { intros j m Hj. specialize (Hl (S j) m Hj). by rewrite Nat.add_succ_r in Hl. }
      specialize (Hl 0%nat n eq_refl). rewrite Nat.add_0_r in Hl.
      rewrite (daemon_of_node _ _ _ _ Hid Hl) in Hk. injection Hk as <-. cbn. rewrite E1, E2. cbn.
      split; [exact IH1|]. f_equal. exact IH2. }
    by apply (Hz 0%nat cluster rs).
Qed.

Definition ready_gce (algorithm test_daemon : string) (cluster : list node) (first : node) : list event :=
  [Started (Vm 0) (test_daemon_process directory (Vm 0) algorithm (port first));
   WroteMaster "masterConfig.json"
     {| m_mode := "gce"; m_algorithm := algorithm; m_testDaemon := test_daemon; m_nodes := cluster |}].

(** What a deployment on virtual machines has done, by its phases. *)
Record phases : Type := mkPhases {
  ph_cluster : list node;
  ph_first : node;
  ph_created : list event;
  ph_firewall : list event;
  ph_downloads : list (list event);
  ph_algorithm : list event;
}.
Definition endpoint_of (first : node) : string := address first +:+ ":" +:+ py_str TEST_DAEMON_PORT.
Record gce_deployment (nodes_num : Z) (algorithm : string) (ph : phases) : Prop := {
  gd_ids : id <$> ph_cluster ph = seqZ 1 nodes_num;
  gd_head : head (ph_cluster ph) = Some (ph_first ph);
  gd_remote : Forall is_remote (ph_cluster ph);
  gd_created : Forall2 (fun n e => exists vm, vmID n = Some vm /\ created vm e) (ph_cluster ph) (ph_created ph);
  gd_firewall : ph_firewall ph = [] \/ ph_firewall ph = [CreatedFirewall GCE_FIREWALL_RULE_NAME];
  gd_downloads : Forall2 downloaded (seq 0 (length (ph_cluster ph))) (ph_downloads ph);
  gd_algorithm : algorithm_gce (ph_cluster ph) (endpoint_of (ph_first ph)) algorithm (ph_algorithm ph);
}.
Definition gce_events (algorithm : string) (ph : phases) : list event :=
  let cluster := ph_cluster ph in
  ph_created ph ++ ph_firewall ph
    ++ ((fun n => Deleted (vm_name n)) <$> cluster)
    ++ mjoin (configured_vm algorithm cluster <$> cluster)
    ++ mjoin (ph_downloads ph) ++ ph_algorithm ph
    ++ ((fun i => Started (Vm i) network_manager_process) <$> seq 0 (length cluster))
    ++ ready_gce algorithm (endpoint_of (ph_first ph)) cluster (ph_first ph).

Lemma created_nodes (names : list string) ce (cluster : list node) : Forall2 created names ce -> vmID <$> cluster = Some <$> names ->
  Forall2 (fun n e => exists vm, vmID n = Some vm /\ created vm e) cluster ce.
Proof.
  intros Hc. revert cluster. induction Hc as [|vm e names ce He Hc IH]; intros [|n cluster]; [constructor|done..|].
  cbn. intros [= Hn Hns]. constructor; [by exists vm|]. by apply IH.
Qed.
Lemma deleted_nodes (names : list string) (cluster : list node) : vmID <$> cluster = Some <$> names ->
  Deleted <$> names = (fun n => Deleted (vm_name n)) <$> cluster.
Proof.
  unfold vm_name. revert names. induction cluster as [|n cluster IH]; intros [|vm names]; try done.
  cbn. intros [= -> Hns]. cbn. f_equal. by apply IH.
Qed.

Lemma gives_algorithm_gce fuel algorithm cluster test_daemon :
  gives (if String.eqb algorithm "pso" || String.eqb algorithm "paxos" then
           configure_gce algorithm fuel cluster test_daemon
         else if String.eqb algorithm "rethinkdb" then configure_rethinkdb_gce fuel cluster
         else f_return tt)
    (fun ps es _ => ps = [] /\ algorithm_gce cluster test_daemon algorithm es).
Proof.
  destruct (String.eqb_spec algorithm "pso") as [->|N1]; [apply gives_server_gce; by left|].
  destruct (String.eqb_spec algorithm "paxos") as [->|N2]; [apply gives_server_gce; by right; left|].
  destruct (String.eqb_spec algorithm "rethinkdb") as [->|N3]; [apply gives_rethinkdb_gce|].
  apply gives_return. split; [done|]. apply gce_other.
  rewrite !not_elem_of_cons. auto using not_elem_of_nil.
Qed.

(** The nodes of the machines, up to their configuration. *)
Lemma gives_cluster_gce {A} fuel nodes_num (k : _ -> list node -> F A) Q :
  (forall vms ce cluster, Forall2 created vms.*1 ce -> id <$> cluster = seqZ 1 nodes_num ->
     vmID <$> cluster = Some <$> vms.*1 -> Forall is_remote cluster ->
     gives (k vms cluster) (fun ps es a => Q ps (ce ++ es) a)) ->
  gives (let? vms := f_lift (create_vms items_order (seqZ 1 nodes_num)) in
         let? zones := f_lift (py_call (fun s => (s, op_names vms))) in
         let? cluster := gce_nodes fuel 1 zones in k vms cluster) Q.
Proof.
  intros Hk. eapply gives_bind; [apply gives_vms|]. intros ? ce vms (-> & Hc & Hlen).
  eapply gives_bind; [apply (gives_pure _ (fun ps es zones => ps = [] /\ es = [] /\ zones.*1 = vms.*1))|].
  { intros zones Hz. by rewrite (op_names_fst _ _ Hz). }
  intros ? ? zones (-> & -> & Hz). cbn [app].
  eapply gives_bind; [apply gives_gce_nodes|]. intros ? ? cluster (-> & -> & Hid & Hvm & Hr). cbn [app].
  rewrite Hz in Hvm. apply Hk; [done| |done..]. rewrite Hid.
  apply (f_equal length) in Hz. rewrite !length_fmap in Hz. rewrite Hz, Hlen, length_seqZ.
  unfold seqZ. do 2 f_equal. lia.
Qed.
Lemma gives_downloads l :
  gives (f_for l (fun i => download_node_config world set_world Started (Vm i) ;;? f_return tt))
    (fun ps es _ => ps = [] /\ exists ds, Forall2 downloaded l ds /\ es = mjoin ds).
Proof.
  eapply gives_weaken; [apply (gives_for _ _ (fun i ps es => ps = [] /\ downloaded i es));
    intros i Hi; apply gives_download|].
  intros ps es u (rs & Hrs & -> & ->). split.
  - induction Hrs as [|i r l rs [E _] _ IH]; [done|]. cbn. rewrite E. exact IH.
  - exists rs.*2. split; [|done]. apply Forall2_fmap_r. eapply Forall2_impl; [exact Hrs|]. by intros i r [_ ?].
Qed.

Lemma gives_gce fuel nodes_num algorithm :
  gives (provide_gce_cluster set_order directory items_order fuel nodes_num algorithm)
    (fun ps es _ => ps = [] /\ exists ph, gce_deployment nodes_num algorithm ph /\ es = gce_events algorithm ph).
Proof.
  unfold provide_gce_cluster. apply gives_quiet; [by apply gives_ask|]. intros _.
  apply gives_cluster_gce. intros vms ce cluster Hc Hid Hvm Hr.
  eapply gives_bind; [apply gives_traffic|]. intros ? fe u (-> & Hf). cbn [app].
  eapply gives_just; [apply gives_for_each; intros n Hn; apply gives_startup|]. intros _.
  eapply gives_just; [apply gives_for_just; intros n Hn; apply gives_config|]. intros _.
  eapply gives_bind; [apply gives_downloads|]. intros ? ? u' (-> & ds & Hds & ->). cbn [app].
  eapply gives_bind; [apply gives_first|]. intros ? ? first (-> & -> & rest & Hcl). cbn [app].
  eapply gives_bind; [apply gives_algorithm_gce|]. intros ? run u'' (-> & Hrun). cbn [app].
  eapply gives_just; [by eapply gives_managers|]. intros _.
  eapply gives_just; [apply gives_test_daemon|]. intros _. apply gives_write. split; [done|].
  exists (mkPhases cluster first ce fe ds run). split.
  - split; [done|by rewrite Hcl|done|by eapply created_nodes|done..].
  - unfold gce_events, ready_gce. cbn [ph_cluster ph_created ph_firewall ph_downloads ph_algorithm ph_first].
    by rewrite <-(deleted_nodes _ _ Hvm).
Qed.

(** C29: a local deployment that returned has written the configuration of every
    node, then started the algorithm, a network manager for every node and the
    test daemon, and last written the file of the cluster; its nodes are numbered
    from 1, and all the ports that it gave (nodes, managers, RethinkDB) are
    pairwise distinct and were not given before. *)
Theorem local_cluster_deployed fuel nodes_num algorithm s s' es :
  provide_local_cluster set_order directory executable fuel nodes_num algorithm s = Some (s', es, Ret tt) ->
  exists cluster first qs run, id <$> cluster = seqZ 1 nodes_num /\ Forall is_local cluster /\
    head cluster = Some first /\ fresh s s' (ports_of cluster ++ qs) /\
    algorithm_local cluster local_endpoint algorithm qs run /\
    es = wrote_configs cluster ++ run ++ started_managers cluster ++ ready algorithm cluster first.
Proof.
  intros E. destruct (gives_local _ _ _ _ _ _ _ E) as (ps & Hf & cluster & first & qs & run & ? & ? & ? & -> & ? & ?).
  by exists cluster, first, qs, run.
Qed.

(** A deployment on virtual machines that returned has created one machine per
    node, opened the firewall if needed, waited for every machine, sent every
    node its configuration under the name that its machine's metadata gives, let
    every machine fetch it, and only then started the algorithm, the managers
    and the test daemon, each on its node's machine; no random port is taken. *)
Theorem gce_cluster_deployed fuel nodes_num algorithm s s' es :
  provide_gce_cluster set_order directory items_order fuel nodes_num algorithm s = Some (s', es, Ret tt) ->
  pool s' = pool s /\ exists ph, gce_deployment nodes_num algorithm ph /\ es = gce_events algorithm ph.
Proof.
  intros E. destruct (gives_gce _ _ _ _ _ _ _ E) as (ps & (_ & _ & Hp) & -> & Hph).
  split; [|done]. rewrite Hp. cbn. set_solver.
Qed.
End deployment.
