(* ===== verification/ProvisionerLiveness.v ===== *)
(** * A deployment ends when the system answers

    The provisioner waits without bound for ports that answer and for new random
    ports.  When processes start and open their ports, each only after it was
    started, a local deployment has an end and it did not raise
    ([local_cluster_comes_up]): every process is started before its ports are
    waited for, and the file that it reads is written before it is started.  The
    fuel is the longest wait.  [Demo] is a system on which all this happens. *)
From stdpp Require Import base gmap sets list strings.
From Stdlib Require Import ZArith QArith Lia Strings.Ascii.
From S2P Require Import Prelude PyList PyStr PyText PyExcept PyFuel NetworkManager ConfigureDaemon Provisioner ProvisionerTheorems.
Local Open Scope Z_scope.

(** ** Computations that end *)
Section will.
Context {S E : Type}.
Abbreviation F A := (PyF S E A).

(** More fuel does not change a result. *)
Definition mono {A} (m : nat -> F A) : Prop :=
  forall f f' s r, (f <= f')%nat -> m f s = Some r -> m f' s = Some r.
(** From [s], enough fuel gives a value and a state as [Q] says. *)
Definition will {A} (m : nat -> F A) (Q : A -> S -> Prop) (s : S) : Prop :=
  exists f s' es a, m f s = Some (s', es, Ret a) /\ Q a s'.

Lemma mono_lift {A} (m : PyM S E A) : mono (fun _ => f_lift m).
Proof. by intros f f' s r _. Qed.
Lemma mono_bind {A B} (m : nat -> F A) (k : A -> nat -> F B) :
  mono m -> (forall a, mono (k a)) -> mono (fun f => f_bind (m f) (fun a => k a f)).
Proof.
  intros Hm Hk f f' s r Hf. unfold f_bind.
  destruct (m f s) as [[[s1 e1] [a|e]]|] eqn:E1; [|by rewrite (Hm f f' s _ Hf E1)|done].
  rewrite (Hm f f' s _ Hf E1). destruct (k a f s1) as [[[s2 e2] r2]|] eqn:E2; [|done].
  by rewrite (Hk a f f' s1 _ Hf E2).
Qed.

Lemma will_lift {A} (m : PyM S E A) (Q : A -> S -> Prop) s s' es a :
  m s = (s', es, Ret a) -> Q a s' -> will (fun _ => f_lift m) Q s.
Proof. intros Em HQ. exists O, s', es, a. unfold f_lift. by rewrite Em. Qed.
Lemma will_return {A} (a : A) (Q : A -> S -> Prop) s : Q a s -> will (fun _ => f_return a) Q s.
Proof. by apply will_lift with []. Qed.
Lemma will_weaken {A} (m : nat -> F A) (Q Q' : A -> S -> Prop) s :
  will m Q s -> (forall a s', Q a s' -> Q' a s') -> will m Q' s.
Proof. intros (f & s' & es & a & Em & HQ) HQ'. exists f, s', es, a. auto. Qed.
Lemma will_bind {A B} (m : nat -> F A) (k : A -> nat -> F B) (Q : B -> S -> Prop) s :
  mono m -> (forall a, mono (k a)) ->
  will m (fun a => will (k a) Q) s -> will (fun f => f_bind (m f) (fun a => k a f)) Q s.
Proof.
  intros Hm Hk (f1 & s1 & e1 & a & E1 & f2 & s2 & e2 & b & E2 & HQ).
  exists (Nat.max f1 f2), s2, (e1 ++ e2), b. split; [|exact HQ]. unfold f_bind.
  rewrite (Hm f1 _ s _ (Nat.le_max_l f1 f2) E1).
  by rewrite (Hk a f2 _ s1 _ (Nat.le_max_r f1 f2) E2).
Qed.
End will.

Lemma mono_for {W B} (l : list B) (body : nat -> B -> PyF (state (W := W)) event unit) :
  (forall x, mono (fun f => body f x)) -> mono (fun f => f_for l (body f)).
Proof.
  intros Hb. induction l as [|x l IH]; cbn [f_for]; [apply mono_lift|]. by apply mono_bind.
Qed.
(** A loop, by what holds after each part of the list. *)
Lemma will_for {W B} (l : list B) (body : nat -> B -> PyF (state (W := W)) event unit) (I : list B -> state -> Prop) s :
  (forall x, mono (fun f => body f x)) ->
  (forall l1 x l2 s, l = l1 ++ x :: l2 -> I l1 s -> will (fun f => body f x) (fun _ => I (l1 ++ [x])) s) ->
  I [] s -> will (fun f => f_for l (body f)) (fun _ => I l) s.
Proof.
  intros Hm Hb HI. cut (forall l2 l1 s, l = l1 ++ l2 -> I l1 s -> will (fun f => f_for l2 (body f)) (fun _ => I l) s).
  { intros Hc. by apply (Hc l []). }
  clear s HI. intros l2. induction l2 as [|x l2 IH]; intros l1 s El HI; cbn [f_for].
  - apply will_return. by rewrite El, app_nil_r.
  - apply (will_bind _ (fun _ f => f_for l2 (body f))); [apply Hm|intros _; by apply mono_for|].
    eapply will_weaken; [by apply (Hb l1 x l2)|]. intros u s' HI'. apply (IH (l1 ++ [x])); [|done].
    by rewrite El, <-app_assoc.
Qed.

Lemma length_app_s (s t : string) : String.length (s +:+ t) = (String.length s + String.length t)%nat.
Proof. induction s as [|a s IH]; [done|]. rewrite app_cons_s. cbn. by rewrite IH. Qed.
Lemma app_cancel_r (u s t : string) : s +:+ u = t +:+ u -> s = t.
Proof.
  revert t. induction s as [|a s IH]; intros [|b t] E; [done| | |].
  - apply (f_equal String.length) in E. rewrite !app_cons_s, app_empty_s in E. cbn in E.
    rewrite length_app_s in E. lia.
  - apply (f_equal String.length) in E. rewrite !app_cons_s, app_empty_s in E. cbn in E.
    rewrite length_app_s in E. lia.
  - rewrite !app_cons_s in E. injection E as -> E. f_equal. by apply IH.
Qed.

Section live.
Context {W : Type} `{Machines W} `{Gce W} `{System W}.
Context (set_order : gset string -> list string) (directory : location -> string) (executable : string).
Abbreviation state := (Provisioner.state (W := W)).
Abbreviation F A := (PyF state event A).

(** The port answers at the first attempt, or after some more. *)
Inductive answers (host : string) (p : Z) (timeout : Q) (tcp : bool) (w : W) : Prop :=
| answers_now w' : connect Here host p tcp w = (w', true) -> answers host p timeout tcp w
| answers_later w' : connect Here host p tcp w = (w', false) ->
    answers host p timeout tcp (sleep timeout w') -> answers host p timeout tcp w.
(** The system gives a port that is not in the pool, at once or later. *)
Inductive new_port (ps : gset Z) (w : W) : Prop :=
| new_now w' p : bind_port w = (w', p) -> p ∉ ps -> new_port ps w
| new_later w' p : bind_port w = (w', p) -> p ∈ ps -> new_port ps w' -> new_port ps w.

(** [served w p]: a process that opens the TCP port [p] has been started.
    [holds w path c]: the file [path] is the configuration [c]. *)
Context (served : W -> Z -> Prop) (holds : W -> string -> node_config -> Prop) (capacity : nat).

Record keeps (w w' : W) : Prop := mkKeeps {
  k_served p : served w p -> served w' p;
  k_holds path c : holds w path c -> holds w' path c;
}.
#[local] Instance keeps_preorder : PreOrder keeps.
Proof. split; [by split|]. intros w1 w2 w3 [] []. split; auto. Qed.

Definition valid_port (p : Z) : Prop := 0 < p < 65536.
Lemma three_valid p q r : valid_port p -> valid_port q -> valid_port r -> Forall valid_port [p; q; r].
Proof. intros Hp Hq Hr. by constructor; [|constructor; [|constructor]]. Qed.
(** The processes of a local deployment. *)
Inductive service : process -> Prop :=
| s_server server file test_daemon : service (server_process server file test_daemon)
| s_master cp dp hp addr : service (rethinkdb_master_process cp dp hp addr)
| s_follower i ip mcp cp dp hp : service (rethinkdb_follower_process i ip mcp cp dp hp)
| s_manager path : service (Args [executable; "network_manager.py"; path])
| s_test_daemon algorithm p : service (test_daemon_process directory Here algorithm p).

(** These processes start, keep running and open their ports, which nobody else
    takes: the network manager the port of its configuration file, the test
    daemon its own, RethinkDB those of its command line.  A TCP port that a
    process opens answers, sooner or later; connecting a UDP socket to the own
    machine succeeds at once; files are written; and there are [capacity] ports
    for the asking. *)
Record responsive : Prop := {
  re_popen p (w : W) : service p -> (popen Here p w).2 = Ret tt;
  re_popen_keeps p w : service p -> keeps w (popen Here p w).1;
  re_connect_keeps host p tcp w : keeps w (connect Here host p tcp w).1;
  re_sleep_keeps t w : keeps w (sleep t w);
  re_bind_keeps w : keeps w (bind_port w).1;
  re_bind_valid (w : W) : valid_port (bind_port w).2;
  re_dump i c (w : W) : (dump_config (node_file i) c w).2 = Ret tt;
  re_dump_holds i c w : holds (dump_config (node_file i) c w).1 (node_file i) c;
  re_dump_others path c w path' c' : path' <> path -> holds w path' c' -> holds (dump_config path c w).1 path' c';
  re_dump_served path c w p : served w p -> served (dump_config path c w).1 p;
  re_dump_master c (w : W) : (dump_master "masterConfig.json" c w).2 = Ret tt;
  re_dump_master_keeps path c w : keeps w (dump_master path c w).1;
  re_manager path c w : holds w path c -> valid_port (c_rpcPort c) ->
    served (popen Here (Args [executable; "network_manager.py"; path]) w).1 (c_rpcPort c);
  re_test_daemon algorithm p w : served (popen Here (test_daemon_process directory Here algorithm p) w).1 TEST_DAEMON_PORT;
  re_rethinkdb cp dp hp p w : Forall valid_port [cp; dp; hp] -> p ∈ [cp; dp; hp] ->
    (forall addr, served (popen Here (rethinkdb_master_process cp dp hp addr) w).1 p) /\
    (forall i ip mcp, served (popen Here (rethinkdb_follower_process i ip mcp cp dp hp) w).1 p);
  re_answers p t w : served w p -> answers "127.0.0.1" p t true w;
  re_udp p w : (connect Here "127.0.0.1" p false w).2 = true;
  re_ports ps w : (size ps < capacity)%nat -> new_port ps w;
}.
Context (Hr : responsive).

(** ** More fuel is enough *)
Lemma mono_wait at_ host p timeout tcp :
  mono (fun f => wait_for_port world set_world f at_ host p timeout tcp : F unit).
Proof.
  intros f. induction f as [|f IH]; intros [|f'] s r Hf; try (done || lia). cbn [wait_for_port].
  unfold f_bind, f_lift, is_socket_free, on_machines.
  destruct (connect at_ host p tcp (world s)) as [w [|]]; [done|].
  destruct (wait_for_port world set_world f at_ host p timeout tcp _) as [[[s2 e2] r2]|] eqn:E2; [|done].
  by rewrite (IH f' _ _ ltac:(lia) E2).
Qed.
Lemma mono_waits at_ ports timeout tcp :
  mono (fun f => wait_for_ports world set_world f at_ ports timeout tcp : F unit).
Proof.
  induction ports as [|p ports IH]; cbn [wait_for_ports]; [apply mono_lift|].
  apply (mono_bind _ (fun _ f => wait_for_ports world set_world f at_ ports timeout tcp)); [apply mono_wait|done].
Qed.
Lemma mono_port : mono (fun f => get_free_random_port f : F Z).
Proof.
  intros f. induction f as [|f IH]; intros [|f'] s r Hf; try (done || lia). cbn [get_free_random_port].
  unfold f_bind, f_lift, sys, on_machines, py_get. destruct (bind_port (world s)) as [w p].
  destruct (bool_decide (p ∈ pool (set_world w s))); [|done].
  destruct (get_free_random_port f _) as [[[s2 e2] r2]|] eqn:E2; [|done].
  by rewrite (IH f' _ _ ltac:(lia) E2).
Qed.
(** Every computation of the provisioner is built from these. *)
Ltac mono_step := first
  [ apply mono_lift | apply mono_wait | apply mono_waits | apply mono_port | assumption
  | apply (mono_for _ (fun f n => _)); intros ?
  | apply (mono_bind _ (fun a f => _)); [|intros ?]
  | match goal with |- mono (fun _ => if ?b then _ else _) => destruct b end ].
Ltac mono := repeat mono_step.
Lemma mono_nodes ids0 : mono (fun f => local_nodes f ids0 : F (list node)).
Proof. induction ids0 as [|i ids0 IH]; cbn [local_nodes]; mono. Qed.
Lemma mono_first (cluster : list node) : mono (fun _ => first_node cluster : F node).
Proof. destruct cluster; apply mono_lift. Qed.
Lemma mono_run_node algorithm at_ p file test_daemon :
  mono (fun f => run_node algorithm f at_ p file test_daemon : F unit).
Proof. unfold run_node, run_pso_node, run_paxos_node. destruct (String.eqb algorithm "pso"); mono. Qed.
Lemma mono_follower at_ i ip mcp cp dp hp :
  mono (fun f => configure_rethinkdb_follower world set_world Started f at_ i ip mcp cp dp hp : F string).
Proof. unfold configure_rethinkdb_follower. mono. Qed.

(** ** Waiting *)
Definition grows (s s' : state) : Prop := keeps (world s) (world s') /\ pool s' = pool s.
Definition room (k : nat) (s : state) : Prop := (size (pool s) + k <= capacity)%nat.

Lemma will_popen p (Q : unit -> state -> Prop) s : service p -> Q tt (set_world (popen Here p (world s)).1 s) ->
  will (fun _ => f_lift (Popen world set_world Started Here p)) Q s.
Proof.
  intros Hsv HQ. pose proof (re_popen Hr p (world s) Hsv) as Hp.
  apply will_lift with (set_world (popen Here p (world s)).1 s) [Started Here p] tt; [|exact HQ].
  unfold Popen, py_bind, py_emit, py_call. destruct (popen Here p (world s)) as [w o]. cbn in *. by subst o.
Qed.

Lemma wait_more host p timeout tcp f s w : connect Here host p tcp (world s) = (w, false) ->
  (wait_for_port world set_world (S f) Here host p timeout tcp : F unit) s =
  match wait_for_port world set_world f Here host p timeout tcp (set_world (sleep timeout w) s) with
  | Some (s', es, r) => Some (s', es, r) | None => None end.
Proof.
  intros Ec. cbn [wait_for_port]. unfold f_bind at 1, f_lift at 1, is_socket_free, on_machines at 1.
  rewrite Ec. unfold f_bind, f_lift, on_machines. cbn [world set_world]. unfold set_world at 1 2 3 4. cbn.
  by destruct (wait_for_port _ _ _ _ _ _ _ _ _) as [[[? ?] ?]|].
Qed.
Lemma wait_done host p timeout tcp s w : connect Here host p tcp (world s) = (w, true) ->
  (wait_for_port world set_world 1 Here host p timeout tcp : F unit) s = Some (set_world w s, [], Ret tt).
Proof.
  intros Ec. cbn [wait_for_port]. unfold f_bind, f_lift, is_socket_free, on_machines. by rewrite Ec.
Qed.

Lemma will_wait p timeout tcp (Q : unit -> state -> Prop) s :
  (tcp = true -> served (world s) p) -> (forall s', grows s s' -> Q tt s') ->
  will (fun f => wait_for_port world set_world f Here "127.0.0.1" p timeout tcp : F unit) Q s.
Proof.
  intros Hs HQ. assert (Ha : answers "127.0.0.1" p timeout tcp (world s)).
  { destruct tcp; [by apply (re_answers Hr), Hs|]. pose proof (re_udp Hr p (world s)) as Hu.
    destruct (connect _ _ _ _ _) as [w b] eqn:Ec. cbn in Hu. subst b. by eapply answers_now. }
  clear Hs. remember (world s) as w eqn:Ew. revert s Ew HQ. induction Ha as [w w' Ec|w w' Ec _ IH]; intros s -> HQ;
    pose proof (re_connect_keeps Hr "127.0.0.1" p tcp (world s)) as Hk; rewrite Ec in Hk; cbn in Hk.
  - exists 1%nat, (set_world w' s), [], tt. split; [by apply wait_done|]. by apply HQ.
  - destruct (IH (set_world (sleep timeout w') s) eq_refl) as (f & s' & es & a & E & HQ').
    { intros s' [Hk' Hp]. apply HQ. split; [|exact Hp]. etrans; [exact Hk|]. etrans; [by apply re_sleep_keeps|exact Hk']. }
    exists (S f), s', es, a. split; [|exact HQ']. by rewrite (wait_more _ _ _ _ _ _ _ Ec), E.
Qed.
Lemma will_waits ports timeout tcp (Q : unit -> state -> Prop) s :
  (tcp = true -> forall p, p ∈ ports -> served (world s) p) -> (forall s', grows s s' -> Q tt s') ->
  will (fun f => wait_for_ports world set_world f Here ports timeout tcp : F unit) Q s.
Proof.
  revert s. induction ports as [|p ports IH]; intros s Hs HQ; cbn [wait_for_ports].
  { apply will_return, HQ. by split. }
  apply (will_bind _ (fun _ f => wait_for_ports world set_world f Here ports timeout tcp)); [mono|intros ?; mono|].
  apply will_wait; [intros Ht; apply Hs; [done|by left]|]. intros s1 [Hk Hp]. cbn beta. apply IH.
  - intros Ht q Hq. apply (k_served _ _ Hk), Hs; [done|by right].
  - intros s2 [Hk2 Hp2]. apply HQ. split; [by etrans|]. by rewrite Hp2.
Qed.

(** A process that opens the ports that are waited for, and an answer. *)
Lemma will_service {A} p ports timeout tcp (a : A) (Q : A -> state -> Prop) s : service p ->
  (tcp = true -> forall w q, q ∈ ports -> served (popen Here p w).1 q) -> (forall s', grows s s' -> Q a s') ->
  will (fun f => f_lift (Popen world set_world Started Here p) ;;?
                 wait_for_ports world set_world f Here ports timeout tcp ;;? f_return a) Q s.
Proof.
  intros Hsv Hs HQ. apply (will_bind (fun _ => _) (fun _ f => wait_for_ports world set_world f Here ports timeout tcp ;;? f_return a));
    [mono|intros ?; mono|].
  apply (will_popen _ _ _ Hsv). apply (will_bind _ (fun _ _ => f_return a)); [mono|intros ?; mono|].
  apply will_waits; [intros Ht q Hq; by apply Hs|]. intros s' [Hk Hp]. apply will_return, HQ. split; [|exact Hp].
  etrans; [by apply (re_popen_keeps Hr p)|exact Hk].
Qed.

Lemma will_port k (Q : Z -> state -> Prop) s : room (S k) s ->
  (forall p s', valid_port p -> room k s' -> keeps (world s) (world s') -> Q p s') -> will (fun f => get_free_random_port f) Q s.
Proof.
  intros Hk HQ. assert (Hp : new_port (pool s) (world s)) by (apply (re_ports Hr); unfold room in Hk; lia).
  remember (world s) as w eqn:Ew. remember (pool s) as ps eqn:Eps.
  revert s Ew Eps Hk HQ. induction Hp as [w w' p Eb Hn|w w' p Eb Hin _ IH]; intros s -> -> Hk HQ;
    pose proof (re_bind_keeps Hr (world s)) as Hw; pose proof (re_bind_valid Hr (world s)) as Hv;
    rewrite Eb in Hw, Hv; cbn in Hw, Hv.
  - eexists 1%nat, _, [], p. split.
    + cbn [get_free_random_port]. unfold f_bind, f_lift, sys, on_machines, py_get. rewrite Eb.
      rewrite bool_decide_eq_false_2 by done. reflexivity.
    + apply HQ; [exact Hv| |exact Hw]. unfold room in *. cbn. rewrite size_union, size_singleton by set_solver. lia.
  - destruct (IH (set_world w' s) eq_refl eq_refl Hk) as (f & s' & es & a & E & HQ').
    { intros q s' Hq1 Hq Hs. apply HQ; [done..|]. by etrans. }
    exists (S f), s', es, a. split; [|exact HQ']. cbn [get_free_random_port].
    unfold f_bind, f_lift, sys, on_machines, py_get. rewrite Eb. rewrite bool_decide_eq_true_2 by done. by rewrite E.
Qed.

(** ** The phases of a deployment *)
Definition has_ports (n : node) : Prop := valid_port (port n) /\ valid_port (rpcPort n).
Lemma will_nodes ids0 k (Q : list node -> state -> Prop) s : room (2 * length ids0 + k) s ->
  (forall cluster s', id <$> cluster = ids0 -> Forall is_local cluster -> Forall has_ports cluster -> room k s' ->
     Q cluster s') ->
  will (fun f => local_nodes f ids0) Q s.
Proof.
  revert Q s. induction ids0 as [|i ids0 IH]; intros Q s Hk HQ; cbn [local_nodes].
  { apply will_return, HQ; [done|constructor..|exact Hk]. }
  pose proof (mono_nodes ids0).
  apply (will_bind _ (fun p f => let? rpc := get_free_random_port f in _)); [mono|intros ?; mono|].
  apply (will_port (S (2 * length ids0 + k))); [replace (S (S (2 * length ids0 + k))) with (2 * length (i :: ids0) + k)%nat by (cbn; lia); exact Hk|].
  intros p s1 Hp Hk1 _. apply (will_bind _ (fun rpc f => let? ns := local_nodes f ids0 in _)); [mono|intros ?; mono|].
  apply (will_port _ _ _ Hk1). intros rpc s2 Hrpc Hk2 _.
  apply (will_bind _ (fun ns _ => _)); [mono|intros ?; mono|]. apply IH; [exact Hk2|].
  intros ns s3 Hns Hl Hps Hk3. apply will_return, HQ; [by rewrite fmap_cons, Hns|by constructor..|exact Hk3].
Qed.

Lemma will_run_node algorithm p file test_daemon (Q : unit -> state -> Prop) s :
  (forall s', grows s s' -> Q tt s') -> will (fun f => run_node algorithm f Here p file test_daemon) Q s.
Proof.
  intros HQ. unfold run_node, run_pso_node, run_paxos_node. destruct (String.eqb algorithm "pso");
    (apply (will_bind _ (fun _ _ => f_return tt)); [mono|intros ?; mono|]);
    (apply will_service; [apply s_server|done|]; intros s' Hs; by apply will_return, HQ).
Qed.

Lemma grows_trans s1 s2 s3 : grows s1 s2 -> grows s2 s3 -> grows s1 s3.
Proof. intros [K1 E1] [K2 E2]. split; [by etrans|by rewrite E2]. Qed.

Lemma will_server algorithm first rest test_daemon (Q : unit -> state -> Prop) s :
  (forall s', keeps (world s) (world s') -> Q tt s') ->
  will (fun f => configure_local algorithm f (first :: rest) test_daemon) Q s.
Proof.
  intros HQ. unfold configure_local. cbn [first_node tail].
  apply (will_bind (fun _ => _) (fun first f => run_node _ _ _ _ _ _ ;;? f_for rest _));
    [mono|intros ?; mono; apply mono_run_node|]. apply will_return.
  apply (will_bind _ (fun _ f => f_for rest _)); [apply mono_run_node|intros ?; mono; apply mono_run_node|].
  apply will_run_node. intros s1 Hs1. eapply will_weaken.
  - apply (will_for rest (fun f n => run_node algorithm f Here (port n) (node_file (py_str (id n))) None)
      (fun _ s' => grows s s') s1); [intros n; apply mono_run_node| |exact Hs1].
    intros l1 n l2 s2 _ Hs2. apply will_run_node. intros s3. by apply grows_trans.
  - intros [] s' [Hk _]. by apply HQ.
Qed.

Definition follower (fuel : nat) (first : node) (cp : Z) (n : node) : F unit :=
  let? my_cp := get_free_random_port fuel in
  let? my_hp := get_free_random_port fuel in
  configure_rethinkdb_follower world set_world Started fuel Here (id n) (address first) cp my_cp (port n) my_hp ;;?
  f_return tt.
Lemma mono_follower_ports first cp n : mono (fun f => follower f first cp n).
Proof. unfold follower. mono; apply mono_follower. Qed.

Lemma will_follower first cp n k (Q : unit -> state -> Prop) s : has_ports n -> room (2 + k) s ->
  (forall s', room k s' -> keeps (world s) (world s') -> Q tt s') -> will (fun f => follower f first cp n) Q s.
Proof.
  intros [Hn _] Hk HQ. unfold follower.
  apply (will_bind _ (fun my_cp f => let? my_hp := get_free_random_port f in _)); [mono|intros ?; mono; apply mono_follower|].
  apply (will_port _ _ _ Hk). intros my_cp s1 Hcp Hk1 Hw1.
  apply (will_bind _ (fun my_hp f => _ ;;? f_return tt)); [mono|intros ?; mono; apply mono_follower|].
  apply (will_port _ _ _ Hk1). intros my_hp s2 Hhp Hk2 Hw2.
  apply (will_bind _ (fun _ _ => f_return tt)); [apply mono_follower|intros ?; mono|].
  apply will_service; [apply s_follower|intros _ w q Hq; apply (re_rethinkdb Hr _ _ _ _ _) with (2 := Hq); by apply three_valid|]. intros s3 [Hw3 Hp3].
  apply will_return, HQ; [unfold room in *; by rewrite Hp3|]. etrans; [exact Hw1|]. by etrans.
Qed.

Lemma will_followers first cp rest (Q : unit -> state -> Prop) s : Forall has_ports rest -> room (2 * length rest) s ->
  (forall s', keeps (world s) (world s') -> Q tt s') ->
  will (fun f => f_for rest (follower f first cp)) Q s.
Proof.
  intros Hps Hk HQ. eapply will_weaken.
  - apply (will_for rest (fun f => follower f first cp)
      (fun l s' => room (2 * (length rest - length l)) s' /\ keeps (world s) (world s')) s).
    + apply mono_follower_ports.
    + intros l1 n l2 s1 El [Hk1 Hw1]. apply (will_follower _ _ _ (2 * (length rest - length (l1 ++ [n])))).
      * rewrite Forall_forall in Hps. apply Hps. rewrite El. apply elem_of_app. right. by left.
      * unfold room in *. rewrite El, !length_app in *. cbn in *. lia.
      * intros s2 Hk2 Hw2. split; [exact Hk2|by etrans].
    + split; [by rewrite Nat.sub_0_r|done].
  - intros [] s' [_ Hw]. by apply HQ.
Qed.

Lemma will_rethinkdb first rest (Q : unit -> state -> Prop) s : Forall has_ports (first :: rest) -> room (2 * length (first :: rest)) s ->
  (forall s', keeps (world s) (world s') -> Q tt s') ->
  will (fun f => configure_rethinkdb_local f (first :: rest)) Q s.
Proof.
  intros [[Hfirst _] Hps]%Forall_cons Hk HQ. unfold configure_rethinkdb_local. cbn [first_node tail].
  assert (Hmf : forall cp x, mono (fun f => f_for rest (follower f x cp))).
  { intros cp x. apply mono_for. apply mono_follower_ports. }
  assert (Hmm : forall cp dp hp a, mono (fun f => configure_rethinkdb_master world set_world Started f Here cp dp hp a : F string)).
  { intros. unfold configure_rethinkdb_master. mono. }
  apply (will_bind _ (fun cp f => let? x := f_return first in let? http := get_free_random_port f in
    configure_rethinkdb_master world set_world Started f Here cp (port x) http "localhost" ;;?
    f_for rest (follower f x cp))); [mono|intros ?; mono; auto|].
  apply (will_port (S (2 * length rest))).
  { unfold room in *. cbn in *. lia. }
  intros cp s1 Hcp Hk1 Hw1.
  apply (will_bind (fun _ => _) (fun x f => let? http := get_free_random_port f in
    configure_rethinkdb_master world set_world Started f Here cp (port x) http "localhost" ;;?
    f_for rest (follower f x cp))); [mono|intros ?; mono; auto|]. apply will_return.
  apply (will_bind _ (fun http f =>
    configure_rethinkdb_master world set_world Started f Here cp (port first) http "localhost" ;;?
    f_for rest (follower f first cp))); [mono|intros ?; mono; auto|].
  apply (will_port _ _ _ Hk1). intros http s2 Hhp Hk2 Hw2.
  apply (will_bind _ (fun _ f => f_for rest (follower f first cp))); [auto..|].
  apply will_service; [apply s_master|intros _ w q Hq; apply (re_rethinkdb Hr _ _ _ _ _) with (2 := Hq); by apply three_valid|]. intros s3 [Hw3 Hp3].
  apply (will_followers _ _ _ _ _ Hps); [unfold room in *; by rewrite Hp3|]. intros s4 Hw4. apply HQ.
  etrans; [exact Hw1|]. etrans; [exact Hw2|]. by etrans.
Qed.

(** The configuration files of the nodes are written. *)
Definition files (cluster : list node) (l : list node) (s : state) : Prop :=
  forall n, n ∈ l -> holds (world s) (node_file (py_str (id n))) (get_node_config set_order cluster n "local" None).

Lemma files_keeps cluster l s s' : keeps (world s) (world s') -> files cluster l s -> files cluster l s'.
Proof. intros Hk Hf n Hn. by apply (k_holds _ _ Hk), Hf. Qed.

Lemma node_file_inj i j : node_file (py_str i) = node_file (py_str j) -> i = j.
Proof. intros E%(inj (String.append _))%app_cancel_r. by apply py_str_inj. Qed.

Lemma will_write i c (Q : unit -> state -> Prop) s : Q tt (set_world (dump_config (node_file i) c (world s)).1 s) ->
  will (fun _ => f_lift (write_node_file (node_file i) c)) Q s.
Proof.
  intros HQ. pose proof (re_dump Hr i c (world s)) as Hp.
  eapply will_lift; [|exact HQ].
  unfold write_node_file, ask, py_bind, py_emit, py_call. destruct (dump_config (node_file i) c (world s)) as [w o].
  cbn in *. subst o. reflexivity.
Qed.

Lemma will_files cluster (Q : unit -> state -> Prop) k s : NoDup (id <$> cluster) -> room k s ->
  (forall s', room k s' -> files cluster cluster s' -> Q tt s') ->
  will (fun f => f_for cluster (fun n =>
    f_lift (write_node_file (node_file (py_str (id n))) (get_node_config set_order cluster n "local" None)))) Q s.
Proof.
  intros Hn Hk HQ. eapply will_weaken.
  - apply (will_for cluster (fun _ n => f_lift (write_node_file _ _)) (fun l s' => room k s' /\ files cluster l s') s).
    + intros n. apply mono_lift.
    + intros l1 n l2 s1 El [Hk1 Hf1]. apply will_write. split; [exact Hk1|].
      intros m [Hm| ->%list_elem_of_singleton]%elem_of_app; [|apply (re_dump_holds Hr)].
      apply (re_dump_others Hr); [|by apply Hf1]. intros E%node_file_inj.
      rewrite El, fmap_app, fmap_cons in Hn. apply NoDup_app in Hn as (_ & Hn & _).
      apply (Hn (id m)); [by apply list_elem_of_fmap_2|]. rewrite E. by left.
    + split; [exact Hk|]. by intros n Hn'%elem_of_nil.
  - intros [] s' [Hk' Hf']. by apply HQ.
Qed.

(** The managers: each is started on its file and then waited for. *)
Definition listening (l : list node) (s : state) : Prop := forall n, n ∈ l -> served (world s) (rpcPort n).

Lemma will_start_managers cluster (Q : unit -> state -> Prop) s : Forall has_ports cluster -> files cluster cluster s ->
  (forall s', listening cluster s' -> Q tt s') ->
  will (fun f => f_for cluster (fun n => f_lift (popen_here (manager_process executable n)))) Q s.
Proof.
  intros Hps Hf HQ. eapply will_weaken.
  - apply (will_for cluster (fun _ n => f_lift (popen_here (manager_process executable n)))
      (fun l s' => files cluster cluster s' /\ listening l s') s).
    + intros n. apply mono_lift.
    + intros l1 n l2 s1 El [Hf1 Hl1]. apply will_popen; [apply s_manager|].
      pose proof (re_popen_keeps Hr (manager_process executable n) (world s1) (s_manager _)) as Hk.
      assert (Hn : n ∈ cluster) by (rewrite El; apply elem_of_app; right; by left).
      split; [by apply (files_keeps _ _ s1)|].
      intros m [Hm| ->%list_elem_of_singleton]%elem_of_app; [by apply (k_served _ _ Hk), Hl1|].
      apply (re_manager Hr _ (get_node_config set_order cluster n "local" None)); [by apply Hf1|].
      rewrite Forall_forall in Hps. apply (Hps n Hn).
    + split; [exact Hf|]. by intros n Hn'%elem_of_nil.
  - intros [] s' [_ Hl']. by apply HQ.
Qed.
Lemma will_wait_managers cluster (Q : unit -> state -> Prop) s : Forall is_local cluster -> listening cluster s ->
  (forall s', listening cluster s' -> Q tt s') ->
  will (fun f => f_for cluster (fun n => wait_for_port world set_world f Here (address n) (rpcPort n) (3#10) true : F unit)) Q s.
Proof.
  intros Hc Hl HQ. eapply will_weaken.
  - apply (will_for cluster (fun f n => wait_for_port world set_world f Here (address n) (rpcPort n) (3#10) true)
      (fun _ s' => listening cluster s') s); [intros n; apply mono_wait| |exact Hl].
    intros l1 n l2 s1 El Hl1. assert (Hn : n ∈ cluster) by (rewrite El; apply elem_of_app; right; by left).
    rewrite Forall_forall in Hc. destruct (Hc n Hn) as [-> _].
    apply will_wait; [intros _; by apply Hl1|]. intros s2 [Hk _] m Hm. by apply (k_served _ _ Hk), Hl1.
  - intros [] s' Hl'. by apply HQ.
Qed.

(** The phases after the files, together. *)
Definition run_algorithm (fuel : nat) (algorithm : string) (cluster : list node) : F unit :=
  if String.eqb algorithm "pso" || String.eqb algorithm "paxos" then
    configure_local algorithm fuel cluster local_endpoint
  else if String.eqb algorithm "rethinkdb" then configure_rethinkdb_local fuel cluster
  else f_return tt.
Definition finish (fuel : nat) (algorithm : string) (cluster : list node) : F unit :=
  let? first := first_node cluster in
  run_test_daemon world set_world Started directory fuel Here algorithm (port first) ;;?
  f_lift (write_master_file "masterConfig.json"
    {| m_mode := "local"; m_algorithm := algorithm; m_testDaemon := local_endpoint; m_nodes := cluster |}).

Lemma mono_algorithm algorithm cluster : mono (fun f => run_algorithm f algorithm cluster).
Proof.
  unfold run_algorithm. mono.
  - unfold configure_local. mono; try apply mono_first; apply mono_run_node.
  - unfold configure_rethinkdb_local, configure_rethinkdb_master. mono; try apply mono_first; apply mono_follower.
Qed.
Lemma mono_finish algorithm cluster : mono (fun f => finish f algorithm cluster).
Proof. unfold finish, run_test_daemon. mono. apply mono_first. Qed.

Ltac mono_phases := repeat first [apply mono_algorithm | apply mono_finish | mono_step].

Lemma will_algorithm algorithm cluster (Q : unit -> state -> Prop) s : cluster <> [] -> Forall has_ports cluster -> room (2 * length cluster) s ->
  (forall s', keeps (world s) (world s') -> Q tt s') -> will (fun f => run_algorithm f algorithm cluster) Q s.
Proof.
  intros Hc Hps Hk HQ. unfold run_algorithm. destruct cluster as [|first rest]; [done|].
  destruct (String.eqb algorithm "pso" || String.eqb algorithm "paxos"); [by apply will_server|].
  destruct (String.eqb algorithm "rethinkdb"); [by apply will_rethinkdb|]. by apply will_return, HQ.
Qed.

Lemma will_finish algorithm cluster (Q : unit -> state -> Prop) s : cluster <> [] ->
  (forall s', keeps (world s) (world s') -> served (world s') TEST_DAEMON_PORT -> Q tt s') ->
  will (fun f => finish f algorithm cluster) Q s.
Proof.
  intros Hc HQ. unfold finish, run_test_daemon. destruct cluster as [|first rest]; [done|]. cbn [first_node].
  apply (will_bind (fun _ => _) (fun first f => (_ ;;? _) ;;? _)); [mono|intros ?; mono|]. apply will_return.
  apply (will_bind (fun f => _ ;;? _) (fun _ _ => f_lift _)); [mono|intros ?; mono|].
  apply (will_bind (fun _ => _) (fun _ f => wait_for_ports _ _ f _ _ _ _)); [mono|intros ?; mono|].
  apply will_popen; [apply s_test_daemon|]. apply will_waits.
  { intros _ p ->%list_elem_of_singleton. apply (re_test_daemon Hr). }
  intros s1 [Hk1 _]. cbn [set_world world] in Hk1.
  set (c := {| m_mode := "local"; m_algorithm := algorithm; m_testDaemon := local_endpoint; m_nodes := first :: rest |}).
  pose proof (re_dump_master Hr c (world s1)) as Hm.
  pose proof (re_dump_master_keeps Hr "masterConfig.json" c (world s1)) as Hk2.
  apply will_lift with (set_world (dump_master "masterConfig.json" c (world s1)).1 s1) [WroteMaster "masterConfig.json" c] tt.
  - unfold write_master_file, ask, py_bind, py_emit, py_call. destruct (dump_master _ c (world s1)) as [w o].
    cbn in *. by subst o.
  - apply HQ; cbn.
    + etrans; [apply (re_popen_keeps Hr); apply s_test_daemon|]. by etrans; [exact Hk1|].
    + apply (k_served _ _ Hk2), (k_served _ _ Hk1), (re_test_daemon Hr).
Qed.

(** C30: when files can be written, when processes start and open their ports, when
    a TCP port that a started process opens sooner or later answers, and when there
    are four random ports for each node, the deployment of a local cluster of at least one node ends
    without an exception, for every algorithm, and then a test daemon and the
    network managers of as many nodes have been started.  So every port is waited
    for only after the process that opens it was started, and that with its
    configuration file written. *)
Theorem local_cluster_comes_up nodes_num algorithm s : 1 <= nodes_num -> room (4 * Z.to_nat nodes_num) s ->
  exists fuel cluster s' es, provide_local_cluster set_order directory executable fuel nodes_num algorithm s =
    Some (s', es, Ret tt) /\
    id <$> cluster = seqZ 1 nodes_num /\ listening cluster s' /\ served (world s') TEST_DAEMON_PORT.
Proof.
  intros Hn Hk. cut (will (fun f => provide_local_cluster set_order directory executable f nodes_num algorithm)
    (fun _ s' => exists cluster, id <$> cluster = seqZ 1 nodes_num /\ listening cluster s' /\
       served (world s') TEST_DAEMON_PORT) s).
  { intros (f & s' & es & [] & E & cluster & Hc). by exists f, cluster, s', es. }
  unfold provide_local_cluster.
  apply (will_bind _ (fun cluster f => _ ;;? run_algorithm f algorithm cluster ;;? _ ;;? _ ;;? finish f algorithm cluster));
    [apply mono_nodes|intros cluster; mono_phases|].
  apply (will_nodes _ (2 * Z.to_nat nodes_num)); [rewrite length_seqZ; by replace (2 * Z.to_nat nodes_num + 2 * Z.to_nat nodes_num)%nat with (4 * Z.to_nat nodes_num)%nat by lia|].
  intros cluster s1 Hid Hl Hps Hk1.
  assert (Hlen : length cluster = Z.to_nat nodes_num) by (rewrite <-(length_fmap id), Hid; apply length_seqZ).
  assert (Hc : cluster <> []) by (intros ->; cbn in Hlen; lia).
  apply (will_bind (fun f => f_for cluster _) (fun _ f => run_algorithm f algorithm cluster ;;? _ ;;? _ ;;? finish f algorithm cluster));
    [mono|intros ?; mono_phases|].
  apply (will_files _ _ _ _ ltac:(rewrite Hid; apply NoDup_seqZ) Hk1). intros s2 Hk2 Hf2.
  apply (will_bind _ (fun _ f => f_for cluster _ ;;? f_for cluster _ ;;? finish f algorithm cluster));
    [apply mono_algorithm|intros ?; mono_phases|].
  apply (will_algorithm _ _ _ _ Hc Hps); [by rewrite Hlen|]. intros s3 Hw3.
  apply (will_bind (fun f => f_for cluster _) (fun _ f => f_for cluster _ ;;? finish f algorithm cluster));
    [mono|intros ?; mono_phases|].
  apply (will_start_managers _ _ _ Hps); [by apply (files_keeps _ _ s2)|]. intros s4 Hl4.
  apply (will_bind (fun f => f_for cluster _) (fun _ f => finish f algorithm cluster)); [mono|intros ?; apply mono_finish|].
  apply (will_wait_managers _ _ _ Hl Hl4). intros s5 Hl5.
  apply (will_finish _ _ _ _ Hc). intros s6 Hw6 Ht. exists cluster. split; [exact Hid|]. split; [|exact Ht].
  intros n Hn'. by apply (k_served _ _ Hw6), Hl5.
Qed.
End live.

(** ** A system *)
Lemma py_in_inside p a b : py_in p (a +:+ p +:+ b) = true.
Proof.
  induction a as [|x a IH].
  - rewrite app_empty_s. pose proof (startswith_app p b) as Hp. destruct (p +:+ b); cbn [py_in]; by rewrite Hp.
  - rewrite app_cons_s. cbn [py_in]. by rewrite IH, orb_true_r.
Qed.

Module Demo.
(** The world counts: every port is given twice, and every connection to an open
    port is refused once.  [doors] says for each process that was started which
    ports it opens. *)
Record world_ : Type := mkWorld { tick : Z; refused : bool; stored : gmap string node_config; doors : list (Z -> bool) }.
Definition ports : Z := 28232.
Definition word (q : Z) : string := " " +:+ py_str q +:+ " ".

(** RethinkDB opens the ports of its command line, the network manager that of
    its file, the test daemon its own. *)
Definition opens (files : gmap string node_config) (p : process) (q : Z) : bool :=
  match p with
  | Shell cmd =>
      if py_startswith "python3.4 " cmd then q =? TEST_DAEMON_PORT
      else py_startswith "rethinkdb " cmd && py_in (word q) cmd
  | Args [_; script; path] =>
      if String.eqb script "network_manager.py" then
        match files !! path with Some c => q =? c_rpcPort c | None => false end
      else String.eqb script "./network_manager.py" && (q =? NETWORK_MANAGER_PORT)
  | Args _ => false
  end.
Definition is_open (q : Z) (w : world_) : bool := existsb (fun d => d q) (doors w).
Definition counted (w : world_) : world_ := mkWorld (tick w + 1) (refused w) (stored w) (doors w).

#[export] Instance machines : Machines world_ := {|
  popen _ p w := (mkWorld (tick w) (refused w) (stored w) (opens (stored w) p :: doors w), Ret tt);
  output at_ p w := (w, Ret "text");
  connect _ _ q tcp w :=
    if negb tcp then (w, true)
    else if is_open q w then (mkWorld (tick w) (negb (refused w)) (stored w) (doors w), refused w)
    else (w, false);
  sleep _ w := w;
|}.
#[export] Instance gce : Gce world_ := {|
  credentials w := (w, Ret tt);
  image_link w := (w, Ret "image");
  insert_instance _ w := (w, Ret (Some "operation"));
  operation_done _ w := (counted w, Ret (Z.even (tick w)));
  instance_ips vm w := (w, Ret ("1.2.3." +:+ py_str (tick w), "10.0.0." +:+ py_str (tick w)));
  firewall_exists w := (w, Raise IOError);
  insert_firewall w := (w, Ret tt);
  object_exists _ w := (w, Ret tt);
  delete_object _ w := (w, Ret tt);
  insert_object _ _ w := (w, Ret tt);
|}.
#[export] Instance system : System world_ := {|
  bind_port w := (counted w, 32768 + (tick w / 2) mod ports);
  random_letter w := (counted w, "x"%char);
  startup_script _ w := (w, Ret "#!/bin/sh");
  dump_config path c w := (mkWorld (tick w) (refused w) (<[path := c]> (stored w)) (doors w), Ret tt);
  dump_master _ _ w := (w, Ret tt);
|}.
Definition start : Provisioner.state := {| pool := ∅; world := mkWorld 0 false ∅ [] |}.
Definition order (X : gset string) : list string := elements X.

Definition served (w : world_) (q : Z) : Prop := is_open q w = true.
Definition holds (w : world_) (path : string) (c : node_config) : Prop := stored w !! path = Some c.
Definition capacity : nat := Z.to_nat ports.

Lemma port_left (ps : gset Z) : (size ps < capacity)%nat -> exists d, 0 <= d < ports /\ 32768 + d ∉ ps.
Proof.
  intros Hs. destruct (decide (Forall (fun p => p ∈ ps) (seqZ 32768 ports))) as [Ha|Hn].
  - exfalso. assert (Hsub : list_to_set (seqZ 32768 ports) ⊆ ps).
    { intros p Hp%elem_of_list_to_set. rewrite Forall_forall in Ha. by apply Ha. }
    apply subseteq_size in Hsub. rewrite size_list_to_set in Hsub by apply NoDup_seqZ.
    rewrite length_seqZ in Hsub. unfold capacity in Hs. lia.
  - apply not_Forall_Exists, Exists_exists in Hn as (p & Hp%elem_of_seqZ & Hn); [|intros x; apply _].
    exists (p - 32768). split; [lia|]. by replace (32768 + (p - 32768)) with p by lia.
Qed.

Lemma demo_ports ps w : (size ps < capacity)%nat -> new_port ps w.
Proof.
  intros (d & Hd & Hn)%port_left.
  remember (Z.to_nat (2 * ((d - tick w / 2) mod ports) + (1 - tick w mod 2))) as n eqn:En.
  revert w En. induction n as [n IH] using lt_wf_ind. intros w En.
  destruct (decide (32768 + (tick w / 2) mod ports ∈ ps)) as [Hp|Hp]; [|by eapply new_now].
  eapply new_later; [reflexivity|exact Hp|]. eapply IH; [|reflexivity].
  assert (Hne : (tick w / 2) mod ports <> d) by (intros E; by rewrite E in Hp). revert Hne Hd. rewrite En. cbn [tick counted].
  unfold ports. intros Hne Hd. Z.to_euclidean_division_equations. lia.
Qed.
Lemma connect_open host q w : served w q ->
  connect Here host q true w = (mkWorld (tick w) (negb (refused w)) (stored w) (doors w), refused w).
Proof.
  intros Hq. change (connect Here host q true w) with (if is_open q w
    then (mkWorld (tick w) (negb (refused w)) (stored w) (doors w), refused w) else (w, false)).
  by rewrite Hq.
Qed.
Lemma demo_answers q t w : served w q -> answers "127.0.0.1" q t true w.
Proof.
  intros Hq. destruct (refused w) eqn:E.
  - eapply answers_now. by rewrite connect_open, E.
  - eapply answers_later; [by rewrite connect_open, E|].
    eapply answers_now. by rewrite connect_open.
Qed.
Lemma opens_served p q w : opens (stored w) p q = true -> served (popen Here p w).1 q.
Proof. intros Ho. unfold served, is_open. cbn. by rewrite Ho. Qed.
(** A RethinkDB command line opens its words. *)
Lemma opens_word a q b files : opens files (Shell ("rethinkdb " +:+ a +:+ " " +:+ py_str q +:+ " " +:+ b)) q = true.
Proof.
  unfold opens. change (py_startswith "python3.4 " _) with false.
  rewrite startswith_app. pose proof (py_in_inside (word q) ("rethinkdb " +:+ a) b) as Hw. revert Hw.
  unfold word. by rewrite !app_assoc_s.
Qed.

Lemma keeps_doors w w' : stored w' = stored w -> doors w' = doors w -> keeps served holds w w'.
Proof.
  intros E1 E2. split.
  - intros p. unfold served, is_open. by rewrite E2.
  - intros path c. unfold holds. by rewrite E1.
Qed.

Lemma command_serves p a q b w :
  p = Shell ("rethinkdb " +:+ a +:+ " " +:+ py_str q +:+ " " +:+ b) -> served (popen Here p w).1 q.
Proof. intros ->. apply opens_served, opens_word. Qed.

Lemma demo_master cp dp hp addr q w : q ∈ [cp; dp; hp] ->
  served (popen Here (rethinkdb_master_process cp dp hp addr) w).1 q.
Proof.
  set (start := "--cache-size 0 --bind all --cluster-port").
  rewrite !elem_of_cons. intros [->|[->|[->|[]%elem_of_nil]]].
  - by apply (command_serves _ start _ ("--driver-port " +:+ py_str dp +:+ " --http-port " +:+ py_str hp
      +:+ " --canonical-address " +:+ addr +:+ " &")).
  - apply (command_serves _ (start +:+ " " +:+ py_str cp +:+ " --driver-port") _ ("--http-port " +:+ py_str hp
      +:+ " --canonical-address " +:+ addr +:+ " &")). by rewrite !app_assoc_s.
  - apply (command_serves _ (start +:+ " " +:+ py_str cp +:+ " --driver-port " +:+ py_str dp +:+ " --http-port") _
      ("--canonical-address " +:+ addr +:+ " &")). by rewrite !app_assoc_s.
Qed.
Lemma demo_follower i ip mcp cp dp hp q w : q ∈ [cp; dp; hp] ->
  served (popen Here (rethinkdb_follower_process i ip mcp cp dp hp) w).1 q.
Proof.
  set (start := "--cache-size 0 --bind all --directory rethinkdb_data" +:+ py_str i +:+ " --join " +:+ ip
      +:+ ":" +:+ py_str mcp +:+ " --cluster-port").
  rewrite !elem_of_cons. intros [->|[->|[->|[]%elem_of_nil]]].
  - apply (command_serves _ start _ ("--driver-port " +:+ py_str dp +:+ " --http-port " +:+ py_str hp +:+ " &")).
    unfold start. by rewrite !app_assoc_s.
  - apply (command_serves _ (start +:+ " " +:+ py_str cp +:+ " --driver-port") _ ("--http-port " +:+ py_str hp +:+ " &")).
    unfold start. by rewrite !app_assoc_s.
  - apply (command_serves _ (start +:+ " " +:+ py_str cp +:+ " --driver-port " +:+ py_str dp +:+ " --http-port") _ "&").
    unfold start. by rewrite !app_assoc_s.
Qed.

(** The directory of the scripts, and what Python is called. *)
Definition directory (at_ : location) : string := "/opt".
Lemma demo_responsive : responsive directory "python3" served holds capacity.
Proof.
  split; try done.
  - intros p w _. split; [|done]. intros q. unfold served, is_open. cbn. intros ->. by rewrite orb_true_r.
  - intros host p tcp w. apply keeps_doors; cbn; destruct (negb tcp); try done; by destruct (is_open p w).
  - intros w. unfold valid_port. cbn. pose proof (Z.mod_pos_bound (tick w / 2) ports eq_refl). unfold ports in *. lia.
  - intros i c w. unfold holds. cbn. by rewrite lookup_insert_eq.
  - intros path c w path' c' Hne. unfold holds. cbn. by rewrite lookup_insert_ne by done.
  - intros path c w Hf _. apply opens_served. cbn. unfold holds in Hf. rewrite Hf. apply Z.eqb_refl.
  - intros cp dp hp p w _ Hp. split; [intros addr; by apply demo_master|intros i ip mcp; by apply demo_follower].
  - intros p t w. apply demo_answers.
  - apply demo_ports.
Qed.
End Demo.
#[local] Existing Instance Demo.machines.
#[local] Existing Instance Demo.gce.
#[local] Existing Instance Demo.system.

Lemma local_cluster_comes_up_witness : exists fuel cluster s' es,
  provide_local_cluster Demo.order Demo.directory "python3" fuel 3 "rethinkdb" Demo.start = Some (s', es, Ret tt) /\
  id <$> cluster = seqZ 1 3 /\ listening Demo.served cluster s' /\ Demo.served (world s') TEST_DAEMON_PORT.
Proof.
  apply (local_cluster_comes_up Demo.order Demo.directory "python3" Demo.served Demo.holds Demo.capacity
    Demo.demo_responsive 3 "rethinkdb"); [lia|].
  unfold room, Demo.start, Demo.capacity, Demo.ports. cbn [pool]. rewrite size_empty. lia.
Defined.

Definition returned {S E} (o : option (S * list E * outcome unit)) : bool :=
  match o with Some (_, _, r) => bool_decide (r = Ret tt) | None => false end.
Abbreviation demo_run := (provide_local_cluster Demo.order Demo.directory "python3" 5 3 "rethinkdb" Demo.start).
Lemma local_cluster_deployed_witness : exists s' es cluster first qs run, demo_run = Some (s', es, Ret tt) /\
  id <$> cluster = seqZ 1 3 /\ Forall is_local cluster /\ head cluster = Some first /\
  fresh Demo.start s' (ports_of cluster ++ qs) /\ algorithm_local cluster local_endpoint "rethinkdb" qs run /\
  es = wrote_configs Demo.order cluster ++ run ++ started_managers "python3" cluster
         ++ ready Demo.directory "rethinkdb" cluster first.
Proof.
  assert (Hr : returned demo_run = true) by vm_cast_no_check (eq_refl true).
  destruct demo_run as [[[s' es] r]|] eqn:E; [|discriminate].
  apply bool_decide_eq_true_1 in Hr as ->.
  destruct (local_cluster_deployed Demo.order Demo.directory "python3" 5 3 "rethinkdb" Demo.start s' es E)
    as (cluster & first & qs & run & Hd). exists s', es, cluster, first, qs, run.
  exact (conj eq_refl Hd).
Defined.

Abbreviation demo_gce :=
  (provide_gce_cluster Demo.order Demo.directory (fun items => items) 5 2 "pso" Demo.start).
Lemma gce_cluster_deployed_witness : exists s' es ph, demo_gce = Some (s', es, Ret tt) /\
  gce_deployment (fun items => items) 2 "pso" ph /\
  es = gce_events Demo.order Demo.directory "pso" ph.
Proof.
  assert (Hr : returned demo_gce = true) by vm_cast_no_check (eq_refl true).
  destruct (provide_gce_cluster _ _ _ _ _ _ _) as [[[s' es] r]|] eqn:E; [|discriminate].
  apply bool_decide_eq_true_1 in Hr as ->.
  destruct (gce_cluster_deployed Demo.order Demo.directory (fun items => items) 5 2 "pso" Demo.start s' es E)
    as (_ & ph & Hd). exists s', es, ph. exact (conj eq_refl Hd).
Defined.

(** The body of a request for a machine has no subnetwork. *)
Fixpoint body_get (k : string) (kvs : list (string * body)) : option body :=
  match kvs with [] => None | (k', v) :: kvs => if String.eqb k k' then Some v else body_get k kvs end.
Theorem no_subnetwork : match network_interface with
  | BDict kvs => body_get "subnetwork" kvs = None /\
      body_get "projects/krafters-1334/regions/us-central1/subnetworks/defaultsubnetwork" kvs <> None
  | _ => False
  end.
Proof. by vm_compute. Qed.
