(* ===== verification/ConfigureTester.v ===== *)
(** * Calling the configure daemon (configure_daemon_tester.py)

    The functions that configure_daemon.py registers with its XML-RPC server,
    under their names, and the script that calls them by hand.  A call with the
    wrong number of arguments is a [TypeError] in the daemon and a [Fault] for
    the caller, as is anything a function raises; each function prints, and
    [None] is what one without a result answers. *)
From stdpp Require Import base gmap sets list strings.
From Stdlib Require Import ZArith QArith Lia Strings.Ascii.
From S2P Require Import Prelude PyList PyStr PyText PyExcept PyFuel NetworkManager ConfigureDaemon Provisioner ProvisionerTheorems ProvisionerLiveness.
Local Open Scope Z_scope.

(** An argument of a remote call. *)
Inductive value : Type := VInt (z : Z) | VStr (s : string) | VNone.

Definition Fault : py_error := PlainException "Fault".

Section tester.
Context {W : Type} `{Machines W} `{Gce W} `{System W}.
Context (directory : location -> string).
Abbreviation F A := (PyF (state (W := W)) event A).

Definition no_result (m : F unit) : F (option string) := m ;;? f_return None.
Definition with_result (m : F string) : F (option string) := let? s := m in f_return (Some s).

(** ** The daemon (main of configure_daemon.py)

    A registered function: what it does on a machine with arguments of its
    signature, [None] on others. *)
Definition function : Type := nat -> location -> list value -> option (F (option string)).

Definition serve_node (run : nat -> location -> Z -> string -> option string -> F string) : function :=
  fun fuel at_ args =>
    match args with
    | [VInt port; VStr file] | [VInt port; VStr file; VNone] => Some (with_result (run fuel at_ port file None))
    | [VInt port; VStr file; VStr d] => Some (with_result (run fuel at_ port file (Some d)))
    | _ => None
    end.

Definition registered : list (string * function) :=
  [("run_test_daemon", fun fuel at_ args =>
      match args with
      | [VStr algorithm; VInt port] =>
          Some (no_result (run_test_daemon world set_world Started directory fuel at_ algorithm port))
      | _ => None
      end);
   ("run_network_manager", fun fuel at_ args =>
      match args with
      | [] => Some (no_result (run_network_manager world set_world Started fuel at_))
      | _ => None
      end);
   ("download_node_config", fun _ at_ args =>
      match args with
      | [] => Some (with_result (download_node_config world set_world Started at_))
      | _ => None
      end);
   ("run_pso_node", serve_node (run_pso_node world set_world Started));
   ("run_paxos_node", serve_node (run_paxos_node world set_world Started));
   ("configure_rethinkdb_master", fun fuel at_ args =>
      match args with
      | [VInt cp; VInt dp; VInt hp; VStr ca] =>
          Some (with_result (configure_rethinkdb_master world set_world Started fuel at_ cp dp hp ca))
      | _ => None
      end);
   ("configure_rethinkdb_follower", fun fuel at_ args =>
      match args with
      | [VInt my_id; VStr m_ip; VInt m_cp; VInt my_cp; VInt my_dp; VInt my_hp] =>
          Some (with_result (configure_rethinkdb_follower world set_world Started fuel at_ my_id m_ip m_cp my_cp my_dp my_hp))
      | _ => None
      end);
   ("stop_rethinkdb", fun _ at_ args =>
      match args with
      | [] => Some (with_result (stop_rethinkdb world set_world Started at_))
      | _ => None
      end)].

(** A call of the daemon on a machine. *)
Definition remote (fuel : nat) (at_ : location) (name : string) (args : list value) : F (option string) :=
  match snd <$> list_find (fun f => f.1 = name) registered with
  | Some (_, f) =>
      match f fuel at_ args with
      | Some call => f_try call (fun _ => f_raise Fault)
      | None => f_raise Fault
      end
  | None => f_raise Fault
  end.

(** ** The script *)

(** [createServer(ip, port)]: the machine behind an address. *)
Context (createServer : string -> location).

Definition configure_local_node (fuel : nat) (cluster : list node) (master_cluster_port : Z) (n : node) : F unit :=
  if id n =? 1 then
    let? my_hp := get_free_random_port fuel in
    remote fuel (createServer (address n)) "configure_rethinkdb_master"
      [VInt master_cluster_port; VInt (port n); VInt my_hp] ;;? f_return tt
  else
    let? first := first_node cluster in
    let? my_cp := get_free_random_port fuel in
    let? my_hp := get_free_random_port fuel in
    remote fuel (createServer (address n)) "configure_rethinkdb_follower"
      [VInt (id n); VStr (address first); VInt master_cluster_port; VInt my_cp; VInt (port n); VInt my_hp] ;;? f_return tt.

Definition configure_gce_node (fuel : nat) (cluster : list node) (n : node) : F unit :=
  if id n =? 1 then
    remote fuel (createServer (address n)) "configure_rethinkdb_master"
      [VInt cluster_port; VInt driver_port; VInt http_port] ;;? f_return tt
  else
    let? first := first_node cluster in
    remote fuel (createServer (address n)) "configure_rethinkdb_follower"
      [VInt (id n); VStr (address first); VInt cluster_port; VInt cluster_port; VInt driver_port; VInt http_port] ;;?
    f_return tt.

Definition configure_rethinkdb (fuel : nat) (cluster : list node) (mode : string) : F (option string) :=
  let? master_cluster_port := get_free_random_port fuel in
  if String.eqb mode "local" then
    f_for cluster (configure_local_node fuel cluster master_cluster_port) ;;? f_return (Some "Configuration done")
  else if String.eqb mode "gce" then
    f_for cluster (configure_gce_node fuel cluster) ;;? f_return (Some "Configuration done")
  else f_return None.

(** The script itself: its other calls are comments. *)
Definition tester_main (fuel : nat) : F (option string) :=
  remote fuel (createServer "localhost") "run_test_daemon" [VStr "rethinkdb"].

(** ** What the script does *)

(** A port costs no event and is never refused. *)
Lemma port_quiet fuel s s' es r : get_free_random_port fuel s = Some (s', es, r) -> es = [] /\ exists p, r = Ret p.
Proof.
  revert s s' es r. induction fuel as [|fuel IH]; intros s s' es r; [done|].
  cbn [get_free_random_port]. unfold f_bind, f_lift, sys, on_machines, py_get.
  destruct (bind_port (world s)) as [w p]. cbn. destruct (bool_decide _).
  - destruct (get_free_random_port fuel _) as [[[s2 e2] r2]|] eqn:E; [|done]. intros [= <- <- <-]. by eapply IH.
  - intros [= <- <- <-]. eauto.
Qed.

(** A part that only raises [Fault], and does nothing before. *)
Definition faults {A} (m : F A) : Prop := forall s s' es r, m s = Some (s', es, r) -> es = [] /\ r = Raise Fault.

Lemma faults_port {A} fuel (k : Z -> F A) : (forall p, faults (k p)) -> faults (f_bind (get_free_random_port fuel) k).
Proof.
  intros Hk s s' es r. unfold f_bind. destruct (get_free_random_port fuel s) as [[[s1 e1] r1]|] eqn:E; [|done].
  destruct (port_quiet _ _ _ _ _ E) as [-> [p ->]]. destruct (k p s1) as [[[s2 e2] r2]|] eqn:E2; [|done].
  intros [= <- <- <-]. by eapply Hk.
Qed.
Lemma faults_bind {A B} (m : F A) (k : A -> F B) : faults m -> faults (f_bind m k).
Proof.
  intros Hm s s' es r. unfold f_bind. destruct (m s) as [[[s1 e1] r1]|] eqn:E; [|done].
  destruct (Hm _ _ _ _ E) as [-> ->]. by intros [= <- <- <-].
Qed.
(** A call without the canonical address. *)
Lemma faults_master fuel at_ cp dp hp : faults (remote fuel at_ "configure_rethinkdb_master" [VInt cp; VInt dp; VInt hp]).
Proof. intros s s' es r. cbn. by intros [= <- <- <-]. Qed.
#[local] Hint Resolve faults_port faults_bind faults_master : core.

(** The script configures nothing: on a cluster that starts with node 1, as the
    provisioner numbers them, the first call lacks an argument and faults, in
    both modes; the call of the script itself lacks the port. *)
Theorem tester_faults fuel mode n cluster s :
  id n = 1 -> mode ∈ CLUSTER_MODES ->
  faults (configure_rethinkdb fuel (n :: cluster) mode) /\ tester_main fuel s = Some (s, [], Raise Fault).
Proof.
  intros Hn Hm. split; [|done]. unfold configure_rethinkdb. apply faults_port. intros p.
  unfold CLUSTER_MODES in Hm. repeat apply elem_of_cons in Hm as [->|Hm]; [| |by apply elem_of_nil in Hm];
    cbn [String.eqb Ascii.eqb Bool.eqb f_for]; unfold configure_local_node, configure_gce_node; rewrite Hn; cbn [Z.eqb Pos.eqb]; auto 6.
Qed.

(** The call that the daemon takes. *)
Lemma remote_master fuel at_ cp dp hp ca s s' es r :
  configure_rethinkdb_master world set_world Started fuel at_ cp dp hp ca s = Some (s', es, Ret r) ->
  remote fuel at_ "configure_rethinkdb_master" [VInt cp; VInt dp; VInt hp; VStr ca] s = Some (s', es, Ret (Some r)).
Proof.
  intros E.
  change (f_try (with_result (configure_rethinkdb_master world set_world Started fuel at_ cp dp hp ca))
    (fun _ => f_raise Fault) s = Some (s', es, Ret (Some r))).
  unfold f_try, with_result. rewrite (f_bind_ret _ _ _ _ _ _ E). cbn. by rewrite app_nil_r.
Qed.
End tester.

(** ** A run *)
#[local] Existing Instances Demo.machines Demo.gce Demo.system.
Definition node1 : node :=
  {| id := 1; address := "127.0.0.1"; port := 40000; rpcPort := 40001; node_interface := "lo"; vmID := None;
     internalIP := "127.0.0.1" |}.
Lemma tester_faults_witness :
  faults (configure_rethinkdb (fun _ => "/opt") (fun _ => Here) 5 [node1] "local") /\
  tester_main (fun _ => "/opt") (fun _ => Here) 5 Demo.start = Some (Demo.start, [], Raise Fault).
Proof. apply (tester_faults (fun _ => "/opt") (fun _ => Here) 5 "local" node1 []); [reflexivity|set_solver]. Defined.
Example tester_run :
  (fun x => (effects x, result x)) <$> configure_rethinkdb (fun _ => "/opt") (fun _ => Here) 5 [node1] "local" Demo.start
  = Some ([], Raise Fault).
Proof. vm_compute. reflexivity. Qed.
