(* ===== verification/ProvisionedCluster.v ===== *)
(** * The cluster that the provisioner leaves to the test executor

    The configurations that the provisioner writes, read by the network
    managers, are what the theorems about the managers and the executor ask for:
    every node has the other nodes as peers, its manager sets up one class for
    each, and a link command of a test reaches the classes of its links.  What the
    shells of the nodes answer is arbitrary. *)
From stdpp Require Import base gmap sets list strings.
From Stdlib Require Import ZArith QArith Lia Strings.Ascii.
From S2P Require Import Prelude PyList PyStr PyText PyExcept PyFuel Regex TestParser NetworkManager NetworkManagerTheorems TestExecutor TestExecutorTheorems TestIds TestCluster ConfigureDaemon Provisioner ProvisionerTheorems.
Local Open Scope Z_scope.

(** ** One node's configuration *)
Section node.
Context (set_order : gset string -> list string) (Horder : forall X, set_order X ≡ₚ elements X).
Context (cluster : list node).

(** The network manager of a node, started on its configuration. *)
Definition node_manager (mode : string) (additional_ports : option (list Z)) (n : node) : NetemManager :=
  manager_of (get_node_config set_order cluster n mode additional_ports).
Definition others (n : node) : list node := filter (fun p => id p <> id n) cluster.

Lemma peers_are_others mode additional_ports n :
  peer_id <$> peers (node_manager mode additional_ports n) = id <$> others n.
Proof. unfold node_manager, manager_of, get_node_config. cbn. by rewrite <-!list_fmap_compose. Qed.

(** The setup of a manager, by the nodes of the cluster. *)
Definition links_script (local : bool) (additional_ports : option (list Z)) (n p : node) : list string :=
  class_command (node_interface n) (id n) (id p) :: qdisc_command (node_interface n) (id n) (id p) ::
  if local then port_command (node_interface n) (id n) (id p) <$> (port p :: default [] additional_ports)
  else address_command (node_interface n) (id n) (id p) <$> set_order {[ internalIP p; address p ]}.

Lemma setup_of_node mode additional_ports n :
  setup_script (node_manager mode additional_ports n) =
  mjoin (links_script (String.eqb mode "local") additional_ports n <$> others n).
Proof.
  unfold setup_script, node_manager, manager_of, get_node_config. cbn. rewrite <-!list_fmap_compose.
  done.
Qed.

Lemma addresses_free mode additional_ports n :
  (forall p, p ∈ cluster -> free_percent (address p) = true /\ free_percent (internalIP p) = true) ->
  forallb (fun p => forallb free_percent (addressesToLock p)) (peers (node_manager mode additional_ports n)) = true.
Proof.
  intros Hf. rewrite forallb_forall. intros q Hq%list_elem_of_In.
  unfold node_manager, manager_of, get_node_config in Hq. cbn in Hq.
  rewrite <-list_fmap_compose in Hq. apply list_elem_of_fmap in Hq as (p & -> & [_ Hp]%list_elem_of_filter).
  cbn. rewrite forallb_forall. intros a Ha%list_elem_of_In. rewrite Horder in Ha.
  apply elem_of_elements in Ha. destruct (Hf p Hp). set_solver.
Qed.

(** The network manager of a node, started on the configuration that the
    provisioner wrote, sets up a class for every other node of the cluster and
    for no other, and sends to it the traffic of the node's ports (local) or of
    its two addresses (virtual machines). *)
Theorem provisioned_setup {W} (shell : W -> string -> W * outcome string) mode additional_ports n :
  free_percent (node_interface n) = true ->
  (forall p, p ∈ cluster -> free_percent (address p) = true /\ free_percent (internalIP p) = true) ->
  runs shell (init_qdisc shell (node_manager mode additional_ports n))
    (mjoin (links_script (String.eqb mode "local") additional_ports n <$> others n)).
Proof.
  intros Hi Ha. rewrite <-setup_of_node. apply runs_peers; [exact Hi|].
  by apply addresses_free.
Qed.
End node.

(** ** All nodes *)
Section cluster.
Context (set_order : gset string -> list string).
Context (cluster : list node) (mode : string) (additional_ports : option (list Z)).
Section managers.
Context {K D : Type} (k0 : node -> K) (d : D).

(** The managers of the nodes, by node id, as their XML-RPC addresses find them.
    What the shell of node [n] answers comes from its state [k0 n], which is
    arbitrary: it may hold whatever else happens on the machine. *)
Definition provisioned : TestCluster.cluster K D :=
  {| managers := list_to_map ((fun n => (py_str (id n), (node_manager set_order cluster mode additional_ports n, k0 n)))
                                <$> cluster);
     test_daemon := d |}.

Lemma provisioned_manager n : NoDup (id <$> cluster) -> n ∈ cluster ->
  managers provisioned !! py_str (id n) = Some (node_manager set_order cluster mode additional_ports n, k0 n).
Proof.
  intros Hn Hc. cbn [managers provisioned]. apply elem_of_list_to_map_1.
  - rewrite <-list_fmap_compose. cbn.
    change (NoDup (compose py_str id <$> cluster)). rewrite list_fmap_compose.
    apply NoDup_fmap_2_strong; [|done]. intros x y _ _. apply py_str_inj.
  - apply list_elem_of_fmap. by exists n.
Qed.
End managers.

Context {K D V : Type} (shell : K -> string -> K * outcome string) (daemon : Z -> D -> D * outcome (list V)).
#[local] Instance platform : Platform (TestCluster.cluster (recorded K) D) V := recording_platform shell daemon.
(** Before anything has run. *)
Definition fresh (k0 : node -> K) (n : node) : recorded K := ([], k0 n).

Lemma provisioned_configured k0 (d : D) nodes : NoDup (id <$> cluster) -> (forall i, i ∈ nodes -> i ∈ id <$> cluster) ->
  (forall n, n ∈ cluster -> free_percent (node_interface n) = true) -> configured (provisioned (fresh k0) d) nodes.
Proof.
  intros Hn Hs Hf i Hi. apply Hs, list_elem_of_fmap in Hi as (n & -> & Hc).
  eexists _, _. rewrite (provisioned_manager (fresh k0) d n Hn Hc). split; [done|]. split; [done|]. by apply Hf.
Qed.

(** The commands of a link command for a node, with their answers. *)
Definition changes_of (rule : string) (made : list ((Z * Z) * outcome string)) (n : node) :
    list (string * outcome string) :=
  (fun x => (change_command (node_interface n) (id n) x.1.2 rule, x.2)) <$> filter (fun x => x.1.1 = id n) made.

(** C28: on the cluster that the provisioner made, whatever its shells answer, a
    link command of a test runs the commands that change the classes of the links
    that the command names, in order and each on its own node, and nothing else:
    all of them when every one is silent, and else up to the first that is not,
    and then the test ends with the error that the rule is not valid.  (No
    interface has a percent sign, and the rule has no token of the manager.) *)
Theorem provisioned_links_reach_tc k0 d order executor (S T : gset Z) rule b k :
  (forall X i, i ∈ order X -> i ∈ X) -> NoDup (id <$> cluster) -> nodes executor = id <$> cluster ->
  (forall n, n ∈ cluster -> free_percent (node_interface n) = true) ->
  (forall i, i ∈ S ∪ T -> i ∈ nodes executor) ->
  py_in interface_token rule = false -> py_in peer_id_token rule = false ->
  exists w' es made (all : bool),
    execute (V := V) order executor (modify_action S T rule b) (provisioned (fresh k0) d, k) =
      ((w', k), es, if all then Ret tt else Raise (invalid_rule rule)) /\
    tried (link_calls order b S T) made all /\
    forall n, n ∈ cluster -> log_at w' (id n) = changes_of rule made n.
Proof.
  intros Ho Hn He Hf Hs H1 H2.
  destruct (link_reaches_tc shell daemon order executor S T rule b (provisioned (fresh k0) d) k)
    as (w' & es & r & E & made & all & Ht & -> & Hl); [done| |done..|].
  { apply provisioned_configured; [done|by rewrite He|done]. }
  exists w', es, made, all. split; [exact E|]. split; [exact Ht|]. intros n Hc. rewrite Hl.
  unfold log_at, tc_log, interface_at. by rewrite (provisioned_manager (fresh k0) d n Hn Hc).
Qed.
End cluster.

(** ** Class names *)
Lemma small_flows_distinct :
  forallb (fun '(h, p, (h', p')) => implb (String.eqb (flow h p) (flow h' p')) ((h =? h') && (p =? p')))
    (let pairs := list_prod (seqZ 1 MAX_CLUSTER_NODES) (seqZ 1 MAX_CLUSTER_NODES) in list_prod pairs pairs) = true.
Proof. vm_compute. reflexivity. Qed.

(** With at most [MAX_CLUSTER_NODES] nodes the managers' classes have
    different names for different links, on whatever interface: a change of one
    link is not a change of another (which fails from 11 nodes on,
    [shared_interface_collision]). *)
Theorem provisioned_classes_distinct h p h' p' :
  (forall x, x ∈ [h; p; h'; p'] -> 1 <= x <= MAX_CLUSTER_NODES) ->
  flow h p = flow h' p' -> h = h' /\ p = p'.
Proof.
  intros Hx Hf. pose proof small_flows_distinct as Hs. rewrite forallb_forall in Hs.
  assert (Hin : forall x, x ∈ [h; p; h'; p'] -> x ∈ seqZ 1 MAX_CLUSTER_NODES).
  { intros x Hx'. apply elem_of_seqZ. specialize (Hx x Hx'). unfold MAX_CLUSTER_NODES in *. lia. }
  revert Hs Hin. generalize (seqZ 1 MAX_CLUSTER_NODES) as ids0. intros ids0 Hs Hin.
  specialize (Hs (h, p, (h', p'))). cbn beta iota in Hs. rewrite Hf, String.eqb_refl in Hs. cbn [implb] in Hs.
  rewrite andb_true_iff, !Z.eqb_eq in Hs.
  apply Hs. repeat apply in_prod; apply list_elem_of_In, Hin; rewrite !elem_of_cons; auto.
Qed.

(** ** Three virtual machines *)
Module Machines3.
Definition machine (i : Z) : node :=
  {| id := i; address := "1.2.3." +:+ py_str i; port := CONSENSUS_ALGORITHM_PORT; rpcPort := NETWORK_MANAGER_PORT;
     node_interface := "eth0"; vmID := Some ("vm-node-" +:+ py_str i +:+ "-abcdef"); internalIP := "10.0.0." +:+ py_str i |}.
Definition machines : list node := machine <$> [1; 2; 3].
Definition order (X : gset string) : list string := elements X.
Definition executor : Executor := {| nodes := [1; 2; 3]; algorithm := "paxos" |}.

Example setup_of_2 : mjoin (links_script order false None (machine 2) <$> others machines (machine 2)) =
  ["sudo tc class add dev eth0 parent 1: classid 1:212 htb rate 100Mbps";
   "sudo tc qdisc add dev eth0 parent 1:212 handle 212: netem delay 0ms";
   "sudo tc filter add dev eth0 protocol ip u32 match ip dst 1.2.3.1/32 flowid 1:212";
   "sudo tc filter add dev eth0 protocol ip u32 match ip dst 10.0.0.1/32 flowid 1:212";
   "sudo tc class add dev eth0 parent 1: classid 1:232 htb rate 100Mbps";
   "sudo tc qdisc add dev eth0 parent 1:232 handle 232: netem delay 0ms";
   "sudo tc filter add dev eth0 protocol ip u32 match ip dst 1.2.3.3/32 flowid 1:232";
   "sudo tc filter add dev eth0 protocol ip u32 match ip dst 10.0.0.3/32 flowid 1:232"].
Proof. vm_compute. reflexivity. Qed.
End Machines3.

Lemma provisioned_setup_witness :
  runs counting_shell
    (init_qdisc counting_shell (node_manager Machines3.order Machines3.machines "gce" None (Machines3.machine 2)))
    (mjoin (links_script Machines3.order (String.eqb "gce" "local") None (Machines3.machine 2)
              <$> others Machines3.machines (Machines3.machine 2))).
Proof.
  apply (provisioned_setup Machines3.order (fun X => Permutation_refl (elements X)) Machines3.machines).
  - done.
  - intros p Hp. cbn in Hp. rewrite !elem_of_cons in Hp. by destruct Hp as [->|[->|[->|[]%elem_of_nil]]].
Defined.

Lemma provisioned_links_reach_tc_witness : exists w' es made (all : bool),
  execute (V := Z) (H := platform Demo.tc Demo.daemon) Demo.order Machines3.executor
    (modify_action {[ 1 ]} {[ 1; 2 ]} "nonsense" true)
    (provisioned Machines3.order Machines3.machines "gce" None (fresh (fun _ => tt)) tt, 0%nat) =
    ((w', 0%nat), es, if all then Ret tt else Raise (invalid_rule "nonsense")) /\
  tried (link_calls Demo.order true {[ 1 ]} {[ 1; 2 ]}) made all /\
  forall n, n ∈ Machines3.machines -> log_at w' (id n) = changes_of "nonsense" made n.
Proof.
  apply (provisioned_links_reach_tc Machines3.order Machines3.machines "gce" None Demo.tc Demo.daemon
    (fun _ => tt) tt Demo.order).
  - intros X i Hi. by apply elem_of_elements.
  - by apply (bool_decide_unpack _).
  - done.
  - intros n Hn. cbn in Hn. rewrite !elem_of_cons in Hn. by destruct Hn as [->|[->|[->|[]%elem_of_nil]]].
  - intros i Hi. cbn. set_solver.
  - done.
  - done.
Defined.

Lemma provisioned_classes_distinct_witness : flow 3 7 = "1:372" /\ 3 = 3 /\ 7 = 7.
Proof.
  split; [done|]. apply provisioned_classes_distinct; [|done].
  intros x Hx. rewrite !elem_of_cons in Hx. unfold MAX_CLUSTER_NODES.
  destruct Hx as [->|[->|[->|[->|[]%elem_of_nil]]]]; lia.
Defined.
