(* ===== verification/TestRun.v ===== *)
(** * A test from the deployment to the exit code (main of test_executor.py)

    [main] reads the file that the provisioner wrote, connects to the network
    managers, which set up their classes, and runs the script.  On a provisioned
    cluster ([ProvisionedCluster.provisioned]) the exit code tells whether a node
    failed to make its classes or the script raised ([provisioned_test_runs]). *)
From stdpp Require Import base gmap sets list strings.
From Stdlib Require Import ZArith QArith Lia Strings.Ascii.
From S2P Require Import Prelude PyList PyStr PyText PyExcept PyFuel Regex TestParser NetworkManager NetworkManagerTheorems TestExecutor TestExecutorTheorems TestIds TestCluster ConfigureDaemon Provisioner ProvisionerTheorems ProvisionedCluster.
Local Open Scope Z_scope.

Section main.
Context {W V : Type} `{Platform W V} (randrange : nat -> Z -> Z) (set_order : gset Z -> list Z).

Definition executor_of (conf : master_config) : Executor :=
  {| nodes := id <$> m_nodes conf; algorithm := m_algorithm conf |}.
Definition unwrapper_of (conf : master_config) : CommandUnwrapper :=
  {| nodes_number := Z.of_nat (length (m_nodes conf)); local_execution := String.eqb (m_mode conf) "local" |}.

(** The exit code; a file that is not there is [None]. *)
Definition main (turns fuel : nat) (conf : option master_config) (test_file_lines : option (list string)) :
    PyF (W * nat) (TestExecutor.event V) Z :=
  match conf, test_file_lines with
  | None, _ | Some _, None => f_return 2
  | Some conf, Some test_file_lines =>
      let? connected := f_try (f_lift (netem_init (id <$> m_nodes conf)) ;;? f_return true)
                              (fun _ => f_return false) in
      if negb connected then f_return 1
      else if String.eqb (m_testDaemon conf) "" then f_return 2
      else match m_nodes conf with
           | [] => f_return 2
           | _ => f_try (main_run randrange set_order (unwrapper_of conf) (executor_of conf) turns fuel
                           test_file_lines ;;? f_return 0)
                        (fun _ => f_return 1)
           end
  end.
End main.

Lemma match_nonempty {A B} (l : list A) (x y : B) : l <> [] -> match l with [] => x | _ => y end = y.
Proof. by destruct l. Qed.

(** ** Commands of a node *)
(** The root commands of an interface. *)
Definition delete_commands (i : string) : list string :=
  ["sudo tc qdisc del dev " +:+ i +:+ " root"; "sudo tc -s qdisc ls dev " +:+ i].
Definition root_commands (i : string) : list string :=
  ["sudo tc qdisc add dev " +:+ i +:+ " root handle 1: htb"].

Lemma runs_delete {W} (shell : W -> string -> W * outcome string) m :
  runs shell (clean_all_qdisc shell m) (delete_commands (interface m)).
Proof.
  apply runs_try. rewrite <-(app_nil_r (delete_commands _)). unfold delete_commands. rewrite <-subst_delete.
  apply (tracks_commands shell delete_root_commands). apply tracks_true.
Qed.
Lemma runs_root {W} (shell : W -> string -> W * outcome string) m :
  runs shell (create_root_qdisc shell m) (root_commands (interface m)).
Proof.
  apply runs_try. rewrite <-(app_nil_r (root_commands _)). unfold root_commands. rewrite <-subst_root.
  apply (tracks_commands shell create_root_commands). apply tracks_true.
Qed.

(** ** The set-up of a provisioned cluster *)
Section setup.
Context (set_order : gset string -> list string) (Horder : forall X, set_order X ≡ₚ elements X).
Context (cluster : list node) (mode : string) (additional_ports : option (list Z)).
Context (Hids : NoDup (id <$> cluster)).
Context (Hfree : forall n, n ∈ cluster -> free_percent (node_interface n) = true /\
  free_percent (address n) = true /\ free_percent (internalIP n) = true).
Context {K D V : Type} (shell : K -> string -> K * outcome string) (daemon : Z -> D -> D * outcome (list V)).
Abbreviation world := (TestCluster.cluster K D).
#[local] Instance platform_ : Platform world V := cluster_platform shell daemon.
Abbreviation manager n := (node_manager set_order cluster mode additional_ports n).
Abbreviation M A := (PyM (world * nat) (TestExecutor.event V) A).

(** The shell of a node after a script, and whether the script succeeded. *)
Definition after (cs : list string) (k : K) : K := (run_script shell cs k).1.1.
Definition succeeds (cs : list string) (k : K) : bool := (run_script shell cs k).2.

(** The managers are those of the nodes, the shell of node [n] is in the state
    [L n] and the test daemon in the state [d]. *)
Definition shells (w : world) (d : D) (L : node -> K) : Prop :=
  test_daemon w = d /\ forall n, n ∈ cluster -> managers w !! py_str (id n) = Some (manager n, L n).
Definition on_ids (ids : list Z) (f : node -> K -> K) (L : node -> K) : node -> K :=
  fun n => if bool_decide (id n ∈ ids) then f n (L n) else L n.

Lemma shells_ext w d L L' : shells w d L -> (forall n, n ∈ cluster -> L n = L' n) -> shells w d L'.
Proof. intros [Hd Hw] HL. split; [done|]. intros n Hn. by rewrite <-HL, Hw. Qed.

Lemma same_node p n : p ∈ cluster -> n ∈ cluster -> id p = id n -> p = n.
Proof.
  intros [i Hi]%list_elem_of_lookup [j Hj]%list_elem_of_lookup E.
  assert (i = j) as ->; [|congruence].
  apply (NoDup_lookup (id <$> cluster) i j (id n)); [done|by rewrite list_lookup_fmap, Hi; cbn; rewrite E|].
  by rewrite list_lookup_fmap, Hj.
Qed.

Lemma call_runs n m cs w d L : n ∈ cluster -> runs shell (m (manager n)) cs -> shells w d L ->
  exists w', on_node (D := D) m (py_str (id n)) w = (w', Ret (succeeds cs (L n))) /\
    shells w' d (on_ids [id n] (fun _ => after cs) L).
Proof.
  intros Hn Hm [Hd Hw]. unfold on_node, succeeds. rewrite (Hw n Hn). specialize (Hm (L n)).
  destruct (run_script shell cs (L n)) as [[k es] b] eqn:E. rewrite Hm. eexists. split; [done|]. split; [done|].
  intros p Hp. cbn [managers]. unfold on_ids. case_bool_decide as Hi.
  - apply list_elem_of_singleton in Hi. rewrite Hi, lookup_insert_eq, (same_node p n) by done. unfold after. by rewrite E.
  - rewrite lookup_insert_ne; [by apply Hw|]. intros ?%py_str_inj. apply Hi. by apply list_elem_of_singleton.
Qed.

Lemma known_node n s : n ∈ cluster ->
  nodes_rpc (W := world) (V := V) (id <$> cluster) (py_str (id n)) s = (s, [], Ret (py_str (id n))).
Proof.
  intros Hn. unfold nodes_rpc. rewrite bool_decide_eq_true_2; [done|].
  apply list_elem_of_fmap_2. by apply list_elem_of_fmap_2.
Qed.

Lemma node_call {A} (ev : string -> TestExecutor.event V) (call : string -> world -> world * outcome A) n w k w' r :
  n ∈ cluster -> call (py_str (id n)) w = (w', r) ->
  (let! node := nodes_rpc (id <$> cluster) (py_str (id n)) in rpc (ev node) (call node)) (w, k) =
    ((w', k), [ev (py_str (id n))], r).
Proof.
  intros Hn E. erewrite bind_pure by by apply known_node. unfold rpc, py_bind, py_emit, py_call. by rewrite E.
Qed.
Lemma bind_val {S E A B} (c : PyM S E A) (f : A -> PyM S E B) s s' es a :
  c s = (s', es, Ret a) -> py_bind c f s = let '(s'', es', r) := f a s' in (s'', es ++ es', r).
Proof. intros Hc. unfold py_bind. by rewrite Hc. Qed.

(** The nodes up to the first that fails, that one included. *)
Fixpoint up_to_failure (ok : node -> bool) (ns : list node) : list node :=
  match ns with [] => [] | n :: ns => n :: if ok n then up_to_failure ok ns else [] end.

Lemma up_to_ext ok ok' ns : (forall n, n ∈ ns -> ok n = ok' n) ->
  up_to_failure ok ns = up_to_failure ok' ns /\ forallb ok ns = forallb ok' ns.
Proof.
  induction ns as [|n ns IH]; intros Hk; [done|]. cbn. rewrite (Hk n) by by left.
  destruct IH as [-> ->]; [|by destruct (ok' n)]. intros p Hp. apply Hk. by right.
Qed.
Lemma up_to_all ns : up_to_failure (fun _ => true) ns = ns /\ forallb (fun _ => true) ns = true.
Proof. induction ns as [|n ns [IH IH']]; [done|]. cbn. by rewrite IH, IH'. Qed.

Lemma up_to_sub ok ns n : n ∈ up_to_failure ok ns -> n ∈ ns.
Proof.
  induction ns as [|m ns IH]; [done|]. cbn. intros [->|Hn]%elem_of_cons; [by left|]. right.
  destruct (ok m); [by apply IH|by apply elem_of_nil in Hn].
Qed.

Lemma on_ids_cons i ids f L n : i ∉ ids -> on_ids ids f (on_ids [i] f L) n = on_ids (i :: ids) f L n.
Proof.
  intros Hi. unfold on_ids. destruct (decide (id n = i)) as [->|Hn].
  - rewrite bool_decide_eq_false_2 by done. by rewrite !bool_decide_eq_true_2 by by left.
  - rewrite (bool_decide_eq_false_2 (id n ∈ [i])) by by rewrite list_elem_of_singleton.
    rewrite (bool_decide_ext (id n ∈ i :: ids) (id n ∈ ids)); [done|]. rewrite elem_of_cons. naive_solver.
Qed.

(** A loop over the nodes whose body changes the shell of node [n] by [f n] and
    raises unless [ok n]. *)
Lemma each_node (body : Z -> M unit) (evs : node -> list (TestExecutor.event V)) (f : node -> K -> K)
    (ok : node -> K -> bool) e k d :
  (forall n w L, n ∈ cluster -> shells w d L ->
     exists w', body (id n) (w, k) = ((w', k), evs n, if ok n (L n) then Ret tt else Raise e) /\
       shells w' d (on_ids [id n] f L)) ->
  forall ns w L, (forall n, n ∈ ns -> n ∈ cluster) -> NoDup (id <$> ns) -> shells w d L ->
  let reached := up_to_failure (fun n => ok n (L n)) ns in
  exists w', py_for (id <$> ns) body (w, k) = ((w', k), mjoin (evs <$> reached),
      if forallb (fun n => ok n (L n)) ns then Ret tt else Raise e) /\
    shells w' d (on_ids (id <$> reached) f L).
Proof.
  intros Hb. induction ns as [|n ns IH]; intros w L Hs Hn Hw.
  { exists w. split; [done|]. apply (shells_ext _ _ _ _ Hw). intros p _. unfold on_ids. by rewrite bool_decide_eq_false_2 by apply not_elem_of_nil. }
  rewrite fmap_cons in Hn. apply NoDup_cons in Hn as [Hi Hn].
  destruct (Hb n w L ltac:(apply Hs; by left) Hw) as (w1 & E1 & Hw1).
  cbn [up_to_failure forallb]. rewrite fmap_cons. cbn [py_for].
  destruct (ok n (L n)); cycle 1.
  { exists w1. split; [|done]. unfold py_bind. rewrite E1. cbn. by rewrite app_nil_r. }
  destruct (IH w1 _ ltac:(intros p Hp; apply Hs; by right) Hn Hw1) as (w' & E & Hw').
  assert (HL : forall p, p ∈ ns -> on_ids [id n] f L p = L p).
  { intros p Hp. unfold on_ids. rewrite bool_decide_eq_false_2; [done|]. intros Hp'%list_elem_of_singleton.
    apply Hi. rewrite <-Hp'. by apply list_elem_of_fmap_2. }
  destruct (up_to_ext (fun p => ok p (on_ids [id n] f L p)) (fun p => ok p (L p)) ns) as [E2 E3];
    [intros p Hp; by rewrite HL|]. rewrite E2, E3 in E. rewrite E2 in Hw'.
  exists w'. split; [by rewrite (bind_val _ _ _ _ _ _ E1), E|].
  apply (shells_ext _ _ _ _ Hw'). intros p Hp. apply on_ids_cons. intros (q & E4 & Hq)%list_elem_of_fmap.
  apply Hi. rewrite E4. apply list_elem_of_fmap_2. by apply up_to_sub in Hq.
Qed.

(** The bodies of the two loops of [netem_init]. *)
Definition clean_body (i : Z) : M unit :=
  (let! node := nodes_rpc (id <$> cluster) (py_str i) in rpc (Clean node) (rpc_clean_all_qdisc node)) ;;!
  (let! node := nodes_rpc (id <$> cluster) (py_str i) in rpc (CreateRoot node) (rpc_create_root_qdisc node)) ;;!
  py_return tt.
Definition init_body (i : Z) : M unit :=
  let! node := nodes_rpc (id <$> cluster) (py_str i) in
  let! ok := rpc (InitQdisc node) (rpc_init_qdisc node) in
  if ok then py_return tt
  else py_raise (PlainException ("[" +:+ NETEM_ERROR +:+ "] Error initializing qdiscs")).

(** What the two loops do to the shell of a node. *)
Definition links_commands (n : node) : list string :=
  mjoin (links_script set_order (String.eqb mode "local") additional_ports n <$> others cluster n).
Definition after_root (n : node) (k : K) : K :=
  after (root_commands (node_interface n)) (after (delete_commands (node_interface n)) k).
Definition after_links (n : node) (k : K) : K := after (links_commands n) (after_root n k).
Definition links_succeed (n : node) (k : K) : bool := succeeds (links_commands n) (after_root n k).

Definition clean_events (n : node) : list (TestExecutor.event V) := [Clean (py_str (id n)); CreateRoot (py_str (id n))].
Definition init_failed : py_error := PlainException ("[" +:+ NETEM_ERROR +:+ "] Error initializing qdiscs").

Lemma clean_node n w L k d : n ∈ cluster -> shells w d L -> exists w',
  clean_body (id n) (w, k) = ((w', k), clean_events n, Ret tt) /\ shells w' d (on_ids [id n] after_root L).
Proof.
  intros Hc Hw.
  destruct (call_runs n _ _ w d L Hc (runs_delete shell (manager n)) Hw) as (w1 & E1 & Hw1).
  destruct (call_runs n _ _ w1 d _ Hc (runs_root shell (manager n)) Hw1) as (w2 & E2 & Hw2).
  exists w2. split.
  - unfold clean_body. erewrite (bind_val _ _ (w, k) (w1, k) [Clean (py_str (id n))]) by (by apply node_call).
    by erewrite (bind_val _ _ (w1, k) (w2, k) [CreateRoot (py_str (id n))]) by (by apply node_call).
  - apply (shells_ext _ _ _ _ Hw2). intros p Hp. unfold on_ids. case_bool_decide as Hi; [|done].
    apply list_elem_of_singleton in Hi. by rewrite (same_node p n).
Qed.

Lemma init_node n w L k d : n ∈ cluster -> shells w d L -> exists w',
  init_body (id n) (w, k) = ((w', k), [InitQdisc (py_str (id n))] : list (TestExecutor.event V),
    if succeeds (links_commands n) (L n) then Ret tt else Raise init_failed) /\
  shells w' d (on_ids [id n] (fun n => after (links_commands n)) L).
Proof.
  intros Hc Hw. destruct (Hfree n Hc) as [Hi _].
  assert (Hruns : runs shell (init_qdisc shell (manager n)) (links_commands n)).
  { unfold links_commands. rewrite <-setup_of_node. apply runs_peers; [exact Hi|]. apply addresses_free; [done|]. apply Hfree. }
  destruct (call_runs n _ _ w d L Hc Hruns Hw) as (w1 & E1 & Hw1). exists w1. split.
  - unfold init_body. rewrite <-py_bind_assoc.
    erewrite (bind_val _ _ (w, k) (w1, k) [InitQdisc (py_str (id n))]) by (by apply node_call).
    by destruct (succeeds _ _).
  - apply (shells_ext _ _ _ _ Hw1). intros p Hp. unfold on_ids. case_bool_decide as Hi'; [|done].
    apply list_elem_of_singleton in Hi'. by rewrite (same_node p n).
Qed.

(** The calls that connect the executor, when the nodes [reached] are asked to
    make their classes. *)
Definition init_events (reached : list node) : list (TestExecutor.event V) :=
  mjoin (clean_events <$> cluster) ++ mjoin ((fun n => [InitQdisc (py_str (id n))]) <$> reached).

(** The shells of the nodes after the set-up. *)
Definition set_up (reached : list node) (n : node) (k : K) : K :=
  if bool_decide (id n ∈ id <$> reached) then after_links n k else after_root n k.

Lemma init_provisioned w d L k : shells w d L ->
  let reached := up_to_failure (fun n => links_succeed n (L n)) cluster in
  exists w', netem_init (id <$> cluster) (w, k) = ((w', k), init_events reached,
      if forallb (fun n => links_succeed n (L n)) cluster then Ret tt else Raise init_failed) /\
    shells w' d (fun n => set_up reached n (L n)).
Proof.
  intros Hw.
  destruct (each_node clean_body clean_events after_root (fun _ _ => true) init_failed k d
    (fun n w L => clean_node n w L k d) cluster w L) as (w1 & E1 & Hw1); [done..|].
  destruct (up_to_all cluster) as [Ea Eb]. rewrite Ea, Eb in E1. rewrite Ea in Hw1.
  apply (shells_ext _ _ _ (fun n => after_root n (L n))) in Hw1; cycle 1.
  { intros n Hn. unfold on_ids. by rewrite bool_decide_eq_true_2 by by apply list_elem_of_fmap_2. }
  destruct (each_node init_body _ _ (fun n => succeeds (links_commands n)) init_failed k d
    (fun n w L => init_node n w L k d) cluster w1 _ ltac:(done) Hids Hw1) as (w2 & E2 & Hw2).
  exists w2. split; [|exact Hw2].
  change (netem_init (id <$> cluster))
    with (py_for (id <$> cluster) clean_body ;;! py_for (id <$> cluster) init_body).
  rewrite (bind_val _ _ _ _ _ _ E1). by rewrite E2.
Qed.

Lemma provisioned_shells k0 d : shells (provisioned set_order cluster mode additional_ports k0 d) d k0.
Proof. split; [done|]. intros n Hn. by apply provisioned_manager. Qed.

(** The exit code of a run. *)
Definition exit_code (r : outcome unit) : Z := if r is Ret _ then 0 else 1.

(** C33: on the cluster that the provisioner made, with the file that it wrote,
    whatever the shells of the nodes answer: each node first drops its traffic
    classes and makes the root class, and what these commands answer is ignored;
    then the nodes make, in order, the classes of all their links, up to the
    first whose commands fail.  If there is one, the process exits with 1 and
    nothing of the script has run; else it runs the script and exits with 0
    exactly when the script did not raise.  (No interface or address has a percent
    sign: the manager's tokens start with one.) *)
Theorem provisioned_test_runs (randrange : nat -> Z -> Z) (order : gset Z -> list Z) turns fuel algorithm testDaemon
    script k0 d k :
  cluster <> [] -> testDaemon <> "" ->
  let conf := {| m_mode := mode; m_algorithm := algorithm; m_testDaemon := testDaemon; m_nodes := cluster |} in
  let reached := up_to_failure (fun n => links_succeed n (k0 n)) cluster in
  exists w : world, test_daemon w = d /\
    (forall n, n ∈ cluster -> managers w !! py_str (id n) = Some (manager n, set_up reached n (k0 n))) /\
    main randrange order turns fuel (Some conf) (Some script)
      (provisioned set_order cluster mode additional_ports k0 d, k) =
    if forallb (fun n => links_succeed n (k0 n)) cluster then
      match main_run randrange order (unwrapper_of conf) (executor_of conf) turns fuel script (w, k) with
      | None => None
      | Some (s', es, r) => Some (s', init_events reached ++ es, Ret (exit_code r))
      end
    else Some ((w, k), init_events reached, Ret 1).
Proof.
  intros Hne Hd conf reached.
  destruct (init_provisioned _ d k0 k (provisioned_shells k0 d)) as (w & E & Ht & Hw).
  exists w. split; [exact Ht|]. split; [exact Hw|].
  unfold main. cbn [m_nodes m_testDaemon conf].
  erewrite f_bind_ret; cycle 1.
  { unfold f_try, f_bind, f_lift. rewrite E. instantiate (1 := forallb (fun n => links_succeed n (k0 n)) cluster).
    destruct (forallb _ cluster); cbn; by rewrite app_nil_r. }
  destruct (forallb _ cluster); cbn [negb]; [|cbn; by rewrite app_nil_r].
  rewrite (proj2 (String.eqb_neq _ _)) by done.
  rewrite match_nonempty by done.
  unfold f_try, f_bind. destruct (main_run _ _ _ _ _ _ _ _) as [[[s' es] [[]|e]]|]; cbn; by rewrite ?app_nil_r.
Qed.
End setup.

(** ** Three machines *)
(** There is no class to delete yet, and on a broken machine classes cannot be
    made. *)
Definition machine_shell (broken : bool) (c : string) : bool * outcome string :=
  (broken, Ret (if py_in "qdisc del" c then "RTNETLINK answers: No such file or directory"
                else if broken && py_in "class add" c then "RTNETLINK answers: Invalid argument" else "")).
Definition demo_conf : master_config :=
  {| m_mode := "gce"; m_algorithm := "paxos"; m_testDaemon := "1.2.3.1:12345"; m_nodes := Machines3.machines |}.
(** Node 2 is broken. *)
Definition second_broken (n : node) : bool := id n =? 2.

Lemma provisioned_test_runs_witness :
  let reached := up_to_failure (fun n => links_succeed Machines3.order Machines3.machines "gce" None machine_shell n
    (second_broken n)) Machines3.machines in
  exists w, test_daemon w = tt /\
    (forall n, n ∈ Machines3.machines -> managers w !! py_str (id n) =
      Some (node_manager Machines3.order Machines3.machines "gce" None n,
            set_up Machines3.order Machines3.machines "gce" None machine_shell reached n (second_broken n))) /\
    main (H := platform_ machine_shell Demo.daemon) Demo.randrange Demo.order 30 30 (Some demo_conf) (Some Demo.script)
      (provisioned Machines3.order Machines3.machines "gce" None second_broken tt, 0%nat) =
    if forallb (fun n => links_succeed Machines3.order Machines3.machines "gce" None machine_shell n (second_broken n))
         Machines3.machines then
      match main_run (H := platform_ machine_shell Demo.daemon) Demo.randrange Demo.order (unwrapper_of demo_conf)
          (executor_of demo_conf) 30 30 Demo.script (w, 0%nat) with
      | None => None
      | Some (s', es, r) => Some (s', init_events Machines3.machines reached ++ es, Ret (exit_code r))
      end
    else Some ((w, 0%nat), init_events Machines3.machines reached, Ret 1).
Proof.
  apply (provisioned_test_runs Machines3.order (fun X => Permutation_refl (elements X)) Machines3.machines "gce" None).
  - by apply (bool_decide_unpack _).
  - intros n Hn. cbn in Hn. rewrite !elem_of_cons in Hn. by destruct Hn as [->|[->|[->|[]%elem_of_nil]]].
  - done.
  - done.
Defined.

(** The exit code and what happened, in short, for the script of [TestCluster]. *)
Definition demo_run (broken : node -> bool) : option Z * list string :=
  match main (H := platform_ machine_shell Demo.daemon) Demo.randrange Demo.order 30 30 (Some demo_conf) (Some Demo.script)
      (provisioned Machines3.order Machines3.machines "gce" None broken tt, 0%nat) with
  | Some (_, es, Ret code) =>
      (Some code, omap (fun e => match e with
        | Clean i => Some ("clean " +:+ i) | InitQdisc i => Some ("init " +:+ i) | Row l _ => Some l | _ => None end) es)
  | _ => (None, [])
  end.
Example provisioned_demo_exits : demo_run (fun _ => false) =
  (Some 0, ["clean 1"; "clean 2"; "clean 3"; "init 1"; "init 2"; "init 3"; "paxos_slow"; "paxos_slow"]).
Proof. vm_compute. reflexivity. Qed.
Example broken_demo_exits : demo_run second_broken =
  (Some 1, ["clean 1"; "clean 2"; "clean 3"; "init 1"; "init 2"]).
Proof. vm_compute. reflexivity. Qed.
