(* ===== verification/CustomServers.v ===== *)
(** * The servers of a node: paxos/custom_server.py and pysyncobj/custom_server.py

    A server reads the configuration that the provisioner wrote for its node and
    builds its algorithm's object.  The theorems are about the configurations of
    one cluster together: all Paxos servers have the same address book
    ([paxos_membership_agrees]), the PySyncObj servers of a local cluster agree on
    the nodes' names ([pso_local_names]), those of virtual machines do not
    ([pso_remote_strangers]). *)
From stdpp Require Import base gmap sets list strings.
From Stdlib Require Import ZArith QArith Lia Strings.Ascii.
From S2P Require Import Prelude PyList PyStr PyText Node SyncObj Replicated NetworkManager ConfigureDaemon Provisioner.
Local Open Scope Z_scope.

(** ** paxos/custom_server.py, main *)
Definition state_file (c : node_config) : string := "./paxos_state_" +:+ py_str (c_host_id c) +:+ ".json".
(** The dictionary of the peers, the node included. *)
Definition paxos_peers (c : node_config) : gmap Z (string * Z) :=
  <[c_host_id c := (c_host_address c, c_host_port c)]>
    (list_to_map ((fun p => (p_id p, (p_address p, p_port p))) <$> c_peers c)).

(** ** pysyncobj/custom_server.py *)
Definition pso_node (c : node_config) : string := "127.0.0.1:" +:+ py_str (c_host_port c).
Definition pso_peers (c : node_config) : list string :=
  (fun p => p_address p +:+ ":" +:+ py_str (p_port p)) <$> c_peers c.

(** [TestObjAutoTick]: its configuration and its two fields. *)
Record test_obj : Type := mkTestObj { cfg : SyncObjConf; item : Z; }.

Definition with_queue (c : SyncObjConf) : SyncObjConf :=
  MkConf true (autoTickPeriod c) 10000 (maxCommandsPerTick c) (raftMinTimeout c) (raftMaxTimeout c)
    (appendEntriesPeriod c) (connectionTimeout c) (connectionRetryTime c) (appendEntriesBatchSize c) false
    (sendBufferSize c) (recvBufferSize c) (dnsCacheTime c) (dnsFailCacheTime c) (logCompactionMinEntries c)
    (logCompactionMinTime c) (logCompactionBatchSize c) (commandsWaitLeader c) (fullDumpFile c) (bindRetryTime c).
Definition for_compaction (n : Z) (dumpFile : option string) (c : SyncObjConf) : SyncObjConf :=
  MkConf (autoTick c) (autoTickPeriod c) (commandsQueueSize c) (maxCommandsPerTick c) (raftMinTimeout c)
    (raftMaxTimeout c) (appendEntriesPeriod c) (connectionTimeout c) (connectionRetryTime c)
    (appendEntriesBatchSize c) true (sendBufferSize c) (recvBufferSize c) (dnsCacheTime c) (dnsFailCacheTime c)
    n (1#10) (logCompactionBatchSize c) (commandsWaitLeader c) dumpFile (bindRetryTime c).
Definition for_compaction2 (dumpFile : option string) (c : SyncObjConf) : SyncObjConf :=
  MkConf (autoTick c) (autoTickPeriod c) (commandsQueueSize c) 5 (raftMinTimeout c) (raftMaxTimeout c)
    (appendEntriesPeriod c) (connectionTimeout c) (connectionRetryTime c) 10 (appendEntriesUseBatch c)
    (2 ^ 21) (2 ^ 21) (dnsCacheTime c) (dnsFailCacheTime c) 99999 99999 (logCompactionBatchSize c)
    (commandsWaitLeader c) dumpFile (bindRetryTime c).

Definition test_conf (compactionTest : Z) (dumpFile : option string) (compactionTest2 : bool) : SyncObjConf :=
  let c := with_queue default_conf in
  let c := if compactionTest =? 0 then c else for_compaction compactionTest dumpFile c in
  if compactionTest2 then for_compaction2 dumpFile c else c.
Definition test_obj_init (compactionTest : Z) (dumpFile : option string) (compactionTest2 : bool) : test_obj :=
  {| cfg := test_conf compactionTest dumpFile compactionTest2; item := 0 |}.

(** The body of [setValue], which the decorator turns into a command. *)
Definition setValue (value : Z) (o : test_obj) : test_obj * Z := ({| cfg := cfg o; item := value |}, value).
(** [self.__counter] is never assigned. *)
Definition getCounter (o : test_obj) : outcome Z := Raise AttributeError.

Section listener.
Context {Val T : Type} (true_val : Val) (truthy : Val -> bool) (methods : list string).
(** [pso_append]: the clock is read before the call of [setValue]. *)
Definition pso_append (callback value : Val) (t : T) : outcome (T * Replicated.called Val) :=
  match Replicated.newFunc truthy methods "setValue" [value] {["callback"%string := callback]} with
  | Ret call => Ret (t, call)
  | Raise e => Raise e
  end.
End listener.

(** ** The servers of one cluster *)
Section cluster.
Context (set_order : gset string -> list string) (cluster : list node).
Context (mode : string) (additional_ports : option (list Z)).
Context (Hids : NoDup (id <$> cluster)).
Abbreviation config n := (get_node_config set_order cluster n mode additional_ports).

Lemma peers_of n : c_peers (config n) = peer_of set_order (default [] additional_ports)
  <$> filter (fun p => id p <> id n) cluster.
Proof. done. Qed.

(** Every Paxos server of a cluster has the same address book: the id,
    address and port of every node of the cluster, itself included, and of
    nobody else. *)
Theorem paxos_membership_agrees n : n ∈ cluster ->
  paxos_peers (config n) = list_to_map ((fun p => (id p, (address p, port p))) <$> cluster).
Proof.
  intros Hn. unfold paxos_peers. rewrite peers_of, <-list_fmap_compose.
  change (compose _ _) with (fun p => (id p, (address p, port p))).
  replace (c_host_id (config n)) with (id n) by done.
  replace (c_host_address (config n), c_host_port (config n)) with (address n, port n) by done.
  apply map_eq. intros i. apply list_elem_of_split in Hn as (l1 & l2 & Ec). revert Hids. rewrite Ec. intros Hn.
  rewrite fmap_app, fmap_cons in Hn. apply NoDup_app in Hn as (Hn1 & Hn12 & Hn2).
  apply NoDup_cons in Hn2 as [Hx Hn2].
  assert (E1 : forall l : list node, id n ∉ id <$> l -> filter (fun p => id p <> id n) l = l).
  { induction l as [|p l IH]; intros Hl; [done|]. rewrite fmap_cons, not_elem_of_cons in Hl.
    rewrite filter_cons_True by (intros E; by apply (proj1 Hl)). by rewrite IH by apply Hl. }
  rewrite filter_app, filter_cons_False by auto. rewrite !E1 by (done || (intros Hin; by apply (Hn12 _ Hin); left)).
  rewrite !fmap_app, fmap_cons, !list_to_map_app, list_to_map_cons.
  rewrite insert_union_r; [done|]. apply not_elem_of_list_to_map_1. rewrite <-list_fmap_compose.
  intros Hin. by apply (Hn12 (id n) Hin); left.
Qed.

Definition name_of (n : node) : string := address n +:+ ":" +:+ py_str (port n).

Lemma pso_peers_names m : pso_peers (config m) = name_of <$> filter (fun p => id p <> id m) cluster.
Proof. unfold pso_peers. by rewrite peers_of, <-list_fmap_compose. Qed.

(** On one machine, every PySyncObj server knows every other node by the
    very name that this node gives itself. *)
Theorem pso_local_names m : (forall n, n ∈ cluster -> address n = "127.0.0.1") ->
  pso_peers (config m) = (fun n => pso_node (config n)) <$> filter (fun n => id n <> id m) cluster.
Proof.
  intros Ha. rewrite pso_peers_names. apply list_fmap_ext. intros i n Hn.
  apply list_elem_of_lookup_2, list_elem_of_filter in Hn as [_ Hn]. unfold name_of, pso_node. by rewrite (Ha n Hn).
Qed.

Lemma app_prefix_free c a b s t : free_of c a = true -> free_of c b = true ->
  a +:+ String c s = b +:+ String c t -> a = b.
Proof.
  revert b. induction a as [|x a IH]; intros [|y b] Ha Hb E; [done| | |].
  - injection E as <- _. cbn in Hb. by rewrite Ascii.eqb_refl in Hb.
  - injection E as -> _. cbn in Ha. by rewrite Ascii.eqb_refl in Ha.
  - injection E as -> E. cbn in Ha, Hb. apply andb_true_iff in Ha as [_ Ha], Hb as [_ Hb]. f_equal. by apply IH.
Qed.

(** On virtual machines every PySyncObj server calls itself by the loopback
    address, a name that no node knows: a node that reads it as the first message
    of a connection finds no peer of that name (and closes the connection, see
    NodeHandshake.v). *)
Theorem pso_remote_strangers n m (ns : list Node.t) :
  (forall p, p ∈ cluster -> address p <> "127.0.0.1" /\ free_of ":" (address p) = true) ->
  Node.nodeAddr <$> ns = pso_peers (config m) -> node_at (pso_node (config n)) ns = None.
Proof.
  intros Ha Hns. unfold node_at. rewrite (proj2 (list_find_None _ _)); [done|]. rewrite Forall_forall.
  intros k Hk [_ E]. assert (Hin : pso_node (config n) ∈ pso_peers (config m))
    by (rewrite <-Hns, <-E; by apply list_elem_of_fmap_2).
  rewrite pso_peers_names in Hin. apply list_elem_of_fmap in Hin as (p & Hp & [_ Hc]%list_elem_of_filter).
  destruct (Ha p Hc) as [Hne Hf]. apply Hne. symmetry.
  refine (app_prefix_free ":" "127.0.0.1" (address p) (py_str (port n)) (py_str (port p)) eq_refl Hf _). exact Hp.
Qed.
End cluster.

(** ** Two nodes *)
Definition two_nodes (a b : string) : list node :=
  [{| id := 1; address := a; port := 12348; rpcPort := 12347; node_interface := "eth0"; vmID := None; internalIP := a |};
   {| id := 2; address := b; port := 12349; rpcPort := 12350; node_interface := "eth0"; vmID := None; internalIP := b |}].
Definition order_ (X : gset string) : list string := elements X.
Definition local_pair : list node := two_nodes "127.0.0.1" "127.0.0.1".
Definition remote_pair : list node := two_nodes "10.0.0.1" "10.0.0.2".
Definition first_of (l : list node) : node := hd (mkNode 0 "" 0 0 "" None "") l.

Lemma paxos_membership_agrees_witness :
  paxos_peers (get_node_config order_ remote_pair (first_of remote_pair) "gce" None) =
  list_to_map [(1, ("10.0.0.1", 12348)); (2, ("10.0.0.2", 12349))].
Proof.
  apply (paxos_membership_agrees order_ remote_pair "gce" None).
  - by apply (bool_decide_unpack _).
  - by left.
Defined.
Lemma pso_local_names_witness :
  pso_peers (get_node_config order_ local_pair (first_of local_pair) "local" None) = ["127.0.0.1:12349"].
Proof.
  etransitivity; [apply (pso_local_names order_ local_pair "local" None)|by vm_compute].
  intros n Hn. unfold local_pair, two_nodes in Hn. rewrite !elem_of_cons in Hn. by destruct Hn as [->|[->|[]%elem_of_nil]].
Defined.
Lemma pso_remote_strangers_witness : exists ns : list Node.t,
  Node.nodeAddr <$> ns = ["10.0.0.2:12349"] /\ node_at "127.0.0.1:12348" ns = None.
Proof.
  exists [Node.MkNode "10.0.0.2:12349" None 12349 (Connection.Connection.init None 1 0) true 0 0 DISCONNECTED true].
  split; [done|].
  apply (pso_remote_strangers order_ remote_pair "gce" None (first_of remote_pair) (first_of remote_pair)); [|done].
  intros n Hn. unfold remote_pair, two_nodes in Hn. rewrite !elem_of_cons in Hn. by destruct Hn as [->|[->|[]%elem_of_nil]].
Defined.
