(* ===== verification/TearDown.v ===== *)
(** * Tearing a cluster down (tear_down.py)

    The file that the provisioner wrote last names the processes to kill: those
    that listen on the ports of the nodes, of their managers and of the test
    daemon, or the virtual machines to delete. *)
From stdpp Require Import base gmap list strings.
From Stdlib Require Import ZArith QArith Lia Strings.Ascii.
From S2P Require Import Prelude PyList PyStr PyText PyExcept PyFuel ConfigureDaemon Provisioner ProvisionerTheorems.
Local Open Scope Z_scope.

Inductive event : Type :=
| Ran (at_ : location) (p : process)
| Removed (path : string)
| DeletedVm (name : string).

(** The directory, and the cloud's answers. *)
Class Environment (W : Type) : Type := {
  listdir : W -> W * outcome (list string);
  rmtree : string -> W -> W * outcome unit;
  compute_client : W -> W * outcome unit;
  delete_vm : string -> W -> W * outcome (option string);   (* the operation's name, if any *)
  operation_status : string -> W -> W * outcome bool;       (* DONE *)
}.

Section tear_down.
Context {W : Type} `{Machines W} `{Environment W}.
Abbreviation M A := (PyM W event A).
Abbreviation F A := (PyF W event A).

Definition kill_process (port : string) : process := Args ["fuser"; "-k"; port +:+ "/tcp"; port +:+ "/udp"].
(** [Popen(...).communicate()]: the output is not looked at. *)
Definition kill_process_by_port (port : string) : M unit :=
  Popen_output (fun w => w) (fun w _ => w) Ran Here (kill_process port) ;;! py_return tt.

Definition remove (file : string) : M unit :=
  if py_in "rethinkdb_data" file then
    py_emit [Removed ("./" +:+ file)] ;;! py_call (rmtree ("./" +:+ file))
  else py_return tt.

Definition tear_down_local_cluster (conf : master_config) : M unit :=
  py_for (m_nodes conf) (fun n =>
    kill_process_by_port (py_str (port n)) ;;! kill_process_by_port (py_str (rpcPort n))) ;;!
  let! p := py_call (fun w => (w, py_index (py_split_on ":" (m_testDaemon conf)) 1)) in
  kill_process_by_port p ;;!
  let! files := py_call listdir in
  py_for files remove.

(** [node["vmID"]] and [op["name"]] *)
Definition get_name (o : option string) : M string :=
  py_call (fun w => (w, match o with Some x => Ret x | None => Raise KeyError end)).

Fixpoint delete_all (ns : list node) : M (list (option string)) :=
  match ns with
  | [] => py_return []
  | n :: ns =>
      let! vm := get_name (vmID n) in
      let! op := (py_emit [DeletedVm vm] ;;! py_call (delete_vm vm)) in
      let! ops := delete_all ns in
      py_return (op :: ops)
  end.
Fixpoint wait_deleted (fuel : nat) (op : option string) : F unit :=
  match fuel with
  | O => f_more
  | S fuel =>
      let? name := f_lift (get_name op) in
      let? done_ := f_lift (py_call (operation_status name)) in
      if (done_ : bool) then f_return tt
      else f_lift (py_set (sleep 1)) ;;? wait_deleted fuel op
  end.
Fixpoint wait_all (fuel : nat) (ops : list (option string)) : F unit :=
  match ops with
  | [] => f_return tt
  | op :: ops => wait_deleted fuel op ;;? wait_all fuel ops
  end.
Definition tear_down_gce_cluster (fuel : nat) (conf : master_config) : F unit :=
  f_lift (py_call compute_client) ;;?
  let? zone_operations := f_lift (delete_all (m_nodes conf)) in
  wait_all fuel zone_operations.

Definition main (fuel : nat) (conf : master_config) : F unit :=
  if String.eqb (m_mode conf) "local" then f_lift (tear_down_local_cluster conf)
  else if String.eqb (m_mode conf) "gce" then tear_down_gce_cluster fuel conf
  else f_return tt.

(** ** Facts *)
Definition killed (ports : list Z) : list event := (fun p => Ran Here (kill_process (py_str p))) <$> ports.

(** [m], when it returns, has done [es]. *)
Definition does {A} (m : M A) (es : list event) : Prop := forall w w' es' a, m w = (w', es', Ret a) -> es' = es.

Lemma does_bind {A B} (m : M A) (k : A -> M B) es es' : does m es -> (forall a, does (k a) es') -> does (py_bind m k) (es ++ es').
Proof.
  intros Hm Hk w w' es2 b. unfold py_bind. destruct (m w) as [[w1 e1] [a|e]] eqn:E1; [|done].
  destruct (k a w1) as [[w2 e2] r] eqn:E2. intros [= <- <- ->].
  by rewrite (Hm _ _ _ _ E1), (Hk _ _ _ _ _ E2).
Qed.
Lemma does_return {A} (a : A) : does (py_return a) [].
Proof. by intros w w' es b [= <- <-]. Qed.
Lemma does_call {A} (f : W -> W * outcome A) : does (py_call f) [].
Proof. intros w w' es b. unfold py_call. destruct (f w). by intros [= <- <-]. Qed.
Lemma does_emit es : does (py_emit es) es.
Proof. by intros w w' es' b [= <- <-]. Qed.
Lemma does_for {B} (l : list B) (body : B -> M unit) f :
  (forall x, does (body x) (f x)) -> does (py_for l body) (l ≫= f).
Proof.
  intros Hb. induction l as [|x l IH]; [apply does_return|]. cbn [py_for].
  apply does_bind; [apply Hb|]. intros _. exact IH.
Qed.
Lemma does_kill p : does (kill_process_by_port (py_str p)) (killed [p]).
Proof.
  unfold kill_process_by_port, killed. apply (does_bind _ _ [Ran Here (kill_process (py_str p))] []).
  - apply (does_bind _ _ [_] []); [apply does_emit|]. intros _. apply does_call.
  - intros a. apply does_return.
Qed.
Lemma does_kills ns : does (py_for ns (fun n =>
    kill_process_by_port (py_str (port n)) ;;! kill_process_by_port (py_str (rpcPort n))))
  (killed (ports_of ns)).
Proof.
  replace (killed (ports_of ns)) with (ns ≫= (fun n => killed [port n; rpcPort n])).
  - apply does_for. intros n. apply (does_bind _ _ (killed [port n]) (killed [rpcPort n])); [|intros _]; apply does_kill.
  - unfold ports_of. induction ns as [|n ns IH]; [done|]. cbn. by do 2 f_equal.
Qed.

(** The test daemon's port is found in its address. *)
Lemma daemon_port : py_index (py_split_on ":" local_endpoint) 1 = Ret (py_str TEST_DAEMON_PORT).
Proof. by vm_compute. Qed.

(** Tearing down a local cluster from the file that its deployment wrote
    kills whatever listens on any of the deployment's node and manager ports or
    on the test daemon's, and then removes exactly the directory entries with
    the data of RethinkDB. *)
Theorem local_torn_down algorithm cluster w w' es :
  tear_down_local_cluster {| m_mode := "local"; m_algorithm := algorithm; m_testDaemon := local_endpoint;
                             m_nodes := cluster |} w = (w', es, Ret tt) ->
  exists files, es = killed (ports_of cluster ++ [TEST_DAEMON_PORT])
    ++ ((fun f => Removed ("./" +:+ f)) <$> filter (fun f => py_in "rethinkdb_data" f = true) files).
Proof.
  unfold tear_down_local_cluster. cbn [m_nodes m_testDaemon]. unfold py_bind at 1.
  destruct (py_for cluster _ w) as [[w1 e1] [[]|e]] eqn:E1; [|done]. apply does_kills in E1 as ->.
  unfold py_bind at 1, py_call at 1. rewrite daemon_port. unfold py_bind at 1.
  destruct (kill_process_by_port (py_str TEST_DAEMON_PORT) w1) as [[w2 e2] [[]|e]] eqn:E2; [|done].
  apply does_kill in E2 as ->. unfold py_bind, py_call at 1. destruct (listdir w2) as [w3 [files|e]]; [|done].
  destruct (py_for files remove w3) as [[w4 e4] r] eqn:E4. intros [= <- <- ->]. exists files.
  apply (does_for _ _ (fun f => if py_in "rethinkdb_data" f then [Removed ("./" +:+ f)] else [])) in E4 as ->.
  - unfold killed. rewrite fmap_app, <-!app_assoc. cbn. do 2 f_equal.
    induction files as [|f files IH]; [done|]. cbn [mbind list_bind]. rewrite IH.
    destruct (py_in "rethinkdb_data" f) eqn:Ef; [by rewrite filter_cons_True|by rewrite filter_cons_False by congruence].
  - intros f. unfold remove. destruct (py_in "rethinkdb_data" f); [|apply does_return].
    apply (does_bind _ _ [_] []); [apply does_emit|]. intros _. apply does_call.
Qed.

Lemma delete_all_spec ns w w' es ops : delete_all ns w = (w', es, Ret ops) ->
  exists vms, vmID <$> ns = Some <$> vms /\ es = DeletedVm <$> vms.
Proof.
  revert w w' es ops. induction ns as [|n ns IH]; intros w w' es ops; cbn [delete_all].
  - intros [= <- <- <-]. by exists [].
  - unfold get_name, py_bind, py_call, py_emit. destruct (vmID n) as [vm|] eqn:Ev; [|done].
    destruct (delete_vm vm w) as [w1 [op|e]]; [|done]. cbn.
    destruct (delete_all ns w1) as [[w2 e2] [ops2|e]] eqn:E2; [|done]. intros [= <- <- <-].
    destruct (IH _ _ _ _ E2) as (vms & Hv & ->). exists (vm :: vms). by rewrite fmap_cons, Ev, Hv, app_nil_r.
Qed.
Lemma wait_deleted_silent fuel op w w' es : wait_deleted fuel op w = Some (w', es, Ret tt) -> es = [].
Proof.
  revert w w' es. induction fuel as [|fuel IH]; intros w w' es; [done|]. cbn [wait_deleted].
  unfold f_bind, f_lift, get_name, py_call, py_set. destruct op as [name|]; [|done].
  destruct (operation_status name w) as [w1 [[|]|e]]; [by intros [= <- <-]| |done].
  destruct (wait_deleted fuel (Some name) (sleep 1 w1)) as [[[w2 e2] r]|] eqn:E2; [|done].
  intros [= <- <- ->]. apply IH in E2 as ->. done.
Qed.
Lemma wait_all_silent fuel ops w w' es : wait_all fuel ops w = Some (w', es, Ret tt) -> es = [].
Proof.
  revert w w' es. induction ops as [|op ops IH]; intros w w' es; [by intros [= _ <-]|].
  intros (w1 & e1 & [] & e2 & H1%wait_deleted_silent & H2%IH & ->)%f_bind_result. by subst.
Qed.

(** Tearing down a cluster of virtual machines, when it returns, has asked
    for the deletion of the machine of every node, in order, and every node had
    one. *)
Theorem gce_torn_down fuel conf w w' es : tear_down_gce_cluster fuel conf w = Some (w', es, Ret tt) ->
  exists vms, vmID <$> m_nodes conf = Some <$> vms /\ es = DeletedVm <$> vms.
Proof.
  intros (w1 & e1 & [] & e2 & H1 & H2 & ->)%f_bind_result.
  apply f_bind_result in H2 as (w2 & e3 & ops & e4 & H3 & H4%wait_all_silent & ->). subst e4.
  injection H3 as H3. apply delete_all_spec in H3 as (vms & Hv & ->). exists vms. split; [done|].
  unfold f_lift, py_call in H1. destruct (compute_client w). injection H1 as <- <- _. by rewrite app_nil_r.
Qed.
End tear_down.

(** ** Example *)
Module Demo.
#[export] Instance machines : Machines Z := {|
  popen _ _ w := (w, Ret tt);
  output _ _ w := (w, Ret "");
  connect _ _ _ _ w := (w, true);
  sleep _ w := w + 1;
|}.
#[export] Instance environment : Environment Z := {|
  listdir w := (w, Ret ["README.md"; "rethinkdb_data2"; "rethinkdb_data3"]);
  rmtree _ w := (w, Ret tt);
  compute_client w := (w, Ret tt);
  delete_vm vm w := (w, Ret (Some ("delete-" +:+ vm)));
  operation_status _ w := (w, Ret (3 <=? w));
|}.
Definition nodes : list node := (fun i =>
  {| id := i; address := "127.0.0.1"; port := 40000 + i; rpcPort := 50000 + i; node_interface := "lo";
     vmID := Some ("vm-" +:+ py_str i); internalIP := "127.0.0.1" |}) <$> [1; 2].
Definition conf (mode : string) : master_config :=
  {| m_mode := mode; m_algorithm := "rethinkdb"; m_testDaemon := local_endpoint; m_nodes := nodes |}.
End Demo.

Lemma local_torn_down_witness : exists files,
  killed [40001; 50001; 40002; 50002; 2082]
    ++ [Removed "./rethinkdb_data2"; Removed "./rethinkdb_data3"] =
  killed (ports_of Demo.nodes ++ [TEST_DAEMON_PORT])
    ++ ((fun f => Removed ("./" +:+ f)) <$> filter (fun f => py_in "rethinkdb_data" f = true) files).
Proof.
  apply (local_torn_down (H := Demo.machines) (H0 := Demo.environment) "rethinkdb" Demo.nodes 0 0). by vm_compute.
Defined.
Lemma gce_torn_down_witness : exists vms,
  vmID <$> Demo.nodes = Some <$> vms /\ [DeletedVm "vm-1"; DeletedVm "vm-2"] = DeletedVm <$> vms.
Proof.
  apply (gce_torn_down (H := Demo.machines) (H0 := Demo.environment) 9 (Demo.conf "gce") 0 3). by vm_compute.
Defined.
