(* ===== verification/TestDaemon.v ===== *)
(** * The test daemon (test_daemon.py)

    It measures appends for the test executor.  Module [Manager] is the part of
    one thread: [TestManager.run] over any append function, and those of RethinkDB
    and the datastore.  Module [Acks] is the protocol with a consensus cluster:
    the append returns the time at which it began, and the time of its completion
    comes back in a call of [cluster_append_complete], in another thread, through
    the global [CLUSTER_ACK]; its steps are the accesses to that variable, in any
    interleaving. *)
From stdpp Require Import base list strings relations.
From Stdlib Require Import ZArith Lia.
From S2P Require Import Prelude PyExcept PyFuel.
Local Open Scope Z_scope.

Module Manager.
Definition DEFAULT_VALUE : string := "value".

(** What a run logs. *)
Inductive event : Type := Logged (e : py_error).

Section run.
Context {W T : Type} (appendFunction : W -> W * outcome T).
Abbreviation F A := (PyF W event A).

(** [while len(results) < times] with its handler *)
Fixpoint run_loop (fuel : nat) (times : Z) (results : list T) : F (list T) :=
  match fuel with
  | O => f_more
  | S fuel =>
      if bool_decide (Z.of_nat (length results) < times) then
        let? results :=
          f_try (let? r := f_lift (py_call appendFunction) in f_return (results ++ [r]))
                (fun e => f_lift (py_emit [Logged e]) ;;? f_return results) in
        run_loop fuel times results
      else f_return results
  end.
Definition run (fuel : nat) (times : Z) : F (list T) := run_loop fuel times [].

(** ** Facts *)
(** The appends of a run: errors and results, in order. *)
Fixpoint appends (n : nat) (w : W) : W * list (outcome T) :=
  match n with
  | O => (w, [])
  | S n => let '(w, r) := appendFunction w in let '(w, rs) := appends n w in (w, r :: rs)
  end.
Definition good (rs : list (outcome T)) : list T :=
  omap (fun r => match r with Ret t => Some t | Raise _ => None end) rs.
Definition logged (rs : list (outcome T)) : list event :=
  omap (fun r => match r with Ret _ => None | Raise e => Some (Logged e) end) rs.

Lemma run_loop_spec fuel times results w w' es ts :
  run_loop fuel times results w = Some (w', es, Ret ts) ->
  exists n rs, appends n w = (w', rs) /\ ts = results ++ good rs /\ es = logged rs /\
    (Z.of_nat (length results) <= times -> Z.of_nat (length ts) = times) /\
    (forall m rs', (m < n)%nat -> rs' = take m rs -> Z.of_nat (length (results ++ good rs')) < times).
Proof.
  revert results w es. induction fuel as [|fuel IH]; intros results w es; [done|]. cbn [run_loop].
  case_bool_decide as Hlt.
  - unfold f_bind at 1, f_try, f_bind, f_lift, py_call. destruct (appendFunction w) as [w1 [t|e]] eqn:Ea; cbn.
    + destruct (run_loop fuel times (results ++ [t]) w1) as [[[w2 es2] r2]|] eqn:E2; [|done].
      intros [= <- <- ->]. destruct (IH _ _ _ E2) as (n & rs & Hn & -> & -> & Hl & Hm).
      exists (S n), (Ret t :: rs). cbn. rewrite Ea, Hn. rewrite length_app in Hl. cbn in Hl.
      split; [done|]. split; [by rewrite <-app_assoc|]. split; [done|]. split; [intros; apply Hl; lia|].
      intros [|m] rs' Hlt' ->; cbn; [by rewrite app_nil_r|].
      specialize (Hm m _ ltac:(lia) eq_refl). by rewrite <-app_assoc in Hm.
    + destruct (run_loop fuel times results w1) as [[[w2 es2] r2]|] eqn:E2; [|done].
      intros [= <- <- ->]. destruct (IH _ _ _ E2) as (n & rs & Hn & -> & -> & Hl & Hm).
      exists (S n), (Raise e :: rs). cbn. rewrite Ea, Hn. split; [done|]. split; [done|]. split; [done|].
      split; [done|]. intros [|m] rs' Hlt' ->; cbn; [by rewrite app_nil_r|].
      by apply (Hm m _ ltac:(lia) eq_refl).
  - intros [= <- <- <-]. exists 0%nat, []. rewrite app_nil_r. repeat split; try done; lia.
Qed.

(** A run returns exactly the asked number of results: those of its first
    successful appends, in order; it makes no append too many, and it logs the
    failed ones and nothing else. *)
Theorem run_measures fuel times w w' es ts : 0 <= times -> run fuel times w = Some (w', es, Ret ts) ->
  exists n rs, appends n w = (w', rs) /\ ts = good rs /\ es = logged rs /\ Z.of_nat (length ts) = times /\
    forall m, (m < n)%nat -> Z.of_nat (length (good (take m rs))) < times.
Proof.
  intros Ht E. destruct (run_loop_spec _ _ _ _ _ _ _ E) as (n & rs & Hn & -> & -> & Hl & Hm).
  exists n, rs. repeat split; [done|by apply Hl|]. intros m Hlt. by apply (Hm m _ Hlt eq_refl).
Qed.

(** An append that succeeds again and again. *)
Inductive succeeds (w : W) : Prop :=
| succeeds_now w' t : appendFunction w = (w', Ret t) -> succeeds w
| succeeds_later w' e : appendFunction w = (w', Raise e) -> succeeds w' -> succeeds w.
Context (Hlive : forall w, succeeds w).

(** When appends keep succeeding after finitely many failures, a run ends. *)
Theorem run_ends times w : exists fuel w' es ts, run fuel times w = Some (w', es, Ret ts).
Proof.
  unfold run. generalize (@nil T) as results.
  assert (H : forall k results w, (Z.to_nat (times - Z.of_nat (length results)) <= k)%nat ->
    exists fuel w' es ts, run_loop fuel times results w = Some (w', es, Ret ts)).
  { induction k as [|k IH]; intros results w0 Hk.
    - exists 1%nat. cbn. rewrite bool_decide_eq_false_2 by lia. by eexists _, _, _.
    - destruct (decide (Z.of_nat (length results) < times)) as [Hlt|Hge];
        [|exists 1%nat; cbn; rewrite bool_decide_eq_false_2 by lia; by eexists _, _, _].
      induction (Hlive w0) as [w0 w1 t Ea|w0 w1 e Ea _ (fuel & w' & es & ts & E)].
      + destruct (IH (results ++ [t]) w1) as (fuel & w' & es & ts & E); [rewrite length_app; cbn; lia|].
        exists (S fuel). cbn [run_loop]. rewrite bool_decide_eq_true_2 by done.
        unfold f_bind at 1, f_try, f_bind, f_lift, py_call. rewrite Ea. cbn. rewrite E. by eexists _, _, _.
      + exists (S fuel). cbn [run_loop]. rewrite bool_decide_eq_true_2 by done.
        unfold f_bind at 1, f_try, f_bind, f_lift, py_call. rewrite Ea. cbn. rewrite E. by eexists _, _, _. }
  intros results. by eapply H.
Qed.
End run.

(** ** RethinkDB *)
Section rethinkdb.
Context {W T : Type} (timer : W -> W * T) (minus : T -> T -> T).
(** Inserting [{"id": DEFAULT_VALUE, "value": ITERATION}] and reading the table. *)
Context (insert : string -> Z -> W -> W * outcome unit) (read_table : W -> W * outcome unit).

Record rethinkdb_state : Type := mkRdb { ITERATION : Z; db : W }.

(** The last statement of [finally] is a return: no exception leaves it. *)
Definition rethinkdb_append_entry (s : rethinkdb_state) : rethinkdb_state * outcome T :=
  let '(w, t) := timer (db s) in
  let '(s, w) :=
    match insert DEFAULT_VALUE (ITERATION s) w with
    | (w, Raise _) => (s, w)
    | (w, Ret _) =>
        match read_table w with
        | (w, Raise _) => (s, w)
        | (w, Ret _) => ({| ITERATION := (ITERATION s + 1) mod 100; db := db s |}, w)
        end
    end in
  let '(w, t') := timer w in
  ({| ITERATION := ITERATION s; db := w |}, Ret (minus t' t)).

(** An append to RethinkDB never raises: a failed one is measured like the
    others, so that a run of [times] appends makes exactly [times] of them; the
    value written stays in 0..99 and moves on only after a success. *)
Theorem rethinkdb_never_raises s : exists s' t, rethinkdb_append_entry s = (s', Ret t) /\
  (0 <= ITERATION s < 100 -> 0 <= ITERATION s' < 100) /\
  (ITERATION s' = ITERATION s \/ ITERATION s' = (ITERATION s + 1) mod 100).
Proof.
  unfold rethinkdb_append_entry. destruct (timer (db s)) as [w t].
  destruct (insert _ _ w) as [w1 [[]|e]]; [destruct (read_table w1) as [w2 [[]|e]]|];
    destruct (timer _) as [w3 t']; eexists _, _; (split; [reflexivity|]); cbn; split; auto; intros _;
    apply Z.mod_pos_bound; lia.
Qed.
End rethinkdb.

(** [rethinkdb_setup]: an existing table is only logged. *)
Definition rethinkdb_setup {W} (table_create : W -> W * outcome unit) : PyM W event unit :=
  py_try (py_call table_create) (py_return tt).

(** [requests.post] and [float(resp.text)] *)
Section datastore.
Context {W T : Type} (post : string -> string -> W -> W * outcome string) (py_float : string -> option T).
Definition GAE_ENDPOINT : string := "http://krafters-1334.appspot.com/datastore".
Definition datastore_append_entry (w : W) : W * outcome T :=
  match post GAE_ENDPOINT DEFAULT_VALUE w with
  | (w, Raise e) => (w, Raise e)
  | (w, Ret text) => (w, match py_float text with Some t => Ret t | None => Raise ValueError end)
  end.
End datastore.

(** ** TestManager *)
(** Which append function an algorithm has; another name leaves the attribute
    out, and every call of it is an AttributeError. *)
Inductive append_function : Type := Rethinkdb | Cluster (host : string) | Datastore.
Definition test_manager (algorithm_host algorithm : string) : option append_function :=
  if String.eqb algorithm "rethinkdb" then Some Rethinkdb
  else if String.eqb algorithm "paxos" || String.eqb algorithm "pso" then
    Some (Cluster (if String.eqb algorithm_host "''" || String.eqb algorithm_host "" then "127.0.0.1"
                   else algorithm_host))
  else if String.eqb algorithm "datastore" then Some Datastore
  else None.
End Manager.

Module Acks.
(** Ticks of [timeit.default_timer] on the node. *)
Abbreviation time := Z.

(** Where a thread is in [cluster_append_entry]: about to call; the node has
    begun at [t] and the call is not back; in the loop; behind the loop; about
    to reset with the result [d]. *)
Inductive pc : Type :=
| Start
| Calling (t : time)
| Waiting (t : time)
| Exited (t : time)
| Computed (d : time).

Record thread : Type := mkThread { at_ : pc; results : list time }.
(** [CLUSTER_ACK], the threads of the runs, and the appends that the cluster has
    not completed yet. *)
Record state : Type := mkState { CLUSTER_ACK : option time; threads : list thread; outstanding : list time }.

Definition move (i : nat) (th : thread) (ack : option time) (out : list time) (s : state) : state :=
  {| CLUSTER_ACK := ack; threads := <[i := th]> (threads s); outstanding := out |}.

(** What a step does, for the outside: an append begins, one is completed. *)
Inductive label : Type := Tau | Began (t : time) | Completed (t c : time) | Failed (t : time).

Inductive step : state -> label -> state -> Prop :=
(** The node reads its clock and hands the value to the algorithm. *)
| step_begin s i rs t : threads s !! i = Some (mkThread Start rs) ->
    step s (Began t) (move i (mkThread (Calling t) rs) (CLUSTER_ACK s) (outstanding s ++ [t]) s)
| step_returned s i rs t : threads s !! i = Some (mkThread (Calling t) rs) ->
    step s Tau (move i (mkThread (Waiting t) rs) (CLUSTER_ACK s) (outstanding s) s)
(** The call raises although the node has the value: [run] logs and retries. *)
| step_failed s i rs t : threads s !! i = Some (mkThread (Calling t) rs) ->
    step s (Failed t) (move i (mkThread Start rs) (CLUSTER_ACK s) (outstanding s) s)
(** The loop ends when it finds an acknowledgement. *)
| step_exit s i rs t c : threads s !! i = Some (mkThread (Waiting t) rs) -> CLUSTER_ACK s = Some c ->
    step s Tau (move i (mkThread (Exited t) rs) (CLUSTER_ACK s) (outstanding s) s)
(** [CLUSTER_ACK - res]; [None - res] is a TypeError, logged and retried. *)
| step_compute s i rs t c : threads s !! i = Some (mkThread (Exited t) rs) -> CLUSTER_ACK s = Some c ->
    step s Tau (move i (mkThread (Computed (c - t)) rs) (CLUSTER_ACK s) (outstanding s) s)
| step_type_error s i rs t : threads s !! i = Some (mkThread (Exited t) rs) -> CLUSTER_ACK s = None ->
    step s Tau (move i (mkThread Start rs) (CLUSTER_ACK s) (outstanding s) s)
| step_reset s i rs d : threads s !! i = Some (mkThread (Computed d) rs) ->
    step s Tau (move i (mkThread Start (rs ++ [d])) None (outstanding s) s)
(** [cluster_append_complete], once for each append, in any order. *)
| step_complete s t c l1 l2 : outstanding s = l1 ++ t :: l2 ->
    step s (Completed t c) {| CLUSTER_ACK := Some c; threads := threads s; outstanding := l1 ++ l2 |}.

Inductive steps : state -> list label -> state -> Prop :=
| steps_nil s : steps s [] s
| steps_snoc s s' s'' ls l : steps s ls s' -> step s' l s'' -> steps s (ls ++ [l]) s''.

Definition init (runs : nat) : state :=
  {| CLUSTER_ACK := None; threads := replicate runs (mkThread Start []); outstanding := [] |}.

(** ** One run, whose calls do not fail *)
Definition completions (ls : list label) : list time :=
  omap (fun l => match l with Completed t c => Some (c - t) | _ => None end) ls.
Definition no_failure (ls : list label) : Prop := forall t, Failed t ∉ ls.

(** The result that is on its way: completed, and not yet in the list. *)
Inductive phase : state -> list time -> Prop :=
| ph_start rs : phase (mkState None [mkThread Start rs] []) rs
| ph_calling rs t : phase (mkState None [mkThread (Calling t) rs] [t]) rs
| ph_waiting rs t : phase (mkState None [mkThread (Waiting t) rs] [t]) rs
| ph_early rs t c : phase (mkState (Some c) [mkThread (Calling t) rs] []) (rs ++ [c - t])
| ph_acked rs t c : phase (mkState (Some c) [mkThread (Waiting t) rs] []) (rs ++ [c - t])
| ph_exited rs t c : phase (mkState (Some c) [mkThread (Exited t) rs] []) (rs ++ [c - t])
| ph_computed rs d c : phase (mkState (Some c) [mkThread (Computed d) rs] []) (rs ++ [d]).

Lemma only_thread s i th th' out ack : threads s !! i = Some th -> threads s = [th'] ->
  th = th' /\ forall th'', move i th'' ack out s = mkState ack [th''] out.
Proof.
  intros Hi Hs. rewrite Hs in Hi. destruct i as [|i]; [|done]. injection Hi as ->. split; [done|].
  intros th''. unfold move. by rewrite Hs.
Qed.

Lemma phase_step s l s' ds : phase s ds -> step s l s' -> (forall t, l <> Failed t) ->
  phase s' (ds ++ completions [l]).
Proof.
  intros Hp Hs Hf.
  destruct Hs as [s i rs t Hi|s i rs t Hi|s i rs t Hi|s i rs t c Hi Hc|s i rs t c Hi Hc|s i rs t Hi Hc
    |s i rs d Hi|s t c l1 l2 Ho]; try by destruct (Hf t).
  all: cbn [completions omap list_omap]; rewrite ?app_nil_r.
  all: try (assert (Hi' := Hi); destruct Hp; destruct i as [|i]; try discriminate Hi; cbn in Hi;
    try discriminate; simplify_eq/=; try discriminate; constructor).
  destruct Hp; cbn in Ho; try (by destruct l1); cbn.
  all: destruct l1 as [|? [|??]]; simplify_eq/=; constructor.
Qed.

Lemma single_phase ls s : steps (init 1) ls s -> no_failure ls -> phase s (completions ls).
Proof.
  intros Hs. remember (init 1) as s0 eqn:E0. induction Hs as [s|s s' s'' ls l Hs IH Hstep]; subst; intros Hf.
  - apply (ph_start []).
  - unfold completions. rewrite omap_app. eapply phase_step; [apply IH; [done|]|exact Hstep|].
    + intros t Ht. apply (Hf t). apply elem_of_app. by left.
    + intros t ->. apply (Hf t). apply elem_of_app. right. by left.
Qed.
(** The results are the times of the completed appends, but for the last one. *)
Definition measured (ls : list label) (s : state) : Prop := exists th, threads s = [th] /\
  (completions ls = results th \/ exists d, completions ls = results th ++ [d]).
Lemma phase_measured ls s : phase s (completions ls) -> measured ls s.
Proof. unfold measured. generalize (completions ls). intros ds Hp. destruct Hp; eexists; (split; [reflexivity|]); cbn; eauto. Qed.

(** In a single run without failing calls every result is the time from the
    begin of an append to the completion of that same append, in order, at
    whatever moments the acknowledgements come in; at most the last completion
    is not in the results yet. *)
Theorem single_run_measures ls s : steps (init 1) ls s -> no_failure ls ->
  exists th, threads s = [th] /\
    (completions ls = results th \/ exists d, completions ls = results th ++ [d]).
Proof. intros Hs Hf. by apply phase_measured, single_phase.
Qed.

(** ** What goes wrong otherwise *)
Lemma steps_cons s l s' ls s'' : step s l s' -> steps s' ls s'' -> steps s (l :: ls) s''.
Proof.
  intros H1 H2. induction H2 as [s'|s' s1 s2 ls l' H2 IH H3].
  - change [l] with ([] ++ [l]). econstructor; [constructor|exact H1].
  - change (l :: ls ++ [l']) with ((l :: ls) ++ [l']). econstructor; [by apply IH|exact H3].
Qed.

(** One step of the example, whose result is computed. *)
Ltac go c := eapply steps_cons; [c; reflexivity|cbn].

(** After one failed call a run measures the wrong append: the late
    acknowledgement of the failed one ends the wait for its successor, and the
    time is negative. *)
Theorem late_acknowledgement : exists ls s, steps (init 1) ls s /\
  threads s = [mkThread Start [-5]] /\ completions ls = [5] /\ outstanding s = [15].
Proof.
  eexists _, _. split.
  - go ltac:(apply (step_begin _ 0 [] 5)).
    go ltac:(apply (step_failed _ 0 [] 5)).
    go ltac:(eapply (step_complete _ 5 10 [] [])).
    go ltac:(apply (step_begin _ 0 [] 15)).
    go ltac:(apply (step_returned _ 0 [] 15)).
    eapply steps_cons; [apply (step_exit _ 0 [] 15 10); reflexivity|cbn].
    eapply steps_cons; [apply (step_compute _ 0 [] 15 10); reflexivity|cbn].
    go ltac:(apply (step_reset _ 0 [] (10 - 15))). apply steps_nil.
  - by vm_compute.
Qed.

(** Two runs at the same time can lose an acknowledgement: the second
    overwrites the first before anyone has read it, one run takes it, and the
    other waits for ever unless somebody begins another append. *)
Theorem concurrent_runs_hang : exists ls s, steps (init 2) ls s /\ no_failure ls /\
  threads s = [mkThread Start [15]; mkThread (Waiting 6) []] /\
  forall l s', step s l s' -> exists t, l = Began t.
Proof.
  eexists _, (mkState None [mkThread Start [15]; mkThread (Waiting 6) []] []). split; [|split; [|split]].
  - go ltac:(apply (step_begin _ 0 [] 5)).
    go ltac:(apply (step_begin _ 1 [] 6)).
    go ltac:(apply (step_returned _ 0 [] 5)).
    go ltac:(apply (step_returned _ 1 [] 6)).
    go ltac:(eapply (step_complete _ 5 10 [] [6])).
    go ltac:(eapply (step_complete _ 6 20 [] [])).
    eapply steps_cons; [apply (step_exit _ 0 [] 5 20); reflexivity|cbn].
    eapply steps_cons; [apply (step_compute _ 0 [] 5 20); reflexivity|cbn].
    go ltac:(apply (step_reset _ 0 [] (20 - 5))). apply steps_nil.
  - intros t Ht. rewrite !elem_of_cons, elem_of_nil in Ht. naive_solver.
  - done.
  - intros l s' Hs. inversion Hs; subst; cbn in *; try discriminate; eauto.
    all: try (by destruct i as [|[|i]]; simplify_eq/=).
    by destruct l1.
Qed.
End Acks.

(** ** Examples *)
(** An append whose every third call fails; it returns the time. *)
Definition flaky (w : Z) : Z * outcome Z := (w + 1, if w mod 3 =? 2 then Raise IOError else Ret w).

Lemma run_measures_witness : exists n rs, Manager.appends flaky n 0 = (4, rs) /\ [0; 1; 3] = Manager.good rs /\
  [Manager.Logged IOError] = Manager.logged rs /\ Z.of_nat (length [0; 1; 3]) = 3 /\
  forall m, (m < n)%nat -> Z.of_nat (length (Manager.good (take m rs))) < 3.
Proof. apply (Manager.run_measures flaky 9 3 0 4 [Manager.Logged IOError] [0; 1; 3]); [lia|by vm_compute]. Defined.

Lemma flaky_succeeds w : Manager.succeeds flaky w.
Proof.
  assert (Hnow : forall w, w mod 3 <> 2 -> Manager.succeeds flaky w).
  { intros v Hv. eapply Manager.succeeds_now. unfold flaky. by rewrite (proj2 (Z.eqb_neq _ _) Hv). }
  destruct (decide (w mod 3 = 2)) as [E|E]; [|by apply Hnow].
  eapply Manager.succeeds_later; [unfold flaky; by rewrite (proj2 (Z.eqb_eq _ _) E)|]. apply Hnow.
  rewrite Z.add_mod, E by lia. done.
Qed.
Lemma run_ends_witness : exists fuel w' es ts, Manager.run flaky fuel 100 0 = Some (w', es, Ret ts).
Proof. apply (Manager.run_ends flaky flaky_succeeds 100 0). Defined.

Lemma single_run_measures_witness : exists ls s th, Acks.steps (Acks.init 1) ls s /\ Acks.threads s = [th] /\
  Acks.completions ls = [5] /\
  (Acks.completions ls = Acks.results th \/ exists d, Acks.completions ls = Acks.results th ++ [d]).
Proof.
  assert (Hs : Acks.steps (Acks.init 1) [Acks.Began 5; Acks.Completed 5 10; Acks.Tau]
    (Acks.mkState (Some 10) [Acks.mkThread (Acks.Waiting 5) []] [])).
  { eapply Acks.steps_cons; [apply (Acks.step_begin _ 0 [] 5); reflexivity|cbn].
    eapply Acks.steps_cons; [apply (Acks.step_complete _ 5 10 [] []); reflexivity|cbn].
    eapply Acks.steps_cons; [apply (Acks.step_returned _ 0 [] 5); reflexivity|cbn]. apply Acks.steps_nil. }
  destruct (Acks.single_run_measures _ _ Hs) as (th & H1 & H2).
  - intros t Ht. rewrite !elem_of_cons, elem_of_nil in Ht. naive_solver.
  - eexists _, _, th. split; [exact Hs|]. split; [exact H1|]. split; [done|exact H2].
Defined.
