(* ===== verification/AppendPso.v ===== *)
(** * Measured appends on PySyncObj

    The path of an append of the test daemon (test_daemon.py) through the server
    of a node (pysyncobj/custom_server.py) and back: [append_entry] is the call
    that the server's listener serves, [onUpdateFunction] the callback that goes
    with the command, and its call of the daemon the acknowledgement.  An append
    that failed has no result, which the call cannot carry: the callback raises,
    and that ends the thread of the node.  The composed [system] runs as the
    protocol of TestDaemon.v says ([pso_refines_acks]). *)
From stdpp Require Import base gmap sets list strings.
From Stdlib Require Import ZArith QArith Lia.
From S2P Require Import Prelude PyList Serializer SyncObj SyncObjCallbacks Replicated CustomServers TestDaemon.
Local Open Scope Z_scope.

(** ** main *)
(** What a replicated call calls back: the test daemon, whose address is the
    third argument of the process, or a function that prints. *)
Inductive update_callback : Type := Forwards (test_daemon : string) | Noop.
Definition main_callback (argv : list string) : update_callback :=
  match argv with [_; _; d] => Forwards ("http://" +:+ d) | _ => Noop end.
(** Whether a listener for appends is started. *)
Definition main_listens (argv : list string) : bool := Nat.eqb (length argv) 3.

(** The call of [cluster_append_complete] that the callback makes; [now] is
    [timeit.default_timer()].  The error is printed, not sent, and a result
    [None] cannot be sent: [ServerProxy] is made without [allow_none], and
    [xmlrpclib] then raises before anything goes out. *)
Definition onUpdateFunction {R} (now : Z) (res : option R) (err : FAIL_REASON) : outcome (R * Z) :=
  match res with Some res => Ret (res, now) | None => Raise TypeError end.

(** [cluster_append_complete(new_current_value, time)]: what the acknowledgement
    of the append [t] does in the daemon. *)
Fixpoint remove_one (t : Z) (l : list Z) : list Z :=
  match l with [] => [] | x :: l => if decide (x = t) then l else x :: remove_one t l end.
Definition acknowledge {R} (t : Z) (completed : R * Z) (d : Acks.state) : Acks.state :=
  Acks.mkState (Some completed.2) (Acks.threads d) (remove_one t (Acks.outstanding d)).

Section pso.
Context {A Val R X : Type} `{Countable A} `{Machine (Replicated.command Val) R X} `{Codec (dump (Replicated.command Val) X)}.
Context (conf : SyncObjConf) (truthy : Val -> bool) (methods : list string) (callback : Val).
Abbreviation C := (Replicated.command Val).
Abbreviation node := (SyncObj.t A C X Z).
Abbreviation method B := (PyM node (effect A C R Z) B).

(** [TestDaemonListener.pso_append]; the callback of the append at [now] is
    called [now] here. *)
Definition append_entry (value : Val) (now : Z) : method Z :=
  match pso_append truthy methods callback value now with
  | Ret (t, Replicated.ApplyCommand cmd (Some _)) => applyCommand conf cmd (Local t) ;;! py_return t
  | Ret (t, Replicated.ApplyCommand cmd None) => applyCommand conf cmd NoCallback ;;! py_return t
  | Ret (t, Replicated.Function _ _ _) => py_return t
  | Raise er => py_raise er
  end.

(** ** The system *)
(** The node, while its thread lives, and the daemon. *)
Record system : Type := mkSystem { server : option node; daemon : Acks.state }.

(** The callbacks among the effects, in order, each at a time of its own, up to
    the first that raises; and whether none raised. *)
Fixpoint acknowledge_all (fx : list (effect A C R Z)) (now : nat -> Z) (d : Acks.state) : list Acks.label * Acks.state * bool :=
  match fx with
  | [] => ([], d, true)
  | Send _ _ :: fx => acknowledge_all fx now d
  | Callback t res err :: fx =>
      match onUpdateFunction (now (length fx)) res err with
      | Ret completed =>
          let '(ls, d, ok) := acknowledge_all fx now (acknowledge t completed d) in
          (Acks.Completed t completed.2 :: ls, d, ok)
      | Raise _ => ([], d, false)
      end
  end.
Definition returns {B} (r : outcome B) : bool := match r with Ret _ => true | Raise _ => false end.
Definition calling (i : nat) (rs : list Z) (t : Z) (d : Acks.state) : Acks.state :=
  Acks.move i (Acks.mkThread (Acks.Calling t) rs) (Acks.CLUSTER_ACK d) (Acks.outstanding d ++ [t]) d.
(** The call of the daemon's thread [i] is answered with a fault. *)
Definition faulted (i : nat) (rs : list Z) (d : Acks.state) : Acks.state :=
  Acks.move i (Acks.mkThread Acks.Start rs) (Acks.CLUSTER_ACK d) (Acks.outstanding d) d.

Inductive step (P : system) : list Acks.label -> system -> Prop :=
(** A run of the daemon appends; the value is handed to the node, in the thread
    of the listener: what is raised there (the queue is full) is a fault. *)
| step_append i rs t value now s ls d ok :
    Acks.threads (daemon P) !! i = Some (Acks.mkThread Acks.Start rs) -> server P = Some s ->
    let x := append_entry value t s in
    acknowledge_all (effects x) now (calling i rs t (daemon P)) = (ls, d, ok) ->
    step P (Acks.Began t :: ls ++ if ok && returns (result x) then [] else [Acks.Failed t])
      (mkSystem (Some (post x)) (if ok && returns (result x) then d else faulted i rs d))
(** The thread of the node ticks or handles a message; an exception ends it. *)
| step_node ev now s ls d ok :
    submitted [ev] = [] -> server P = Some s ->
    let x := handle conf ev s in
    acknowledge_all (effects x) now (daemon P) = (ls, d, ok) ->
    step P ls (mkSystem (if ok && returns (result x) then Some (post x) else None) d)
(** The listener of a node whose thread has ended still takes appends, until the
    queue is full (when that is, depends on where the exception came up). *)
| step_append_dead i rs t (full : bool) :
    Acks.threads (daemon P) !! i = Some (Acks.mkThread Acks.Start rs) -> server P = None ->
    step P (Acks.Began t :: if full then [Acks.Failed t] else [])
      (mkSystem None (if full then faulted i rs (calling i rs t (daemon P)) else calling i rs t (daemon P)))
(** A step of the daemon alone; a call may also be lost on its way back. *)
| step_daemon l d : l = Acks.Tau \/ (exists t, l = Acks.Failed t) -> Acks.step (daemon P) l d ->
    step P [l] (mkSystem (server P) d).

Inductive steps (P : system) : list Acks.label -> system -> Prop :=
| steps_nil : steps P [] P
| steps_more ls P' ls' P'' : steps P ls P' -> step P' ls' P'' -> steps P (ls ++ ls') P''.

(** ** The refinement *)
(** Every callback in the node belongs to an append that is not complete. *)
Definition owed (P : system) : Prop := forall s, server P = Some s -> ids_used s /\ held s ⊆+ Acks.outstanding (daemon P).

Lemma remove_one_split t l : t ∈ l -> exists l1 l2, l = l1 ++ t :: l2 /\ remove_one t l = l1 ++ l2.
Proof.
  induction l as [|x l IH]; [by intros ?%elem_of_nil|]. intros Hin. cbn. destruct (decide (x = t)) as [->|Hne].
  - by exists [], l.
  - apply elem_of_cons in Hin as [->|Hin]; [done|]. destruct (IH Hin) as (l1 & l2 & -> & ->). by exists (x :: l1), l2.
Qed.
Lemma acks_app s ls s' ls' s'' : Acks.steps s ls s' -> Acks.steps s' ls' s'' -> Acks.steps s (ls ++ ls') s''.
Proof.
  intros S1 S2. induction S2 as [s'|s' s1 s2 ls' l S2 IH Hl]; [by rewrite app_nil_r|]. rewrite app_assoc. econstructor; [by apply IH|done].
Qed.

Lemma acknowledged fx now d ls d' ok rest : called fx ++ rest ⊆+ Acks.outstanding d -> acknowledge_all fx now d = (ls, d', ok) ->
  Acks.steps d ls d' /\ Acks.threads d' = Acks.threads d /\ rest ⊆+ Acks.outstanding d'.
Proof.
  revert d ls. induction fx as [|[to m|t res err] fx IH]; intros d ls; cbn [acknowledge_all].
  { intros Hr [= <- <- <-]. split; [constructor|done]. }
  { by apply IH. }
  intros Hr. destruct (onUpdateFunction (now (length fx)) res err) as [completed|x]; cycle 1.
  { intros [= <- <- <-]. split; [constructor|]. split; [done|]. etrans; [|exact Hr]. by apply submseteq_inserts_l. }
  assert (Hin : t ∈ Acks.outstanding d) by (eapply elem_of_submseteq; [|exact Hr]; by left).
  destruct (remove_one_split t _ Hin) as (l1 & l2 & El & Er).
  set (d1 := acknowledge t _ d). destruct (acknowledge_all fx now d1) as [[ls1 d2] ok1] eqn:E1. intros [= <- <- <-].
  destruct (IH d1 ls1) as (Hs & Ht & Hr'); [|done|].
  - subst d1. cbn [acknowledge Acks.outstanding]. rewrite Er. apply submseteq_cons_l in Hr as (k & Ek & Hk).
    rewrite El, <-Permutation_middle in Ek. apply (Permutation_cons_inv) in Ek. by rewrite Ek.
  - split; [|by rewrite Ht]. eapply Acks.steps_cons; [|exact Hs]. subst d1. unfold acknowledge. rewrite Er. by apply Acks.step_complete.
Qed.

(** The call that begins, and the one that is answered with a fault. *)
Lemma begins i rs t d : Acks.threads d !! i = Some (Acks.mkThread Acks.Start rs) -> Acks.step d (Acks.Began t) (calling i rs t d).
Proof. intros Hi. by apply Acks.step_begin. Qed.
Lemma fails i rs t d d' : Acks.threads d !! i = Some (Acks.mkThread Acks.Start rs) ->
  Acks.threads d' = Acks.threads (calling i rs t d) -> Acks.step d' (Acks.Failed t) (faulted i rs d').
Proof.
  intros Hi Ht. apply Acks.step_failed. rewrite Ht. cbn. apply list_lookup_insert_eq. by eapply lookup_lt_Some.
Qed.

Lemma pays_within {B} (m : method B) l t s : pays l m -> l ⊆+ [t] -> ids_used s ->
  ids_used (post (m s)) /\ called (effects (m s)) ++ held (post (m s)) ⊆+ t :: held s.
Proof.
  intros Hm Hl Hi. destruct (Hm s Hi) as (Hi' & lost & E & _). split; [done|].
  trans (called (effects (m s)) ++ held (post (m s)) ++ lost); [rewrite app_assoc; by apply submseteq_inserts_r|].
  rewrite E. change (t :: held s) with ([t] ++ held s). by apply submseteq_app.
Qed.
Lemma append_entry_pays value t s : ids_used s -> ids_used (post (append_entry value t s)) /\
  called (effects (append_entry value t s)) ++ held (post (append_entry value t s)) ⊆+ t :: held s.
Proof.
  assert (Hp : forall o (cmd : C) t', local_callback o ⊆+ [t] -> ids_used s ->
    ids_used (post ((applyCommand conf cmd o ;;! py_return t') s : _ * list (effect A C R Z) * outcome Z)) /\ _)
    by (intros o cmd t' Ho; eapply pays_within; [|exact Ho]; apply pays_last; [apply applyCommand_pays|intros _; apply pays_return]).
  assert (Hq : forall m : method Z, pays [] m -> ids_used s -> ids_used (post (m s)) /\ called (effects (m s)) ++ held (post (m s)) ⊆+ t :: held s)
    by (intros m Hm; eapply pays_within; [exact Hm|apply submseteq_nil_l]).
  unfold append_entry, pso_append. destruct (Replicated.newFunc _ _ _ _ _) as [[name args kw|cmd [cb|]]|er].
  - apply Hq, pays_return.
  - by apply Hp.
  - apply Hp, submseteq_nil_l.
  - apply Hq. apply pays_raise.
Qed.

Lemma step_owed P ls P' : owed P -> step P ls P' -> Acks.steps (daemon P) ls (daemon P') /\ owed P'.
Proof.
  intros Ho Hs. destruct Hs as [i rs t value now s ls d ok Hth Es x Hx|ev now s ls d ok Hev Es x Hx|i rs t full Hth Es|l d Hl Hd].
  - destruct (Ho s Es) as [Hi Hh]. destruct (append_entry_pays value t s Hi) as [Hi' Hc].
    eapply (acknowledged _ _ _ _ _ _ (held (post x))) in Hx as (Hs & Ht & Hr).
    + cbn [daemon]. split.
      * eapply Acks.steps_cons; [by apply begins|]. destruct (ok && _); [by rewrite app_nil_r|].
        eapply acks_app; [exact Hs|]. eapply Acks.steps_cons; [by eapply fails|constructor].
      * intros s' [= <-]. split; [done|]. by destruct (ok && _).
    + cbn [calling Acks.outstanding Acks.move]. trans (t :: held s); [exact Hc|].
      rewrite <-Permutation_cons_append. by apply submseteq_skip.
  - destruct (Ho s Es) as [Hi Hh]. destruct (handle_pays conf ev s Hi) as (Hi' & lost & E & _). rewrite Hev in E.
    eapply (acknowledged _ _ _ _ _ _ (held (post x))) in Hx as (Hs & _ & Hr).
    + split; [exact Hs|]. cbn [server daemon]. intros s'. destruct (ok && _); [|done]. by intros [= <-].
    + trans (called (effects x) ++ held (post x) ++ lost); [|subst x; by rewrite E].
      rewrite app_assoc. by apply submseteq_inserts_r.
  - cbn [daemon]. split; [|by intros s']. eapply Acks.steps_cons; [by apply begins|]. destruct full; [|constructor].
    eapply Acks.steps_cons; [by eapply fails|constructor].
  - cbn [daemon server]. split; [change [l] with ([] ++ [l]); econstructor; [constructor|done]|].
    intros s Es. destruct (Ho s Es) as [Hi Hh]. split; [done|]. cbn. rewrite Hh.
    destruct Hl as [->|[t ->]]; inversion Hd; subst; done.
Qed.

Definition start (self : A) (others : list A) (x : X) (file : option bytes) (e : env A) (runs : nat) : system :=
  mkSystem (Some (init conf self others x file e)) (Acks.init runs).

End pso.

(** ** One append that succeeds, one that is refused *)
Module Appends.
(** [setValue] on a [TestObjAutoTick] whose values are numbers. *)
#[export] Instance machine : Machine (Replicated.command Z) Z Z :=
  fun c x => match c with Replicated.WithArgs _ [v] => (v, v) | _ => (x, x) end.
#[export] Instance no_codec : Codec (dump (Replicated.command Z) Z) :=
  {| mem_dump _ := []; mem_load _ := Raise UnpicklingError;
     gz_dump _ := []; gz_load _ := Raise UnpicklingError |}.
Definition conf : SyncObjConf := test_conf 0 None false.
Definition at_time (t : Q) : env Z := MkEnv t 0 (fun _ => true) 10 false 99 true true true true.
Definition truthy (v : Z) : bool := negb (v =? 0).
Abbreviation sys := (system (A := Z) (Val := Z) (X := Z)).
Abbreviation moves := (step (R := Z) conf truthy ["setValue"%string] 0).
Abbreviation runs := (steps (R := Z) conf truthy ["setValue"%string] 0).
Abbreviation state := (SyncObj.t Z (Replicated.command Z) Z Z).
Definition system0 : sys := start (Val := Z) conf 3 [1; 2] 0 None (at_time 0) 1.

Lemma runs_step (P : sys) ls P' ls' P'' : moves P ls P' -> runs P' ls' P'' -> runs P (ls ++ ls') P''.
Proof.
  intros Hm Hs. induction Hs as [|ls1 P1 ls2 P2 Hs IH Hstep].
  - rewrite app_nil_r. change ls with ([] ++ ls). by econstructor; [constructor|].
  - rewrite app_assoc. by econstructor.
Qed.

(** Executed, with the times at which callbacks come. *)
Definition settle (s : state) (x : state * list (effect Z (Replicated.command Z) Z Z) * outcome unit) (now : nat -> Z) (d : Acks.state) :
    list Acks.label * sys :=
  let '(ls, d, ok) := acknowledge_all (effects x) now d in
  (ls, mkSystem (if ok && returns (result x) then Some (post x) else None) d).
Lemma node_moves (s : state) d ev now ls P : submitted [ev] = [] ->
  settle s (handle (R := Z) conf ev s) (fun _ => now) d = (ls, P) -> moves (mkSystem (Some s) d) ls P.
Proof.
  intros Hev. unfold settle. destruct (acknowledge_all _ _ d) as [[ls' d'] ok] eqn:E. intros [= -> <-].
  by apply (step_node _ _ _ _ (mkSystem (Some s) d) ev (fun _ => now)).
Qed.
Definition settle_append (s : state) (i : nat) (rs : list Z) (t value : Z) (d : Acks.state) : list Acks.label * sys :=
  let x := append_entry (R := Z) conf truthy ["setValue"%string] 0 value t s in
  let '(ls, d, ok) := acknowledge_all (effects x) (fun _ => 0) (calling i rs t d) in
  (Acks.Began t :: ls ++ (if ok && returns (result x) then [] else [Acks.Failed t]),
   mkSystem (Some (post x)) (if ok && returns (result x) then d else faulted i rs d)).
Lemma append_moves (s : state) i rs t value d ls P : Acks.threads d !! i = Some (Acks.mkThread Acks.Start rs) ->
  settle_append s i rs t value d = (ls, P) -> moves (mkSystem (Some s) d) ls P.
Proof.
  intros Hi. unfold settle_append. destruct (acknowledge_all _ _ _) as [[ls' d'] ok] eqn:E. intros [= <- <-].
  by apply (step_append _ _ _ _ (mkSystem (Some s) d) i rs t value (fun _ => 0)).
Qed.
(** The daemon's steps. *)
Lemma daemon_moves (o : option state) d d' : Acks.step d Acks.Tau d' -> moves (mkSystem o d) [Acks.Tau] (mkSystem o d').
Proof. intros Hd. apply (step_daemon _ _ _ _ (mkSystem o d)); [by left|exact Hd]. Qed.

(** Node 3 hears of the leader, node 1; [append_entry(7)] comes at 5 and is
    forwarded. *)
Definition hears_leader : state :=
  post (handle (R := Z) conf (Receives (at_time 1) 1 (append_entries 1 1 [] (Some 1) (Some 0)))
    (init conf 3 [1; 2] 0 None (at_time 0))).
Definition has_command : state := post (append_entry (R := Z) conf truthy ["setValue"%string] 0 7 5 hears_leader).
Definition has_forwarded : state := post (handle (R := Z) conf (Ticks (at_time 1)) has_command).
Definition begun : Acks.state := Acks.mkState None [Acks.mkThread (Acks.Calling 5) []] [5].

Lemma forwarded : runs system0 [Acks.Began 5] (mkSystem (Some has_forwarded) begun).
Proof.
  apply (runs_step _ [] (mkSystem (Some hears_leader) (Acks.init 1))).
  { by apply (node_moves _ _ (Receives (at_time 1) 1 (append_entries 1 1 [] (Some 1) (Some 0))) 0); [|vm_compute]. }
  apply (runs_step _ [Acks.Began 5] (mkSystem (Some has_command) begun)).
  { by apply (append_moves _ 0 [] 5 7); [|vm_compute]. }
  apply (runs_step _ [] (mkSystem (Some has_forwarded) begun) []); [|constructor].
  by apply (node_moves _ _ (Ticks (at_time 1)) 0); [|vm_compute].
Qed.
(** The leader's answer and the entry, committed, come in; the tick that applies it
    calls back at 9. *)
Definition command_7 : Replicated.command Z := Replicated.WithArgs 0 [7].
Definition has_answer : state := post (handle (R := Z) conf (Receives (at_time 1) 1 (apply_command_response 1 2 1)) has_forwarded).
Definition has_entry : state :=
  post (handle (R := Z) conf (Receives (at_time 1) 1 (append_entries 1 2 [MkEntry (Some command_7) 2 1] (Some 1) (Some 0))) has_answer).
Definition has_applied : state := post (handle (R := Z) conf (Ticks (at_time 1)) has_entry).

Definition labels : list Acks.label := [Acks.Began 5; Acks.Completed 5 9; Acks.Tau; Acks.Tau; Acks.Tau; Acks.Tau].
Definition system_end : sys := mkSystem (Some has_applied) (Acks.mkState None [Acks.mkThread Acks.Start [4]] []).

Lemma applied : runs (mkSystem (Some has_forwarded) begun) [Acks.Completed 5 9]
  (mkSystem (Some has_applied) (Acks.mkState (Some 9) [Acks.mkThread (Acks.Calling 5) []] [])).
Proof.
  apply (runs_step _ [] (mkSystem (Some has_answer) begun)).
  { by apply (node_moves _ _ (Receives (at_time 1) 1 (apply_command_response 1 2 1)) 0); [|vm_compute]. }
  apply (runs_step _ [] (mkSystem (Some has_entry) begun)).
  { by apply (node_moves _ _ (Receives (at_time 1) 1 (append_entries 1 2 [MkEntry (Some command_7) 2 1] (Some 1) (Some 0))) 0);
      [|vm_compute]. }
  apply (runs_step _ [Acks.Completed 5 9] (mkSystem (Some has_applied) (Acks.mkState (Some 9) [Acks.mkThread (Acks.Calling 5) []] [])) []); [|constructor].
  by apply (node_moves _ _ (Ticks (at_time 1)) 9); [|vm_compute].
Qed.
Lemma measured_run : runs (mkSystem (Some has_applied) (Acks.mkState (Some 9) [Acks.mkThread (Acks.Calling 5) []] []))
  [Acks.Tau; Acks.Tau; Acks.Tau; Acks.Tau] system_end.
Proof.
  apply (runs_step _ [Acks.Tau] (mkSystem (Some has_applied) (Acks.mkState (Some 9) [Acks.mkThread (Acks.Waiting 5) []] []))).
  { apply daemon_moves. by apply (Acks.step_returned (Acks.mkState (Some 9) [Acks.mkThread (Acks.Calling 5) []] []) 0 [] 5). }
  apply (runs_step _ [Acks.Tau] (mkSystem (Some has_applied) (Acks.mkState (Some 9) [Acks.mkThread (Acks.Exited 5) []] []))).
  { apply daemon_moves. by apply (Acks.step_exit (Acks.mkState (Some 9) [Acks.mkThread (Acks.Waiting 5) []] []) 0 [] 5 9). }
  apply (runs_step _ [Acks.Tau] (mkSystem (Some has_applied) (Acks.mkState (Some 9) [Acks.mkThread (Acks.Computed 4) []] []))).
  { apply daemon_moves. by apply (Acks.step_compute (Acks.mkState (Some 9) [Acks.mkThread (Acks.Exited 5) []] []) 0 [] 5 9). }
  apply (runs_step _ [Acks.Tau] system_end []); [|constructor].
  apply daemon_moves. by apply (Acks.step_reset (Acks.mkState (Some 9) [Acks.mkThread (Acks.Computed 4) []] []) 0 [] 4).
Qed.
Lemma runs_app (P : sys) ls P' ls' P'' : runs P ls P' -> runs P' ls' P'' -> runs P (ls ++ ls') P''.
Proof.
  intros H1 H2. induction H2 as [|ls1 P1 ls2 P2 H2 IH Hstep]; [by rewrite app_nil_r|].
  rewrite app_assoc. by econstructor.
Qed.
Lemma append_run : runs system0 labels system_end.
Proof. exact (runs_app _ _ _ _ _ forwarded (runs_app _ _ _ _ _ applied measured_run)). Qed.
End Appends.
Import Appends.


(** After the end of its thread a server acknowledges nothing. *)
Lemma ended_is_silent (P : sys) ls P' : runs P ls P' -> server P = None -> server P' = None /\ Acks.completions ls = [].
Proof.
  intros Hs Hn. induction Hs as [|ls P1 ls' P2 Hs [IHs IHc] Hstep]; [done|].
  unfold Acks.completions in *. rewrite omap_app, IHc.
  destruct Hstep as [i rs t value now s l d ok _ Es|ev now s l d ok _ Es|i rs t full _ _|l d Hl _]; [congruence..| |].
  - by destruct full.
  - split; [done|]. by destruct Hl as [->|[t ->]].
Qed.

(** A refused append ends the server: the election in which the follower loses
    its leader calls back with [LEADER_CHANGED] and no result, the callback cannot
    send it and raises, and the thread of the node ends.  The value is in no log,
    nothing is acknowledged, and the run of the daemon waits for ever: no step is
    possible any more. *)
Theorem refused_append_ends_server :
  effects (handle (R := Z) conf (Ticks (at_time 10)) has_forwarded) =
    [Send 1 (request_vote 2 1 0); Send 2 (request_vote 2 1 0); Callback 5 None LEADER_CHANGED] /\
  exists P : sys, runs system0 [Acks.Began 5; Acks.Tau] P /\ server P = None /\
    Acks.threads (daemon P) = [Acks.mkThread (Acks.Waiting 5) []] /\ forall ls P', moves P ls P' -> False.
Proof.
  split; [by vm_compute|].
  exists (mkSystem None (Acks.mkState None [Acks.mkThread (Acks.Waiting 5) []] [5])).
  split; [|split; [done|split; [done|]]].
  - refine (runs_app _ _ _ _ _ forwarded _). apply (runs_step _ [] (mkSystem None begun)).
    { by apply (node_moves _ _ (Ticks (at_time 10)) 9); [|vm_compute]. }
    apply (runs_step _ [Acks.Tau] (mkSystem None (Acks.mkState None [Acks.mkThread (Acks.Waiting 5) []] [5])) []); [|constructor].
    apply daemon_moves. by apply (Acks.step_returned begun 0 [] 5).
  - intros ls P' Hs. inversion Hs as [i rs t value now s l d ok Hi Es|ev now s l d ok _ Es|i rs t full Hi _|l d Hl Hd]; subst;
      [discriminate Es|discriminate Es|destruct i as [|i]; discriminate|].
    destruct Hl as [->|[t ->]]; inversion Hd as [|? i ? ? Hi|? i ? ? Hi|? i ? ? ? Hi|? i ? ? ? Hi|? i ? ? Hi|? i ? ? Hi|]; subst;
      destruct i as [|i]; cbn in *; discriminate.
Qed.
