(* ===== verification/AppendPaxos.v ===== *)
(** * Measured appends on Paxos

    The path of an append of the test daemon (test_daemon.py) through the server
    of a node (paxos/custom_server.py): [paxos_append] of messenger.py hands the
    value to the replicated value, whose [onUpdateCallback] acknowledges.  The
    callback knows the new value only: an acknowledgement is an update of the
    server ([acks_are_updates]), not the end of the daemon's append
    ([foreign_update_measured]). *)
From stdpp Require Import base gmap sets list strings relations.
From Stdlib Require Import ZArith QArith Lia.
From S2P Require Import Prelude ComposablePaxos ReplicatedValue Messenger SyncObjSends TestDaemon.
Local Open Scope Z_scope.

(** ** main *)
Inductive update_callback : Type := Forwards (test_daemon : string) | Noop.
Definition main_callback (argv : list string) : update_callback :=
  match argv with [_; _; d] => Forwards ("http://" +:+ d) | _ => Noop end.
Definition main_listens (argv : list string) : bool := Nat.eqb (length argv) 3.

(** The call of [cluster_append_complete] that the callback makes. *)
Definition onUpdateFunction {V} (now : Z) (new_current_value : option V) : option V * Z := (new_current_value, now).

(** [cluster_append_complete]: the value is not looked at. *)
Definition cluster_append_complete {V} (completed : option V * Z) (d : Acks.state) : Acks.state :=
  Acks.mkState (Some completed.2) (Acks.threads d) (Acks.outstanding d).

Section paxos.
Context {U V : Type} `{Countable U} `{PyOrder U} `{EqDecision V}.
#[local] Existing Instance CustomServer.methods.
Implicit Types s : t U V.
Implicit Types fx : list (effect U V).

(** ** The life of a server *)
Inductive event : Type :=
| Appends (value : V) (now : Q)                              (* the listener's append_entry *)
| Hears (rnd : Q) (from_uid : U) (m : wire U V)
| Retransmits
| Drives
| Syncs (peer : U).
Definition handle (ev : event) : M U V unit :=
  match ev with
  | Appends value now => paxos_append now value ;;! py_return tt
  | Hears rnd from_uid m => CustomServer.receive rnd from_uid m
  | Retransmits => CustomServer.retransmit
  | Drives => CustomServer.delayed_drive_fires
  | Syncs peer => Sync.sync peer
  end.
Fixpoint life (evs : list event) s : t U V * list (effect U V) :=
  match evs with
  | [] => (s, [])
  | ev :: evs => let x := handle ev s in let '(s', fx) := life evs (post x) in (s', effects x ++ fx)
  end.

(** ** What is acknowledged *)
Definition updates fx : list (option V) := omap (fun ef => match ef with OnUpdate v => Some v | Send _ _ => None end) fx.
(** Each update is an advance; the last one is the value. *)
Record advances s fx s' : Prop := {
  adv_number : instance_number s + Z.of_nat (length (updates fx)) <= instance_number s';
  adv_same : updates fx = [] -> instance_number s' = instance_number s;
  adv_value : current_value s' = default (current_value s) (last (updates fx));
}.

#[export] Instance advances_trace : TraceOrder advances.
Proof.
  split; [intros s; by split; cbn; [lia|..]|]. intros s es s' es' s'' [N1 E1 V1] [N2 E2 V2].
  assert (Eu : updates (es ++ es') = updates es ++ updates es') by apply omap_app.
  split; rewrite Eu.
  - rewrite length_app. lia.
  - intros [Ea Eb]%app_eq_nil. rewrite E2, E1 by done. done.
  - rewrite V2, V1, last_app. by destruct (last (updates es')).
Qed.

Definition same_value s s' : Prop := instance_number s' = instance_number s /\ current_value s' = current_value s.
Lemma advances_quiet s fx s' : updates fx = [] -> same_value s s' -> advances s fx s'.
Proof. intros Eu [Ei Ev]. split; rewrite Eu; cbn; [lia|done|done]. Qed.

Lemma broadcast_updates m s : updates (effects (Base.broadcast m s)) = [].
Proof. unfold Base.broadcast, effects, updates. cbn. induction (peers s) as [|u l IH]; [done|]. cbn. exact IH. Qed.
Lemma broadcast_advances m : does advances (Base.broadcast m).
Proof. intros s. by apply advances_quiet; [apply broadcast_updates|]. Qed.
Lemma set_advances f : (forall s, same_value s (f s)) -> does advances (py_set f).
Proof. intros Hf. apply does_set. intros s. by apply advances_quiet. Qed.
Lemma call_advances {B} (f : t U V -> t U V * outcome B) : (forall s, same_value s (f s).1) -> does advances (py_call f).
Proof. intros Hf. apply does_update. intros s. by apply advances_quiet. Qed.
Lemma send_advances u m : does advances (py_emit [Send u m]).
Proof. apply does_output. intros s. by apply advances_quiet. Qed.
#[local] Hint Resolve broadcast_advances send_advances : does.

Ltac quiet := try (by apply advances_quiet).
Lemma stop_driving_advances : does advances Backoff.stop_driving.
Proof.
  unfold Backoff.stop_driving, Backoff.cancel_delayed_drive. does_auto; quiet.
  destruct (delayed_drive s) as [d|]; [destruct (active d)|]; quiet.
Qed.
Lemma reschedule_advances dt : does advances (Backoff.reschedule_next_drive_attempt dt).
Proof.
  unfold Backoff.reschedule_next_drive_attempt, Backoff.cancel_delayed_drive. does_auto; quiet.
  destruct (delayed_drive s) as [d|]; [destruct (active d)|]; quiet.
Qed.
#[local] Hint Resolve stop_driving_advances reschedule_advances : does.
Lemma drive_advances : does advances Backoff.drive_to_resolution.
Proof.
  unfold Backoff.drive_to_resolution, Base.send_prepare. does_auto; quiet.
Qed.
#[local] Hint Resolve drive_advances : does.
Lemma propose_advances v : does advances (CustomServer.propose_update v).
Proof. unfold CustomServer.propose_update, Backoff.propose_update, Base.propose_update. does_auto; quiet. Qed.
Lemma sending_accept_advances pid v : does advances (self_send_accept pid v).
Proof. unfold self_send_accept. cbn. unfold Backoff.send_accept, Base.send_accept. does_auto; quiet. Qed.

(** An advance of the server is one update, to the new value. *)
Lemma advance_advances k v b s : instance_number s < k -> does_at advances (self_advance_instance k v b) s.
Proof.
  intros Hk. unfold self_advance_instance. cbn. unfold Backoff.advance_instance. apply does_at_bind; [typeclasses eauto| |].
  - unfold Base.advance_instance, Base.save_state, py_bind, py_set, py_emit. split; cbn; [lia|done|done].
  - intros [] _. match goal with |- does_at _ ?m ?x => apply (fun Hm : does advances m => Hm x) end. does_auto; quiet.
Qed.

Lemma receive_advances rnd from_uid m : does advances (CustomServer.receive rnd from_uid m).
Proof.
  destruct m as [k|k v|k pid p|k pid|k pid i v|k pid v|k pid v]; cbn.
  - unfold Sync.receive_sync_request. does_auto; quiet.
  - intros s. unfold Sync.receive_catchup. apply does_at_get; [typeclasses eauto|]. unfold id.
    destruct (Z.ltb_spec (instance_number s) k); [by apply advance_advances|apply does_ret; typeclasses eauto].
  - unfold Backoff.receive_nack, Base.receive_nack. does_auto; quiet.
    + destruct (PaxosInstance.receive_nack _ _ _ _). quiet.
    + destruct (_ <? _); quiet.
  - intros s. unfold Base.receive_prepare. apply does_at_get; [typeclasses eauto|]. unfold id.
    destruct (_ =? _); [|apply does_ret; typeclasses eauto]. destruct (PaxosInstance.receive_prepare _ _ _) as [p m].
    unfold does_at, Base.save_state. destruct m; by apply advances_quiet.
  - unfold Base.receive_promise. pose proof sending_accept_advances. does_auto.
    destruct (PaxosInstance.receive_promise _ _ _ _ _). quiet.
  - unfold Backoff.receive_accept. does_auto. intros s1. unfold Base.receive_accept. apply does_at_get; [typeclasses eauto|]. unfold id.
    destruct (_ =? _); [|apply does_ret; typeclasses eauto]. destruct (PaxosInstance.receive_accept _ _ _ _) as [p m].
    destruct m; try by apply advances_quiet.
    apply (advances_quiet s1); [|done]. unfold py_bind, py_set, Base.save_state, effects. cbn.
    apply (broadcast_updates (fun k => WAccepted k proposal_id proposal_value)).
  - intros s. unfold Base.receive_accepted. apply does_at_get; [typeclasses eauto|]. unfold id.
    destruct (_ =? _); [|apply does_ret; typeclasses eauto]. apply does_at_bind; [typeclasses eauto| |].
    + apply call_advances. intros s1.
      match goal with |- context [PaxosInstance.receive_accepted ?a ?b ?c ?d] => by destruct (PaxosInstance.receive_accepted a b c d) end.
    + intros r _. destruct r as [[]|]; try (apply does_ret; typeclasses eauto). apply advance_advances. unfold post, py_call.
      match goal with |- context [PaxosInstance.receive_accepted ?a ?b ?c ?d] => destruct (PaxosInstance.receive_accepted a b c d) end.
      cbn. lia.
Qed.

Lemma handle_advances ev : does advances (handle ev).
Proof.
  destruct ev; cbn.
  - unfold paxos_append. pose proof propose_advances. does_auto.
  - apply receive_advances.
  - unfold CustomServer.retransmit, CustomServer.fire, Base.send_prepare, Base.send_accept. does_auto.
  - unfold CustomServer.delayed_drive_fires. does_auto; quiet.
  - unfold Sync.sync. does_auto; quiet.
Qed.

(** C37: what the test daemon is told by a Paxos server, in any life of the
    server: every acknowledgement is an advance to a later instance, so there is
    at most one for each instance; without an acknowledgement instance and value
    stay, and the value last acknowledged is the server's value.  Nothing is said
    of the appends: an acknowledgement comes for every value, whoever proposed it. *)
Theorem acks_are_updates evs uid peers file s fx :
  life evs (Base.init uid peers file) = (s, fx) ->
  let s0 := Base.init uid peers file in
  Z.of_nat (length (updates fx)) <= instance_number s - instance_number s0 /\
  (updates fx = [] -> instance_number s = instance_number s0) /\
  current_value s = default (current_value s0) (last (updates fx)).
Proof.
  intros E s0. assert (Ha : advances s0 fx s).
  { subst s0. revert E. generalize (Base.init uid peers file) as s1. revert s fx.
    induction evs as [|ev evs IH]; intros s fx s1; cbn [life]; [intros [= <- <-]; apply trace_refl|].
    destruct (life evs (post (handle ev s1))) as [s2 fx2] eqn:E2. intros [= <- <-].
    eapply trace_app; [apply handle_advances|by apply IH]. }
  destruct Ha as [N E1 V1]. split; [lia|]. done.
Qed.

(** ** The system *)
Record system : Type := mkSystem { server : t U V; daemon : Acks.state }.
Fixpoint acknowledge_all fx (now : nat -> Z) (d : Acks.state) : Acks.state :=
  match fx with
  | [] => d
  | OnUpdate v :: fx => acknowledge_all fx now (cluster_append_complete (onUpdateFunction (now (length fx)) v) d)
  | Send _ _ :: fx => acknowledge_all fx now d
  end.
Inductive step (P : system) : system -> Prop :=
| step_append i rs tm value now : Acks.threads (daemon P) !! i = Some (Acks.mkThread Acks.Start rs) ->
    let x := paxos_append (inject_Z tm) value (server P) in
    step P (mkSystem (post x) (acknowledge_all (effects x) now
      (Acks.move i (Acks.mkThread (Acks.Calling tm) rs) (Acks.CLUSTER_ACK (daemon P)) (Acks.outstanding (daemon P) ++ [tm]) (daemon P))))
| step_node ev now : (forall v tm, ev <> Appends v tm) ->
    let x := handle ev (server P) in
    step P (mkSystem (post x) (acknowledge_all (effects x) now (daemon P)))
| step_daemon l d : l = Acks.Tau \/ (exists tm, l = Acks.Failed tm) -> Acks.step (daemon P) l d ->
    step P (mkSystem (server P) d).
End paxos.

(** ** Another server's value *)
Module ForeignUpdate.
Definition server0 : t Z string := Base.init 1 [1; 2; 3] None.
Definition waiting : t Z string := post (paxos_append (inject_Z 5) "value"%string server0).
Definition caught_up : t Z string := post (handle (Hears 0 2 (WCatchup 1 (Some "other"%string))) waiting).
Definition begun (pc : Acks.pc) (ack : option Z) (rs : list Z) : Acks.state :=
  Acks.mkState ack [Acks.mkThread pc rs] [5].
Definition system_end : system (U := Z) (V := string) := mkSystem caught_up (begun Acks.Start None [5]).

Lemma daemon_run_step (s : t Z string) d d' : Acks.step d Acks.Tau d' -> step (mkSystem s d) (mkSystem s d').
Proof. intros Hd. apply (step_daemon (mkSystem s d) Acks.Tau d'); [by left|exact Hd]. Qed.

Lemma foreign_run : rtc step (mkSystem server0 (Acks.init 1)) system_end.
Proof.
  eapply rtc_l; [apply (step_append (mkSystem server0 (Acks.init 1)) 0 [] 5 "value"%string (fun _ => 0)); reflexivity|].
  change (rtc step (mkSystem waiting (begun (Acks.Calling 5) None [])) system_end).
  eapply rtc_l; [apply daemon_run_step, (Acks.step_returned (begun (Acks.Calling 5) None []) 0 [] 5); reflexivity|].
  change (rtc step (mkSystem waiting (begun (Acks.Waiting 5) None [])) system_end).
  eapply rtc_l; [apply (step_node (mkSystem waiting (begun (Acks.Waiting 5) None []))
    (Hears 0 2 (WCatchup 1 (Some "other"%string))) (fun _ => 10)); discriminate|].
  change (rtc step (mkSystem caught_up (begun (Acks.Waiting 5) (Some 10) [])) system_end).
  eapply rtc_l; [apply daemon_run_step, (Acks.step_exit (begun (Acks.Waiting 5) (Some 10) []) 0 [] 5 10); reflexivity|].
  change (rtc step (mkSystem caught_up (begun (Acks.Exited 5) (Some 10) [])) system_end).
  eapply rtc_l; [apply daemon_run_step, (Acks.step_compute (begun (Acks.Exited 5) (Some 10) []) 0 [] 5 10); reflexivity|].
  change (rtc step (mkSystem caught_up (begun (Acks.Computed 5) (Some 10) [])) system_end).
  eapply rtc_l; [apply daemon_run_step, (Acks.step_reset (begun (Acks.Computed 5) (Some 10) []) 0 [] 5); reflexivity|].
  apply rtc_refl.
Qed.
End ForeignUpdate.

(** An append is measured although its value is gone: while it waits, the server
    catches up with a value that another one proposed, which acknowledges; the new
    instance has no proposal, and nobody will propose the value again. *)
Theorem foreign_update_measured : exists P : system (U := Z) (V := string),
  rtc step (mkSystem ForeignUpdate.server0 (Acks.init 1)) P /\
  Acks.threads (daemon P) = [Acks.mkThread Acks.Start [5]] /\ Acks.outstanding (daemon P) = [5] /\
  current_value (server P) = Some "other"%string /\
  Proposer.proposed_value (PaxosInstance.proposer (paxos (server P))) = None /\ retransmit_task (server P) = None.
Proof. exists ForeignUpdate.system_end. split; [apply ForeignUpdate.foreign_run|]. by vm_compute. Qed.

Lemma acks_are_updates_witness : let s0 := Base.init 1 [1; 2; 3] (None : option (saved Z string)) in
  let evs := [Appends "value"%string 5; Hears 0 2 (WCatchup 1 (Some "other"%string)); Hears 0 2 (WCatchup 4 (Some "later"%string))] in
  updates (life evs s0).2 = [Some "other"%string; Some "later"%string] /\
  current_value (life evs s0).1 = default (current_value s0) (last (updates (life evs s0).2)).
Proof.
  split; [reflexivity|].
  apply (acks_are_updates [Appends "value"%string 5; Hears 0 2 (WCatchup 1 (Some "other"%string)); Hears 0 2 (WCatchup 4 (Some "later"%string))]
    1 [1; 2; 3] None _ _ (surjective_pairing _)).
Defined.
