(* ===== verification/PaxosMain.v ===== *)
(** * main of paxos/custom_server.py, and the cluster of its servers

    What [main] makes of a configuration file, and that the servers of a
    provisioned cluster are the first world of PaxosSystem.v, whose packets are
    the datagrams that their messengers exchange ([paxos_cluster_starts]). *)
From stdpp Require Import base gmap sets list strings.
From Stdlib Require Import ZArith QArith Lia.
From S2P Require Import Prelude ComposablePaxos ReplicatedValue Messenger.
From S2P Require PaxosSystem.
From S2P Require Import Provisioner CustomServers AppendPaxos.
Local Open Scope Z_scope.

Section main.
Context {V : Type} `{EqDecision V}.
(** The address of a server: its host and port. *)
Abbreviation addr := (string * Z)%type.
(** The order in which Python walks a dictionary with these keys. *)
Context (keys : gmap Z addr -> list Z) (Hkeys : forall m, keys m ≡ₚ (map_to_list m).*1).

Record started : Type := mkStarted {
  replicated : ReplicatedValue.t Z V;
  messenger : Messenger (U := Z) (A := addr);
  callback : update_callback;
  listens : bool;
}.
Definition items (peers : gmap Z addr) : list (Z * addr) :=
  omap (fun u => (fun a => (u, a)) <$> peers !! u) (keys peers).
(** [file] is what the state file [state_file c] holds. *)
Definition main (argv : list string) (c : node_config) (file : option (saved Z V)) : started :=
  let peers := paxos_peers c in
  {| callback := main_callback argv;
     replicated := Base.init (c_host_id c) (keys peers) file;
     messenger := messenger_init (items peers);
     listens := main_listens argv |}.

(** ** Address books *)
Lemma items_lookup peers u : addr_of (messenger_init (items peers)) !! u = peers !! u.
Proof.
  unfold messenger_init. cbn. apply option_eq. intros a.
  rewrite <-elem_of_list_to_map.
  - unfold items. rewrite list_elem_of_omap. split.
    + intros (v & _ & (b & Hb & [= -> ->])%fmap_Some). done.
    + intros Hu. exists u. rewrite Hkeys, list_elem_of_fmap. split; [exists (u, a); by rewrite elem_of_map_to_list|by rewrite Hu].
  - assert (Hn : NoDup (keys peers)) by (rewrite Hkeys; apply NoDup_fst_map_to_list). unfold items.
    induction Hn as [|v l Hv _ IH]; cbn; [constructor|]. destruct (peers !! v); cbn; [|done]. constructor; [|done].
    rewrite list_elem_of_fmap. intros ([v' b] & -> & (v'' & Hv' & (c & Hc & [= -> ->])%fmap_Some)%list_elem_of_omap). done.
Qed.

(** Where addresses differ, each one leads back to its server. *)
Lemma uid_of_foldl (l : list (Z * addr)) (m : gmap addr Z) u a : NoDup l.*2 -> (u, a) ∈ l ->
  foldl (fun m ua => <[ua.2 := ua.1]> m) m l !! a = Some u.
Proof.
  revert m. induction l as [|[v b] l IH]; intros m Hn Hin; [by apply elem_of_nil in Hin|].
  cbn [fmap list_fmap] in Hn. apply NoDup_cons in Hn as [Hb Hn]. apply elem_of_cons in Hin as [[= -> ->]|Hin]; [|by apply IH].
  cbn [foldl fst snd]. assert (Hf : foldl (fun m ua => <[ua.2 := ua.1]> m) (<[b := v]> m) l !! b = (<[b := v]> m : gmap addr Z) !! b).
  { generalize (<[b := v]> m : gmap addr Z). revert Hb. clear. induction l as [|[w c] l IH]; intros Hb m; [done|].
    cbn [fmap list_fmap] in Hb. apply not_elem_of_cons in Hb as [Hne Hb]. cbn [foldl]. rewrite IH by done. by apply lookup_insert_ne. }
  rewrite Hf. apply lookup_insert_eq.
Qed.
Lemma items_permutation peers : items peers ≡ₚ map_to_list peers.
Proof.
  unfold items. rewrite (Hkeys peers). assert (Hin : forall u a, (u, a) ∈ map_to_list peers -> peers !! u = Some a)
    by (intros; by apply elem_of_map_to_list).
  induction (map_to_list peers) as [|[u a] l IH]; [done|]. cbn. rewrite (Hin u a) by (by left). cbn. constructor.
  apply IH. intros v b Hv. apply Hin. by right.
Qed.

(** ** The cluster *)
Context (set_order : gset string -> list string) (cluster : list node).
Context (mode : string) (additional_ports : option (list Z)) (argv : list string).
Context (Hids : NoDup (id <$> cluster)).
Abbreviation config n := (get_node_config set_order cluster n mode additional_ports).
Definition book : gmap Z addr := list_to_map ((fun p => (id p, (address p, port p))) <$> cluster).
Definition members : list Z := keys book.

Lemma members_ids : members ≡ₚ id <$> cluster.
Proof.
  unfold members. rewrite Hkeys. unfold book. rewrite map_to_list_to_map; rewrite <-list_fmap_compose; done.
Qed.
Lemma main_peers n : n ∈ cluster -> paxos_peers (config n) = book.
Proof. intros Hn. by apply paxos_membership_agrees. Qed.
Lemma book_lookup n : n ∈ cluster -> book !! id n = Some (address n, port n).
Proof.
  intros Hn. apply elem_of_list_to_map; [by rewrite <-list_fmap_compose|]. apply list_elem_of_fmap. by exists n.
Qed.
Lemma book_values : NoDup ((fun p => (address p, port p)) <$> cluster) -> NoDup (items book).*2.
Proof.
  intros Hn. rewrite items_permutation. unfold book. rewrite map_to_list_to_map; rewrite <-list_fmap_compose; done.
Qed.

Context `{JsonText} `{Jsonable V} `{!Jsonable Z}.
Context (odd_call : Z -> string -> gmap string argument -> M Z V unit) (text_value : string -> V).

(** C38: the Paxos servers that the configurations of one cluster start, without
    state files, are the servers of PaxosSystem.v in its first world, all with the
    same members; and when no two of them have the same address, a message that
    one of them sends to another arrives as the delivery of that model: at the
    address of the receiver, handled there as the very message, from its sender. *)
Theorem paxos_cluster_starts :
  PaxosSystem.nodes (PaxosSystem.initial members) =
    list_to_map ((fun n => (id n, replicated (main argv (config n) None))) <$> cluster) /\
  (NoDup ((fun p => (address p, port p)) <$> cluster) -> forall n m w rnd s, n ∈ cluster -> m ∈ cluster ->
    exists packet, _send (messenger (main argv (config n) None)) (id m) w = Ret (packet, (address m, port m)) /\
      datagramReceived odd_call text_value (messenger (main argv (config m) None)) rnd packet (address n, port n) s =
        PyExcept.py_try (CustomServer.receive rnd (id n) w) (py_return tt) s).
Proof.
  split.
  - cbn [PaxosSystem.nodes PaxosSystem.initial].
    assert (E : (fun n => (id n, replicated (main argv (config n) None))) <$> cluster =
      (fun u => (u, Base.init u members None)) <$> (id <$> cluster)).
    { rewrite <-list_fmap_compose. apply list_fmap_ext. intros i n Hn%list_elem_of_lookup_2. unfold compose, main. cbn [replicated]. by rewrite main_peers. }
    rewrite E. apply list_to_map_proper; [|by rewrite members_ids].
    rewrite <-list_fmap_compose. change (compose _ _) with (fun u : Z => u). rewrite list_fmap_id, members_ids. done.
  - intros Ha n m w rnd s Hn Hm. unfold _send, main. cbn [messenger].
    rewrite !main_peers by done. rewrite items_lookup, book_lookup by done. eexists. split; [reflexivity|].
    assert (Hu : uid_of (messenger_init (items book)) !! (address n, port n) = Some (id n)).
    { apply uid_of_foldl; [by apply book_values|]. rewrite items_permutation. apply elem_of_map_to_list. by apply book_lookup. }
    unfold datagramReceived, PyExcept.py_try.
    rewrite (dispatch_sent odd_call text_value (messenger_init (items book)) (messenger_init (items book)) (id m) (id n) w rnd _
      (address m, port m) (address n, port n) s); [done| |exact Hu].
    unfold _send. by rewrite items_lookup, book_lookup.
Qed.
End main.

(** ** Two servers on two machines *)
Definition key_order (m : gmap Z (string * Z)) : list Z := (map_to_list m).*1.
Definition pair_node (i : nat) : node := default (first_of remote_pair) (remote_pair !! i).
Definition pair_server (i : nat) : started (V := string) :=
  main key_order ["custom_server.py"; "node.json"] (get_node_config order_ remote_pair (pair_node i) "gce" None) None.

#[local] Existing Instance coded_json.
Lemma paxos_cluster_starts_witness :
  PaxosSystem.nodes (PaxosSystem.initial (V := string) (members key_order remote_pair)) =
    {[ 1 := replicated (pair_server 0); 2 := replicated (pair_server 1) ]} /\
  forall w, exists packet, _send (messenger (pair_server 0)) 2 w = Ret (packet, ("10.0.0.2", 12349)) /\
    datagramReceived Demo.odd (fun x => x) (messenger (pair_server 1)) 0%Q packet ("10.0.0.1", 12348) Demo.server =
      PyExcept.py_try (CustomServer.receive 0%Q 1 w) (py_return tt) Demo.server.
Proof.
  destruct (paxos_cluster_starts (V := string) key_order (fun _ => Permutation_refl _) order_ remote_pair "gce" None
    ["custom_server.py"; "node.json"] ltac:(by apply (bool_decide_unpack _)) Demo.odd (fun x => x)) as [Hs Hd].
  split; [rewrite Hs; reflexivity|]. intros w.
  apply (Hd ltac:(by apply (bool_decide_unpack _)) (pair_node 0) (pair_node 1) w 0%Q Demo.server); cbn; [left|right; left].
Defined.
