(* ===== verification/PsoMain.v ===== *)
(** * main of pysyncobj/custom_server.py, and the cluster of its servers

    What [main] makes of a configuration file, and that the servers of a cluster
    on one machine are the first world of SyncObjCluster.v
    ([pso_cluster_starts]); on several machines they are not, see
    [pso_remote_strangers] in CustomServers.v. *)
From stdpp Require Import base gmap sets list strings.
From Stdlib Require Import ZArith QArith Lia.
From S2P Require Import Prelude PyList PyStr PyText Serializer SyncObj Replicated.
From S2P Require SyncObjCluster.
From S2P Require Import Provisioner CustomServers AppendPso.
Local Open Scope Z_scope.

Section main.
Context {Val R : Type} `{Machine (Replicated.command Val) R test_obj} `{Codec (dump (Replicated.command Val) test_obj)}.
Abbreviation server := (SyncObj.t string (Replicated.command Val) test_obj Z).

Record started : Type := mkStarted { pso : server; callback : update_callback; listens : bool }.
(** [TestObjAutoTick(node, peers)]: no dump file is configured. *)
Definition main (argv : list string) (c : node_config) (e : env string) : started :=
  let obj := test_obj_init 0 None false in
  {| callback := main_callback argv;
     pso := SyncObj.init (cfg obj) (pso_node c) (pso_peers c) obj None e;
     listens := main_listens argv |}.

Context (set_order : gset string -> list string) (cluster : list node).
Context (mode : string) (additional_ports : option (list Z)) (argv : list string).
Abbreviation config n := (get_node_config set_order cluster n mode additional_ports).
Definition names : list string := name_of <$> cluster.

Lemma NoDup_same {B} (f : node -> B) l n m : NoDup (f <$> l) -> n ∈ l -> m ∈ l -> f n = f m -> n = m.
Proof.
  intros Hf [i Hi]%list_elem_of_lookup [j Hj]%list_elem_of_lookup E.
  assert (i = j) as -> by (eapply (NoDup_lookup (f <$> l) i j (f n)); [done|by rewrite list_lookup_fmap, Hi|by rewrite E, list_lookup_fmap, Hj]).
  congruence.
Qed.
Lemma name_of_inj n m : address n = address m -> name_of n = name_of m -> port n = port m.
Proof.
  unfold name_of. intros ->. generalize (address m). intros a E.
  induction a as [|x a IH]; [injection E as E; by apply py_str_inj|]. injection E as E. by apply IH.
Qed.

(** C39: the PySyncObj servers that the configurations of a cluster on one machine
    start are the nodes of SyncObjCluster.v in its first world, whatever their
    clocks say: each is named as the others name it, and its peers are the
    others; the theorems about that model are about these servers. *)
Theorem pso_cluster_starts (e : string -> env string) :
  NoDup (id <$> cluster) -> NoDup (port <$> cluster) -> (forall n, n ∈ cluster -> address n = "127.0.0.1") ->
  SyncObjCluster.members (SyncObjCluster.start (test_conf 0 None false) names (test_obj_init 0 None false) e) =
    list_to_map ((fun n => (name_of n, pso (main argv (config n) (e (name_of n))))) <$> cluster) /\
  SyncObj.fullDumpFile (test_conf 0 None false) = None.
Proof.
  intros Hids Hports Ha. split; [|done]. cbn [SyncObjCluster.members SyncObjCluster.start]. f_equal. unfold names at 2.
  rewrite <-list_fmap_compose. apply list_fmap_ext. intros i n Hn%list_elem_of_lookup_2. unfold compose, main. cbn [pso]. f_equal.
  assert (En : pso_node (config n) = name_of n) by (unfold pso_node, name_of; by rewrite (Ha n Hn)).
  assert (Ep : pso_peers (config n) = filter (fun v => v <> name_of n) names).
  { rewrite pso_peers_names. unfold names. assert (Hsub : forall p, p ∈ cluster -> (id p <> id n <-> name_of p <> name_of n)).
    { intros p Hp. split; intros Hne E; apply Hne; [|by rewrite (NoDup_same id cluster p n)].
      apply (name_of_inj p n) in E; [|by rewrite !Ha]. by rewrite (NoDup_same port cluster p n). }
    clear - Hsub. induction cluster as [|p l IH]; [done|]. rewrite fmap_cons, !filter_cons.
    specialize (IH (fun q Hq => Hsub q (list_elem_of_further q p l Hq))). specialize (Hsub p ltac:(by left)).
    destruct (decide (id p <> id n)), (decide (name_of p <> name_of n)); [|tauto..|done]. rewrite fmap_cons. by rewrite IH. }
  by rewrite En, Ep.
Qed.
End main.

(** ** Two servers on one machine *)
Module LocalPair.
#[export] Instance machine : Machine (Replicated.command Z) Z test_obj :=
  fun c o => match c with Replicated.WithArgs _ [v] => setValue v o | _ => (o, item o) end.
#[export] Instance no_codec : Codec (dump (Replicated.command Z) test_obj) :=
  {| mem_dump _ := []; mem_load _ := Raise UnpicklingError;
     gz_dump _ := []; gz_load _ := Raise UnpicklingError |}.
Definition clock (a : string) : env string := MkEnv 0 (1 # 2) (fun _ => false) 10 false 99 true true true true.
Definition config_at (i : nat) : node_config :=
  get_node_config order_ local_pair (default (first_of local_pair) (local_pair !! i)) "local" None.
Definition server_at (i : nat) (a : string) : started (Val := Z) := main ["custom_server.py"; "node.json"] (config_at i) (clock a).
End LocalPair.
Import LocalPair.

Lemma pso_cluster_starts_witness :
  SyncObjCluster.members (SyncObjCluster.start (C := Replicated.command Z) (F := Z) (test_conf 0 None false)
    ["127.0.0.1:12348"; "127.0.0.1:12349"] (test_obj_init 0 None false) clock) =
  list_to_map [("127.0.0.1:12348"%string, pso (server_at 0 "127.0.0.1:12348")); ("127.0.0.1:12349"%string, pso (server_at 1 "127.0.0.1:12349"))].
Proof.
  apply (pso_cluster_starts (Val := Z) order_ local_pair "local" None ["custom_server.py"; "node.json"] clock);
    [by apply (bool_decide_unpack _)..|].
  intros n Hn. unfold local_pair, two_nodes in Hn. rewrite !elem_of_cons in Hn. by destruct Hn as [->|[->|[]%elem_of_nil]].
Defined.
