(* ===== verification/Plots.v ===== *)
(** * The plots of the results (generate_plots.py)

    Each row of the results is a label and times; the drawing library is left
    out, so that a plot is the list of the curves handed to it.  Times are exact
    rationals where Python has floats; [py_float] reads one. *)
From stdpp Require Import base list strings.
From Stdlib Require Import ZArith QArith Lia Sorting.Sorted.
From S2P Require Import Prelude PyText.
Local Open Scope Z_scope.

Record curve (X : Type) : Type := mkCurve { label : string; xAxis : list X; yAxis : list Q }.
Arguments mkCurve {X} _ _ _.
Arguments label {X} _.
Arguments xAxis {X} _.
Arguments yAxis {X} _.

(** ** Sorting numbers *)
Fixpoint insert (x : Q) (l : list Q) : list Q :=
  match l with
  | [] => [x]
  | y :: l => if Qle_bool x y then x :: y :: l else y :: insert x l
  end.
(** [sorted] *)
Definition py_sorted (l : list Q) : list Q := foldr insert [] l.

(** ** The plots *)
Section plots.
Context (py_float : string -> option Q).

Fixpoint floats (raw : list string) : outcome (list Q) :=
  match raw with
  | [] => Ret []
  | s :: raw =>
      match py_float s with
      | None => Raise ValueError
      | Some x => match floats raw with Ret xs => Ret (x :: xs) | Raise e => Raise e end
      end
  end.

(** One row: [pop(0)] takes the label. *)
Definition raw_curve (row : list string) : outcome (curve Z) :=
  match row with
  | [] => Raise IndexError
  | label :: raw =>
      match floats raw with
      | Ret ys => Ret (mkCurve label (seqZ 0 (Z.of_nat (length raw))) ys)
      | Raise e => Raise e
      end
  end.

Definition distribution_curve (row : list string) : outcome (string * list Q) :=
  match row with
  | [] => Raise IndexError
  | label :: raw => match floats raw with Ret d => Ret (label, d) | Raise e => Raise e end
  end.

Definition steps (n : Z) : outcome (list Q) :=
  if n =? 0 then Raise ZeroDivisionError else Ret ((fun i => (inject_Z i / inject_Z n)%Q) <$> seqZ 0 (n + 1)).
Definition mass_curve (row : list string) : outcome (curve Q) :=
  match row with
  | [] => Raise IndexError
  | label :: raw =>
      match steps (Z.of_nat (length raw)) with
      | Raise e => Raise e
      | Ret ys =>
          match floats raw with
          | Ret xs => Ret (mkCurve label (0%Q :: py_sorted xs) ys)
          | Raise e => Raise e
          end
      end
  end.

(** The loops over the rows. *)
Fixpoint each {A B} (f : A -> outcome B) (test : list A) : outcome (list B) :=
  match test with
  | [] => Ret []
  | row :: test =>
      match f row with
      | Raise e => Raise e
      | Ret c => match each f test with Ret cs => Ret (c :: cs) | Raise e => Raise e end
      end
  end.
Definition generateRawPlot (test : list (list string)) : outcome (list (curve Z)) := each raw_curve test.
Definition generateDistributionPlot (test : list (list string)) : outcome (list (string * list Q)) :=
  each distribution_curve test.
Definition generateMassPlot (test : list (list string)) : outcome (list (curve Q)) := each mass_curve test.

(** ** main

    [read] is a result file as rows of fields, [None] if there is none. *)
Context (read : string -> option (list (list string))).

Inductive plot : Type :=
| RawPlot (cs : list (curve Z))
| DistributionPlot (cs : list (string * list Q))
| MassPlot (cs : list (curve Q)).
Inductive ending : Type := Saved (output_file : string) (p : plot) | Exit (code : Z).

(** The first file that is missing ends the reading. *)
Fixpoint read_series (result_csv : list string) : list (list string) :=
  match result_csv with
  | [] => []
  | f :: fs => match read f with None => [] | Some rows => rows ++ read_series fs end
  end.

(** The name of the graph's file; [None] when the program exits. *)
Definition output_name (result_csv : list string) (output_file_path : option string) : outcome (option string) :=
  let path := default "" output_file_path in
  if String.eqb path "" then
    if 1 <? Z.of_nat (length result_csv) then Ret None
    else match result_csv with [] => Raise IndexError | f :: _ => Ret (Some (f +:+ ".png")) end
  else Ret (Some path).

Definition generate (type : string) (test : list (list string)) : outcome plot :=
  if String.eqb type "raw" then
    match generateRawPlot test with Ret cs => Ret (RawPlot cs) | Raise e => Raise e end
  else if String.eqb type "distribution" then
    match generateDistributionPlot test with Ret cs => Ret (DistributionPlot cs) | Raise e => Raise e end
  else match generateMassPlot test with Ret cs => Ret (MassPlot cs) | Raise e => Raise e end.

Definition main (result_csv : list string) (type : string) (output_file_path : option string) : outcome ending :=
  let data_series := read_series result_csv in
  match output_name result_csv output_file_path with
  | Raise e => Raise e
  | Ret None => Ret (Exit 1)
  | Ret (Some output_file) =>
      match generate type data_series with
      | Raise e => Raise e
      | Ret p => Ret (Saved output_file p)
      end
  end.

(** ** Facts *)
Lemma insert_perm x l : insert x l ≡ₚ x :: l.
Proof.
  induction l as [|y l IH]; [done|]. cbn. destruct (Qle_bool x y); [done|]. rewrite IH. apply Permutation_swap.
Qed.
Lemma sorted_perm l : py_sorted l ≡ₚ l.
Proof. induction l as [|x l IH]; [done|]. cbn. by rewrite insert_perm, IH. Qed.
Lemma insert_sorted x l : StronglySorted Qle l -> StronglySorted Qle (insert x l).
Proof.
  induction 1 as [|y l Hl IH Hy]; cbn; [by repeat constructor|].
  destruct (Qle_bool x y) eqn:E.
  - apply Qle_bool_iff in E. constructor; [by constructor|]. constructor; [done|].
    eapply Forall_impl; [exact Hy|]. intros z Hz. by eapply Qle_trans.
  - constructor; [done|]. rewrite insert_perm. constructor; [|done].
    apply Qlt_le_weak, Qnot_le_lt. rewrite <-Qle_bool_iff, E. done.
Qed.
Lemma sorted_sorted l : StronglySorted Qle (py_sorted l).
Proof. induction l as [|x l IH]; [constructor|]. by apply insert_sorted. Qed.

(** How many values are below, and how many are not above. *)
Definition count_lt (x : Q) (l : list Q) : nat := length (filter (fun y => Qle_bool x y = false) l).
Definition count_le (x : Q) (l : list Q) : nat := length (filter (fun y => Qle_bool y x = true) l).

Lemma count_perm (P : Q -> Prop) `{forall x, Decision (P x)} l l' : l ≡ₚ l' ->
  length (filter P l) = length (filter P l').
Proof. by intros ->. Qed.
Lemma count_all (P : Q -> Prop) `{forall x, Decision (P x)} l : Forall P l -> length (filter P l) = length l.
Proof. induction 1 as [|x l Hx _ IH]; [done|]. rewrite filter_cons_True by done. cbn. by rewrite IH. Qed.
Lemma count_none (P : Q -> Prop) `{forall x, Decision (P x)} l : Forall (fun x => ~ P x) l -> length (filter P l) = 0%nat.
Proof. induction 1 as [|x l Hx _ IH]; [done|]. by rewrite filter_cons_False. Qed.

Lemma sorted_split l1 x l2 : StronglySorted Qle (l1 ++ x :: l2) ->
  Forall (fun y => (y <= x)%Q) l1 /\ Forall (fun y => (x <= y)%Q) l2.
Proof.
  induction l1 as [|y l1 IH]; cbn; intros Hs; apply StronglySorted_inv in Hs as [Hs Hy]; [done|].
  destruct (IH Hs) as [H1 H2]. split; [|done]. constructor; [|done].
  rewrite Forall_forall in Hy. apply Hy. apply elem_of_app. right. by left.
Qed.

(** The [k]th smallest value (from 0) has at most [k] below it and more than [k] not
    above it. *)
Lemma rank l k x : py_sorted l !! k = Some x -> (count_lt x l <= k)%nat /\ (k < count_le x l)%nat.
Proof.
  intros Hk. unfold count_lt, count_le.
  rewrite <-(count_perm _ _ _ (sorted_perm l)), <-(count_perm (fun y => Qle_bool y x = true) _ _ (sorted_perm l)).
  pose proof (sorted_sorted l) as Hs. rewrite <-(take_drop_middle _ _ _ Hk) in Hs |- *.
  assert (Hlen : length (take k (py_sorted l)) = k).
  { rewrite length_take. apply lookup_lt_Some in Hk. lia. }
  apply sorted_split in Hs as [H1 H2]. rewrite !filter_app, !length_app. split.
  - rewrite (count_none _ (x :: _)); [|constructor].
    + rewrite <-Hlen at 2. pose proof (length_filter (fun y => Qle_bool x y = false) (take k (py_sorted l))). lia.
    + rewrite (proj2 (Qle_bool_iff x x) (Qle_refl x)). done.
    + eapply Forall_impl; [exact H2|]. intros y Hy. by rewrite (proj2 (Qle_bool_iff x y) Hy).
  - rewrite count_all; [|eapply Forall_impl; [exact H1|]; intros y Hy; by apply Qle_bool_iff].
    rewrite filter_cons_True by (apply Qle_bool_iff, Qle_refl). cbn. lia.
Qed.

Lemma floats_length raw xs : floats raw = Ret xs -> length xs = length raw.
Proof.
  revert xs. induction raw as [|s raw IH]; intros xs; cbn; [by intros [= <-]|].
  destruct (py_float s); [|done]. destruct (floats raw); [|done]. intros [= <-]. cbn. f_equal. by apply IH.
Qed.

(** The mass plot of a row is the empirical distribution of its times: the
    curve starts in the origin, and its [k]th point of [n] is at height [k/n] and
    at a time that fewer than [k] of the times are below and at least [k] are not
    above. *)
Theorem mass_plot_distribution name raw c : mass_curve (name :: raw) = Ret c ->
  exists xs, floats raw = Ret xs /\ label c = name /\
    length (xAxis c) = S (length raw) /\ length (yAxis c) = S (length raw) /\
    head (xAxis c) = Some 0%Q /\ StronglySorted Qle (tail (xAxis c)) /\
    forall k, (1 <= k <= length raw)%nat -> exists x, xAxis c !! k = Some x /\
      yAxis c !! k = Some (inject_Z (Z.of_nat k) / inject_Z (Z.of_nat (length raw)))%Q /\
      (count_lt x xs < k)%nat /\ (k <= count_le x xs)%nat.
Proof.
  unfold mass_curve, steps. destruct (Z.eqb_spec (Z.of_nat (length raw)) 0) as [|Hn]; [done|].
  destruct (floats raw) as [xs|] eqn:Ef; [|done]. intros [= <-]. exists xs. cbn [label xAxis yAxis tail head].
  assert (Hlen : length (py_sorted xs) = length raw) by (by rewrite sorted_perm, (floats_length _ _ Ef)).
  split; [done|]. split; [done|]. cbn [length]. rewrite Hlen, length_fmap, length_seqZ.
  split; [done|]. split; [lia|]. split; [done|]. split; [apply sorted_sorted|]. intros [|k] Hk; [lia|].
  destruct (lookup_lt_is_Some_2 (py_sorted xs) k) as [x Hx]; [lia|]. exists x. cbn. split; [done|].
  rewrite list_lookup_fmap, (lookup_seqZ_lt 0 _ (S k)) by lia. split; [done|].
  destruct (rank _ _ _ Hx). lia.
Qed.

(** A row without times stops the whole plot: the first height is 0/0. *)
Theorem empty_row_fails name rows : generateMassPlot ([name] :: rows) = Raise ZeroDivisionError.
Proof. done. Qed.

(** ** What main saves *)
Lemma read_series_app fs f fs' : (forall g, g ∈ fs -> is_Some (read g)) -> read f = None ->
  read_series (fs ++ f :: fs') = mjoin (default [] ∘ read <$> fs).
Proof.
  intros Hfs Hf. induction fs as [|g fs IH]; cbn; [by rewrite Hf|].
  destruct (Hfs g) as [rows ->]; [by left|]. cbn. f_equal. apply IH. intros h Hh. apply Hfs. by right.
Qed.

(** A file that is missing does not stop the program: with an output file it
    saves the graph of the files before it, and those after it are left out. *)
Theorem missing_file_cuts fs f fs' type out : (forall g, g ∈ fs -> is_Some (read g)) -> read f = None -> out <> "" ->
  main (fs ++ f :: fs') type (Some out) =
  match generate type (mjoin (default [] ∘ read <$> fs)) with Ret p => Ret (Saved out p) | Raise e => Raise e end.
Proof.
  intros Hfs Hf Ho. unfold main, output_name. rewrite (read_series_app _ _ _ Hfs Hf).
  change (default "" (Some out)) with out. by destruct (String.eqb_spec out "").
Qed.

(** Two files or more need an output file. *)
Lemma many_files_exit f g fs type : main (f :: g :: fs) type None = Ret (Exit 1).
Proof. unfold main, output_name. cbn zeta. change (String.eqb (default "" None) "") with true. cbn iota. by destruct (Z.ltb_spec 1 (Z.of_nat (length (f :: g :: fs)))); [|cbn in *; lia]. Qed.
End plots.

(** Whole numbers. *)
Definition whole_float (s : string) : option Q :=
  match py_int3 s with Ret z => Some (inject_Z z) | Raise _ => None end.
Lemma missing_file_cuts_witness :
  let read f := if String.eqb f "a.csv" then Some [["paxos"; "5"]] else None in
  main whole_float read ["a.csv"; "b.csv"; "a.csv"] "raw" (Some "out.png") =
  Ret (Saved "out.png" (RawPlot [mkCurve "paxos" [0] [5%Q]])).
Proof.
  intros read. etrans; [apply (missing_file_cuts whole_float read ["a.csv"] "b.csv" ["a.csv"] "raw" "out.png")|reflexivity].
  - intros g ->%list_elem_of_singleton. by eexists.
  - reflexivity.
  - discriminate.
Defined.
Lemma mass_plot_distribution_witness : exists c xs, mass_curve whole_float ["paxos"; "5"; "2"; "5"; "1"] = Ret c /\
  floats whole_float ["5"; "2"; "5"; "1"] = Ret xs /\ xAxis c = [0; 1; 2; 5; 5]%Q /\
  exists x, xAxis c !! 3%nat = Some x /\ (count_lt x xs < 3)%nat /\ (3 <= count_le x xs)%nat.
Proof.
  destruct (mass_curve whole_float ["paxos"; "5"; "2"; "5"; "1"]) as [c|e] eqn:E; [|by vm_compute in E].
  destruct (mass_plot_distribution whole_float "paxos" ["5"; "2"; "5"; "1"] c E)
    as (xs & Hx & _ & _ & _ & _ & _ & Hk).
  destruct (Hk 3%nat ltac:(cbn; lia)) as (x & H1 & _ & H2 & H3). exists c, xs.
  split; [done|]. split; [done|]. split; [|by exists x]. vm_compute in E. by injection E as <-.
Defined.
